(* ===== verification/_CoqProject ===== *)
-Q . S2P
Prelude.v
Prog.v
BlockTypes.v
World.v
Footprint.v
Execute.v
ExecuteSpec.v
ValidationSpec.v
Commit.v
Parallel.v
Sequential.v
BlockExecutor.v
SequentialSpec.v
Agreement.v
CommitSpec.v
ParallelSpec.v
BlockExecutorSpec.v
Reference.v
BlockWitnesses.v
Machine.v
CommonTransactions.v
AccountUniverse.v
AccountUniverseSpec.v
UniverseWitnesses.v
Simulator.v
SimulatorSpec.v
BenchMain.v
BenchMainSpec.v
SimWitnesses.v
FileSystem.v
FakeExecutor.v
MoveSessions.v
FakeQueries.v
FakeExecutorSpec.v
FakeStateSpec.v
FakeOracle.v
FakeWitnesses.v
SuiTypes.v
SuiStore.v
SuiWorld.v
SuiAccounts.v
SuiGenerators.v
SuiNode.v
SuiConsensus.v
SuiContext.v
SuiBench.v
SuiCheckpointSpec.v
SuiAccountsSpec.v
SuiContextSpec.v
SuiJobsSpec.v
SuiPrepareSpec.v
SuiReportsSpec.v
SuiTxSpec.v
SuiRunSpec.v
SuiProgramSpec.v
SuiExecutionSpec.v
SuiConsensusSpec.v
SuiKittySpec.v
SuiErc20Spec.v
SuiMemorySpec.v
SuiLiveSpec.v
SuiOriginal.v
SuiOriginalSpec.v
SuiToy.v
SuiWitnesses.v
