(* ===== verification/Prelude.v ===== *)
(** Verification of the Rust benchmarks of the test suites.

    The repository measures parallel execution on several blockchains.  Its Rust
    code is the modified part of two node implementations:

    - Aptos, under [src/codes/aptos/modified]: the block executor (Block-STM),
      the test accounts and transactions, the fake executor of the end-to-end
      tests, and the simulator and commands that generate and measure workloads;
    - Sui, under [src/codes/sui/modified/sui-single-node-benchmark]: a benchmark
      of one validator, with the crate it was made from under
      [src/codes/sui/original].

    What the code calls outside the repository (virtual machines, versioned maps,
    the scheduler, validators, transaction builders, random numbers, clocks) is a
    class of operations in each part, and a second class of laws states the
    documented behaviour the theorems use.  Every group of laws has an executable
    instance in a file of witnesses, where the theorems are applied.

    * Block executor ([block-executor/src/executor.rs])

    [Prog] has programs whose atomic actions on a shared store interleave under a
    schedule, their runs alone and in a pool, and a weakest precondition under
    interference.  [BlockTypes] and [World] have the data, the interfaces of the
    shared objects with their laws, and the store of a block.  [Execute] has
    [execute], [validate], [update_transaction_on_abort] and
    [update_on_validation]; [Commit] the commit loop
    ([prepare_and_queue_commit_ready_txns]) and [materialize_txn_commit];
    [Parallel] the worker loop and [execute_transactions_parallel]; [Sequential]
    [apply_output_sequential] and [execute_transactions_sequential];
    [BlockExecutor] [new] and [execute_block].

    [Footprint], [ExecuteSpec] and [ValidationSpec] show that threads working on
    distinct transactions leave, under every interleaving, exactly the cells of
    their last incarnations (delayed fields included), that an execution which
    reports no new location has written none (no new tag of a resource group
    either), and what validation does on every branch.
    [CommitSpec] shows that transactions are queued and materialized in order,
    each once.  [ParallelSpec] shows that a parallel execution that returns has an
    output per transaction and otherwise reports an error.  [SequentialSpec] gives
    the outputs, hooks and writes of a sequential execution, operations of
    resource groups included, on errors too, and its termination.  [Agreement]
    shows that concurrent executions of all the transactions leave in the
    versioned maps what applying their outputs in order leaves in the sequential
    map, keys changed by deltas aside.  [BlockExecutorSpec] says which execution a
    block's outputs are from and which code a discarded block has.
    [Reference] is an executable instance of all the interfaces; [BlockWitnesses]
    has the witnesses.

    Loops whose end depends on the scheduler take fuel: the commit loop, the
    draining of the commit queue and the worker loop.  Running out of fuel is an
    outcome of its own ([NoFuel], [Diverged]), never a result: the theorems about
    them hold for every fuel and say what is true of the outcomes that are
    reached.  Sequential execution recurs on the block and needs no fuel
    ([sequential_terminates]).

    * Accounts and transfers ([e2e-tests/src/account_universe.rs],
      [account_universe/universe.rs], [account_universe/peer_to_peer.rs],
      [common_transactions.rs])

    [Machine] has single-threaded code that may panic, and machine integers with
    checked or wrapping arithmetic.  [CommonTransactions] builds the transactions;
    [AccountUniverse] has accounts, pickers, universes and transfers.
    [AccountUniverseSpec] shows that a limited picker respects its limit, that
    transfers conserve money up to the gas, that in every universe of
    [success_strategy] all transfers succeed, and that [log_balance_strategy]
    ends (its fuel of 65 doublings is enough for 64 bits).
    [UniverseWitnesses] has the witnesses.

    * Simulator and commands ([aptos-transaction-benchmarks/src/simulator.rs],
      [main.rs])

    [Simulator] has every workload and its measurement, [BenchMain] the commands.
    [SimulatorSpec] shows that every workload generates transactions with
    consecutive sequence numbers, and what is set up, executed, measured and
    returned whatever the executor answers: nothing is assumed of the virtual
    machine, so a failing block is a panic of the run.  [BenchMainSpec] shows what
    the commands print, that the parameter sweep refines a one-pass specification,
    that CSV files are read back, and what a replay averages.  [SimWitnesses] has
    the witnesses.

    * Fake executor ([e2e-tests/src/executor.rs])

    [FileSystem] has the files of traces, [FakeExecutor] the executor over them,
    [MoveSessions] its calls of Move functions, [FakeQueries] its reads, view
    functions, validation and profiled execution.  The virtual machine may panic
    on a block (an executor without fallback does).  [FakeExecutorSpec] shows the
    result or panic of each mode of execution, that tracing changes nothing but
    numbered trace files, what blocks with metadata do and that a running time is
    the middle of the measured durations.
    [FakeStateSpec] shows that the state is the history of the operations: a read
    finds the last change of its key, whatever blocks, calls and writes came before.
    [FakeOracle] discharges the interfaces of the account universe and of the
    simulator with the fake executor, and composes their theorems.
    [FakeWitnesses] has the witnesses.

    * Sui benchmark ([sui-single-node-benchmark/src])

    [SuiTypes] has objects, ordered maps and tasks: a set of spawned tasks runs in
    the order an arbitrary schedule chooses, each task as one step, and
    [arrange_complete] shows that every order is among them.  [SuiStore] is
    [mock_storage.rs]; [SuiWorld] the environment and the state of the program,
    with [csv.rs]; [SuiAccounts] is [mock_account.rs] with the options of
    [command.rs] and [workload.rs]; [SuiGenerators] the generators of
    [tx_generator]; [SuiNode] is [single_node.rs] with the loop of
    [mock_consensus.rs]; [SuiConsensus] is the consensus client as a system of a
    submitting side and a spawned task over a bounded channel; [SuiContext] is
    [benchmark_context.rs]; [SuiBench] has [create_tx_generator], the package
    publishing generator, [lib.rs] and the dispatch of [main.rs].

    [SuiAccountsSpec] and [SuiContextSpec] show that new accounts never share an
    object identifier and that refreshing gas objects updates exactly the
    references that changed.  [SuiJobsSpec] states what the validator promises
    (calls that a live coin of their sender pays for are executed) and shows that
    calls of distinct gas objects succeed in any order and make new objects; [SuiPrepareSpec] that the preparation of a workload succeeds, and
    leaves live references and objects that are distinct and owned by their users.
    [SuiTxSpec] gives the inputs of the transaction of an account from what the
    builders promise.  [SuiRunSpec] and [SuiErc20Spec] compose them: the
    transactions of a run are sent and signed by their users, use the objects of
    their user and number, all live, and no two of them own the same one.
    [SuiReportsSpec] shows that nothing is reported before a measurement.
    [SuiProgramSpec] has the programs of transactions over owned objects and what
    the validator promises about signing and executing them; [SuiExecutionSpec]
    shows that a run over owned objects completes, for the five components that
    sign or execute certificates, and reports its transactions once; [SuiKittySpec]
    that the first phase of the kitty run completes and its second phase starts, for
    every user, with the gene and the kitty that the user's own transaction left.
    [SuiConsensusSpec] shows that the consensus client refines a log under every
    interleaving: submissions are processed in order, each once, within the bound of
    the channel, and certificates of owned objects never stop it.
    [SuiMemorySpec] shows that transactions that do not conflict can be executed in
    memory in any order, [SuiCheckpointSpec] how transactions are cut into
    checkpoints; [SuiLiveSpec] that transactions of distinct owned objects do not
    conflict on the live object set, so that the measurement in memory and that of the
    checkpoint executor complete, and when the latter panics.  The live object set has
    what was committed to the database: that the objects, packages and dynamic fields
    of the certificates are there is a hypothesis ([available]).

    [SuiOriginal] is the crate before its changes ([src/codes/sui/original]), over
    the definitions of the parts that did not change; the directory of its manifest,
    with its Move package, is a parameter.  [SuiOriginalSpec] shows that the Rust code
    of the changed benchmark with its new options off does what the original does,
    on one Move package; the packages of the two crates are not compared.
    The two differ with several shared objects, of which a changed transaction uses
    one, and with shared objects whose transactions the original executes in order.

    [SuiToy] has an instance of the environment with all the promises,
    [SuiWitnesses] the witnesses.

    * Not modelled

    - Contracts and programs in other languages (Move, PREDA, Crystality, Go,
      Solidity), scripts and data files.
    - Command line parsing, logging, metrics, telemetry and the text that is
      printed; the numbers of a report are modelled.
    - Inside a Sui task, the interleaving with other tasks: a call of the validator
      is atomic, and so is the execution of one transaction in memory.
    - The interiors of what is outside the repository.
    - Whole runs of the execution-only and checkpoint components are not shown to
      complete: the package that a run publishes is not committed by the code, and
      whether it is in the live object set depends on the validator's cache; their
      measurements are covered.
    - Runs over shared objects are not shown to complete: the versions that
      consensus assigns and the contention of their executions are decided by the
      validator, outside the repository; their generation and the agreement with
      the original crate are covered.
    - The end of the breeding phase of the kitty run: the Move contract aborts for
      the largest gene, which is drawn at random.
    - The channel that hands checkpoints to their executor is the list of the
      checkpoints sent. *)
From stdpp Require Import base list gmap.

(** ** Results

    [Result<A, E>] of Rust. *)
Inductive result (E A : Type) : Type :=
| Ok (a : A)
| Err (e : E).
Arguments Ok {E A} a.
Arguments Err {E A} e.

Definition is_ok {E A} (r : result E A) : bool :=
  match r with Ok _ => true | Err _ => false end.

Definition map_err {E F A} (f : E -> F) (r : result E A) : result F A :=
  match r with Ok a => Ok a | Err e => Err (f e) end.

(** [n as u32] on a length or an index. *)
Definition as_u32 (n : nat) : nat := Z.to_nat (Z.of_nat n mod 2 ^ 32).

Lemma as_u32_small (n : nat) : (Z.of_nat n < 2 ^ 32)%Z -> as_u32 n = n.
Proof. intros H. unfold as_u32. rewrite Z.mod_small; lia. Qed.

(** ** Distinct images *)

Lemma NoDup_map_eq {A B} (f : A -> B) (l : list A) x y :
  NoDup (map f l) -> x ∈ l -> y ∈ l -> f x = f y -> x = y.
Proof.
  intros Hl [i Hi]%list_elem_of_lookup_1 [j Hj]%list_elem_of_lookup_1 Heq.
  assert (i = j) as ->; [|congruence]. eapply (NoDup_lookup (f <$> l) i j (f x)); [exact Hl|..].
  - by rewrite list_lookup_fmap, Hi.
  - rewrite list_lookup_fmap, Hj. cbn. congruence.
Qed.

(** ** Maps

    [iter.collect::<HashMap<_, _>>()]: a later entry for a key replaces an
    earlier one. *)
Definition ins_all `{Countable K} {A} (m : gmap K A) (l : list (K * A)) : gmap K A :=
  foldl (fun m kv => <[kv.1 := kv.2]> m) m l.
Definition collect_map `{Countable K} {A} (l : list (K * A)) : gmap K A := ins_all ∅ l.

Section collect_map.
Context `{Countable K} {A : Type}.
Implicit Types (l : list (K * A)) (m : gmap K A).

Lemma ins_all_app l1 l2 m : ins_all m (l1 ++ l2) = ins_all (ins_all m l1) l2.
Proof. apply foldl_app. Qed.

Lemma ins_all_union l m : ins_all m l = collect_map l ∪ m.
Proof.
  unfold collect_map. revert m. induction l as [|[k a] l IH] using rev_ind; intros m.
  - cbn. by rewrite (left_id_L ∅ (∪)).
  - rewrite !ins_all_app. cbn. rewrite IH. by rewrite insert_union_l.
Qed.

Lemma collect_map_snoc l k a : collect_map (l ++ [(k, a)]) = <[k := a]> (collect_map l).
Proof. unfold collect_map. by rewrite ins_all_app. Qed.

Lemma collect_map_lookup l k a : collect_map l !! k = Some a -> (k, a) ∈ l.
Proof.
  induction l as [|[k' a'] l IH] using rev_ind; [done|].
  rewrite collect_map_snoc, elem_of_app, lookup_insert. case_decide; set_solver.
Qed.

Lemma collect_map_is_Some l k : is_Some (collect_map l !! k) <-> k ∈ l.*1.
Proof.
  induction l as [|[k' a'] l IH] using rev_ind.
  - cbn. rewrite elem_of_nil. split; [intros [??]|]; done.
  - rewrite collect_map_snoc, fmap_app, elem_of_app, <-IH, lookup_insert. cbn.
    rewrite list_elem_of_singleton. case_decide; split; intros Hk; eauto.
    + destruct Hk as [?|?]; [done|congruence].
Qed.

Lemma collect_map_to_list l : NoDup l.*1 -> map_to_list (collect_map l) ≡ₚ l.
Proof.
  induction l as [|[k a] l IH] using rev_ind; [intros _; apply (reflexivity (R := (≡ₚ)))|].
  rewrite fmap_app. intros (Hl & Hk & _)%NoDup_app. rewrite collect_map_snoc.
  rewrite map_to_list_insert, IH; [by rewrite Permutation_app_comm|done|].
  apply eq_None_not_Some. rewrite collect_map_is_Some. intros Hin. apply (Hk _ Hin). by left.
Qed.

Lemma collect_map_elem l k a : NoDup l.*1 -> (k, a) ∈ l -> collect_map l !! k = Some a.
Proof. intros Hl Ha. by rewrite <-elem_of_map_to_list, collect_map_to_list. Qed.

Lemma collect_map_of_map m : collect_map (map_to_list m) = m.
Proof.
  apply map_eq. intros k. destruct (m !! k) as [a|] eqn:Hk.
  - apply collect_map_elem; [apply NoDup_fst_map_to_list|]. by apply elem_of_map_to_list.
  - apply eq_None_not_Some. intros [a Ha]. apply collect_map_lookup, elem_of_map_to_list in Ha.
    congruence.
Qed.

(** Distinct values stay distinct. *)
Lemma collect_map_values {B} (f : A -> B) l :
  NoDup (map (fun kv => f kv.2) l) -> NoDup (map (fun kv => f kv.2) (map_to_list (collect_map l))).
Proof.
  intros Hl. apply (NoDup_fmap_2_strong (fun kv : K * A => f kv.2)); [|apply NoDup_map_to_list].
  intros [k a] [k' a'] Hx%elem_of_map_to_list%collect_map_lookup Hy%elem_of_map_to_list%collect_map_lookup Heq.
  by apply (NoDup_map_eq (fun kv : K * A => f kv.2) l).
Qed.

(** Keys removed one after the other. *)
Lemma foldl_delete_lookup {B} (f : B -> K) (bs : list B) m k :
  foldl (fun m b => delete (f b) m) m bs !! k =
  if decide (k ∈ map f bs) then None else m !! k.
Proof.
  revert m. induction bs as [|b bs IH]; intros m; cbn.
  - rewrite decide_False; [done|apply not_elem_of_nil].
  - rewrite IH, lookup_delete. repeat case_decide; set_solver.
Qed.

(** Writing [e] over [m] and then deleting the keys of [bs], when these are
    the keys of [m] that [e] does not write, leaves exactly [e]. *)
Lemma union_delete_stale {B} (f : B -> K) (bs : list B) (e m : gmap K A) :
  (forall k, is_Some (m !! k) -> e !! k = None -> k ∈ map f bs) ->
  (forall k, k ∈ map f bs -> e !! k = None) ->
  foldl (fun m b => delete (f b) m) (e ∪ m) bs = e.
Proof.
  intros Hm Hbs. apply map_eq. intros k. rewrite foldl_delete_lookup.
  case_decide as Hk; [by rewrite Hbs|].
  destruct (e !! k) as [a|] eqn:Ha.
  - by rewrite (lookup_union_Some_l _ _ _ _ Ha).
  - rewrite lookup_union_r by done. apply eq_None_not_Some. intros Hs. by apply Hk, Hm.
Qed.

(** An idempotent update of the cells of several keys. *)
Lemma foldl_alter_lookup {B} (u : A -> A) (f : B -> K) (bs : list B) m k :
  (forall a, u (u a) = u a) ->
  foldl (fun m b => alter u (f b) m) m bs !! k =
  if decide (k ∈ map f bs) then u <$> m !! k else m !! k.
Proof.
  intros Hu. revert m. induction bs as [|b bs IH]; intros m; cbn.
  - rewrite decide_False; [done|apply not_elem_of_nil].
  - rewrite IH, lookup_alter. repeat case_decide; subst; try set_solver.
    destruct (m !! f b); cbn; by rewrite ?Hu.
Qed.

Lemma foldl_alter_all {B} (u : A -> A) (f : B -> K) (bs : list B) m :
  (forall a, u (u a) = u a) ->
  (forall k, is_Some (m !! k) -> k ∈ map f bs) ->
  foldl (fun m b => alter u (f b) m) m bs = u <$> m.
Proof.
  intros Hu Hm. apply map_eq. intros k. rewrite foldl_alter_lookup, lookup_fmap by done.
  case_decide as Hk; [done|]. destruct (m !! k) eqn:Hl; [|done].
  destruct Hk. apply Hm. by rewrite Hl.
Qed.

End collect_map.

Lemma collect_map_fmap `{Countable K} {A B} (f : A -> B) (l : list (K * A)) :
  collect_map (prod_map id f <$> l) = f <$> collect_map l.
Proof.
  induction l as [|[k a] l IH] using rev_ind; [symmetry; apply fmap_empty|].
  rewrite fmap_app. change (prod_map id f <$> [(k, a)]) with [(k, f a)].
  by rewrite !collect_map_snoc, IH, fmap_insert.
Qed.

(** ** Lists *)

Lemma elem_of_map {A B} (f : A -> B) (l : list A) (x : B) :
  x ∈ map f l <-> exists y, x = f y /\ y ∈ l.
Proof. exact (list_elem_of_fmap f l x). Qed.

Lemma elem_of_map_1 {A B} (f : A -> B) (l : list A) (y : A) : y ∈ l -> f y ∈ map f l.
Proof. intros. apply elem_of_map. eauto. Qed.

Lemma map_lookup_Some {A B} (f : A -> B) (l : list A) (n : nat) (a : A) :
  l !! n = Some a -> map f l !! n = Some (f a).
Proof. intros H. change (map f l) with (f <$> l). by rewrite list_lookup_fmap, H. Qed.

Lemma map_lookup_Some_1 {A B} (f : A -> B) (l : list A) (n : nat) (b : B) :
  map f l !! n = Some b -> exists a, b = f a /\ l !! n = Some a.
Proof.
  change (map f l) with (f <$> l). rewrite list_lookup_fmap.
  destruct (l !! n) as [a|]; cbn; [|done]. intros [= <-]. eauto.
Qed.

Lemma map_fst_map {A B K} (f : A -> K * B) (l : list A) :
  (map f l).*1 = map (fun a => (f a).1) l.
Proof. exact (map_map f fst l). Qed.

Lemma bind_singleton {A B} (f : A -> B) (l : list A) : l ≫= (fun a => [f a]) = map f l.
Proof. induction l as [|a l IH]; [done|]. cbn. by rewrite <-IH. Qed.

(** A relation that is injective maps distinct items to distinct items. *)
Lemma NoDup_Forall2 {A B} (R : A -> B -> Prop) (l : list A) (k : list B) :
  (forall x x' y, x ∈ l -> x' ∈ l -> R x y -> R x' y -> x = x') ->
  Forall2 R l k -> NoDup l -> NoDup k.
Proof.
  intros Hinj HR Hl. apply NoDup_alt. intros i j y Hi Hj.
  destruct (Forall2_lookup_r _ _ _ _ _ HR Hi) as (x & Hx & HRx).
  destruct (Forall2_lookup_r _ _ _ _ _ HR Hj) as (x' & Hx' & HRx').
  eapply NoDup_lookup; [exact Hl|exact Hx|]. rewrite Hx'. f_equal. symmetry.
  eapply Hinj; eauto using list_elem_of_lookup_2.
Qed.

Lemma bind_nil {A B} (l : list A) : l ≫= (fun _ => []) = @nil B.
Proof. by induction l. Qed.

(** ** Tactics *)

(** Turns membership in appended and mapped lists into disjunctions. *)
Ltac unlist :=
  repeat first
    [ setoid_rewrite elem_of_app | setoid_rewrite elem_of_map
    | setoid_rewrite elem_of_cons | setoid_rewrite elem_of_nil ].
Ltac unlist_in H :=
  repeat first
    [ setoid_rewrite elem_of_app in H | setoid_rewrite elem_of_map in H
    | setoid_rewrite elem_of_cons in H | setoid_rewrite elem_of_nil in H ].


(** Case analysis on the innermost scrutinee of a [match] of the goal. *)
Ltac case_inner t :=
  match t with
  | context [ match ?x with _ => _ end ] => case_inner x
  | _ => destruct t eqn:?
  end.
Ltac case_goal :=
  match goal with
  | |- context [ match ?x with _ => _ end ] => case_inner x
  end.
