(* ===== verification/Prog.v ===== *)
(** Programs over a shared store.

    The Rust code of the block executor runs on several threads that share
    the versioned cache, the scheduler and the per-transaction records.  A
    call to one of these objects is atomic; the code between two calls is
    local.  [prog W A] is a program that performs atomic actions on a store
    of type [W] one after the other and then returns a value of type [A],
    panics ([Crash]), or has used up the fuel of a loop ([NoFuel]).

    The same program is given three readings:
    - [run]: it runs alone, as a state-passing function;
    - [run_schedule]: it is one thread of a pool, and a schedule (the list of
      the threads that move next) interleaves the atomic actions;
    - [wp R p Q w]: a weakest precondition under interference: [Q] holds of
      the outcome of [p] started in [w] when the environment may make any
      number of [R] steps between two actions of [p].

    [wp_run] and [wp_pool] relate the last reading to the first two. *)
From stdpp Require Import base list relations.
From S2P Require Import Prelude.

Inductive prog (W A : Type) : Type :=
| Ret (a : A)
| Act (X : Type) (f : W -> X * W) (k : X -> prog W A)
| Crash
| NoFuel.
Arguments Ret {W A} a.
Arguments Act {W A X} f k.
Arguments Crash {W A}.
Arguments NoFuel {W A}.

Inductive outcome (A : Type) : Type :=
| Done (a : A)
| Panicked
| Diverged.
Arguments Done {A} a.
Arguments Panicked {A}.
Arguments Diverged {A}.

Fixpoint bind {W A B} (p : prog W A) (k : A -> prog W B) : prog W B :=
  match p with
  | Ret a => k a
  | Act f h => Act f (fun x => bind (h x) k)
  | Crash => Crash
  | NoFuel => NoFuel
  end.

(** One atomic action. *)
Definition act {W X} (f : W -> X * W) : prog W X := Act f Ret.
(** A read of the store, and an update of it. *)
Definition asks {W X} (f : W -> X) : prog W X := act (fun w => (f w, w)).
Definition update {W} (f : W -> W) : prog W unit := act (fun w => (tt, f w)).

(** [progR W E A]: a function that returns [Result<A, E>]; [bindR] is [?]. *)
Definition progR (W E A : Type) : Type := prog W (result E A).

Definition bindR {W E A B} (p : progR W E A) (k : A -> progR W E B) : progR W E B :=
  bind p (fun r => match r with Ok a => k a | Err e => Ret (Err e) end).

Definition liftR {W E A} (p : prog W A) : progR W E A := bind p (fun a => Ret (Ok a)).

Definition mapE {W E F A} (f : E -> F) (p : progR W E A) : progR W F A :=
  bind p (fun r => Ret (map_err f r)).

Declare Scope prog_scope.
Delimit Scope prog_scope with prog.
Notation "'let!' x := p 'in' q" := (bind p (fun x => q))
  (at level 10, x pattern, q at level 200,
   format "'let!'  x  :=  p  'in' '//' q") : prog_scope.
Notation "'let?' x := p 'in' q" := (bindR p (fun x => q))
  (at level 10, x pattern, q at level 200,
   format "'let?'  x  :=  p  'in' '//' q") : prog_scope.
Open Scope prog_scope.

(** [.expect(..)] / [.unwrap()] on an option. *)
Definition expect {W A} (o : option A) : prog W A :=
  match o with Some a => Ret a | None => Crash end.

(** [assert!(b)]. *)
Definition assert_ {W} (b : bool) : prog W unit := if b then Ret tt else Crash.

(** [for x in l { .. }] with the mutable locals [s] of the loop body. *)
Fixpoint foldP {W S X} (body : S -> X -> prog W S) (s : S) (l : list X) : prog W S :=
  match l with
  | [] => Ret s
  | x :: l => let! s' := body s x in foldP body s' l
  end.

(** The same loop with a body that may return early with an error. *)
Fixpoint foldR {W E S X} (body : S -> X -> progR W E S) (s : S) (l : list X)
    : progR W E S :=
  match l with
  | [] => Ret (Ok s)
  | x :: l => let? s' := body s x in foldR body s' l
  end.

(** ** Running alone *)

Fixpoint run {W A} (p : prog W A) (w : W) : outcome A * W :=
  match p with
  | Ret a => (Done a, w)
  | Act f k => let '(x, w') := f w in run (k x) w'
  | Crash => (Panicked, w)
  | NoFuel => (Diverged, w)
  end.

Lemma run_bind {W A B} (p : prog W A) (k : A -> prog W B) (w : W) :
  run (bind p k) w =
  match run p w with
  | (Done a, w') => run (k a) w'
  | (Panicked, w') => (Panicked, w')
  | (Diverged, w') => (Diverged, w')
  end.
Proof.
  revert w. induction p as [a|X f h IH| |]; intros w; cbn; try done.
  destruct (f w) as [x w']. apply IH.
Qed.

(** ** Weakest preconditions under interference *)

Fixpoint wp {W A} (R : relation W) (p : prog W A) (Q : outcome A -> W -> Prop)
    (w : W) : Prop :=
  forall w', rtc R w w' ->
  match p with
  | Ret a => Q (Done a) w'
  | Act f k => wp R (k (fst (f w'))) Q (snd (f w'))
  | Crash => Q Panicked w'
  | NoFuel => Q Diverged w'
  end.

(** The postcondition of the first part of a sequence. *)
Definition and_then {W A B} (R : relation W) (k : A -> prog W B)
    (Q : outcome B -> W -> Prop) (o : outcome A) (w : W) : Prop :=
  match o with
  | Done a => wp R (k a) Q w
  | Panicked => Q Panicked w
  | Diverged => Q Diverged w
  end.

Section wp_rules.
Context {W : Type} (R : relation W).

Lemma wp_mono {A} (p : prog W A) (Q Q' : outcome A -> W -> Prop) w :
  (forall o w, Q o w -> Q' o w) -> wp R p Q w -> wp R p Q' w.
Proof.
  intros HQ. revert w. induction p; intros w Hp w' Hw; cbn in *; eauto.
Qed.

Lemma wp_trivial {A} (p : prog W A) (Q : outcome A -> W -> Prop) w :
  (forall o w', Q o w') -> wp R p Q w.
Proof. intros HQ. revert w. induction p; intros w w' Hw; cbn in *; auto. Qed.

Lemma wp_ret {A} (a : A) (Q : outcome A -> W -> Prop) w :
  (forall w', rtc R w w' -> Q (Done a) w') -> wp R (Ret a) Q w.
Proof. done. Qed.

(** The environment may already have moved when a program starts. *)
Lemma wp_pre {A} (p : prog W A) (Q : outcome A -> W -> Prop) w :
  (forall w', rtc R w w' -> wp R p Q w') -> wp R p Q w.
Proof.
  intros H. destruct p; intros w' Hw; specialize (H w' Hw); cbn in H; by apply H.
Qed.

Lemma wp_stable {A} (p : prog W A) (Q : outcome A -> W -> Prop) w w' :
  wp R p Q w -> rtc R w w' -> wp R p Q w'.
Proof.
  intros H Hw. destruct p; intros w'' Hw'; cbn in H; apply H; by etrans.
Qed.

Lemma wp_bind {A B} (p : prog W A) (k : A -> prog W B) Q w :
  wp R p (and_then R k Q) w -> wp R (bind p k) Q w.
Proof.
  revert w. induction p as [a|X f h IH| |]; intros w Hp; cbn in *; auto.
  apply wp_pre. intros w' Hw. apply (Hp w' Hw).
Qed.

Lemma wp_act {X} (f : W -> X * W) (Q : outcome X -> W -> Prop) w :
  (forall w' w'', rtc R w w' -> rtc R (snd (f w')) w'' -> Q (Done (fst (f w'))) w'') ->
  wp R (act f) Q w.
Proof. intros H w' Hw w'' Hw'. cbn. by apply H. Qed.

(** Loop rules: an invariant of the locals and of the store that the
    environment does not break. *)
Lemma wp_foldP {S X} (I : S -> list X -> W -> Prop)
    (body : S -> X -> prog W S) (Q : outcome S -> W -> Prop) (l : list X) s w :
  (forall s l w w', I s l w -> rtc R w w' -> I s l w') ->
  (forall s x l w, I s (x :: l) w ->
     wp R (body s x) (fun o w' => match o with
                                  | Done s' => I s' l w'
                                  | o => Q o w'
                                  end) w) ->
  (forall s w, I s [] w -> Q (Done s) w) ->
  I s l w ->
  wp R (foldP body s l) Q w.
Proof.
  intros Hstable Hbody HQ. revert s w.
  induction l as [|x l IH]; intros s w HI; cbn [foldP].
  - apply wp_ret. eauto.
  - apply wp_bind. eapply wp_mono; [|by apply Hbody].
    intros [s'| |] w'; cbn; eauto.
Qed.

Lemma wp_foldR {E S X} (I : S -> list X -> W -> Prop)
    (body : S -> X -> progR W E S) (Q : outcome (result E S) -> W -> Prop)
    (l : list X) s w :
  (forall s l w w', I s l w -> rtc R w w' -> I s l w') ->
  (forall e w w', Q (Done (Err e)) w -> rtc R w w' -> Q (Done (Err e)) w') ->
  (forall s x l w, I s (x :: l) w ->
     wp R (body s x) (fun o w' => match o with
                                  | Done (Ok s') => I s' l w'
                                  | o => Q o w'
                                  end) w) ->
  (forall s w, I s [] w -> Q (Done (Ok s)) w) ->
  I s l w ->
  wp R (foldR body s l) Q w.
Proof.
  intros Hstable HE Hbody HQ. revert s w.
  induction l as [|x l IH]; intros s w HI; cbn [foldR].
  - apply wp_ret. eauto.
  - apply wp_bind. eapply wp_mono; [|by apply Hbody].
    intros [[s'|e]| |] w'; cbn; eauto.
Qed.

End wp_rules.

(** ** Threads and schedules *)

Definition pool (W A : Type) : Type := list (prog W A) * W.

(** Thread [i] performs its next atomic action. *)
Definition pool_step {W A} (tw : pool W A) (i : nat) : pool W A :=
  match fst tw !! i with
  | Some (Act f k) => let '(x, w') := f (snd tw) in (<[i := k x]> (fst tw), w')
  | _ => tw
  end.

Definition run_schedule {W A} (tw : pool W A) (sched : list nat) : pool W A :=
  foldl pool_step tw sched.

Lemma run_schedule_length {W A} (tw : pool W A) schedule :
  length (fst (run_schedule tw schedule)) = length (fst tw).
Proof.
  revert tw. induction schedule as [|j sch IH]; intros [ps w]; [done|].
  etrans; [apply (IH (pool_step (ps, w) j))|]. unfold pool_step; cbn. destruct (ps !! j) as [[]|]; try done.
  destruct (f w). cbn. by rewrite length_insert.
Qed.

(** Every atomic action of [p], from any store, is a [G] step. *)
Fixpoint guar {W A} (G : relation W) (p : prog W A) : Prop :=
  match p with
  | Act f k => forall w, G w (snd (f w)) /\ guar G (k (fst (f w)))
  | _ => True
  end.

Lemma guar_mono {W A} (G G' : relation W) (p : prog W A) :
  (forall w w', G w w' -> G' w w') -> guar G p -> guar G' p.
Proof.
  intros HG. induction p as [|X f k IH| |]; cbn; auto.
  intros Hp w. destruct (Hp w). auto.
Qed.

Lemma guar_bind {W A B} (G : relation W) (p : prog W A) (k : A -> prog W B) :
  guar G p -> (forall a, guar G (k a)) -> guar G (bind p k).
Proof.
  intros Hp Hk. induction p as [|X f h IH| |]; cbn in *; auto.
  intros w. destruct (Hp w). auto.
Qed.

Lemma guar_bindR {W E A B} (G : relation W) (p : progR W E A) (k : A -> progR W E B) :
  guar G p -> (forall a, guar G (k a)) -> guar G (bindR p k).
Proof. intros Hp Hk. apply guar_bind; [done|]. intros [a|e]; cbn; auto. Qed.

Lemma guar_act {W X} (G : relation W) (f : W -> X * W) :
  (forall w, G w (snd (f w))) -> guar G (act f).
Proof. cbn. auto. Qed.

Lemma guar_asks {W X} (G : relation W) `{!Reflexive G} (f : W -> X) : guar G (asks f).
Proof. cbn. auto. Qed.

Lemma guar_foldP {W S X} (G : relation W) (body : S -> X -> prog W S) (l : list X) :
  (forall s x, guar G (body s x)) -> forall s, guar G (foldP body s l).
Proof.
  intros Hb. induction l as [|x l IH]; intros s; cbn [foldP]; [done|].
  apply guar_bind; auto.
Qed.

Lemma guar_foldR {W E S X} (G : relation W) (body : S -> X -> progR W E S) (l : list X) :
  (forall s x, guar G (body s x)) -> forall s, guar G (foldR body s l).
Proof.
  intros Hb. induction l as [|x l IH]; intros s; cbn [foldR]; [done|].
  apply guar_bindR; auto.
Qed.

Lemma guar_expect {W A} (G : relation W) (o : option A) : guar G (expect o).
Proof. by destruct o. Qed.

Lemma guar_assert {W} (G : relation W) (b : bool) : guar G (assert_ b).
Proof. by destruct b. Qed.

Create HintDb guar discriminated.
#[export] Hint Resolve guar_bind guar_bindR guar_foldP guar_foldR guar_asks
  guar_expect guar_assert : guar.
#[export] Hint Extern 1 (guar _ (Ret _)) => exact I : guar.
#[export] Hint Extern 1 (guar _ Crash) => exact I : guar.
#[export] Hint Extern 1 (guar _ NoFuel) => exact I : guar.

Section schedules.
Context {W A : Type} (R : relation W).
Implicit Types (ps : list (prog W A)) (w : W).

Lemma pool_step_other ps w j :
  (forall q, ps !! j = Some q -> guar R q) ->
  let tw := pool_step (ps, w) j in
  rtc R w (snd tw) /\
  (forall i, i <> j -> fst tw !! i = ps !! i) /\
  (forall q, fst tw !! j = Some q -> guar R q).
Proof.
  intros Hg. unfold pool_step; cbn.
  destruct (ps !! j) as [[a|X f k| |]|] eqn:Hj; cbn;
    try (rewrite Hj; split_and!; [done|done|naive_solver]).
  destruct (Hg _ eq_refl w) as [HR Hk].
  destruct (f w) as [x w'] eqn:Hf; cbn in *. split_and!.
  - by apply rtc_once.
  - intros i Hne. by apply list_lookup_insert_ne.
  - intros q. rewrite list_lookup_insert_eq by (by eapply lookup_lt_Some).
    naive_solver.
Qed.

(** Guarantees compose: if every action of every thread is an [R] step, any
    schedule takes the store through [R] steps. *)
Lemma guar_schedule ps w sched :
  (forall i q, ps !! i = Some q -> guar R q) ->
  rtc R w (snd (run_schedule (ps, w) sched)).
Proof.
  revert ps w. induction sched as [|j sched IH]; intros ps w Hg; [done|].
  unfold run_schedule; cbn [foldl].
  destruct (pool_step_other ps w j (Hg j)) as (Hw & Hne & Hj).
  destruct (pool_step (ps, w) j) as [ps' w'] eqn:Hs; cbn in *.
  etrans; [exact Hw|]. apply IH. intros i q Hi.
  destruct (decide (i = j)) as [->|]; [auto|].
  rewrite Hne in Hi by done. eauto.
Qed.

(** Soundness of [wp] under interleaving: when the actions of all the other
    threads are [R] steps, whatever the schedule, if thread [i] has finished,
    its postcondition holds. *)
Lemma wp_pool ps w i p sched (Q : outcome A -> W -> Prop) :
  ps !! i = Some p ->
  wp R p Q w ->
  (forall j q, j <> i -> ps !! j = Some q -> guar R q) ->
  let tw := run_schedule (ps, w) sched in
  match fst tw !! i with
  | Some (Ret a) => Q (Done a) (snd tw)
  | Some Crash => Q Panicked (snd tw)
  | Some NoFuel => Q Diverged (snd tw)
  | _ => True
  end.
Proof.
  revert ps w p. induction sched as [|j sched IH]; intros ps w p Hi Hp Hg.
  - cbn. rewrite Hi. destruct p; cbn in Hp |- *; auto using rtc_refl.
  - unfold run_schedule; cbn [foldl]. destruct (decide (j = i)) as [->|Hne].
    + assert (Hs : pool_step (ps, w) i = match p with Act f k =>
        let '(x, w') := f w in (<[i := k x]> ps, w') | _ => (ps, w) end).
      { unfold pool_step; cbn. rewrite Hi. by destruct p. }
      rewrite Hs. destruct p as [a|X f k| |]; try (by apply (IH _ _ _ Hi Hp)).
      pose proof (Hp w (rtc_refl _ _)) as Hp1. destruct (f w) as [x w'] eqn:Hf. cbn in Hp1. rewrite Hf in Hp1.
      apply (IH _ _ (k x)); [|done|].
      * apply list_lookup_insert_eq. by eapply lookup_lt_Some.
      * intros j' q Hj'. rewrite list_lookup_insert_ne by done. eauto.
    + destruct (pool_step_other ps w j (fun q => Hg j q Hne)) as (Hw & Hot & Hj).
      destruct (pool_step (ps, w) j) as [ps' w'] eqn:Hs; cbn in *.
      apply (IH _ _ p); [by rewrite Hot|by eapply wp_stable|].
      intros j' q Hj' Hq. destruct (decide (j' = j)) as [->|]; [auto|].
      rewrite Hot in Hq by done. eauto.
Qed.

End schedules.

(** A program that tolerates interference may run without any. *)
Lemma wp_alone {W A} (R : relation W) (p : prog W A) (Q : outcome A -> W -> Prop) w :
  wp R p Q w -> Q (fst (run p w)) (snd (run p w)).
Proof.
  revert w. induction p as [a|X f k IH| |]; intros w H;
    specialize (H w (rtc_refl _ _)); cbn in *; try done.
  specialize (IH _ _ H). by destruct (f w).
Qed.

(** Without interference, [wp] is about [run]. *)
Lemma wp_run {W A} (p : prog W A) (Q : outcome A -> W -> Prop) w :
  wp (fun _ _ => False) p Q w <-> Q (fst (run p w)) (snd (run p w)).
Proof.
  assert (Hrtc : forall w w' : W, rtc (fun _ _ => False) w w' -> w = w')
    by (intros ?? H; by inversion H).
  revert w. induction p as [a|X f k IH| |]; intros w; cbn.
  2: { rewrite (surjective_pairing (f w)). split.
       - intros H. apply IH, H, rtc_refl.
       - intros H w' <-%Hrtc. by apply IH. }
  all: split; [intros H; apply H, rtc_refl|intros H w' <-%Hrtc; done].
Qed.

(** ** Reasoning about programs that run alone *)

Definition wpr {W A} (p : prog W A) (Q : outcome A -> W -> Prop) (w : W) : Prop :=
  Q (fst (run p w)) (snd (run p w)).
Arguments wpr : simpl never.

Lemma wpr_mono {W A} (p : prog W A) (Q Q' : outcome A -> W -> Prop) w :
  (forall o w, Q o w -> Q' o w) -> wpr p Q w -> wpr p Q' w.
Proof. unfold wpr. auto. Qed.

Lemma wpr_ret {W A} (a : A) (Q : outcome A -> W -> Prop) w : Q (Done a) w -> wpr (Ret a) Q w.
Proof. done. Qed.

Lemma wpr_trivial {W A} (p : prog W A) (Q : outcome A -> W -> Prop) w :
  (forall o w', Q o w') -> wpr p Q w.
Proof. unfold wpr. auto. Qed.

Lemma wpr_bind {W A B} (p : prog W A) (k : A -> prog W B) (Q : outcome B -> W -> Prop) w :
  wpr p (fun o w' => match o with
                     | Done a => wpr (k a) Q w'
                     | Panicked => Q Panicked w'
                     | Diverged => Q Diverged w'
                     end) w ->
  wpr (bind p k) Q w.
Proof.
  unfold wpr. rewrite run_bind. destruct (run p w) as [[a| |] w']; done.
Qed.

Lemma wpr_bindR {W E A B} (p : progR W E A) (k : A -> progR W E B)
    (Q : outcome (result E B) -> W -> Prop) w :
  wpr p (fun o w' => match o with
                     | Done (Ok a) => wpr (k a) Q w'
                     | Done (Err e) => Q (Done (Err e)) w'
                     | Panicked => Q Panicked w'
                     | Diverged => Q Diverged w'
                     end) w ->
  wpr (bindR p k) Q w.
Proof. intros Hp. apply wpr_bind. eapply wpr_mono; [|exact Hp]. by intros [[]| |]. Qed.

Lemma wpr_crash {W A} (Q : outcome A -> W -> Prop) w : Q Panicked w -> wpr Crash Q w.
Proof. done. Qed.

Lemma wpr_expect {W A} (o : option A) (Q : outcome A -> W -> Prop) w :
  (forall a, o = Some a -> Q (Done a) w) -> (o = None -> Q Panicked w) -> wpr (expect o) Q w.
Proof. intros HS HN. destruct o; [apply wpr_ret|apply wpr_crash]; auto. Qed.

Lemma wpr_assert {W} (b : bool) (Q : outcome unit -> W -> Prop) w :
  (b = true -> Q (Done tt) w) -> (b = false -> Q Panicked w) -> wpr (assert_ b) Q w.
Proof. intros HT HF. destruct b; [apply wpr_ret|apply wpr_crash]; auto. Qed.

Lemma wpr_asks {W A} (f : W -> A) (Q : outcome A -> W -> Prop) w :
  Q (Done (f w)) w -> wpr (asks f) Q w.
Proof. done. Qed.

Lemma wpr_update {W} (f : W -> W) (Q : outcome unit -> W -> Prop) w :
  Q (Done tt) (f w) -> wpr (update f) Q w.
Proof. done. Qed.

Lemma wpr_act {W A} (f : W -> A * W) (Q : outcome A -> W -> Prop) w :
  Q (Done (fst (f w))) (snd (f w)) -> wpr (act f) Q w.
Proof. unfold wpr; cbn. by destruct (f w). Qed.

(** Each action is a [G] step, so a run is a sequence of them. *)
Lemma run_guar {W A} (G : relation W) (p : prog W A) (w : W) :
  guar G p -> rtc G w (snd (run p w)).
Proof.
  revert w. induction p as [a|X f k IH| |]; intros w Hp; cbn; try done.
  destruct (Hp w) as [HG Hk]. destruct (f w) as [x w']; cbn in *.
  eapply rtc_l; [exact HG|]. by apply IH.
Qed.

Lemma wpr_guar {W A} (G : relation W) (p : prog W A) (Q : outcome A -> W -> Prop) w :
  guar G p -> (forall o w', rtc G w w' -> Q o w') -> wpr p Q w.
Proof. intros Hp HQ. by apply HQ, run_guar. Qed.

(** Steps that keep an observation of the store. *)
Definition keeps {W B} (obs : W -> B) : relation W := fun w w' => obs w' = obs w.

#[export] Instance keeps_refl {W B} (obs : W -> B) : Reflexive (keeps obs).
Proof. by intros w. Qed.

Lemma rtc_keeps {W B} (obs : W -> B) w w' : rtc (keeps obs) w w' -> obs w' = obs w.
Proof. induction 1 as [|w1 w2 w3 H _ IH]; [done|]. by rewrite IH, H. Qed.

Lemma wpr_keeps {W A B} (obs : W -> B) (p : prog W A) (Q : outcome A -> W -> Prop) w :
  guar (keeps obs) p -> (forall o w', obs w' = obs w -> Q o w') -> wpr p Q w.
Proof. intros Hp HQ. eapply wpr_guar; [exact Hp|]. intros o w' Hw. by apply HQ, rtc_keeps. Qed.

(** ** Programs that cannot run out of fuel *)

Fixpoint fuelless {W A} (p : prog W A) : Prop :=
  match p with
  | Act f k => forall x, fuelless (k x)
  | NoFuel => False
  | _ => True
  end.

Lemma fuelless_run {W A} (p : prog W A) (w : W) : fuelless p -> fst (run p w) <> Diverged.
Proof.
  revert w. induction p as [a|X f k IH| |]; intros w Hp; cbn in *; try done.
  destruct (f w) as [x w']. auto.
Qed.

Lemma fuelless_bind {W A B} (p : prog W A) (k : A -> prog W B) :
  fuelless p -> (forall a, fuelless (k a)) -> fuelless (bind p k).
Proof. intros Hp Hk. induction p; cbn in *; auto. Qed.

Lemma fuelless_bindR {W E A B} (p : progR W E A) (k : A -> progR W E B) :
  fuelless p -> (forall a, fuelless (k a)) -> fuelless (bindR p k).
Proof. intros Hp Hk. apply fuelless_bind; [done|]. intros [a|e]; cbn; auto. Qed.

Lemma fuelless_act {W A} (f : W -> A * W) : fuelless (act f).
Proof. done. Qed.

Lemma fuelless_expect {W A} (o : option A) : fuelless (W := W) (expect o).
Proof. by destruct o. Qed.

Lemma fuelless_assert {W} b : fuelless (W := W) (assert_ b).
Proof. by destruct b. Qed.

Lemma fuelless_foldP {W S X} (body : S -> X -> prog W S) (l : list X) :
  (forall s x, fuelless (body s x)) -> forall s, fuelless (foldP body s l).
Proof.
  intros Hb. induction l as [|x l IH]; intros s; cbn [foldP]; [done|].
  apply fuelless_bind; auto.
Qed.

Lemma fuelless_foldR {W E S X} (body : S -> X -> progR W E S) (l : list X) :
  (forall s x, fuelless (body s x)) -> forall s, fuelless (foldR body s l).
Proof.
  intros Hb. induction l as [|x l IH]; intros s; cbn [foldR]; [done|].
  apply fuelless_bindR; auto.
Qed.

Create HintDb fuelless discriminated.
#[export] Hint Resolve fuelless_bind fuelless_bindR fuelless_act fuelless_expect
  fuelless_assert fuelless_foldP fuelless_foldR : fuelless.
#[export] Hint Extern 1 (fuelless (Ret _)) => exact I : fuelless.
#[export] Hint Extern 1 (fuelless Crash) => exact I : fuelless.

(** A program whose actions are [S] steps, among threads whose actions are [S]
    steps, takes the store through [S] steps. *)
Lemma wp_guar {W A} (R S : relation W) (p : prog W A) (Q : outcome A -> W -> Prop) w :
  (forall w w', R w w' -> S w w') ->
  guar S p -> fuelless p ->
  (forall o w', o <> Diverged -> rtc S w w' -> Q o w') ->
  wp R p Q w.
Proof.
  intros HRS. assert (Hrtc : forall w w', rtc R w w' -> rtc S w w')
    by (intros ?? H; induction H; [done|eauto using rtc_l]).
  revert w. induction p as [a|X f k IH| |]; intros w Hg Hf HQ w' Hw; [by auto| |by auto|done].
  destruct (Hg w') as [H1 H2]. apply IH; [done|apply Hf|].
  intros o w'' Ho Hw'. apply HQ; [done|]. etrans; [by apply Hrtc|]. by eapply rtc_l.
Qed.

(** Structural proofs of [guar] and [fuelless]: peel binds and loops, split the
    matches, and leave the calls of parameters. *)
Ltac solve_fuelless :=
  repeat first
    [ exact I
    | match goal with H : _ |- fuelless _ => solve [apply H] end
    | apply fuelless_act
    | apply fuelless_expect
    | apply fuelless_assert
    | apply fuelless_bindR; [|intros ?]
    | apply fuelless_bind; [|intros ?]
    | apply fuelless_foldP; intros ? ?
    | apply fuelless_foldR; intros ? ?
    | progress unfold asks, update, liftR, mapE
    | progress auto with fuelless
    | case_goal ].

Ltac solve_guar :=
  repeat first
    [ exact I
    | match goal with H : _ |- guar _ _ => solve [apply H] end
    | apply guar_asks; apply _
    | apply guar_expect
    | apply guar_assert
    | apply guar_bindR; [|intros ?]
    | apply guar_bind; [|intros ?]
    | apply guar_foldP; intros ? ?
    | apply guar_foldR; intros ? ?
    | apply guar_act; intros ?; hnf; cbn; solve [repeat case_goal; done]
    | progress unfold liftR, mapE
    | progress auto with guar
    | case_goal ].

(** ** A flag that threads raise before they return

    [returns D p]: whatever the store answers, a value that [p] returns is in
    [D].  [flagged flag D p]: [p] changes [flag] only when from there on it can
    only return a value in [D]. *)
Fixpoint returns {W A} (D : A -> Prop) (p : prog W A) : Prop :=
  match p with
  | Ret a => D a
  | Act f k => forall x, returns D (k x)
  | _ => True
  end.

Fixpoint flagged {W A} (flag : W -> bool) (D : A -> Prop) (p : prog W A) : Prop :=
  match p with
  | Act f k => forall w,
      (flag (snd (f w)) = flag w /\ flagged flag D (k (fst (f w)))) \/
      returns D (k (fst (f w)))
  | _ => True
  end.

Section flags.
Context {W A : Type} (flag : W -> bool) (D : A -> Prop).
Implicit Types (ps : list (prog W A)).

Lemma flagged_bind {B} (p : prog W B) (k : B -> prog W A) :
  guar (keeps flag) p -> (forall b, flagged flag D (k b)) -> flagged flag D (bind p k).
Proof.
  intros Hp Hk. induction p as [b|X f h IH| |]; cbn in *; auto.
  intros w. destruct (Hp w). left. auto.
Qed.

Definition flag_inv (tw : pool W A) : Prop :=
  (forall i p, fst tw !! i = Some p -> flagged flag D p \/ returns D p) /\
  (flag (snd tw) = true -> exists i p, fst tw !! i = Some p /\ returns D p).

Lemma flag_inv_step tw j : flag_inv tw -> flag_inv (pool_step tw j).
Proof.
  destruct tw as [ps w]. intros [Hall Hex]. unfold pool_step; cbn in *.
  destruct (ps !! j) as [[a|X f k| |]|] eqn:Hj; try by split.
  destruct (f w) as [x w'] eqn:Hf.
  assert (Hlt : j < length ps) by by eapply lookup_lt_Some.
  assert (Hgo : (flagged flag D (k x) /\ flag w' = flag w) \/ returns D (k x)).
  { destruct (Hall j _ Hj) as [Hfl|Hr]; [|right; apply Hr].
    specialize (Hfl w). rewrite Hf in Hfl. cbn in Hfl. tauto. }
  split; cbn.
  - intros i p. destruct (decide (i = j)) as [->|Hne].
    + rewrite list_lookup_insert_eq by done. intros [= <-]. tauto.
    + rewrite list_lookup_insert_ne by done. apply Hall.
  - destruct Hgo as [[_ Hw]|Hr].
    + rewrite Hw. intros (i & p & Hi & Hp)%Hex. destruct (decide (i = j)) as [->|Hne].
      * exists j, (k x). rewrite list_lookup_insert_eq by done. split; [done|].
        rewrite Hj in Hi. injection Hi as <-. apply Hp.
      * exists i, p. by rewrite list_lookup_insert_ne.
    + intros _. exists j, (k x). by rewrite list_lookup_insert_eq.
Qed.

(** If the flag is up after a schedule, some thread can only return a value in
    [D]. *)
Lemma flag_schedule ps w schedule :
  (forall i p, ps !! i = Some p -> flagged flag D p) -> flag w = false ->
  let tw := run_schedule (ps, w) schedule in
  flag (snd tw) = true -> exists i p, fst tw !! i = Some p /\ returns D p.
Proof.
  intros Hps Hw. enough (H : flag_inv (run_schedule (ps, w) schedule)) by apply H.
  assert (H : flag_inv (ps, w)).
  { split; cbn; [|congruence]. intros i p Hi. left. eauto. }
  revert H. generalize (ps, w). induction schedule as [|j sch IH]; intros tw H; [done|].
  apply IH. by apply flag_inv_step.
Qed.

End flags.
