(* ===== verification/BlockTypes.v ===== *)
(** Data of the block executor and the interfaces of what it calls.

    [src/codes/aptos/modified/block-executor/src/executor.rs] is one file of a
    crate whose other files (the scheduler, the multi-version maps, the
    per-transaction input/output records, the gas limit processor, the VM and
    its views) are not part of the repository.  Each of them is an abstract
    carrier with the operations the file calls, gathered in one type class per
    object; what the proofs rely on is stated separately, as laws over these
    operations (the [..Laws] classes below), so that every theorem shows which
    behaviour of which object it needs.

    Enumerations that the file matches exhaustively are inductive types with
    the constructors of those matches. *)
From stdpp Require Import base list gmap strings.
From S2P Require Import Prelude Prog.

Definition TxnIndex : Type := nat.
Definition Incarnation : Type := nat.
Definition Wave : Type := nat.

(** [code_invariant_error(msg)], and the errors of [errors.rs] and
    [aptos_aggregator] the file names. *)
Inductive PanicError : Type := code_invariant_error (msg : string).

Inductive ParallelBlockExecutionError : Type :=
| ModulePathReadWriteError
| FatalVMErrorParallel.

Inductive PanicOr (E : Type) : Type :=
| CodeInvariantError (e : PanicError)
| PanicOrOr (e : E).
Arguments CodeInvariantError {E} e.
Arguments PanicOrOr {E} e.

Inductive CommitError : Type :=
| ReExecutionNeeded
| CommitCodeInvariantError (msg : string).

Inductive KeyKind : Type := Resource | ModuleKind | Group.

#[export] Instance KeyKind_eq_dec : EqDecision KeyKind.
Proof. solve_decision. Defined.

(** [ExecutionStatus] of [task.rs]. *)
Inductive ExecutionStatus (Output VmError : Type) : Type :=
| Success (o : Output)
| SkipRest (o : Output)
| Abort (e : VmError)
| SpeculativeExecutionAbortError (msg : string)
| DelayedFieldsCodeInvariantError (msg : string).
Arguments Success {Output VmError} o.
Arguments SkipRest {Output VmError} o.
Arguments Abort {Output VmError} e.
Arguments SpeculativeExecutionAbortError {Output VmError} msg.
Arguments DelayedFieldsCodeInvariantError {Output VmError} msg.

Definition status_output {O E} (s : ExecutionStatus O E) : option O :=
  match s with Success o | SkipRest o => Some o | _ => None end.

(** [SchedulerTask] of [scheduler.rs]; a condition variable is its identity. *)
Inductive ExecutionTaskType : Type := Execution | Wakeup (condvar : nat).

Inductive SchedulerTask : Type :=
| ExecutionTask (i : TxnIndex) (inc : Incarnation) (ty : ExecutionTaskType)
| ValidationTask (i : TxnIndex) (inc : Incarnation) (wave : Wave)
| Retry
| TaskDone.

(** [BlockExecutionError] and [SequentialBlockExecutionError] of [errors.rs]. *)
Inductive BlockExecutionError (VmError : Type) : Type :=
| FatalBlockExecutorError (e : PanicError)
| FatalVMError (e : VmError).
Arguments FatalBlockExecutorError {VmError} e.
Arguments FatalVMError {VmError} e.

Inductive SequentialBlockExecutionError (VmError : Type) : Type :=
| ResourceGroupSerializationError
| ErrorToReturn (e : BlockExecutionError VmError).
Arguments ResourceGroupSerializationError {VmError}.
Arguments ErrorToReturn {VmError} e.

Inductive StatusCode : Type :=
| DELAYED_MATERIALIZATION_CODE_INVARIANT_ERROR
| UNKNOWN_INVARIANT_VIOLATION_ERROR.

(** [DelayedChange] and [ApplyBase] of [aptos_aggregator]. *)
Inductive DelayedChange (V A : Type) : Type := Create (v : V) | Apply (a : A).
Arguments Create {V A} v.
Arguments Apply {V A} a.

Inductive ApplyBase (I : Type) : Type := Previous (id : I) | Current (id : I).
Arguments Previous {I} id.
Arguments Current {I} id.

(** [ValueWithLayout] of [aptos_mvhashmap]. *)
Inductive ValueWithLayout (V L : Type) : Type :=
| RawFromStorage (v : V)
| Exchanged (v : V) (l : option L).
Arguments RawFromStorage {V L} v.
Arguments Exchanged {V L} v l.

(** ** The type parameters [T], [E], [S] and the [TransactionOutput] trait *)
Class Types := {
  Key : Type;
  Key_eq_dec :: EqDecision Key;
  Key_countable :: Countable Key;
  Ident : Type;
  Ident_eq_dec :: EqDecision Ident;
  Ident_countable :: Countable Ident;
  Tag : Type;
  Tag_eq_dec :: EqDecision Tag;
  Tag_countable :: Countable Tag;
  Bytes : Type;
  Value : Type;
  Layout : Type;
  DeltaOp : Type;
  DelayedValue : Type;
  DelayedApply : Type;
  DelayedEntry : Type;
  WriteOp : Type;
  Event : Type;
  Txn : Type;
  Output : Type;
  VmError : Type;
  FeeStatement : Type;
  RWSummary : Type;
  GasLimitType : Type;
  FinalizedGroup : Type;
  MaterializedGroup : Type;
  StateValue : Type;

  (** Does the build check arithmetic for overflow? *)
  overflow_checks : bool;
  gen_id_start_value : bool -> N;
  (** [format!("{:?}", s)] of a string. *)
  debug_fmt : string -> string;

  user_txn_bytes_len : Txn -> N;

  resource_group_write_set : Output -> list (Key * Value * list (Tag * (Value * option Layout)));
  resource_write_set : Output -> list (Key * Value * option Layout);
  aggregator_v1_write_set : Output -> list (Key * Value);
  module_write_set : Output -> list (Key * Value);
  aggregator_v1_delta_set : Output -> list (Key * DeltaOp);
  delayed_field_change_set : Output -> list (Ident * DelayedChange DelayedValue DelayedApply);
  fee_statement : Output -> FeeStatement;
  output_approx_size : Output -> N;
  group_reads_needing_delayed_field_exchange : Output -> list (Key * Value);
  get_events : Output -> list (Event * option Layout);
  incorporate_materialized_txn_output : list (Key * WriteOp) -> list (Key * WriteOp) ->
    list Event -> Output -> result PanicError Output;
  skip_output : Output;
  discard_output : StatusCode -> Output;

  into_entry_no_additional_history : DelayedChange DelayedValue DelayedApply -> DelayedEntry;

  (** [TransactionWrite] and [DeltaOp]. *)
  is_deletion : Value -> bool;
  extract_raw_bytes : Value -> option Bytes;
  from_state_value : StateValue -> Value;
  as_u128 : Value -> option (option N);
  apply_to : DeltaOp -> N -> option N;
  delta_write_op : N -> WriteOp;
  get_apply_base_id : DelayedApply -> Ident -> ApplyBase Ident;
  apply_to_base : DelayedApply -> DelayedValue -> option DelayedValue;

  (** [executor_utilities.rs] and the [bcs] crate. *)
  bcs_to_bytes_is_err : gmap Tag Bytes -> bool;
  map_finalized_group : Key -> result string (list (Tag * ValueWithLayout Value Layout)) ->
    Value -> bool -> result PanicError FinalizedGroup;
  serialize_groups : list MaterializedGroup -> result string (list (Key * WriteOp));

  block_output_limit : GasLimitType -> option N;
  include_user_txn_size_in_block_output : GasLimitType -> bool;
  conflict_penalty_window : GasLimitType -> option N;
}.

(** ** [MVHashMap]: four independent multi-version maps *)
Class VersionedData `{Types} := {
  vd : Type;
  vd_new : vd;
  vd_write : Key -> TxnIndex -> Incarnation -> Value -> option Layout -> vd -> vd;
  vd_add_delta : Key -> TxnIndex -> DeltaOp -> vd -> vd;
  vd_remove : Key -> TxnIndex -> vd -> vd;
  vd_mark_estimate : Key -> TxnIndex -> vd -> vd;
  vd_materialize_delta : Key -> TxnIndex -> vd -> result DeltaOp N * vd;
  vd_set_base_value : Key -> Value -> vd -> vd;
}.

Class VersionedGroupData `{Types} := {
  vgd : Type;
  vgd_new : vgd;
  vgd_write : Key -> TxnIndex -> Incarnation -> list (Tag * (Value * option Layout)) ->
              vgd -> bool * vgd;
  vgd_remove : Key -> TxnIndex -> vgd -> vgd;
  vgd_mark_estimate : Key -> TxnIndex -> vgd -> vgd;
  vgd_get_last_committed_group : Key -> vgd ->
    result string (list (Tag * ValueWithLayout Value Layout));
  vgd_finalize_group : Key -> TxnIndex -> vgd ->
    result string (list (Tag * ValueWithLayout Value Layout)) * vgd;
}.

Class VersionedModules `{Types} := {
  vmod : Type;
  vmod_new : vmod;
  vmod_write : Key -> TxnIndex -> Value -> vmod -> vmod;
  vmod_remove : Key -> TxnIndex -> vmod -> vmod;
  vmod_mark_estimate : Key -> TxnIndex -> vmod -> vmod;
}.

Class VersionedDelayedFields `{Types} := {
  vdf : Type;
  vdf_new : vdf;
  vdf_record_change : Ident -> TxnIndex -> DelayedEntry -> vdf ->
                      result (PanicOr unit) unit * vdf;
  vdf_remove : Ident -> TxnIndex -> vdf -> vdf;
  vdf_mark_estimate : Ident -> TxnIndex -> vdf -> vdf;
  vdf_try_commit : TxnIndex -> list Ident -> vdf -> result CommitError unit * vdf;
}.

(** ** [CapturedReads] *)
Class CapturedReads `{VersionedData, !VersionedGroupData, !VersionedDelayedFields} := {
  ReadSet : Type;
  capture_delayed_field_read_error : ReadSet -> ReadSet;
  is_incorrect_use : ReadSet -> bool;
  validate_data_reads : ReadSet -> vd -> TxnIndex -> bool;
  validate_group_reads : ReadSet -> vgd -> TxnIndex -> bool;
  validate_delayed_field_reads : ReadSet -> vdf -> TxnIndex -> result PanicError bool;
}.

(** ** [TxnLastInputOutput] *)
Class LastInputOutput `{CapturedReads} := {
  lio : Type;
  lio_new : nat -> lio;
  modified_keys : TxnIndex -> lio -> option (list (Key * KeyKind));
  delayed_field_keys : TxnIndex -> lio -> option (list Ident);
  record : TxnIndex -> ReadSet -> ExecutionStatus Output VmError ->
           list (Key * Value * option Layout) -> lio -> bool * lio;
  read_set : TxnIndex -> lio -> option ReadSet;
  check_fatal_vm_error : TxnIndex -> lio -> result ParallelBlockExecutionError unit;
  check_execution_status_during_commit : TxnIndex -> lio -> result PanicError unit;
  lio_fee_statement : TxnIndex -> lio -> option FeeStatement;
  lio_output_approx_size : TxnIndex -> lio -> option N;
  get_txn_read_write_summary : TxnIndex -> lio -> RWSummary;
  update_to_skip_rest : TxnIndex -> lio -> lio;
  groups_to_finalize : TxnIndex -> lio -> list (Key * Value * bool);
  record_finalized_group : TxnIndex -> list FinalizedGroup -> lio -> lio;
  block_skips_rest_at_idx : TxnIndex -> lio -> bool;
  aggregator_v1_delta_keys : TxnIndex -> lio -> list Key;
  take_finalized_group : TxnIndex -> lio -> list FinalizedGroup * lio;
  lio_resource_writes_to_materialize : TxnIndex -> list (Key * Value * option Layout) ->
    lio -> vd -> result PanicError (list (Key * Value * Layout));
  take_resource_write_set : TxnIndex -> lio -> list (Key * Value * option Layout) * lio;
  lio_events : TxnIndex -> lio -> list (Event * option Layout);
  record_materialized_txn_output : TxnIndex -> list (Key * WriteOp) -> list (Key * WriteOp) ->
    list Event -> lio -> result PanicError unit * lio;
  txn_output : TxnIndex -> lio -> option (ExecutionStatus Output VmError);
  take_output : TxnIndex -> lio -> ExecutionStatus Output VmError * lio;
  check_and_append_module_rw_conflict : list Key -> list Key -> lio -> bool * lio;
}.

(** ** [Scheduler] *)
Class SchedulerOps := {
  sched : Type;
  sched_new : nat -> sched;
  num_txns : sched -> nat;
  try_abort : TxnIndex -> Incarnation -> sched -> bool * sched;
  finish_abort : TxnIndex -> Incarnation -> sched -> result PanicError SchedulerTask * sched;
  finish_validation : TxnIndex -> Wave -> sched -> sched;
  queueing_commits_arm : sched -> sched;
  queueing_commits_mark_done : sched -> sched;
  should_coordinate_commits : sched -> bool * sched;
  try_commit : sched -> option (TxnIndex * Incarnation) * sched;
  finish_execution_during_commit : TxnIndex -> sched -> result PanicError unit * sched;
  finish_execution : TxnIndex -> Incarnation -> bool -> sched ->
                     result PanicError SchedulerTask * sched;
  add_to_commit_queue : TxnIndex -> sched -> sched;
  pop_from_commit_queue : sched -> option TxnIndex * sched;
  halt : sched -> bool * sched;
  next_task : sched -> SchedulerTask * sched;
}.

(** ** [BlockGasLimitProcessor] *)
Class GasLimitProcessor `{Types} := {
  blp : Type;
  blp_new : GasLimitType -> nat -> blp;
  accumulate_fee_statement : FeeStatement -> option RWSummary -> option N -> blp -> blp;
  process_module_rw_conflict : blp -> blp;
  should_end_block_parallel : blp -> bool;
  should_end_block_sequential : blp -> bool;
}.

(** ** [UnsyncMap] and the view of the sequential execution *)
Class UnsyncOps `{Types} := {
  um : Type;
  um_new : um;
  um_write : Key -> Value -> option Layout -> um -> um;
  um_insert_group_op : Key -> Tag -> Value -> option Layout -> um ->
                       result PanicError unit * um;
  um_write_module : Key -> Value -> um -> um;
  um_fetch_delayed_field : Ident -> um -> option DelayedValue;
  um_write_delayed_field : Ident -> DelayedValue -> um -> um;
  um_finalize_group : Key -> um -> list (Tag * ValueWithLayout Value Layout);
  um_resource_writes_to_materialize : Output -> list (Key * Value * option Layout) -> um ->
    result PanicError (list (Key * Value * Layout));

  (** What [LatestView] captures while a transaction runs. *)
  seq_view : Type;
  seq_view_new : seq_view;
  SeqReads : Type;
  take_sequential_reads : seq_view -> SeqReads * seq_view;
  seq_incorrect_use : seq_view -> bool;
  module_reads : SeqReads -> list Key;
  read_write_summary : SeqReads -> Output -> RWSummary;
}.
