(* ===== verification/World.v ===== *)
(** The shared store of a block execution, and the laws of its parts.

    [World] gathers the objects the worker threads share: the versioned cache
    ([MVHashMap], four maps), [last_input_output], [scheduler], the
    [BlockGasLimitProcessor] behind [shared_commit_state], [final_results],
    [shared_maybe_error], [shared_counter], the dependencies resolved by wake-ups and the calls
    made to the commit hook.  A call to one of them is one atomic action. *)
From stdpp Require Import base list gmap strings relations.
From S2P Require Import Prelude Prog BlockTypes.

Class Externals := {
  X_types :: Types;
  X_data :: VersionedData;
  X_group :: VersionedGroupData;
  X_mod :: VersionedModules;
  X_delayed :: VersionedDelayedFields;
  X_reads :: CapturedReads;
  X_lio :: LastInputOutput;
  X_sched :: SchedulerOps;
  X_blp :: GasLimitProcessor;
  X_unsync :: UnsyncOps;
}.

(** Calls of [TransactionCommitHook]. *)
Inductive HookEvent `{Externals} : Type :=
| on_transaction_committed (i : TxnIndex) (o : Output)
| on_execution_aborted (i : TxnIndex).

Record World `{Externals} : Type := mkWorld {
  w_data : vd;
  w_group : vgd;
  w_mod : vmod;
  w_delayed : vdf;
  w_lio : lio;
  w_sched : sched;
  w_blp : blp;
  w_results : list Output;
  w_error : bool;
  w_resolved : gset nat;
  w_hooks : list HookEvent;
  w_counter : N;
}.

Section world.
Context {X : Externals}.

Definition set_data (d : vd) (w : World) : World :=
  mkWorld _ d (w_group w) (w_mod w) (w_delayed w) (w_lio w) (w_sched w) (w_blp w)
    (w_results w) (w_error w) (w_resolved w) (w_hooks w) (w_counter w).
Definition set_group (g : vgd) (w : World) : World :=
  mkWorld _ (w_data w) g (w_mod w) (w_delayed w) (w_lio w) (w_sched w) (w_blp w)
    (w_results w) (w_error w) (w_resolved w) (w_hooks w) (w_counter w).
Definition set_mod (m : vmod) (w : World) : World :=
  mkWorld _ (w_data w) (w_group w) m (w_delayed w) (w_lio w) (w_sched w) (w_blp w)
    (w_results w) (w_error w) (w_resolved w) (w_hooks w) (w_counter w).
Definition set_delayed (f : vdf) (w : World) : World :=
  mkWorld _ (w_data w) (w_group w) (w_mod w) f (w_lio w) (w_sched w) (w_blp w)
    (w_results w) (w_error w) (w_resolved w) (w_hooks w) (w_counter w).
Definition set_lio (l : lio) (w : World) : World :=
  mkWorld _ (w_data w) (w_group w) (w_mod w) (w_delayed w) l (w_sched w) (w_blp w)
    (w_results w) (w_error w) (w_resolved w) (w_hooks w) (w_counter w).
Definition set_sched (s : sched) (w : World) : World :=
  mkWorld _ (w_data w) (w_group w) (w_mod w) (w_delayed w) (w_lio w) s (w_blp w)
    (w_results w) (w_error w) (w_resolved w) (w_hooks w) (w_counter w).
Definition set_blp (b : blp) (w : World) : World :=
  mkWorld _ (w_data w) (w_group w) (w_mod w) (w_delayed w) (w_lio w) (w_sched w) b
    (w_results w) (w_error w) (w_resolved w) (w_hooks w) (w_counter w).
Definition set_results (r : list Output) (w : World) : World :=
  mkWorld _ (w_data w) (w_group w) (w_mod w) (w_delayed w) (w_lio w) (w_sched w) (w_blp w)
    r (w_error w) (w_resolved w) (w_hooks w) (w_counter w).
Definition set_error (e : bool) (w : World) : World :=
  mkWorld _ (w_data w) (w_group w) (w_mod w) (w_delayed w) (w_lio w) (w_sched w) (w_blp w)
    (w_results w) e (w_resolved w) (w_hooks w) (w_counter w).
Definition set_resolved (r : gset nat) (w : World) : World :=
  mkWorld _ (w_data w) (w_group w) (w_mod w) (w_delayed w) (w_lio w) (w_sched w) (w_blp w)
    (w_results w) (w_error w) r (w_hooks w) (w_counter w).
Definition set_hooks (h : list HookEvent) (w : World) : World :=
  mkWorld _ (w_data w) (w_group w) (w_mod w) (w_delayed w) (w_lio w) (w_sched w) (w_blp w)
    (w_results w) (w_error w) (w_resolved w) h (w_counter w).

(** An atomic call to one object of the store. *)
Definition on_data {A} (f : vd -> A * vd) : prog World A :=
  act (fun w => let '(a, d) := f (w_data w) in (a, set_data d w)).
Definition on_group {A} (f : vgd -> A * vgd) : prog World A :=
  act (fun w => let '(a, g) := f (w_group w) in (a, set_group g w)).
Definition on_mod {A} (f : vmod -> A * vmod) : prog World A :=
  act (fun w => let '(a, m) := f (w_mod w) in (a, set_mod m w)).
Definition on_delayed {A} (f : vdf -> A * vdf) : prog World A :=
  act (fun w => let '(a, d) := f (w_delayed w) in (a, set_delayed d w)).
Definition on_lio {A} (f : lio -> A * lio) : prog World A :=
  act (fun w => let '(a, l) := f (w_lio w) in (a, set_lio l w)).
Definition on_sched {A} (f : sched -> A * sched) : prog World A :=
  act (fun w => let '(a, s) := f (w_sched w) in (a, set_sched s w)).

(** The same for a call without a result. *)
Definition do_ {S} (f : S -> S) (s : S) : unit * S := (tt, f s).

Definition ask_lio {A} (f : lio -> A) : prog World A := asks (fun w => f (w_lio w)).

(** The shared objects before a block of [n] transactions; the number of
    transactions is cast to [u32] for the records and the scheduler. *)
Definition init_world (n : nat) (glt : GasLimitType) : World :=
  mkWorld _ vd_new vgd_new vmod_new vdf_new (lio_new (as_u32 n)) (sched_new (as_u32 n))
    (blp_new glt n) (replicate n skip_output) false ∅ [] (gen_id_start_value false).

End world.

(** Machine arithmetic: [a + b] on a [w]-bit unsigned integer panics or wraps
    around, as the build is configured; so does [a - b]. *)
Definition add_w `{Types} {W} (w : N) (a b : N) : prog W N :=
  if (a + b <? 2 ^ w)%N then Ret (a + b)%N
  else if overflow_checks then Crash else Ret ((a + b) mod 2 ^ w)%N.
Definition sub_w `{Types} {W} (w : N) (a b : N) : prog W N :=
  if (b <=? a)%N then Ret (a - b)%N
  else if overflow_checks then Crash else Ret ((a + 2 ^ w - b) mod 2 ^ w)%N.

(** The helpers of [executor_utilities.rs] that replace the identifiers of
    delayed fields by values: programs over the store [W] of the view. *)
Class ViewOps (X : Externals) (W : Type) := {
  map_id_to_values_in_group_writes : TxnIndex -> list FinalizedGroup ->
    progR W PanicError (list MaterializedGroup);
  map_id_to_values_in_write_set : TxnIndex -> list (Key * Value * Layout) ->
    progR W PanicError (list (Key * WriteOp));
  map_id_to_values_events : TxnIndex -> list (Event * option Layout) ->
    progR W PanicError (list Event);
}.

(** ** Laws of the versioned maps

    A versioned map holds, for each transaction, finitely many cells, one per
    key; a cell is live, or an estimate left by an aborted incarnation.  Every
    operation of the file acts on the cells of one transaction. *)
Inductive cell (P : Type) : Type := Live (p : P) | Estimate (p : P).
Arguments Live {P} p.
Arguments Estimate {P} p.

Definition to_estimate {P} (c : cell P) : cell P :=
  match c with Live p | Estimate p => Estimate p end.

Definition payload {P} (c : cell P) : P :=
  match c with Live p | Estimate p => p end.

(** [m'] is [m] with the cells of transaction [i] updated by [u]. *)
Definition updates_at {M C} (at_ : M -> TxnIndex -> C) (i : TxnIndex) (u : C -> C)
    (m m' : M) : Prop :=
  at_ m' i = u (at_ m i) /\ forall j, j <> i -> at_ m' j = at_ m j.

Inductive data_payload `{Types} : Type :=
| DWrite (inc : Incarnation) (v : Value) (l : option Layout)
| DDelta (d : DeltaOp).

Abbreviation DataCells := (gmap Key (cell data_payload)).
Abbreviation GroupCells :=
  (gmap Key (cell (Incarnation * list (Tag * (Value * option Layout))))).
Abbreviation ModuleCells := (gmap Key (cell Value)).
Abbreviation DelayedCells := (gmap Ident (cell DelayedEntry)).

Class DataLaws (X : Externals) := {
  data_at : vd -> TxnIndex -> DataCells;
  data_write_law m k i inc v l :
    updates_at data_at i <[k := Live (DWrite inc v l)]> m (vd_write k i inc v l m);
  data_add_delta_law m k i d :
    updates_at data_at i <[k := Live (DDelta d)]> m (vd_add_delta k i d m);
  data_remove_law m k i : updates_at data_at i (delete k) m (vd_remove k i m);
  data_mark_estimate_law m k i :
    updates_at data_at i (alter to_estimate k) m (vd_mark_estimate k i m);
}.

(** The tags that the cell of group [k] holds. *)
Definition group_tags `{Types} (m : GroupCells) (k : Key) : list Tag :=
  match m !! k with Some c => (payload c).2.*1 | None => [] end.

(** [write] on a group returns true if it writes outside the tags that the
    previous incarnation of the transaction wrote. *)
Class GroupLaws (X : Externals) := {
  group_at : vgd -> TxnIndex -> GroupCells;
  group_write_law m k i inc ops :
    updates_at group_at i <[k := Live (inc, ops)]> m (snd (vgd_write k i inc ops m));
  group_outside_law m k i inc ops :
    fst (vgd_write k i inc ops m) = false -> ops.*1 ⊆ group_tags (group_at m i) k;
  group_remove_law m k i : updates_at group_at i (delete k) m (vgd_remove k i m);
  group_mark_estimate_law m k i :
    updates_at group_at i (alter to_estimate k) m (vgd_mark_estimate k i m);
}.

Class ModuleLaws (X : Externals) := {
  module_at : vmod -> TxnIndex -> ModuleCells;
  module_write_law m k i v :
    updates_at module_at i <[k := Live v]> m (vmod_write k i v m);
  module_remove_law m k i : updates_at module_at i (delete k) m (vmod_remove k i m);
  module_mark_estimate_law m k i :
    updates_at module_at i (alter to_estimate k) m (vmod_mark_estimate k i m);
}.

(** [record_change] may refuse a change: nothing is assumed then of the cell of
    the identifier. *)
Class DelayedLaws (X : Externals) := {
  delayed_at : vdf -> TxnIndex -> DelayedCells;
  delayed_record_law m id i e :
    exists c, updates_at delayed_at i (partial_alter (fun _ => c) id) m
                (snd (vdf_record_change id i e m)) /\
              (is_ok (fst (vdf_record_change id i e m)) = true -> c = Some (Live e));
  delayed_remove_law m id i : updates_at delayed_at i (delete id) m (vdf_remove id i m);
  delayed_mark_estimate_law m id i :
    updates_at delayed_at i (alter to_estimate id) m (vdf_mark_estimate id i m);
}.
