(* ===== verification/Footprint.v ===== *)
(** The footprint of a transaction, and a program logic over it.

    The footprint of transaction [i] is everything the shared store holds on
    its behalf: its cells in the four versioned maps, and the reads, written
    keys, delayed fields and status its last incarnation recorded.  Threads that
    work on other transactions leave it alone ([others i]); [wpf] is the
    weakest precondition of a program under such interference, for
    postconditions that speak of the footprint only. *)
From stdpp Require Import base list gmap strings relations.
From S2P Require Import Prelude Prog BlockTypes World.

(** What [TxnLastInputOutput] answers after [record]: the keys that the
    recorded status wrote, with the kind of each. *)
Definition output_keys `{Types} (o : Output) : list (Key * KeyKind) :=
  map (fun kv => (kv.1.1, Resource)) (resource_write_set o) ++
  map (fun kv => (kv.1, Resource)) (aggregator_v1_write_set o) ++
  map (fun kd => (kd.1, Resource)) (aggregator_v1_delta_set o) ++
  map (fun kv => (kv.1, ModuleKind)) (module_write_set o) ++
  map (fun g => (g.1.1, Group)) (resource_group_write_set o).

Definition status_keys `{Types} (st : ExecutionStatus Output VmError)
    : list (Key * KeyKind) :=
  match status_output st with Some o => output_keys o | None => [] end.

Definition status_ids `{Types} (st : ExecutionStatus Output VmError) : list Ident :=
  match status_output st with Some o => (delayed_field_change_set o).*1 | None => [] end.

(** [record] stores the reads and the status of the incarnation; [read_set],
    [modified_keys], [delayed_field_keys] and [txn_output] read them back, and [take_output] takes
    what [txn_output] shows. *)
Class LioLaws (X : Externals) : Prop := {
  record_keys_law i rs st rws l kk :
    fst (record i rs st rws l) = true ->
    kk ∈ default [] (modified_keys i (snd (record i rs st rws l))) <-> kk ∈ status_keys st;
  record_ids_law i rs st rws l id :
    fst (record i rs st rws l) = true ->
    id ∈ default [] (delayed_field_keys i (snd (record i rs st rws l))) <-> id ∈ status_ids st;
  record_output_law i rs st rws l :
    fst (record i rs st rws l) = true ->
    txn_output i (snd (record i rs st rws l)) = Some st;
  record_reads_law i rs st rws l :
    fst (record i rs st rws l) = true ->
    read_set i (snd (record i rs st rws l)) = Some rs;
  record_other_law i j rs st rws l :
    j <> i ->
    let l' := snd (record i rs st rws l) in
    modified_keys j l' = modified_keys j l /\
    delayed_field_keys j l' = delayed_field_keys j l /\
    txn_output j l' = txn_output j l /\
    read_set j l' = read_set j l;
  take_output_law i l st : txn_output i l = Some st -> fst (take_output i l) = st;
}.

Class VersionedLaws (X : Externals) := {
  VL_data :: DataLaws X;
  VL_group :: GroupLaws X;
  VL_mod :: ModuleLaws X;
  VL_delayed :: DelayedLaws X;
}.

Record Footprint `{Externals} : Type := mkFp {
  fp_data : DataCells;
  fp_group : GroupCells;
  fp_mod : ModuleCells;
  fp_delayed : DelayedCells;
  fp_keys : option (list (Key * KeyKind));
  fp_ids : option (list Ident);
  fp_out : option (ExecutionStatus Output VmError);
  fp_reads : option ReadSet;
}.

Section footprint.
Context {X : Externals} {VL : VersionedLaws X}.

Definition footprint (i : TxnIndex) (w : World) : Footprint :=
  mkFp _ (data_at (w_data w) i) (group_at (w_group w) i) (module_at (w_mod w) i)
    (delayed_at (w_delayed w) i) (modified_keys i (w_lio w))
    (delayed_field_keys i (w_lio w)) (txn_output i (w_lio w)) (read_set i (w_lio w)).

Definition fp_on_data (u : DataCells -> DataCells) (f : Footprint) : Footprint :=
  mkFp _ (u (fp_data f)) (fp_group f) (fp_mod f) (fp_delayed f)
    (fp_keys f) (fp_ids f) (fp_out f) (fp_reads f).
Definition fp_on_group (u : GroupCells -> GroupCells) (f : Footprint) : Footprint :=
  mkFp _ (fp_data f) (u (fp_group f)) (fp_mod f) (fp_delayed f)
    (fp_keys f) (fp_ids f) (fp_out f) (fp_reads f).
Definition fp_on_mod (u : ModuleCells -> ModuleCells) (f : Footprint) : Footprint :=
  mkFp _ (fp_data f) (fp_group f) (u (fp_mod f)) (fp_delayed f)
    (fp_keys f) (fp_ids f) (fp_out f) (fp_reads f).
Definition fp_on_delayed (u : DelayedCells -> DelayedCells) (f : Footprint) : Footprint :=
  mkFp _ (fp_data f) (fp_group f) (fp_mod f) (u (fp_delayed f))
    (fp_keys f) (fp_ids f) (fp_out f) (fp_reads f).

(** Steps that leave the footprint of [i] alone. *)
Definition others (i : TxnIndex) : relation World :=
  fun w w' => footprint i w' = footprint i w.

#[export] Instance others_refl i : Reflexive (others i).
Proof. by intros w. Qed.

Lemma rtc_others i w w' : rtc (others i) w w' -> footprint i w' = footprint i w.
Proof. induction 1 as [|w1 w2 w3 H _ IH]; [done|]. by rewrite IH, H. Qed.

Definition wpf {A} (i : TxnIndex) (p : prog World A) (Q : outcome A -> Footprint -> Prop)
    (f : Footprint) : Prop :=
  forall w, footprint i w = f -> wp (others i) p (fun o w' => Q o (footprint i w')) w.

Lemma wpf_mono {A} i (p : prog World A) (Q Q' : outcome A -> Footprint -> Prop) f :
  (forall o f', Q o f' -> Q' o f') -> wpf i p Q f -> wpf i p Q' f.
Proof. intros HQ Hp w Hw. eapply wp_mono; [|by apply Hp]. eauto. Qed.

Lemma wpf_ret {A} i (a : A) (Q : outcome A -> Footprint -> Prop) f :
  Q (Done a) f -> wpf i (Ret a) Q f.
Proof. intros HQ w <- w' Hw. by rewrite (rtc_others _ _ _ Hw). Qed.

Lemma wpf_crash {A} i (Q : outcome A -> Footprint -> Prop) f :
  Q Panicked f -> wpf i Crash Q f.
Proof. intros HQ w <- w' Hw. by rewrite (rtc_others _ _ _ Hw). Qed.

Lemma wpf_bind {A B} i (p : prog World A) (k : A -> prog World B)
    (Q : outcome B -> Footprint -> Prop) f :
  wpf i p (fun o f' => match o with
                       | Done a => wpf i (k a) Q f'
                       | Panicked => Q Panicked f'
                       | Diverged => Q Diverged f'
                       end) f ->
  wpf i (bind p k) Q f.
Proof.
  intros Hp w Hw. apply wp_bind. eapply wp_mono; [|by apply Hp].
  intros [a| |] w'; cbn; auto.
Qed.

Lemma wpf_bindR {A B E} i (p : progR World E A) (k : A -> progR World E B)
    (Q : outcome (result E B) -> Footprint -> Prop) f :
  wpf i p (fun o f' => match o with
                       | Done (Ok a) => wpf i (k a) Q f'
                       | Done (Err e) => Q (Done (Err e)) f'
                       | Panicked => Q Panicked f'
                       | Diverged => Q Diverged f'
                       end) f ->
  wpf i (bindR p k) Q f.
Proof.
  intros Hp. apply wpf_bind. eapply wpf_mono; [|exact Hp].
  intros [[a|e]| |] f'; cbn; auto. apply wpf_ret.
Qed.

Lemma wpf_act {A} i (g : World -> A * World) (Q : outcome A -> Footprint -> Prop) f :
  (forall w, footprint i w = f -> Q (Done (fst (g w))) (footprint i (snd (g w)))) ->
  wpf i (act g) Q f.
Proof.
  intros HQ w Hw. apply wp_act. intros w' w'' H1 H2.
  rewrite (rtc_others _ _ _ H2). apply HQ. by rewrite (rtc_others _ _ _ H1).
Qed.

Lemma wpf_asks {A} i (g : World -> A) (Q : outcome A -> Footprint -> Prop) f :
  (forall w, footprint i w = f -> Q (Done (g w)) f) -> wpf i (asks g) Q f.
Proof. intros HQ. apply wpf_act. intros w Hw. cbn. rewrite Hw. auto. Qed.

Lemma wpf_expect {A} i (o : option A) (Q : outcome A -> Footprint -> Prop) f :
  (forall a, o = Some a -> Q (Done a) f) -> (o = None -> Q Panicked f) ->
  wpf i (expect o) Q f.
Proof. intros HS HN. destruct o; [apply wpf_ret|apply wpf_crash]; auto. Qed.

(** A program that guarantees [others i] leaves the footprint of [i] as it is. *)
Lemma wpf_guar {A} i (p : prog World A) (Q : outcome A -> Footprint -> Prop) f :
  guar (others i) p -> (forall o, Q o f) -> wpf i p Q f.
Proof.
  intros Hp HQ. induction p as [a|Y g k IH| |]; intros w Hw w' Hr;
    try (rewrite (rtc_others _ _ _ Hr), Hw; auto).
  destruct (Hp w') as [H1 H2]. apply IH; [done|].
  unfold others in H1. by rewrite H1, (rtc_others _ _ _ Hr).
Qed.

(** ** Atomic calls on the footprint of their own transaction *)

Section own.
Context (i : TxnIndex).

Lemma wpf_on_data (g : vd -> vd) u (Q : outcome unit -> Footprint -> Prop) f :
  (forall m, updates_at data_at i u m (g m)) ->
  Q (Done tt) (fp_on_data u f) -> wpf i (on_data (do_ g)) Q f.
Proof.
  intros Hu HQ. apply wpf_act. intros w Hw. cbn. subst f.
  unfold footprint; cbn. rewrite (proj1 (Hu _)). exact HQ.
Qed.

Lemma wpf_on_mod (g : vmod -> vmod) u (Q : outcome unit -> Footprint -> Prop) f :
  (forall m, updates_at module_at i u m (g m)) ->
  Q (Done tt) (fp_on_mod u f) -> wpf i (on_mod (do_ g)) Q f.
Proof.
  intros Hu HQ. apply wpf_act. intros w Hw. cbn. subst f.
  unfold footprint; cbn. rewrite (proj1 (Hu _)). exact HQ.
Qed.

Lemma wpf_on_group {A} (g : vgd -> A * vgd) u (Q : outcome A -> Footprint -> Prop) f :
  (forall m, updates_at group_at i u m (snd (g m))) ->
  (forall m, group_at m i = fp_group f -> Q (Done (fst (g m))) (fp_on_group u f)) ->
  wpf i (on_group g) Q f.
Proof.
  intros Hu HQ. apply wpf_act. intros w Hw. subst f. pose proof (Hu (w_group w)) as [H1 _].
  specialize (HQ (w_group w) eq_refl). destruct (g (w_group w)) as [a m]. cbn in *.
  unfold footprint; cbn. by rewrite H1.
Qed.

Lemma wpf_on_delayed (g : vdf -> vdf) u (Q : outcome unit -> Footprint -> Prop) f :
  (forall m, updates_at delayed_at i u m (g m)) ->
  Q (Done tt) (fp_on_delayed u f) -> wpf i (on_delayed (do_ g)) Q f.
Proof.
  intros Hu HQ. apply wpf_act. intros w Hw. cbn. subst f.
  unfold footprint; cbn. rewrite (proj1 (Hu _)). exact HQ.
Qed.

End own.

(** ** Atomic calls on another transaction *)

Lemma others_data i j u (g : vd -> vd) :
  j <> i -> (forall m, updates_at data_at i u m (g m)) -> guar (others j) (on_data (do_ g)).
Proof.
  intros Hne Hu w. cbn. split; [|done]. unfold others, footprint; cbn.
  by rewrite (proj2 (Hu _)).
Qed.

Lemma others_mod i j u (g : vmod -> vmod) :
  j <> i -> (forall m, updates_at module_at i u m (g m)) -> guar (others j) (on_mod (do_ g)).
Proof.
  intros Hne Hu w. cbn. split; [|done]. unfold others, footprint; cbn.
  by rewrite (proj2 (Hu _)).
Qed.

Lemma others_group {A} i j u (g : vgd -> A * vgd) :
  j <> i -> (forall m, updates_at group_at i u m (snd (g m))) -> guar (others j) (on_group g).
Proof.
  intros Hne Hu w. pose proof (Hu (w_group w)) as [_ H]. cbn.
  destruct (g (w_group w)) as [a m]; cbn in *. split; [|done].
  unfold others, footprint; cbn. by rewrite H.
Qed.

Lemma others_delayed {A} i j (g : vdf -> A * vdf) :
  j <> i -> (forall m, exists u, updates_at delayed_at i u m (snd (g m))) ->
  guar (others j) (on_delayed g).
Proof.
  intros Hne Hu w. destruct (Hu (w_delayed w)) as (u & _ & H). cbn.
  destruct (g (w_delayed w)) as [a m]; cbn in *. split; [|done].
  unfold others, footprint; cbn. by rewrite H.
Qed.

Lemma others_record `{!LioLaws X} i j rs st rws :
  j <> i -> guar (others j) (on_lio (record i rs st rws)).
Proof.
  intros Hne w. cbn.
  pose proof (record_other_law i j rs st rws (w_lio w) Hne) as (H1 & H2 & H3 & H4).
  destruct (record i rs st rws (w_lio w)) as [b l]; cbn in *. split; [|done].
  unfold others, footprint; cbn. by rewrite H1, H2, H3, H4.
Qed.

Lemma others_sched {A} j (g : sched -> A * sched) : guar (others j) (on_sched g).
Proof. intros w. cbn. by destruct (g (w_sched w)). Qed.

End footprint.

#[export] Hint Resolve others_sched others_record : guar.
