(* ===== verification/Execute.v ===== *)
(** Execution, validation and abort of one transaction:
    [execute], [validate], [update_transaction_on_abort] and
    [update_on_validation] of [executor.rs].

    The VM is a parameter: [vm_execute txn i] is the program that
    [LatestView::new], [executor.execute_transaction] and
    [take_parallel_reads] perform together; it may take any number of atomic
    steps on the shared store and returns a status and the captured reads. *)
From stdpp Require Import base list gmap strings pretty relations.
From S2P Require Import Prelude Prog BlockTypes World.

Abbreviation PErr := (PanicOr ParallelBlockExecutionError).

Section definitions.
Context {X : Externals}.
Context (vm_execute : Txn -> TxnIndex ->
           prog World (ExecutionStatus Output VmError * ReadSet)).

(** The variables [apply_updates] captures and updates. *)
Record Locals : Type := mkLocals {
  prev_modified_keys : gmap Key KeyKind;
  prev_modified_delayed_fields : gset Ident;
  read_set_ : ReadSet;
  updates_outside : bool;
}.

(** [if prev_modified_keys.remove(&k).is_none() { updates_outside = true; }] *)
Definition remove_prev (k : Key) (s : Locals) : Locals :=
  mkLocals (delete k (prev_modified_keys s)) (prev_modified_delayed_fields s) (read_set_ s)
    (match prev_modified_keys s !! k with
     | None => true
     | Some _ => updates_outside s
     end).

Definition set_outside (s : Locals) : Locals :=
  mkLocals (prev_modified_keys s) (prev_modified_delayed_fields s) (read_set_ s) true.

Definition apply_group_write (idx : TxnIndex) (inc : Incarnation) (s : Locals)
    (g : Key * Value * list (Tag * (Value * option Layout))) : prog World Locals :=
  let '(group_key, group_metadata_op, group_ops) := g in
  let s := remove_prev group_key s in
  let! _ := on_data (do_ (vd_write group_key idx inc group_metadata_op None)) in
  let! outside := on_group (vgd_write group_key idx inc group_ops) in
  Ret (if outside then set_outside s else s).

Definition apply_resource_write (idx : TxnIndex) (inc : Incarnation) (s : Locals)
    (kv : Key * Value * option Layout) : prog World Locals :=
  let '(k, v, maybe_layout) := kv in
  let s := remove_prev k s in
  let! _ := on_data (do_ (vd_write k idx inc v maybe_layout)) in
  Ret s.

Definition apply_module_write (idx : TxnIndex) (s : Locals) (kv : Key * Value)
    : prog World Locals :=
  let '(k, v) := kv in
  let s := remove_prev k s in
  let! _ := on_mod (do_ (vmod_write k idx v)) in
  Ret s.

Definition apply_delta (idx : TxnIndex) (s : Locals) (kd : Key * DeltaOp)
    : prog World Locals :=
  let '(k, d) := kd in
  let s := remove_prev k s in
  let! _ := on_data (do_ (vd_add_delta k idx d)) in
  Ret s.

Definition apply_delayed_change (idx : TxnIndex) (s : Locals)
    (ic : Ident * DelayedChange DelayedValue DelayedApply) : progR World PanicError Locals :=
  let '(id, change) := ic in
  let s := mkLocals (prev_modified_keys s) (prev_modified_delayed_fields s ∖ {[id]})
             (read_set_ s) (updates_outside s) in
  let entry := into_entry_no_additional_history change in
  let! r := on_delayed (vdf_record_change id idx entry) in
  Ret (match r with
       | Ok _ => Ok s
       | Err (CodeInvariantError (code_invariant_error m)) =>
           Err (code_invariant_error
                  ("Record change failed with CodeInvariantError: " +:+ debug_fmt m))
       | Err (PanicOrOr _) =>
           Ok (mkLocals (prev_modified_keys s) (prev_modified_delayed_fields s)
                 (capture_delayed_field_read_error (read_set_ s)) (updates_outside s))
       end).

(** The writes that [resource_write_set] and [aggregator_v1_write_set] chain
    into one loop. *)
Definition data_writes (output : Output) : list (Key * Value * option Layout) :=
  resource_write_set output ++
  map (fun '(k, v) => (k, v, None)) (aggregator_v1_write_set output).

(** The closure [apply_updates]. *)
Definition apply_updates (idx : TxnIndex) (inc : Incarnation) (output : Output) (s : Locals)
    : progR World PanicError (list (Key * Value * option Layout) * Locals) :=
  let! s := foldP (apply_group_write idx inc) s (resource_group_write_set output) in
  let! s := foldP (apply_resource_write idx inc) s (data_writes output) in
  let! s := foldP (apply_module_write idx) s (module_write_set output) in
  let! s := foldP (apply_delta idx) s (aggregator_v1_delta_set output) in
  let? s := foldR (apply_delayed_change idx) s (delayed_field_change_set output) in
  Ret (Ok (resource_write_set output, s)).

(** [for (k, kind) in prev_modified_keys]: entries that were not overwritten. *)
Definition remove_stale (idx : TxnIndex) (_ : unit) (kk : Key * KeyKind) : prog World unit :=
  let '(k, kind) := kk in
  match kind with
  | Resource => on_data (do_ (vd_remove k idx))
  | ModuleKind => on_mod (do_ (vmod_remove k idx))
  | Group =>
      let! _ := on_data (do_ (vd_remove k idx)) in
      on_group (do_ (vgd_remove k idx))
  end.

Definition remove_stale_delayed (idx : TxnIndex) (_ : unit) (id : Ident) : prog World unit :=
  on_delayed (do_ (vdf_remove id idx)).

(** The [match execute_result]. *)
Definition process_result (idx : TxnIndex) (inc : Incarnation)
    (execute_result : ExecutionStatus Output VmError) (s : Locals)
    : progR World PErr
        (ExecutionStatus Output VmError * list (Key * Value * option Layout) * Locals) :=
  match execute_result with
  | Success output =>
      let? (rws, s) := mapE CodeInvariantError (apply_updates idx inc output s) in
      Ret (Ok (Success output, rws, s))
  | SkipRest output =>
      let? (rws, s) := mapE CodeInvariantError (apply_updates idx inc output s) in
      Ret (Ok (SkipRest output, rws, s))
  | SpeculativeExecutionAbortError msg =>
      let s := mkLocals (prev_modified_keys s) (prev_modified_delayed_fields s)
                 (capture_delayed_field_read_error (read_set_ s)) (updates_outside s) in
      Ret (Ok (SpeculativeExecutionAbortError msg, [], s))
  | Abort err => Ret (Ok (Abort err, [], s))
  | DelayedFieldsCodeInvariantError msg =>
      Ret (Err (CodeInvariantError (code_invariant_error
        ("[Execution] At txn " +:+ pretty idx +:+
         ", failed with DelayedFieldsCodeInvariantError: " +:+ debug_fmt msg))))
  end.

Definition execute (idx_to_execute : TxnIndex) (incarnation : Incarnation)
    (signature_verified_block : list Txn) : progR World PErr bool :=
  let! txn := expect (signature_verified_block !! idx_to_execute) in
  let! (execute_result, reads) := vm_execute txn idx_to_execute in
  let! prev_keys := ask_lio (modified_keys idx_to_execute) in
  let! prev_ids := ask_lio (delayed_field_keys idx_to_execute) in
  let s := mkLocals (collect_map (default [] prev_keys)) (list_to_set (default [] prev_ids))
             reads false in
  let? (result, resource_write_set, s) :=
    process_result idx_to_execute incarnation execute_result s in
  let! _ := foldP (remove_stale idx_to_execute) tt (map_to_list (prev_modified_keys s)) in
  let! _ := foldP (remove_stale_delayed idx_to_execute) tt
              (elements (prev_modified_delayed_fields s)) in
  let! recorded := on_lio (record idx_to_execute (read_set_ s) result resource_write_set) in
  if recorded then Ret (Ok (updates_outside s))
  else Ret (Err (PanicOrOr ModulePathReadWriteError)).

(** [Self::validate]. *)
Definition validate (idx_to_validate : TxnIndex) : progR World PanicError bool :=
  let! rs := ask_lio (read_set idx_to_validate) in
  let! rs := expect rs in
  if is_incorrect_use rs then
    Ret (Err (code_invariant_error "Incorrect use detected in CapturedReads"))
  else
    let! data_ok := asks (fun w => validate_data_reads rs (w_data w) idx_to_validate) in
    if data_ok then
      let! group_ok := asks (fun w => validate_group_reads rs (w_group w) idx_to_validate) in
      Ret (Ok group_ok)
    else Ret (Ok false).

Definition mark_estimate (idx : TxnIndex) (_ : unit) (kk : Key * KeyKind) : prog World unit :=
  let '(k, kind) := kk in
  match kind with
  | Resource => on_data (do_ (vd_mark_estimate k idx))
  | ModuleKind => on_mod (do_ (vmod_mark_estimate k idx))
  | Group =>
      let! _ := on_data (do_ (vd_mark_estimate k idx)) in
      on_group (do_ (vgd_mark_estimate k idx))
  end.

Definition mark_estimate_delayed (idx : TxnIndex) (_ : unit) (id : Ident) : prog World unit :=
  on_delayed (do_ (vdf_mark_estimate id idx)).

Definition update_transaction_on_abort (txn_idx : TxnIndex) : prog World unit :=
  let! keys := ask_lio (modified_keys txn_idx) in
  let! _ := (match keys with
             | Some keys => foldP (mark_estimate txn_idx) tt keys
             | None => Ret tt
             end) in
  let! ids := ask_lio (delayed_field_keys txn_idx) in
  match ids with
  | Some ids => foldP (mark_estimate_delayed txn_idx) tt ids
  | None => Ret tt
  end.

Definition update_on_validation (txn_idx : TxnIndex) (incarnation : Incarnation)
    (valid : bool) (validation_wave : Wave) : progR World PanicError SchedulerTask :=
  let! aborted :=
    if valid then Ret false else on_sched (try_abort txn_idx incarnation) in
  if (aborted : bool) then
    let! _ := update_transaction_on_abort txn_idx in
    on_sched (finish_abort txn_idx incarnation)
  else
    let! _ := on_sched (do_ (finish_validation txn_idx validation_wave)) in
    let! _ := (if valid then on_sched (do_ queueing_commits_arm) else Ret tt) in
    Ret (Ok Retry).

End definitions.
