(* ===== verification/ExecuteSpec.v ===== *)
(** What [execute], [validate], [update_transaction_on_abort] and
    [update_on_validation] do to the shared store. *)
From stdpp Require Import base list gmap strings relations.
From S2P Require Import Prelude Prog BlockTypes World Footprint Execute.

(** A key names a resource, a module or a resource group, never two of them. *)
Class KindLaws (X : Externals) := {
  kind_of : Key -> KeyKind;
  output_kinds o k kind : (k, kind) ∈ output_keys o -> kind_of k = kind;
}.

Section spec.
Context {X : Externals}.

(** ** The cells an incarnation installs *)

Definition group_metadata_assignments (inc : Incarnation)
    (l : list (Key * Value * list (Tag * (Value * option Layout))))
    : list (Key * cell data_payload) :=
  map (fun g => (g.1.1, Live (DWrite inc g.1.2 None))) l.
Definition write_assignments (inc : Incarnation) (l : list (Key * Value * option Layout))
    : list (Key * cell data_payload) :=
  map (fun kv => (kv.1.1, Live (DWrite inc kv.1.2 kv.2))) l.
Definition delta_assignments (l : list (Key * DeltaOp)) : list (Key * cell data_payload) :=
  map (fun kd => (kd.1, Live (DDelta kd.2))) l.
Definition group_assignments (inc : Incarnation)
    (l : list (Key * Value * list (Tag * (Value * option Layout))))
    : list (Key * cell (Incarnation * list (Tag * (Value * option Layout)))) :=
  map (fun g => (g.1.1, Live (inc, g.2))) l.
Definition module_assignments (l : list (Key * Value)) : list (Key * cell Value) :=
  map (fun kv => (kv.1, Live kv.2)) l.

Definition delayed_assignments (l : list (Ident * DelayedChange DelayedValue DelayedApply))
    : list (Ident * cell DelayedEntry) :=
  map (fun ic => (ic.1, Live (into_entry_no_additional_history ic.2))) l.

Definition data_assignments (inc : Incarnation) (o : Output) : list (Key * cell data_payload) :=
  group_metadata_assignments inc (resource_group_write_set o) ++
  write_assignments inc (data_writes o) ++
  delta_assignments (aggregator_v1_delta_set o).

Definition expected_data (inc : Incarnation) (st : ExecutionStatus Output VmError) : DataCells :=
  match status_output st with
  | Some o => collect_map (data_assignments inc o)
  | None => ∅
  end.
Definition expected_group (inc : Incarnation) (st : ExecutionStatus Output VmError) : GroupCells :=
  match status_output st with
  | Some o => collect_map (group_assignments inc (resource_group_write_set o))
  | None => ∅
  end.
Definition expected_mod (st : ExecutionStatus Output VmError) : ModuleCells :=
  match status_output st with
  | Some o => collect_map (module_assignments (module_write_set o))
  | None => ∅
  end.

Definition expected_delayed (st : ExecutionStatus Output VmError) : DelayedCells :=
  match status_output st with
  | Some o => collect_map (delayed_assignments (delayed_field_change_set o))
  | None => ∅
  end.
Definition status_groups (st : ExecutionStatus Output VmError)
    : list (Key * Value * list (Tag * (Value * option Layout))) :=
  match status_output st with Some o => resource_group_write_set o | None => [] end.

Definition keys_of (f : Footprint) : list (Key * KeyKind) := default [] (fp_keys f).
Definition ids_of (f : Footprint) : list Ident := default [] (fp_ids f).

(** The records of a transaction account for all of its cells. *)
Record tracked `{!KindLaws X} (f : Footprint) : Prop := {
  tr_kinds k kind : (k, kind) ∈ keys_of f -> kind_of k = kind;
  tr_data k : is_Some (fp_data f !! k) -> (k, Resource) ∈ keys_of f \/ (k, Group) ∈ keys_of f;
  tr_group k : is_Some (fp_group f !! k) -> (k, Group) ∈ keys_of f;
  tr_mod k : is_Some (fp_mod f !! k) -> (k, ModuleKind) ∈ keys_of f;
  tr_delayed id : is_Some (fp_delayed f !! id) -> id ∈ ids_of f;
}.

(** The reads recorded carry the error of a delayed field change that the
    versioned map refused. *)
Definition tainted (f : Footprint) : Prop :=
  exists rs, fp_reads f = Some (capture_delayed_field_read_error rs).

(** The cells of a transaction are exactly those of incarnation [inc] with
    status [st], and the records say so; a delayed field change can be missing
    only if the recorded reads carry the error. *)
Record installed (inc : Incarnation) (st : ExecutionStatus Output VmError)
    (f : Footprint) : Prop := {
  in_out : fp_out f = Some st;
  in_keys kk : kk ∈ keys_of f <-> kk ∈ status_keys st;
  in_ids id : id ∈ ids_of f <-> id ∈ status_ids st;
  in_data : fp_data f = expected_data inc st;
  in_group : fp_group f = expected_group inc st;
  in_mod : fp_mod f = expected_mod st;
  in_delayed_ids id : is_Some (fp_delayed f !! id) -> id ∈ status_ids st;
  in_delayed : fp_delayed f = expected_delayed st \/ tainted f;
}.

(** Every key that [st] writes was recorded by the previous incarnation, whose
    footprint is [f], and every tag of a group was in the cell of that group. *)
Definition within_previous (st : ExecutionStatus Output VmError) (f : Footprint) : Prop :=
  (status_keys st).*1 ⊆ (keys_of f).*1 /\
  forall g, g ∈ status_groups st -> g.2.*1 ⊆ group_tags (fp_group f) g.1.1.

End spec.

(** ** Keys of the assignments *)
Section keys.
Context {X : Externals}.
Implicit Types (o : Output).

(** The keys of the three data loops and their kinds. *)
Definition data_keys (o : Output) : list (Key * KeyKind) :=
  map (fun g => (g.1.1, Group)) (resource_group_write_set o) ++
  map (fun kv => (kv.1.1, Resource)) (data_writes o) ++
  map (fun kd => (kd.1, Resource)) (aggregator_v1_delta_set o).

Lemma data_assignments_keys inc o : (data_assignments inc o).*1 = (data_keys o).*1.
Proof.
  unfold data_assignments, data_keys, group_metadata_assignments, write_assignments,
    delta_assignments.
  by rewrite !fmap_app, !map_fst_map.
Qed.

Lemma data_keys_output o kk : kk ∈ data_keys o -> kk ∈ output_keys o.
Proof.
  unfold data_keys, output_keys, data_writes. rewrite map_app, map_map. unlist.
  intros [(g & -> & H)|[[(g & -> & H)|([k v] & -> & H)]|(g & -> & H)]]; cbn; eauto 10.
  right; left. exists (k, v). eauto.
Qed.

Lemma output_keys_data o k kind :
  (k, kind) ∈ output_keys o -> kind <> ModuleKind -> k ∈ (data_keys o).*1.
Proof.
  intros Hk Hne. apply list_elem_of_fmap. exists (k, kind). split; [done|].
  unfold data_keys, output_keys, data_writes in *. rewrite map_app, map_map. revert Hk. unlist.
  intros [(g & [= -> ->] & H)|[(g & [= -> ->] & H)|[(g & [= -> ->] & H)|[(g & [= -> ->] & H)
    |(g & [= -> ->] & H)]]]]; try done; cbn; eauto 10.
  right; left; right. exists g. destruct g; eauto.
Qed.
End keys.

(** ** The loops of [apply_updates] *)
Section loops.
Context {X : Externals} {VL : VersionedLaws X} (i : TxnIndex) (inc : Incarnation).
Implicit Types (s : Locals) (f : Footprint).

(** Between [s] and [s'] the keys [ks] were written; if the flag is still
    down, all of them were among the previous keys. *)
Definition outside_sound (s s' : Locals) (ks : list Key) : Prop :=
  updates_outside s' = false ->
  updates_outside s = false /\ forall k, k ∈ ks -> is_Some (prev_modified_keys s !! k).

Lemma outside_sound_refl s : outside_sound s s [].
Proof. intros H. split; [done|]. by intros k ?%not_elem_of_nil. Qed.

Lemma outside_sound_cons k s s1 s' ks :
  prev_modified_keys s1 = delete k (prev_modified_keys s) ->
  (updates_outside s1 = false -> updates_outside (remove_prev k s) = false) ->
  outside_sound s1 s' ks -> outside_sound s s' (k :: ks).
Proof.
  intros Hp Hk Hs [H1 H2]%Hs. apply Hk in H1. cbn in H1.
  destruct (prev_modified_keys s !! k) as [kind|] eqn:Hl; [|done]. split; [done|].
  intros k' [->|Hin]%elem_of_cons; [by rewrite Hl|].
  apply H2 in Hin as [x Hx]. rewrite Hp in Hx. apply lookup_delete_Some in Hx as [_ Hx]. by rewrite Hx.
Qed.

Lemma outside_sound_trans s s1 s2 ks ks' :
  (forall k, is_Some (prev_modified_keys s1 !! k) -> is_Some (prev_modified_keys s !! k)) ->
  outside_sound s s1 ks -> outside_sound s1 s2 ks' -> outside_sound s s2 (ks ++ ks').
Proof.
  intros Hsub H1 H2 [H3 H4]%H2. apply H1 in H3 as [H5 H6]. split; [done|].
  intros k [?|?]%elem_of_app; auto.
Qed.

(** If the flag is still down, the groups [l] were written within the tags of
    the cells [m]. *)
Definition tags_sound (s' : Locals) (m : GroupCells)
    (l : list (Key * Value * list (Tag * (Value * option Layout)))) : Prop :=
  updates_outside s' = false -> forall g, g ∈ l -> g.2.*1 ⊆ group_tags m g.1.1.

Lemma tags_sound_cons k v ops s s' (m : GroupCells) l :
  (updates_outside s' = false -> updates_outside s = false) ->
  (updates_outside s = false -> ops.*1 ⊆ group_tags m k) ->
  tags_sound s' (<[k := Live (inc, ops)]> m) l -> tags_sound s' m ((k, v, ops) :: l).
Proof.
  intros Hs Hk Hl Hf g [->|Hg]%elem_of_cons; [cbn; auto|].
  intros t Ht%(Hl Hf g Hg). unfold group_tags in Ht. revert Ht. rewrite lookup_insert.
  case_decide as Heq; [|done]. rewrite <-Heq. cbn. intros Ht. by apply (Hk (Hs Hf)).
Qed.

Lemma wpf_groups l s (Q : outcome Locals -> Footprint -> Prop) f :
  (forall s',
     prev_modified_keys s' = foldl (fun m g => delete g.1.1 m) (prev_modified_keys s) l ->
     prev_modified_delayed_fields s' = prev_modified_delayed_fields s ->
     outside_sound s s' (map (fun g => g.1.1) l) ->
     tags_sound s' (fp_group f) l ->
     Q (Done s') (fp_on_group (fun m => ins_all m (group_assignments inc l))
                    (fp_on_data (fun m => ins_all m (group_metadata_assignments inc l)) f))) ->
  wpf i (foldP (apply_group_write i inc) s l) Q f.
Proof.
  revert s f. induction l as [|[[k v] ops] l IH]; intros s f HQ; cbn [foldP].
  { apply wpf_ret. destruct f.
    apply HQ; [done..|apply outside_sound_refl|by intros _ g ?%not_elem_of_nil]. }
  apply wpf_bind, wpf_bind. eapply wpf_on_data; [intros m; apply data_write_law|].
  apply wpf_bind. eapply wpf_on_group; [intros m; apply group_write_law|]. intros m Hm.
  pose proof (group_outside_law m k i inc ops) as Hout. rewrite Hm in Hout. cbn [fp_group] in Hout.
  destruct (fst (vgd_write k i inc ops m)) eqn:Eo; apply wpf_ret, IH; intros s' H1 H2 H3 H4;
    (apply HQ; [by rewrite H1|by rewrite H2|by eapply outside_sound_cons; [..|exact H3]|
      eapply tags_sound_cons; [exact (fun Hf => proj1 (H3 Hf))| |exact H4]]); cbn; auto; done.
Qed.

Lemma wpf_writes l s (Q : outcome Locals -> Footprint -> Prop) f :
  (forall s',
     prev_modified_keys s' = foldl (fun m kv => delete kv.1.1 m) (prev_modified_keys s) l ->
     prev_modified_delayed_fields s' = prev_modified_delayed_fields s ->
     outside_sound s s' (map (fun kv => kv.1.1) l) ->
     Q (Done s') (fp_on_data (fun m => ins_all m (write_assignments inc l)) f)) ->
  wpf i (foldP (apply_resource_write i inc) s l) Q f.
Proof.
  revert s f. induction l as [|[[k v] lay] l IH]; intros s f HQ; cbn [foldP].
  { apply wpf_ret. destruct f. apply HQ; [done..|apply outside_sound_refl]. }
  apply wpf_bind, wpf_bind. eapply wpf_on_data; [intros m; apply data_write_law|].
  apply wpf_ret, IH. intros s' H1 H2 H3. apply HQ; [by rewrite H1|by rewrite H2|].
  by eapply outside_sound_cons; [..|exact H3].
Qed.

Lemma wpf_modules l s (Q : outcome Locals -> Footprint -> Prop) f :
  (forall s',
     prev_modified_keys s' = foldl (fun m kv => delete kv.1 m) (prev_modified_keys s) l ->
     prev_modified_delayed_fields s' = prev_modified_delayed_fields s ->
     outside_sound s s' (map (fun kv => kv.1) l) ->
     Q (Done s') (fp_on_mod (fun m => ins_all m (module_assignments l)) f)) ->
  wpf i (foldP (apply_module_write i) s l) Q f.
Proof.
  revert s f. induction l as [|[k v] l IH]; intros s f HQ; cbn [foldP].
  { apply wpf_ret. destruct f. apply HQ; [done..|apply outside_sound_refl]. }
  apply wpf_bind, wpf_bind. eapply wpf_on_mod; [intros m; apply module_write_law|].
  apply wpf_ret, IH. intros s' H1 H2 H3. apply HQ; [by rewrite H1|by rewrite H2|].
  by eapply outside_sound_cons; [..|exact H3].
Qed.

Lemma wpf_deltas l s (Q : outcome Locals -> Footprint -> Prop) f :
  (forall s',
     prev_modified_keys s' = foldl (fun m kd => delete kd.1 m) (prev_modified_keys s) l ->
     prev_modified_delayed_fields s' = prev_modified_delayed_fields s ->
     outside_sound s s' (map (fun kd => kd.1) l) ->
     Q (Done s') (fp_on_data (fun m => ins_all m (delta_assignments l)) f)) ->
  wpf i (foldP (apply_delta i) s l) Q f.
Proof.
  revert s f. induction l as [|[k d] l IH]; intros s f HQ; cbn [foldP].
  { apply wpf_ret. destruct f. apply HQ; [done..|apply outside_sound_refl]. }
  apply wpf_bind, wpf_bind. eapply wpf_on_data; [intros m; apply data_add_delta_law|].
  apply wpf_ret, IH. intros s' H1 H2 H3. apply HQ; [by rewrite H1|by rewrite H2|].
  by eapply outside_sound_cons; [..|exact H3].
Qed.

(** Delayed fields: every change is in its cell, or the recording of one has
    failed and the reads carry the error. *)
Definition reads_tainted (s : Locals) : Prop :=
  exists rs, read_set_ s = capture_delayed_field_read_error rs.

Lemma wpf_delayed_changes l s (Q : outcome (result PanicError Locals) -> Footprint -> Prop) f :
  (forall s' m,
     prev_modified_keys s' = prev_modified_keys s ->
     prev_modified_delayed_fields s' = prev_modified_delayed_fields s ∖ list_to_set l.*1 ->
     updates_outside s' = updates_outside s ->
     (forall id, is_Some (m !! id) -> id ∈ l.*1 \/ is_Some (fp_delayed f !! id)) ->
     m = ins_all (fp_delayed f) (delayed_assignments l) /\ read_set_ s' = read_set_ s \/
       reads_tainted s' ->
     Q (Done (Ok s')) (fp_on_delayed (fun _ => m) f)) ->
  (forall e f', Q (Done (Err e)) f') ->
  wpf i (foldR (apply_delayed_change i) s l) Q f.
Proof.
  intros HQ HE. revert s f HQ. induction l as [|[id ch] l IH]; intros s f HQ; cbn [foldR].
  { apply wpf_ret. destruct f as [d g m df ks ids out].
    apply (HQ s df); cbn; [done|set_solver|done|auto|auto]. }
  apply wpf_bindR. unfold apply_delayed_change. apply wpf_bind, wpf_act. intros w <-.
  destruct (delayed_record_law (w_delayed w) id i (into_entry_no_additional_history ch))
    as (c & [Hc _] & Hok). cbn.
  destruct (vdf_record_change _ _ _ _) as [r d] eqn:Hr; cbn in *. apply wpf_ret.
  assert (Hf : footprint i (set_delayed d w) =
     fp_on_delayed (partial_alter (fun _ => c) id) (footprint i w))
    by (unfold footprint; cbn; by rewrite Hc).
  assert (Hids : forall m : DelayedCells, (forall id', is_Some (m !! id') -> id' ∈ l.*1 \/
      is_Some (partial_alter (fun _ => c) id (fp_delayed (footprint i w)) !! id')) ->
    forall id', is_Some (m !! id') ->
      id' ∈ ((id, ch) :: l).*1 \/ is_Some (fp_delayed (footprint i w) !! id')).
  { intros m H3 id' [Hid|Hid]%H3; [left; by right|]. rewrite lookup_partial_alter in Hid.
    case_decide; simplify_eq; [left; by left|auto]. }
  rewrite Hf. destruct r as [u|[[e]|e]]; [|by auto|]; apply IH; cbn; intros s' m H1 H2 H3 H4 H5;
    (apply (HQ s' m); [done|rewrite H2; set_solver|done|by apply Hids|]).
  - rewrite (Hok eq_refl) in H5. exact H5.
  - right. destruct H5 as [[_ H5]|H5]; [by eexists|done].
Qed.

Lemma wpf_remove_stale l (Q : outcome unit -> Footprint -> Prop) f :
  (forall f',
     fp_data f' = foldl (fun m kk => delete kk.1 m) (fp_data f)
                    (filter (fun kk => kk.2 <> ModuleKind) l) ->
     fp_group f' = foldl (fun m kk => delete kk.1 m) (fp_group f)
                     (filter (fun kk => kk.2 = Group) l) ->
     fp_mod f' = foldl (fun m kk => delete kk.1 m) (fp_mod f)
                   (filter (fun kk => kk.2 = ModuleKind) l) ->
     fp_delayed f' = fp_delayed f ->
     Q (Done tt) f') ->
  wpf i (foldP (remove_stale i) tt l) Q f.
Proof.
  revert f. induction l as [|[k kind] l IH]; intros f HQ; cbn [foldP].
  { apply wpf_ret. destruct f. by apply HQ. }
  apply wpf_bind. destruct kind; cbn [remove_stale].
  - eapply wpf_on_data; [intros m; apply data_remove_law|].
    apply IH. intros f' H1 H2 H3 H4. apply HQ; done.
  - eapply wpf_on_mod; [intros m; apply module_remove_law|].
    apply IH. intros f' H1 H2 H3 H4. apply HQ; done.
  - apply wpf_bind. eapply wpf_on_data; [intros m; apply data_remove_law|].
    eapply wpf_on_group; [intros m; apply group_remove_law|]. intros m _.
    apply IH. intros f' H1 H2 H3 H4. apply HQ; done.
Qed.

Lemma wpf_remove_stale_delayed l (Q : outcome unit -> Footprint -> Prop) f :
  Q (Done tt) (fp_on_delayed (fun m => foldl (fun m id => delete id m) m l) f) ->
  wpf i (foldP (remove_stale_delayed i) tt l) Q f.
Proof.
  revert f. induction l as [|id l IH]; intros f HQ; cbn [foldP].
  { apply wpf_ret. by destruct f. }
  apply wpf_bind. eapply wpf_on_delayed; [intros m; apply delayed_remove_law|].
  by apply IH.
Qed.

End loops.

(** ** [execute] *)
Section execute.
Context {X : Externals} {VL : VersionedLaws X} {LL : LioLaws X} {KL : KindLaws X}.
Context (vm_execute : Txn -> TxnIndex ->
           prog World (ExecutionStatus Output VmError * ReadSet)).
Implicit Types (s : Locals) (f : Footprint).

(** The previous keys that [apply_updates] leaves over. *)
Definition left_over (prev prev' : gmap Key KeyKind) (o : Output) : Prop :=
  forall k, prev' !! k = if decide (k ∈ (output_keys o).*1) then None else prev !! k.

Lemma written_keys o k :
  k ∈ (output_keys o).*1 <->
  k ∈ map (fun kd => kd.1) (aggregator_v1_delta_set o) \/
  k ∈ map (fun kv => kv.1) (module_write_set o) \/
  k ∈ map (fun kv => kv.1.1) (data_writes o) \/
  k ∈ map (fun g => g.1.1) (resource_group_write_set o).
Proof.
  unfold output_keys, data_writes. rewrite !fmap_app, !map_fst_map, map_map, !elem_of_app.
  assert (Hag : map (fun x : Key * Value => (let '(k0, v) := x in (k0, v, @None Layout)).1.1)
            (aggregator_v1_write_set o) = map (fun kv => kv.1) (aggregator_v1_write_set o))
    by (apply map_ext; by intros []).
  rewrite Hag. cbn. tauto.
Qed.

Lemma wpf_apply_updates i inc o s
    (Q : outcome (result PanicError (list (Key * Value * option Layout) * Locals)) ->
         Footprint -> Prop) f :
  (forall s' m,
     left_over (prev_modified_keys s) (prev_modified_keys s') o ->
     outside_sound s s' (output_keys o).*1 ->
     tags_sound s' (fp_group f) (resource_group_write_set o) ->
     prev_modified_delayed_fields s' =
       prev_modified_delayed_fields s ∖ list_to_set (delayed_field_change_set o).*1 ->
     (forall id, is_Some (m !! id) ->
        id ∈ (delayed_field_change_set o).*1 \/ is_Some (fp_delayed f !! id)) ->
     m = ins_all (fp_delayed f) (delayed_assignments (delayed_field_change_set o)) \/
       reads_tainted s' ->
     Q (Done (Ok (resource_write_set o, s')))
       (mkFp _ (ins_all (fp_data f) (data_assignments inc o))
          (ins_all (fp_group f) (group_assignments inc (resource_group_write_set o)))
          (ins_all (fp_mod f) (module_assignments (module_write_set o)))
          m (fp_keys f) (fp_ids f) (fp_out f) (fp_reads f))) ->
  (forall e f', Q (Done (Err e)) f') ->
  wpf i (apply_updates i inc o s) Q f.
Proof.
  intros HQ HE. unfold apply_updates.
  apply wpf_bind, wpf_groups. intros s1 P1 D1 O1 T1.
  apply wpf_bind, wpf_writes. intros s2 P2 D2 O2.
  apply wpf_bind, wpf_modules. intros s3 P3 D3 O3.
  apply wpf_bind, wpf_deltas. intros s4 P4 D4 O4.
  apply wpf_bindR, wpf_delayed_changes; [|auto]. intros s5 m P5 D5 O5 Hm Hx. apply wpf_ret.
  unfold data_assignments in HQ. setoid_rewrite ins_all_app in HQ.
  setoid_rewrite ins_all_app in HQ.
  apply HQ; [| | |by rewrite D5, D4, D3, D2, D1|done|naive_solver].
  - intros k. rewrite P5, P4, P3, P2, P1, !foldl_delete_lookup.
    pose proof (written_keys o k) as Hk. repeat case_decide; tauto || done.
  - intros Hf. rewrite O5 in Hf.
    assert (O : outside_sound s s4
      (map (fun g => g.1.1) (resource_group_write_set o) ++
       map (fun kv => kv.1.1) (data_writes o) ++
       map (fun kv => kv.1) (module_write_set o) ++
       map (fun kd => kd.1) (aggregator_v1_delta_set o))).
    { eapply outside_sound_trans; [|exact O1|eapply outside_sound_trans;
        [|exact O2|eapply outside_sound_trans; [|exact O3|exact O4]]].
      - intros k. rewrite P1, foldl_delete_lookup. case_decide; [by intros []|done].
      - intros k. rewrite P2, foldl_delete_lookup. case_decide; [by intros []|done].
      - intros k. rewrite P3, foldl_delete_lookup. case_decide; [by intros []|done]. }
    destruct (O Hf) as [H1 H2]. split; [done|]. intros k Hk%written_keys. apply H2.
    rewrite !elem_of_app. tauto.
  - intros Hf. rewrite O5 in Hf. apply T1. by apply O2, O3, O4.
Qed.

(** [process_result]: the writes of a successful status are installed over the
    old cells; the other statuses that are recorded write nothing. *)
Lemma wpf_process_result i inc st s (Q : outcome (result PErr
      (ExecutionStatus Output VmError * list (Key * Value * option Layout) * Locals)) ->
      Footprint -> Prop) f :
  (forall rws s' m,
     (forall k, prev_modified_keys s' !! k =
        if decide (k ∈ (status_keys st).*1) then None else prev_modified_keys s !! k) ->
     outside_sound s s' (status_keys st).*1 ->
     tags_sound s' (fp_group f) (status_groups st) ->
     prev_modified_delayed_fields s' =
       prev_modified_delayed_fields s ∖ list_to_set (status_ids st) ->
     (forall id, is_Some (m !! id) ->
        id ∈ status_ids st \/ is_Some (fp_delayed f !! id)) ->
     m = expected_delayed st ∪ fp_delayed f \/ reads_tainted s' ->
     Q (Done (Ok (st, rws, s')))
       (mkFp _ (expected_data inc st ∪ fp_data f) (expected_group inc st ∪ fp_group f)
          (expected_mod st ∪ fp_mod f) m (fp_keys f) (fp_ids f) (fp_out f) (fp_reads f))) ->
  (forall e f', Q (Done (Err e)) f') ->
  wpf i (process_result i inc st s) Q f.
Proof.
  intros HQ HE.
  assert (Hwrite : forall o, status_output st = Some o ->
    wpf i (let? (rws, s) := mapE CodeInvariantError (apply_updates i inc o s) in
           Ret (Ok (st, rws, s))) Q f).
  { intros o Ho. apply wpf_bindR, wpf_bind, wpf_apply_updates.
    - intros s' m H1 H0 H5 H2 H3 H4. apply wpf_ret. cbn. apply wpf_ret.
      specialize (HQ (resource_write_set o) s' m).
      unfold expected_data, expected_group, expected_mod, expected_delayed, status_keys,
        status_ids, status_groups in HQ.
      rewrite Ho in HQ. rewrite ins_all_union in H4. rewrite !ins_all_union. by apply HQ.
    - intros e f'. apply wpf_ret. cbn. auto. }
  assert (Hskip : forall s', status_output st = None ->
    prev_modified_keys s' = prev_modified_keys s ->
    prev_modified_delayed_fields s' = prev_modified_delayed_fields s ->
    updates_outside s' = updates_outside s ->
    wpf i (Ret (Ok (st, [], s'))) Q f).
  { intros s' Ho H1 H2 H3. apply wpf_ret. destruct f as [d g md df ks ids out reads].
    specialize (HQ [] s' df).
    unfold expected_data, expected_group, expected_mod, expected_delayed, status_keys,
      status_ids, status_groups in HQ.
    rewrite Ho in HQ. cbn in HQ. rewrite !(left_id_L ∅ (∪)) in HQ. apply HQ; [| | |set_solver|auto|auto].
    - intros k. rewrite H1. case_decide as Hk; [by apply not_elem_of_nil in Hk|done].
    - intros Hf. rewrite H3 in Hf. split; [done|]. by intros k ?%not_elem_of_nil.
    - by intros _ g' ?%not_elem_of_nil. }
  destruct st; cbn [process_result]; [by apply Hwrite|by apply Hwrite|by apply Hskip|
    by apply Hskip|]. apply wpf_ret. auto.
Qed.

Lemma expected_data_dom inc st k :
  is_Some (expected_data inc st !! k) <->
  exists kind, (k, kind) ∈ status_keys st /\ kind <> ModuleKind.
Proof.
  unfold expected_data, status_keys. destruct (status_output st) as [o|].
  - rewrite collect_map_is_Some, data_assignments_keys. split.
    + intros ([k' kind] & -> & Hk)%list_elem_of_fmap. exists kind.
      split; [by apply data_keys_output|]. revert Hk. unfold data_keys. unlist.
      by intros [(? & [= _ ->] & _)|[(? & [= _ ->] & _)|(? & [= _ ->] & _)]].
    + intros (kind & Hk & Hne). by eapply output_keys_data.
  - rewrite lookup_empty. split; [by intros []|]. by intros (? & ?%not_elem_of_nil & _).
Qed.

Lemma expected_group_dom inc st k :
  is_Some (expected_group inc st !! k) <->
  exists kind, (k, kind) ∈ status_keys st /\ kind = Group.
Proof.
  unfold expected_group, status_keys. destruct (status_output st) as [o|].
  - rewrite collect_map_is_Some. unfold group_assignments, output_keys.
    rewrite map_fst_map. unlist. cbn. split.
    + intros (g & -> & Hg). eauto 12.
    + intros (kind & Hk & ->). naive_solver.
  - rewrite lookup_empty. split; [by intros []|]. by intros (? & ?%not_elem_of_nil & _).
Qed.

Lemma expected_mod_dom st k :
  is_Some (expected_mod st !! k) <->
  exists kind, (k, kind) ∈ status_keys st /\ kind = ModuleKind.
Proof.
  unfold expected_mod, status_keys. destruct (status_output st) as [o|].
  - rewrite collect_map_is_Some. unfold module_assignments, output_keys.
    rewrite map_fst_map. unlist. cbn. split.
    + intros (g & -> & Hg). eauto 12.
    + intros (kind & Hk & ->). naive_solver.
  - rewrite lookup_empty. split; [by intros []|]. by intros (? & ?%not_elem_of_nil & _).
Qed.

Lemma expected_delayed_None st id :
  expected_delayed st !! id = None <-> id ∉ status_ids st.
Proof.
  rewrite eq_None_not_Some. unfold expected_delayed, status_ids.
  destruct (status_output st) as [o|].
  - rewrite collect_map_is_Some. unfold delayed_assignments. by rewrite map_fst_map.
  - rewrite lookup_empty. split; [by intros _ ?%not_elem_of_nil|by intros _ []].
Qed.

(** Removing the left-over keys of the right kind removes exactly the cells
    that the new incarnation did not write. *)
Lemma stale_cells_removed {C} (P : KeyKind -> Prop) `{!forall k, Decision (P k)}
    (e m : gmap Key C) (st : ExecutionStatus Output VmError) (keys : list (Key * KeyKind))
    (prev : gmap Key KeyKind) :
  (forall k kind, (k, kind) ∈ keys -> kind_of k = kind) ->
  (forall k, is_Some (m !! k) -> exists kind, (k, kind) ∈ keys /\ P kind) ->
  (forall k, is_Some (e !! k) <-> exists kind, (k, kind) ∈ status_keys st /\ P kind) ->
  (forall k, prev !! k = if decide (k ∈ (status_keys st).*1) then None
                         else collect_map keys !! k) ->
  foldl (fun m kk => delete kk.1 m) (e ∪ m) (filter (fun kk => P kk.2) (map_to_list prev)) = e.
Proof.
  intros Hkinds Hm He Hprev.
  assert (Hst : forall k kind, (k, kind) ∈ status_keys st -> kind_of k = kind).
  { unfold status_keys. intros k kind. destruct (status_output st); [apply output_kinds|].
    by intros ?%not_elem_of_nil. }
  apply union_delete_stale.
  - intros k Hs Hn. destruct (Hm k Hs) as (kind & Hk & HP).
    assert (Hc : is_Some (collect_map keys !! k))
      by (apply collect_map_is_Some, list_elem_of_fmap; by exists (k, kind)).
    destruct Hc as [kind' Hc]. pose proof (collect_map_lookup _ _ _ Hc) as Hk'.
    apply Hkinds in Hk, Hk' as Hkk. subst kind'.
    apply elem_of_map. exists (k, kind_of k). split; [done|].
    apply list_elem_of_filter; cbn. split; [by rewrite Hk|].
    apply elem_of_map_to_list. rewrite Hprev. case_decide as Hw; [|done]. exfalso.
    apply list_elem_of_fmap in Hw as ([k' kind'] & [= ->] & Hw).
    assert (is_Some (e !! k')) as [? ?]; [|congruence].
    apply He. exists kind'. split; [done|]. apply Hst in Hw. by rewrite <-Hw, Hk.
  - intros k ([k' kind] & -> & [_ Hk]%list_elem_of_filter)%elem_of_map. cbn.
    apply elem_of_map_to_list in Hk. rewrite Hprev in Hk. case_decide as Hw; [done|].
    apply eq_None_not_Some. intros (kind' & Hk' & _)%He. apply Hw, list_elem_of_fmap.
    by exists (k', kind').
Qed.


Lemma installed_tracked inc st f : installed inc st f -> tracked f.
Proof.
  intros [Hout Hkeys Hids Hd Hg Hm Hdf _].
  assert (Hst : forall k kind, (k, kind) ∈ keys_of f -> kind_of k = kind).
  { intros k kind Hk%Hkeys. unfold status_keys in Hk.
    destruct (status_output st); [by eapply output_kinds|by apply not_elem_of_nil in Hk]. }
  split; [done|..].
  - intros k. rewrite Hd, expected_data_dom. intros (kind & Hk & Hne).
    rewrite !Hkeys. destruct kind; auto; done.
  - intros k. rewrite Hg, expected_group_dom. intros (kind & Hk & ->). by apply Hkeys.
  - intros k. rewrite Hm, expected_mod_dom. intros (kind & Hk & ->). by apply Hkeys.
  - intros id Hid%Hdf. by apply Hids.
Qed.

Lemma wpf_record i inc rs st rws (b : bool)
    (Q : outcome (result PErr bool) -> Footprint -> Prop) f :
  fp_data f = expected_data inc st ->
  fp_group f = expected_group inc st ->
  fp_mod f = expected_mod st ->
  (forall id, is_Some (fp_delayed f !! id) -> id ∈ status_ids st) ->
  fp_delayed f = expected_delayed st \/ (exists rs0, rs = capture_delayed_field_read_error rs0) ->
  (forall f', installed inc st f' -> Q (Done (Ok b)) f') ->
  (forall e f', Q (Done (Err e)) f') ->
  wpf i (let! recorded := on_lio (record i rs st rws) in
         if recorded then Ret (Ok b) else Ret (Err (PanicOrOr ModulePathReadWriteError))) Q f.
Proof.
  intros Hd Hg Hm Hdf Hx HQ HE. apply wpf_bind, wpf_act. intros w <-. cbn.
  pose proof (record_keys_law i rs st rws (w_lio w)) as Hkeys.
  pose proof (record_ids_law i rs st rws (w_lio w)) as Hids.
  pose proof (record_output_law i rs st rws (w_lio w)) as Hout.
  pose proof (record_reads_law i rs st rws (w_lio w)) as Hreads.
  destruct (record i rs st rws (w_lio w)) as [[] l]; cbn in *; apply wpf_ret; [|auto].
  apply HQ. split; cbn; auto. destruct Hx as [Hx|[rs0 ->]]; [by left|].
  right. exists rs0. by apply Hreads.
Qed.

(** [execute] on one transaction, while other threads leave its footprint
    alone: a run that returns [Ok] has installed the recorded status, and if
    it reports no update outside the previous write set, every key and every
    tag of a group it wrote was in that set. *)
Lemma wpf_execute i inc block f :
  (forall txn, guar (others i) (vm_execute txn i)) ->
  tracked f ->
  wpf i (execute vm_execute i inc block)
    (fun o f' => match o with
                 | Done (Ok outside) => exists st, installed inc st f' /\
                     (outside = false -> within_previous st f)
                 | Done (Err _) => True
                 | _ => f' = f
                 end) f.
Proof.
  intros Hvm [Hkinds Hd Hg Hm Hdf]. unfold execute.
  apply wpf_bind, wpf_expect; [|done]. intros txn _.
  apply wpf_bind, wpf_guar; [done|]. intros [[st reads]| |]; [|done|done].
  apply wpf_bind, wpf_asks. intros w1 <-. apply wpf_bind, wpf_asks. intros w2 Hw2.
  apply wpf_bindR, wpf_process_result; [|done]. intros rws s m Hprev Hout Htags Hids Hmd Hx.
  apply wpf_bind, wpf_remove_stale. intros f1 F1 F2 F3 F4.
  apply wpf_bind, wpf_remove_stale_delayed.
  assert (Hi : default [] (delayed_field_keys i (w_lio w2)) = ids_of (footprint i w1))
    by (unfold ids_of; by rewrite <-Hw2).
  apply (wpf_record i inc); cbn in *.
  - rewrite F1. pose proof (stale_cells_removed (fun kind => kind <> ModuleKind)
      (expected_data inc st) (data_at (w_data w1) i) st (keys_of (footprint i w1))
      (prev_modified_keys s)) as Hs. apply Hs; 
      [exact Hkinds| |apply expected_data_dom|exact Hprev].
    intros k [Hk|Hk]%Hd; eauto.
  - rewrite F2. pose proof (stale_cells_removed (fun kind => kind = Group)
      (expected_group inc st) (group_at (w_group w1) i) st (keys_of (footprint i w1))
      (prev_modified_keys s)) as Hs. apply Hs; 
      [exact Hkinds| |apply expected_group_dom|exact Hprev].
    intros k Hk%Hg; eauto.
  - rewrite F3. pose proof (stale_cells_removed (fun kind => kind = ModuleKind)
      (expected_mod st) (module_at (w_mod w1) i) st (keys_of (footprint i w1))
      (prev_modified_keys s)) as Hs. apply Hs; 
      [exact Hkinds| |apply expected_mod_dom|exact Hprev].
    intros k Hk%Hm; eauto.
  - intros id. rewrite F4, (foldl_delete_lookup (fun id => id)).
    case_decide as Hs; [by intros []|]. intros [Hid|Hid]%Hmd; [done|].
    apply Hdf in Hid. destruct (decide (id ∈ status_ids st)); [done|]. destruct Hs.
    apply elem_of_map. exists id. split; [done|].
    apply elem_of_elements. rewrite Hids, Hi. set_solver.
  - destruct Hx as [->|Hx]; [left|by right]. rewrite F4.
    apply (union_delete_stale (fun id => id)).
    + intros id Hid%Hdf Hn. apply elem_of_map. exists id. split; [done|].
      apply elem_of_elements. rewrite Hids, Hi. apply expected_delayed_None in Hn. set_solver.
    + intros id (id' & -> & Hid)%elem_of_map. apply expected_delayed_None.
      apply elem_of_elements in Hid. rewrite Hids in Hid. set_solver.
  - intros f' Hf'. exists st. split; [done|]. intros Hno. split; [|exact (Htags Hno)].
    intros k Hk. apply (proj2 (Hout Hno)) in Hk. cbn in Hk. by apply collect_map_is_Some in Hk.
  - done.
Qed.

(** ** No call made for transaction [i] touches another footprint *)
Section frame.
Context (i j : TxnIndex) (Hne : j <> i).

Lemma guar_apply_updates inc o s : guar (others j) (apply_updates i inc o s).
Proof using Hne LL.
  unfold apply_updates.
  apply guar_bind; [apply guar_foldP; intros s' [[k v] ops]|intros s1].
  { apply guar_bind; [eapply others_data; [done|intros m; apply data_write_law]|intros _].
    apply guar_bind; [eapply others_group; [done|intros m; apply group_write_law]|by intros []]. }
  apply guar_bind; [apply guar_foldP; intros s' [[k v] l]|intros s2].
  { apply guar_bind; [eapply others_data; [done|intros m; apply data_write_law]|by intros []]. }
  apply guar_bind; [apply guar_foldP; intros s' [k v]|intros s3].
  { apply guar_bind; [eapply others_mod; [done|intros m; apply module_write_law]|by intros []]. }
  apply guar_bind; [apply guar_foldP; intros s' [k d]|intros s4].
  { apply guar_bind; [eapply others_data; [done|intros m; apply data_add_delta_law]|by intros []]. }
  apply guar_bindR; [apply guar_foldR; intros s' [id ch]|done].
  apply guar_bind; [|by intros [|[]]]. eapply others_delayed; [done|]. intros m.
  destruct (delayed_record_law m id i (into_entry_no_additional_history ch)) as (c & H & _). eauto.
Qed.

Lemma guar_process_result inc st s : guar (others j) (process_result i inc st s).
Proof using Hne LL.
  assert (Hm : forall o, guar (others j)
      (mapE (F := PErr) CodeInvariantError (apply_updates i inc o s)))
    by (intros; apply guar_bind; [apply guar_apply_updates|done]).
  destruct st; cbn [process_result]; try done; (apply guar_bindR; [apply Hm|by intros []]).
Qed.

Lemma guar_execute inc block :
  (forall txn, guar (others j) (vm_execute txn i)) ->
  guar (others j) (execute vm_execute i inc block).
Proof using Hne LL.
  intros Hvm. unfold execute.
  apply guar_bind; [apply guar_expect|]. intros txn.
  apply guar_bind; [apply Hvm|]. intros [st reads].
  apply guar_bind; [apply guar_asks, _|]. intros keys.
  apply guar_bind; [apply guar_asks, _|]. intros ids.
  apply guar_bindR; [apply guar_process_result|]. intros [[res rws] s].
  apply guar_bind; [apply guar_foldP; intros [] [k []]; cbn [remove_stale]|intros _].
  - eapply others_data; [done|intros m; apply data_remove_law].
  - eapply others_mod; [done|intros m; apply module_remove_law].
  - apply guar_bind; [eapply others_data; [done|intros m; apply data_remove_law]|intros _].
    eapply others_group; [done|intros m; apply group_remove_law].
  - apply guar_bind; [apply guar_foldP; intros [] id|intros _].
    + eapply others_delayed; [done|]. intros m. exists (delete id). apply delayed_remove_law.
    + apply guar_bind; [by apply others_record|by intros []].
Qed.

Lemma guar_abort : guar (others j) (update_transaction_on_abort i).
Proof using Hne LL.
  unfold update_transaction_on_abort. apply guar_bind; [apply guar_asks, _|intros keys].
  apply guar_bind; [destruct keys as [keys|]; [|done]|intros _].
  - apply guar_foldP. intros [] [k []]; cbn [mark_estimate].
    + eapply others_data; [done|intros m; apply data_mark_estimate_law].
    + eapply others_mod; [done|intros m; apply module_mark_estimate_law].
    + apply guar_bind; [eapply others_data; [done|intros m; apply data_mark_estimate_law]|intros _].
      eapply others_group; [done|intros m; apply group_mark_estimate_law].
  - apply guar_bind; [apply guar_asks, _|intros ids]. destruct ids as [ids|]; [|done].
    apply guar_foldP. intros [] id. eapply others_delayed; [done|].
    intros m. exists (alter to_estimate id). apply delayed_mark_estimate_law.
Qed.

End frame.

(** A VM that only reads the versioned maps and the records. *)
Definition vm_reads_only : Prop :=
  forall txn i j, guar (others j) (vm_execute txn i).

End execute.
