(* ===== verification/ValidationSpec.v ===== *)
(** What [update_transaction_on_abort], [validate] and [update_on_validation]
    do to the shared store. *)
From stdpp Require Import base list gmap strings relations.
From S2P Require Import Prelude Prog BlockTypes World Footprint Execute ExecuteSpec.

Lemma to_estimate_idem {P} (c : cell P) : to_estimate (to_estimate c) = to_estimate c.
Proof. by destruct c. Qed.

Section abort.
Context {X : Externals} {VL : VersionedLaws X} {LL : LioLaws X} {KL : KindLaws X}.
Implicit Types (f : Footprint).

(** Every cell of the footprint has become an estimate; the records of the
    aborted incarnation are kept. *)
Definition estimated (f : Footprint) : Footprint :=
  mkFp _ (to_estimate <$> fp_data f) (to_estimate <$> fp_group f)
    (to_estimate <$> fp_mod f) (to_estimate <$> fp_delayed f)
    (fp_keys f) (fp_ids f) (fp_out f) (fp_reads f).

Lemma wpf_mark_estimates i l (Q : outcome unit -> Footprint -> Prop) f :
  Q (Done tt)
    (mkFp _
      (foldl (fun m kk => alter to_estimate kk.1 m) (fp_data f)
         (filter (fun kk => kk.2 <> ModuleKind) l))
      (foldl (fun m kk => alter to_estimate kk.1 m) (fp_group f)
         (filter (fun kk => kk.2 = Group) l))
      (foldl (fun m kk => alter to_estimate kk.1 m) (fp_mod f)
         (filter (fun kk => kk.2 = ModuleKind) l))
      (fp_delayed f) (fp_keys f) (fp_ids f) (fp_out f) (fp_reads f)) ->
  wpf i (foldP (mark_estimate i) tt l) Q f.
Proof.
  revert f. induction l as [|[k kind] l IH]; intros f HQ; cbn [foldP].
  { apply wpf_ret. by destruct f. }
  apply wpf_bind. destruct kind; cbn [mark_estimate].
  - eapply wpf_on_data; [intros m; apply data_mark_estimate_law|]. apply IH, HQ.
  - eapply wpf_on_mod; [intros m; apply module_mark_estimate_law|]. apply IH, HQ.
  - apply wpf_bind. eapply wpf_on_data; [intros m; apply data_mark_estimate_law|].
    eapply wpf_on_group; [intros m; apply group_mark_estimate_law|]. intros m _. apply IH, HQ.
Qed.

Lemma wpf_mark_estimates_delayed i l (Q : outcome unit -> Footprint -> Prop) f :
  Q (Done tt) (fp_on_delayed (fun m => foldl (fun m id => alter to_estimate id m) m l) f) ->
  wpf i (foldP (mark_estimate_delayed i) tt l) Q f.
Proof.
  revert f. induction l as [|id l IH]; intros f HQ; cbn [foldP].
  { apply wpf_ret. by destruct f. }
  apply wpf_bind. eapply wpf_on_delayed; [intros m; apply delayed_mark_estimate_law|].
  by apply IH.
Qed.

(** The recorded keys of one kind of map cover its cells, so marking them
    marks every cell. *)
Lemma marks_all_cells {P} (keys : list (Key * KeyKind)) (p : KeyKind -> Prop)
    `{!forall k, Decision (p k)} (m : gmap Key (cell P)) :
  (forall k, is_Some (m !! k) -> exists kind, (k, kind) ∈ keys /\ p kind) ->
  foldl (fun m kk => alter to_estimate kk.1 m) m (filter (fun kk => p kk.2) keys) =
  to_estimate <$> m.
Proof.
  intros Hm. apply (foldl_alter_all to_estimate (fun kk => kk.1)); [apply to_estimate_idem|].
  intros k (kind & Hk & Hp)%Hm. apply elem_of_map. exists (k, kind). split; [done|].
  by apply list_elem_of_filter.
Qed.

Lemma wpf_abort_ids i f (Q : outcome unit -> Footprint -> Prop) :
  (forall id, is_Some (fp_delayed f !! id) -> id ∈ ids_of f) ->
  Q (Done tt) (fp_on_delayed (fmap to_estimate) f) ->
  wpf i (let! ids := ask_lio (delayed_field_keys i) in
         match ids with
         | Some ids => foldP (mark_estimate_delayed i) tt ids
         | None => Ret tt
         end) Q f.
Proof.
  intros Hdf HQ. apply wpf_bind, wpf_asks. intros w Hw.
  assert (Hall : foldl (fun m id => alter to_estimate id m) (fp_delayed f) (ids_of f) =
    to_estimate <$> fp_delayed f).
  { apply (foldl_alter_all to_estimate (fun id => id)); [apply to_estimate_idem|].
    intros id Hid%Hdf. apply elem_of_map. eauto. }
  assert (Hi : delayed_field_keys i (w_lio w) = fp_ids f) by by rewrite <-Hw.
  rewrite Hi. unfold fp_on_delayed in HQ. rewrite <-Hall in HQ.
  clear -HQ. unfold ids_of in HQ. destruct (fp_ids f) as [ids|] eqn:E; cbn in HQ.
  - apply wpf_mark_estimates_delayed. unfold fp_on_delayed. by rewrite E.
  - apply wpf_ret. destruct f; cbn in *. by subst.
Qed.

(** Marking the recorded keys of a transaction turns all its cells into
    estimates. *)
Lemma wpf_abort i f (Q : outcome unit -> Footprint -> Prop) :
  tracked f -> Q (Done tt) (estimated f) ->
  wpf i (update_transaction_on_abort i) Q f.
Proof.
  intros [Hkinds Hd Hg Hm Hdf] HQ. unfold update_transaction_on_abort.
  apply wpf_bind, wpf_asks. intros w Hw.
  assert (Hk : modified_keys i (w_lio w) = fp_keys f) by by rewrite <-Hw.
  rewrite Hk. clear Hk Hw w.
  assert (HD : forall k, is_Some (fp_data f !! k) ->
    exists kind, (k, kind) ∈ keys_of f /\ kind <> ModuleKind)
    by (intros k [?|?]%Hd; eauto).
  pose proof (marks_all_cells (keys_of f) (fun kind => kind <> ModuleKind) _ HD) as ED.
  pose proof (marks_all_cells (keys_of f) (fun kind => kind = Group) (fp_group f)
    ltac:(intros k ?%Hg; eauto)) as EG.
  pose proof (marks_all_cells (keys_of f) (fun kind => kind = ModuleKind) (fp_mod f)
    ltac:(intros k ?%Hm; eauto)) as EM.
  unfold estimated in HQ. rewrite <-ED, <-EG, <-EM in HQ. clear -HQ Hdf. unfold keys_of in HQ.
  apply wpf_bind. destruct (fp_keys f) as [keys|] eqn:Hkf; cbn in HQ.
  - apply wpf_mark_estimates, wpf_abort_ids; [done|]. unfold fp_on_delayed; cbn. by rewrite Hkf.
  - apply wpf_ret, wpf_abort_ids; [done|]. destruct f; cbn in *. by subst.
Qed.

Lemma wpf_update_on_validation i inc valid wave f :
  tracked f ->
  wpf i (update_on_validation i inc valid wave)
    (fun o f' => match o with
                 | Done _ => f' = f \/ (valid = false /\ f' = estimated f)
                 | _ => False
                 end) f.
Proof.
  intros Ht. unfold update_on_validation. apply wpf_bind.
  assert (Hkeep : wpf i (let! _ := on_sched (do_ (finish_validation i wave)) in
      let! _ := (if valid then on_sched (do_ queueing_commits_arm) else Ret tt) in
      Ret (@Ok PanicError _ Retry))
    (fun o f' => match o with
                 | Done _ => f' = f \/ (valid = false /\ f' = estimated f)
                 | _ => False end) f).
  { apply wpf_bind, wpf_act. intros w <-. apply wpf_bind. destruct valid.
    - apply wpf_act. intros w' Hw'. apply wpf_ret. left. exact Hw'.
    - apply wpf_ret, wpf_ret. by left. }
  destruct valid; [by apply wpf_ret|].
  apply wpf_act. intros w Hw.
  assert (Hs : footprint i (snd (let '(a, s) := try_abort i inc (w_sched w) in
    (a, set_sched s w))) = f) by (subst f; by destruct (try_abort i inc (w_sched w))).
  rewrite Hs. destruct (fst _); [|done].
  apply wpf_bind, wpf_abort; [done|]. apply wpf_act. intros w' Hw'. right. split; [done|].
  rewrite <-Hw'. by destruct (finish_abort i inc (w_sched w')).
Qed.

Lemma sched_abort i : guar (keeps w_sched) (update_transaction_on_abort i).
Proof.
  unfold update_transaction_on_abort, mark_estimate, mark_estimate_delayed, ask_lio, on_data,
    on_group, on_mod, on_delayed. solve_guar.
Qed.

Lemma guar_update_on_validation i j inc valid wave :
  j <> i -> guar (others j) (update_on_validation i inc valid wave).
Proof.
  intros Hne. pose proof (guar_abort i j Hne). pose proof (@others_sched X VL).
  unfold update_on_validation. solve_guar.
Qed.

(** C10. [update_on_validation]: a valid transaction is reported to the
    scheduler, which is told to try committing, and nothing else changes; a
    failed validation that does not win the abort is only reported; one that
    wins it turns every cell of the transaction into an estimate, leaves the
    cells of all the others alone, and gives back the task the scheduler
    answers. *)
Theorem validation_outcome i inc (valid : bool) wave w :
  tracked (footprint i w) ->
  let '(r, w') := run (update_on_validation i inc valid wave) w in
  if valid then
    r = Done (Ok Retry) /\
    w' = set_sched (queueing_commits_arm (finish_validation i wave (w_sched w))) w
  else
    match try_abort i inc (w_sched w) with
    | (false, s) => r = Done (Ok Retry) /\ w' = set_sched (finish_validation i wave s) w
    | (true, s) =>
        r = Done (fst (finish_abort i inc s)) /\ w_sched w' = snd (finish_abort i inc s) /\
        footprint i w' = estimated (footprint i w) /\
        forall j, j <> i -> footprint j w' = footprint j w
    end.
Proof.
  intros Ht. unfold update_on_validation. destruct valid; [done|]. rewrite run_bind.
  unfold on_sched at 1, act at 1. cbn [run].
  destruct (try_abort i inc (w_sched w)) as [[] s]; [|done]. rewrite run_bind.
  set (w1 := set_sched s w).
  assert (Ha : wpf i (update_transaction_on_abort i)
    (fun o f' => o = Done tt /\ f' = estimated (footprint i w1)) (footprint i w1))
    by (apply wpf_abort; [exact Ht|done]).
  pose proof (wp_alone _ _ _ _ (Ha w1 eq_refl)) as [Hr Hf].
  pose proof (rtc_keeps _ _ _ (run_guar (keeps w_sched) _ w1 (sched_abort i))) as Hs.
  assert (Hj : forall j, j <> i ->
    footprint j (snd (run (update_transaction_on_abort i) w1)) = footprint j w1)
    by (intros j Hne; apply rtc_others, run_guar, guar_abort; done).
  destruct (run (update_transaction_on_abort i) w1) as [r w2]; cbn in Hr, Hf, Hs, Hj. subst r.
  cbn. rewrite Hs. destruct (finish_abort i inc s) as [task s']; cbn. split_and!; [done|done| |].
  - etrans; [|exact Hf]. done.
  - intros j Hne. etrans; [|by apply Hj]. done.
Qed.

End abort.

(** ** Threads that execute and validate *)
Section threads.
Context {X : Externals} {VL : VersionedLaws X} {LL : LioLaws X} {KL : KindLaws X}.
Context (vm_execute : Txn -> TxnIndex ->
           prog World (ExecutionStatus Output VmError * ReadSet)).

(** The two tasks of a worker that write to the versioned maps. *)
Inductive txn_task : Type :=
| RunExecute (i : TxnIndex) (inc : Incarnation)
| RunValidation (i : TxnIndex) (inc : Incarnation) (valid : bool) (wave : Wave).

Definition task_idx (t : txn_task) : TxnIndex :=
  match t with RunExecute i _ | RunValidation i _ _ _ => i end.

Definition task_thread (block : list Txn) (t : txn_task)
    : prog World (result PErr bool + result PanicError SchedulerTask) :=
  match t with
  | RunExecute i inc => let! r := execute vm_execute i inc block in Ret (inl r)
  | RunValidation i inc valid wave =>
      let! r := update_on_validation i inc valid wave in Ret (inr r)
  end.

(** What the footprint [f'] of the task's transaction is, when the task has
    ended with [r], if it was [f] at first. *)
Definition task_post (t : txn_task) (f : Footprint)
    (r : result PErr bool + result PanicError SchedulerTask) (f' : Footprint) : Prop :=
  match t, r with
  | RunExecute _ inc, inl (Ok outside) =>
      exists st, installed inc st f' /\
        (outside = false -> within_previous st f)
  | RunExecute _ _, inl (Err _) => True
  | RunValidation _ _ valid _, inr _ => f' = f \/ (valid = false /\ f' = estimated f)
  | _, _ => False
  end.

Lemma wpf_task block t f :
  vm_reads_only vm_execute -> tracked f ->
  wpf (task_idx t) (task_thread block t)
    (fun o f' => match o with Done r => task_post t f r f' | _ => f' = f end) f.
Proof.
  intros Hvm Ht. destruct t as [i inc|i inc valid wave]; cbn [task_idx task_thread].
  - apply wpf_bind. eapply wpf_mono; [|apply (wpf_execute vm_execute i inc block f); [|done]].
    + intros [[outside|e]| |] f' H; [..|done|done]; by apply wpf_ret.
    + intros txn. apply Hvm.
  - apply wpf_bind. eapply wpf_mono; [|by apply wpf_update_on_validation].
    intros [r| |] f' H; [by apply wpf_ret|done..].
Qed.

Lemma guar_task block t j :
  vm_reads_only vm_execute -> j <> task_idx t -> guar (others j) (task_thread block t).
Proof.
  intros Hvm Hne. destruct t; cbn in *.
  - apply guar_bind; [|done]. apply guar_execute; [done|]. intros. apply Hvm.
  - apply guar_bind; [|done]. by apply guar_update_on_validation.
Qed.

(** The footprint of a task's transaction in a pool of tasks of distinct
    transactions, when the task has ended. *)
Lemma pool_footprint block tasks w schedule n t :
  vm_reads_only vm_execute ->
  NoDup (map task_idx tasks) ->
  tracked (footprint (task_idx t) w) ->
  tasks !! n = Some t ->
  let tw := run_schedule (map (task_thread block) tasks, w) schedule in
  match fst tw !! n with
  | Some (Ret r) => task_post t (footprint (task_idx t) w) r (footprint (task_idx t) (snd tw))
  | Some Crash => footprint (task_idx t) (snd tw) = footprint (task_idx t) w
  | _ => True
  end.
Proof.
  intros Hvm Hnd Ht Hn.
  pose proof (wp_pool (others (task_idx t)) _ w n _ schedule _ (map_lookup_Some _ _ _ _ Hn)
    (wpf_task block t _ Hvm Ht w eq_refl)) as Hpool. cbn zeta in *.
  match type of Hpool with ?A -> _ => assert (Ho : A) end.
  { intros m q Hm Hq. apply map_lookup_Some_1 in Hq as (t' & -> & Ht').
    apply guar_task; [done|]. intros Heq. apply Hm.
    apply (NoDup_lookup (map task_idx tasks) m n (task_idx t)); [done|..].
    - rewrite Heq. by apply map_lookup_Some.
    - by apply map_lookup_Some. }
  specialize (Hpool Ho). by destruct (fst (run_schedule _ _) !! n) as [[]|].
Qed.

(** C1. Threads execute and validate distinct transactions at the same time,
    their accesses to the shared maps interleaved in any order.  A thread that
    has executed an incarnation without error has left in the maps, for its
    transaction, exactly the cells of the status it recorded: all its writes,
    deltas and delayed field changes, and nothing of the previous incarnation
    (a delayed field change can be missing only if the reads it recorded carry
    the read error); and if it reports no write outside the previous write
    set, every key it wrote was recorded before and every tag of a resource
    group was in the group's cell.  A thread that has
    validated a transaction has left its cells as they were, or, if the
    validation failed, marked all of them as estimates.  A thread that has
    panicked has not touched the cells. *)
Theorem threads_keep_footprints block tasks w schedule n t :
  vm_reads_only vm_execute ->
  NoDup (map task_idx tasks) ->
  (forall t, t ∈ tasks -> tracked (footprint (task_idx t) w)) ->
  tasks !! n = Some t ->
  let tw := run_schedule (map (task_thread block) tasks, w) schedule in
  match fst tw !! n with
  | Some (Ret r) => task_post t (footprint (task_idx t) w) r (footprint (task_idx t) (snd tw))
  | Some Crash => footprint (task_idx t) (snd tw) = footprint (task_idx t) w
  | _ => True
  end.
Proof.
  intros Hvm Hnd Htr Hn. apply pool_footprint; [done..| |done].
  apply Htr. by eapply list_elem_of_lookup_2.
Qed.

End threads.
