(* ===== verification/Commit.v ===== *)
(** Committing transactions: [validate_commit_ready],
    [prepare_and_queue_commit_ready_txns],
    [materialize_aggregator_v1_delta_writes] and [materialize_txn_commit] of
    [executor.rs].

    [shared_commit_state.acquire()] is the access to [w_blp]; the counters and
    logs of the gas limit processor are left out. *)
From stdpp Require Import base list gmap strings pretty relations.
From S2P Require Import Prelude Prog BlockTypes World Execute.

Section definitions.
Context {X : Externals} `{!ViewOps X World}.
Context (vm_execute : Txn -> TxnIndex ->
           prog World (ExecutionStatus Output VmError * ReadSet)).
(** [base_view.get_state_value(k)]: [None] is an error of the storage. *)
Context (get_state_value : Key -> option StateValue).
(** [self.config.onchain.block_gas_limit_type] and whether
    [self.transaction_commit_hook] is set. *)
Context (block_gas_limit_type : GasLimitType) (transaction_commit_hook : bool).

Definition on_blp {A} (f : blp -> A * blp) : prog World A :=
  act (fun w => let '(a, b) := f (w_blp w) in (a, set_blp b w)).

Definition hook (e : HookEvent) : prog World unit :=
  if transaction_commit_hook then update (fun w => set_hooks (w_hooks w ++ [e]) w) else Ret tt.

Definition validate_commit_ready (txn_idx : TxnIndex) : progR World PanicError bool :=
  let! rs := ask_lio (read_set txn_idx) in
  let! rs := expect rs in
  let! valid := asks (fun w => validate_delayed_field_reads rs (w_delayed w) txn_idx) in
  match valid with
  | Err e => Ret (Err e)
  | Ok false => Ret (Ok false)
  | Ok true =>
      let! ids := ask_lio (delayed_field_keys txn_idx) in
      match ids with
      | None => Ret (Ok true)
      | Some ids =>
          let! r := on_delayed (vdf_try_commit txn_idx ids) in
          Ret (match r with
               | Ok _ => Ok true
               | Err ReExecutionNeeded => Ok false
               | Err (CommitCodeInvariantError msg) => Err (code_invariant_error msg)
               end)
      end
  end.

Definition show_bool (b : bool) : string := if b then "true" else "false".

(** The body of [if !validate_commit_ready(..)? { .. }]: one final execution. *)
Definition reexecute (txn_idx : TxnIndex) (incarnation : Incarnation) (block : list Txn)
    : progR World PErr unit :=
  let! _ := update_transaction_on_abort txn_idx in
  let? _ := execute vm_execute txn_idx (incarnation + 1) block in
  let? _ := mapE CodeInvariantError (on_sched (finish_execution_during_commit txn_idx)) in
  let? validation_result := mapE CodeInvariantError (validate txn_idx) in
  let! failed :=
    if negb validation_result then Ret true
    else
      let! r := validate_commit_ready txn_idx in
      Ret (negb (match r with Ok b => b | Err _ => false end)) in
  if (failed : bool) then
    Ret (Err (CodeInvariantError (code_invariant_error
      ("Validation after re-execution failed for " +:+ pretty txn_idx +:+
       " txn, validate() = " +:+ show_bool validation_result))))
  else Ret (Ok tt).

(** [approx_output_size]. *)
Definition approx_output_size (txn_idx : TxnIndex) (block : list Txn)
    : prog World (option N) :=
  match block_output_limit block_gas_limit_type with
  | None => Ret None
  | Some _ =>
      let! size := ask_lio (lio_output_approx_size txn_idx) in
      match size with
      | None => Ret None
      | Some approx_output =>
          let! extra :=
            if include_user_txn_size_in_block_output block_gas_limit_type then
              let! txn := expect (block !! txn_idx) in
              Ret (user_txn_bytes_len txn)
            else Ret 0%N in
          let! total := add_w 64 approx_output extra in
          Ret (Some total)
      end
  end.

(** The gas accounting of a committed transaction. *)
Definition account_gas (txn_idx : TxnIndex) (block : list Txn) : prog World unit :=
  let! fee := ask_lio (lio_fee_statement txn_idx) in
  match fee with
  | None => Ret tt
  | Some fee_statement =>
      let! approx := approx_output_size txn_idx block in
      let! summary :=
        match conflict_penalty_window block_gas_limit_type with
        | None => Ret None
        | Some _ =>
            let! s := ask_lio (get_txn_read_write_summary txn_idx) in
            Ret (Some s)
        end in
      let! _ := on_blp (do_ (accumulate_fee_statement fee_statement summary approx)) in
      let! n := asks (fun w => num_txns (w_sched w)) in
      let! last := sub_w 32 (N.of_nat n) 1 in
      let! end_block :=
        if (N.of_nat txn_idx <? last)%N then
          asks (fun w => should_end_block_parallel (w_blp w))
        else Ret false in
      if (end_block : bool) then on_lio (do_ (update_to_skip_rest txn_idx)) else Ret tt
  end.

(** The closure mapped over [groups_to_finalize!]. *)
Definition finalize_one (txn_idx : TxnIndex) (acc : list FinalizedGroup)
    (g : Key * Value * bool) : progR World PanicError (list FinalizedGroup) :=
  let '(group_key, metadata_op, is_read_needing_exchange) := g in
  let! finalized_result :=
    if is_read_needing_exchange
    then asks (fun w => vgd_get_last_committed_group group_key (w_group w))
    else on_group (vgd_finalize_group group_key txn_idx) in
  Ret (match map_finalized_group group_key finalized_result metadata_op
               is_read_needing_exchange with
       | Ok fg => Ok (acc ++ [fg])
       | Err e => Err e
       end).

(** One iteration of the commit loop up to the [defer!]: everything that can
    refuse to commit the transaction. *)
Definition prepare_commit (txn_idx : TxnIndex) (incarnation : Incarnation) (block : list Txn)
    : progR World PErr unit :=
  let? ready := mapE CodeInvariantError (validate_commit_ready txn_idx) in
  let? _ := (if ready : bool then Ret (Ok tt) else reexecute txn_idx incarnation block) in
  let? _ := mapE PanicOrOr (ask_lio (check_fatal_vm_error txn_idx)) in
  let? _ := mapE CodeInvariantError
              (ask_lio (check_execution_status_during_commit txn_idx)) in
  let! _ := account_gas txn_idx block in
  let! groups := ask_lio (groups_to_finalize txn_idx) in
  let? finalized_groups :=
    mapE CodeInvariantError (foldR (finalize_one txn_idx) [] groups) in
  let! _ := on_lio (do_ (record_finalized_group txn_idx finalized_groups)) in
  Ret (Ok tt).

Definition is_execution_task (t : SchedulerTask) : bool :=
  match t with ExecutionTask _ _ _ => true | _ => false end.

(** The halting test; [true] is the [return Ok(())] in the loop. *)
Definition commit_halts (txn_idx : TxnIndex) (scheduler_task : SchedulerTask)
    : prog World bool :=
  let! n := asks (fun w => num_txns (w_sched w)) in
  let! stop := (if txn_idx + 1 =? n then Ret true
                else ask_lio (block_skips_rest_at_idx txn_idx)) in
  if (stop : bool) then
    let! _ := (if txn_idx + 1 =? n then assert_ (negb (is_execution_task scheduler_task))
               else Ret tt) in
    let! _ := on_sched halt in
    Ret true
  else Ret false.

(** The [while let] loop. [defer!] runs [add_to_commit_queue] when the body of
    the loop is left, after the halting test. *)
Fixpoint prepare_and_queue_commit_ready_txns (fuel : nat) (scheduler_task : SchedulerTask)
    (block : list Txn) : progR World PErr unit :=
  match fuel with
  | 0 => NoFuel
  | S fuel =>
      let! next := on_sched try_commit in
      match next with
      | None => Ret (Ok tt)
      | Some (txn_idx, incarnation) =>
          let? _ := prepare_commit txn_idx incarnation block in
          let! stop := commit_halts txn_idx scheduler_task in
          let! _ := on_sched (do_ (add_to_commit_queue txn_idx)) in
          if (stop : bool) then Ret (Ok tt)
          else prepare_and_queue_commit_ready_txns fuel scheduler_task block
      end
  end.

(** The closure passed to [unwrap_or_else]. *)
Definition materialize_from_base (k : Key) (op : DeltaOp) : prog World N :=
  let! storage_value := expect (get_state_value k) in
  let w := from_state_value storage_value in
  let! value := expect (as_u128 w) in
  let! value_u128 := expect value in
  let! _ := on_data (do_ (vd_set_base_value k w)) in
  expect (apply_to op value_u128).

Definition materialize_delta_write (txn_idx : TxnIndex) (acc : list (Key * WriteOp)) (k : Key)
    : prog World (list (Key * WriteOp)) :=
  let! r := on_data (vd_materialize_delta k txn_idx) in
  let! committed_delta :=
    match r with Ok v => Ret v | Err op => materialize_from_base k op end in
  Ret (acc ++ [(k, delta_write_op committed_delta)]).

Definition materialize_aggregator_v1_delta_writes (txn_idx : TxnIndex)
    : prog World (list (Key * WriteOp)) :=
  let! keys := ask_lio (aggregator_v1_delta_keys txn_idx) in
  foldP (materialize_delta_write txn_idx) [] keys.

(** The call of the commit listener. *)
Definition commit_listener (txn_idx : TxnIndex) : prog World unit :=
  if transaction_commit_hook then
    let! out := ask_lio (txn_output txn_idx) in
    let! out := expect out in
    match out with
    | Success output | SkipRest output => hook (on_transaction_committed txn_idx output)
    | Abort _ => hook (on_execution_aborted txn_idx)
    | SpeculativeExecutionAbortError _ | DelayedFieldsCodeInvariantError _ => Crash
    end
  else Ret tt.

(** [final_results[txn_idx] = t], which panics out of range. *)
Definition store_result (txn_idx : TxnIndex) (t : Output) : prog World unit :=
  let! len := asks (fun w => length (w_results w)) in
  let! _ := assert_ (txn_idx <? len) in
  update (fun w => set_results (<[txn_idx := t]> (w_results w)) w).

Definition take_final_result (txn_idx : TxnIndex) : prog World unit :=
  let! out := on_lio (take_output txn_idx) in
  match out with
  | Success t | SkipRest t => store_result txn_idx t
  | Abort _ => Ret tt
  | SpeculativeExecutionAbortError _ | DelayedFieldsCodeInvariantError _ => Crash
  end.

Definition materialize_txn_commit (txn_idx : TxnIndex) : progR World PanicError unit :=
  let! finalized_groups := on_lio (take_finalized_group txn_idx) in
  let? materialized := map_id_to_values_in_group_writes txn_idx finalized_groups in
  let? serialized_groups :=
    Ret (map_err (fun e => code_invariant_error ("Panic error in serializing groups " +:+ e))
           (serialize_groups materialized)) in
  let! resource_write_set := on_lio (take_resource_write_set txn_idx) in
  let? to_materialize :=
    asks (fun w => lio_resource_writes_to_materialize txn_idx resource_write_set
                     (w_lio w) (w_data w)) in
  let? materialized_resource_write_set := map_id_to_values_in_write_set txn_idx to_materialize in
  let! events := ask_lio (lio_events txn_idx) in
  let? materialized_events := map_id_to_values_events txn_idx events in
  let! delta_writes := materialize_aggregator_v1_delta_writes txn_idx in
  let? _ := on_lio (record_materialized_txn_output txn_idx delta_writes
                      (materialized_resource_write_set ++ serialized_groups)
                      materialized_events) in
  let! _ := commit_listener txn_idx in
  let! _ := take_final_result txn_idx in
  Ret (Ok tt).

End definitions.
