(* ===== verification/Parallel.v ===== *)
(** The worker threads: [worker_loop] and [execute_transactions_parallel] of
    [executor.rs].

    Every loop takes the same fuel; [NoFuel] is a thread that has not left a
    loop within it.  [execute_transactions_parallel] takes the schedule, the
    order in which the threads perform their atomic actions, as an argument. *)
From stdpp Require Import base list gmap strings relations.
From S2P Require Import Prelude Prog BlockTypes World Execute Commit.

(** What [scope] does when the threads have moved along a schedule: it waits
    for all of them, and a panic of one of them is its own. *)
Inductive joined (A : Type) : Type :=
| AllDone (rs : list A)
| ThreadPanicked
| OutOfFuel
| StillRunning.
Arguments AllDone {A} rs.
Arguments ThreadPanicked {A}.
Arguments OutOfFuel {A}.
Arguments StillRunning {A}.

Fixpoint join {W A} (ps : list (prog W A)) : joined A :=
  match ps with
  | [] => AllDone []
  | p :: ps =>
      match p, join ps with
      | Act _ _, _ | _, StillRunning => StillRunning
      | NoFuel, _ | _, OutOfFuel => OutOfFuel
      | Crash, _ | _, ThreadPanicked => ThreadPanicked
      | Ret a, AllDone rs => AllDone (a :: rs)
      end
  end.

Lemma join_all_done {W A} (ps : list (prog W A)) rs : join ps = AllDone rs -> ps = map Ret rs.
Proof.
  revert rs. induction ps as [|p ps IH]; intros rs; cbn; [by intros [= <-]|].
  destruct p, (join ps) as [rs'| | |]; try done. intros [= <-]. cbn. f_equal. by apply IH.
Qed.

Section definitions.
Context {X : Externals} `{!ViewOps X World}.
Context (vm_execute : Txn -> TxnIndex ->
           prog World (ExecutionStatus Output VmError * ReadSet)).
Context (get_state_value : Key -> option StateValue).
Context (block_gas_limit_type : GasLimitType) (transaction_commit_hook : bool).

(** The closure [drain_commit_queue]. *)
Fixpoint drain_commit_queue (fuel : nat) : progR World PanicError unit :=
  match fuel with
  | 0 => NoFuel
  | S fuel =>
      let! next := on_sched pop_from_commit_queue in
      match next with
      | None => Ret (Ok tt)
      | Some txn_idx =>
          let? _ := materialize_txn_commit get_state_value transaction_commit_hook txn_idx in
          drain_commit_queue fuel
      end
  end.

(** [while scheduler.should_coordinate_commits() { .. }]. *)
Fixpoint coordinate_commits (n fuel : nat) (scheduler_task : SchedulerTask) (block : list Txn)
    : progR World PErr unit :=
  match fuel with
  | 0 => NoFuel
  | S fuel =>
      let! go := on_sched should_coordinate_commits in
      if (go : bool) then
        let? _ := prepare_and_queue_commit_ready_txns vm_execute block_gas_limit_type n
                    scheduler_task block in
        let! _ := on_sched (do_ queueing_commits_mark_done) in
        coordinate_commits n fuel scheduler_task block
      else Ret (Ok tt)
  end.

(** [match scheduler_task { .. }]; [None] is the [break] of the [Done] arm. *)
Definition perform_task (n : nat) (scheduler_task : SchedulerTask) (block : list Txn)
    : progR World PErr (option SchedulerTask) :=
  match scheduler_task with
  | ValidationTask txn_idx incarnation wave =>
      let? valid := mapE CodeInvariantError (validate txn_idx) in
      let? task := mapE CodeInvariantError
                     (update_on_validation txn_idx incarnation valid wave) in
      Ret (Ok (Some task))
  | ExecutionTask txn_idx incarnation Execution =>
      let? updates_outside := execute vm_execute txn_idx incarnation block in
      let? task := mapE CodeInvariantError
                     (on_sched (finish_execution txn_idx incarnation updates_outside)) in
      Ret (Ok (Some task))
  | ExecutionTask _ _ (Wakeup condvar) =>
      let! _ := update (fun w => set_resolved ({[condvar]} ∪ w_resolved w) w) in
      let! task := on_sched next_task in
      Ret (Ok (Some task))
  | Retry =>
      let! task := on_sched next_task in
      Ret (Ok (Some task))
  | TaskDone =>
      let? _ := mapE CodeInvariantError (drain_commit_queue n) in
      Ret (Ok None)
  end.

Fixpoint worker_steps (n fuel : nat) (scheduler_task : SchedulerTask) (block : list Txn)
    : progR World PErr unit :=
  match fuel with
  | 0 => NoFuel
  | S fuel =>
      let? _ := coordinate_commits n n scheduler_task block in
      let? _ := mapE CodeInvariantError (drain_commit_queue n) in
      let? next := perform_task n scheduler_task block in
      match next with
      | Some scheduler_task => worker_steps n fuel scheduler_task block
      | None => Ret (Ok tt)
      end
  end.

Definition worker_loop (fuel : nat) (block : list Txn) : progR World PErr unit :=
  worker_steps fuel fuel Retry block.

(** The closure passed to [s.spawn]; its value is the result of the loop. *)
Definition worker (fuel : nat) (block : list Txn) : prog World (result PErr unit) :=
  let! r := worker_loop fuel block in
  match r with
  | Ok _ => Ret r
  | Err _ =>
      let! _ := update (set_error true) in
      let! _ := on_sched halt in
      Ret r
  end.

(** The threads and the shared store when a schedule has been followed. *)
Definition run_workers (fuel concurrency_level : nat) (schedule : list nat) (block : list Txn)
    : pool World (result PErr unit) :=
  run_schedule (replicate concurrency_level (worker fuel block),
                init_world (length block) block_gas_limit_type) schedule.

Inductive parallel_outcome : Type :=
| PRunning
| POutOfFuel
| PPanic
| PResult (r : result unit (list Output)).

Definition execute_transactions_parallel (fuel concurrency_level : nat) (schedule : list nat)
    (block : list Txn) : parallel_outcome :=
  if negb (1 <? concurrency_level) then PPanic
  else
    match block with
    | [] => PResult (Ok [])
    | _ =>
        let '(ps, w) := run_workers fuel concurrency_level schedule block in
        match join ps with
        | StillRunning => PRunning
        | OutOfFuel => POutOfFuel
        | ThreadPanicked => PPanic
        | AllDone _ => PResult (if negb (w_error w) then Ok (w_results w) else Err tt)
        end
    end.

End definitions.
