(* ===== verification/Sequential.v ===== *)
(** Sequential execution: [apply_output_sequential] and
    [execute_transactions_sequential] of [executor.rs].

    The store of a sequential execution is the [UnsyncMap], the module
    conflict records of [last_input_output], the gas limit processor, what the
    current [LatestView] has captured, the counter of fresh identifiers and
    the calls of the commit hook. *)
From stdpp Require Import base list gmap strings relations.
From S2P Require Import Prelude Prog BlockTypes World.

Record SeqWorld `{Externals} : Type := mkSeqWorld {
  s_map : um;
  s_lio : lio;
  s_blp : blp;
  s_view : seq_view;
  s_counter : N;
  s_hooks : list HookEvent;
}.

Section definitions.
Context {X : Externals} `{!ViewOps X SeqWorld}.
(** [executor.execute_transaction] on the view of transaction [i], and
    [output.materialize_agg_v1]. *)
Context (vm_execute_seq : Txn -> TxnIndex -> prog SeqWorld (ExecutionStatus Output VmError)).
Context (materialize_agg_v1 : TxnIndex -> Output -> prog SeqWorld Output).
(** [groups_to_finalize!(output,)]. *)
Context (output_groups_to_finalize : Output -> list (Key * Value * bool)).
Context (block_gas_limit_type : GasLimitType) (transaction_commit_hook : bool).

Abbreviation SErr := (SequentialBlockExecutionError VmError).

(** [From<PanicError>]. *)
Definition from_panic (e : PanicError) : SErr := ErrorToReturn (FatalBlockExecutorError e).

Definition seq_set_map (m : um) (w : SeqWorld) : SeqWorld :=
  mkSeqWorld _ m (s_lio w) (s_blp w) (s_view w) (s_counter w) (s_hooks w).
Definition seq_set_lio (l : lio) (w : SeqWorld) : SeqWorld :=
  mkSeqWorld _ (s_map w) l (s_blp w) (s_view w) (s_counter w) (s_hooks w).
Definition seq_set_blp (b : blp) (w : SeqWorld) : SeqWorld :=
  mkSeqWorld _ (s_map w) (s_lio w) b (s_view w) (s_counter w) (s_hooks w).
Definition seq_set_view (v : seq_view) (w : SeqWorld) : SeqWorld :=
  mkSeqWorld _ (s_map w) (s_lio w) (s_blp w) v (s_counter w) (s_hooks w).
Definition seq_set_hooks (h : list HookEvent) (w : SeqWorld) : SeqWorld :=
  mkSeqWorld _ (s_map w) (s_lio w) (s_blp w) (s_view w) (s_counter w) h.

Definition on_um {A} (f : um -> A * um) : prog SeqWorld A :=
  act (fun w => let '(a, m) := f (s_map w) in (a, seq_set_map m w)).
Definition fetch_delayed_field (id : Ident) : prog SeqWorld (option DelayedValue) :=
  asks (fun w => um_fetch_delayed_field id (s_map w)).

Definition seq_hook (e : HookEvent) : prog SeqWorld unit :=
  if transaction_commit_hook
  then update (fun w => seq_set_hooks (s_hooks w ++ [e]) w) else Ret tt.

(** ** [apply_output_sequential] *)

Definition write_resource (_ : unit) (kv : Key * Value * option Layout) : prog SeqWorld unit :=
  let '(key, write_op, layout) := kv in on_um (do_ (um_write key write_op layout)).

Definition write_group_op (group_key : Key) (_ : unit) (op : Tag * (Value * option Layout))
    : progR SeqWorld SErr unit :=
  let '(value_tag, (group_op, maybe_layout)) := op in
  mapE from_panic (on_um (um_insert_group_op group_key value_tag group_op maybe_layout)).

Definition write_group (_ : unit) (g : Key * Value * list (Tag * (Value * option Layout)))
    : progR SeqWorld SErr unit :=
  let '(group_key, metadata_op, group_ops) := g in
  let? _ := foldR (write_group_op group_key) tt group_ops in
  liftR (on_um (do_ (um_write group_key metadata_op None))).

Definition write_aggregator (_ : unit) (kv : Key * Value) : prog SeqWorld unit :=
  on_um (do_ (um_write kv.1 kv.2 None)).

Definition write_module (_ : unit) (kv : Key * Value) : prog SeqWorld unit :=
  on_um (do_ (um_write_module kv.1 kv.2)).

(** The locals [updates] and [second_phase]. *)
Abbreviation Updates := (gmap Ident DelayedValue).
Abbreviation SecondPhase := (list (Ident * Ident * DelayedApply)).

Definition first_phase_change (s : Updates * SecondPhase)
    (ic : Ident * DelayedChange DelayedValue DelayedApply)
    : prog SeqWorld (Updates * SecondPhase) :=
  let '(updates, second_phase) := s in
  let '(id, change) := ic in
  match change with
  | Create value =>
      let! present := fetch_delayed_field id in
      let! _ := assert_ (negb (bool_decide (is_Some present))) in
      Ret (<[id := value]> updates, second_phase)
  | Apply apply =>
      match get_apply_base_id apply id with
      | Previous base_id =>
          let! base := fetch_delayed_field base_id in
          let! base := expect base in
          let! value := expect (apply_to_base apply base) in
          Ret (<[id := value]> updates, second_phase)
      | Current base_id => Ret (updates, second_phase ++ [(id, base_id, apply)])
      end
  end.

Definition second_phase_change (updates : Updates) (c : Ident * Ident * DelayedApply)
    : prog SeqWorld Updates :=
  let '(id, base_id, apply) := c in
  let! base :=
    match updates !! base_id with
    | Some v => Ret v
    | None => let! v := fetch_delayed_field base_id in expect v
    end in
  let! value := expect (apply_to_base apply base) in
  Ret (<[id := value]> updates).

Definition write_delayed (_ : unit) (iv : Ident * DelayedValue) : prog SeqWorld unit :=
  on_um (do_ (um_write_delayed_field iv.1 iv.2)).

(** The delayed field changes of an output. *)
Definition apply_delayed_fields (changes : list (Ident * DelayedChange DelayedValue DelayedApply))
    : prog SeqWorld unit :=
  let! (updates, second_phase) := foldP first_phase_change (∅, []) changes in
  let! updates := foldP second_phase_change updates second_phase in
  foldP write_delayed tt (map_to_list updates).

Definition apply_output_sequential (output : Output)
    (resource_write_set : list (Key * Value * option Layout)) : progR SeqWorld SErr unit :=
  let! _ := foldP write_resource tt resource_write_set in
  let? _ := foldR write_group tt (resource_group_write_set output) in
  let! _ := foldP write_aggregator tt (aggregator_v1_write_set output) in
  let! _ := foldP write_module tt (module_write_set output) in
  let! _ := apply_delayed_fields (delayed_field_change_set output) in
  Ret (Ok tt).

(** ** The checks of the bcs fallback *)

(** [iter.any(p)]. *)
Fixpoint anyP {W A} (p : A -> prog W bool) (l : list A) : prog W bool :=
  match l with
  | [] => Ret false
  | x :: l => let! b := p x in if (b : bool) then Ret true else anyP p l
  end.

(** The closure [finalize]. *)
Definition finalize_tag (acc : gmap Tag Bytes) (tv : Tag * ValueWithLayout Value Layout)
    : prog SeqWorld (gmap Tag Bytes) :=
  let '(resource_tag, value_with_layout) := tv in
  let value := match value_with_layout with RawFromStorage v | Exchanged v _ => v end in
  let! bytes := expect (extract_raw_bytes value) in
  Ret (<[resource_tag := bytes]> acc).

Definition finalize (group_key : Key) : prog SeqWorld (gmap Tag Bytes) :=
  let! group := asks (fun w => um_finalize_group group_key (s_map w)) in
  foldP finalize_tag ∅ group.

Definition apply_group_op (acc : gmap Tag Bytes) (op : Tag * (Value * option Layout))
    : prog SeqWorld (gmap Tag Bytes) :=
  let '(value_tag, (group_op, _)) := op in
  if is_deletion group_op then Ret (delete value_tag acc)
  else
    let! bytes := expect (extract_raw_bytes group_op) in
    Ret (<[value_tag := bytes]> acc).

Definition serialization_error (output : Output) : prog SeqWorld bool :=
  let! reads_fail :=
    anyP (fun kv => let! finalized_group := finalize kv.1 in
                    Ret (bcs_to_bytes_is_err finalized_group))
      (group_reads_needing_delayed_field_exchange output) in
  if (reads_fail : bool) then Ret true
  else
    anyP (fun g => let! finalized_group := finalize g.1.1 in
                   let! finalized_group := foldP apply_group_op finalized_group g.2 in
                   Ret (bcs_to_bytes_is_err finalized_group))
      (resource_group_write_set output).

(** ** One transaction *)

Definition seq_finalize_one (acc : list FinalizedGroup) (g : Key * Value * bool)
    : progR SeqWorld PanicError (list FinalizedGroup) :=
  let '(group_key, metadata_op, is_read_needing_exchange) := g in
  let! finalized_group := asks (fun w => um_finalize_group group_key (s_map w)) in
  Ret (match map_finalized_group group_key (Ok finalized_group) metadata_op
               is_read_needing_exchange with
       | Ok fg => Ok (acc ++ [fg])
       | Err e => Err e
       end).

(** The materialization block. *)
Definition materialize_sequential (idx : TxnIndex) (output : Output)
    (resource_write_set : list (Key * Value * option Layout)) : progR SeqWorld SErr Output :=
  let? finalized_groups :=
    mapE from_panic (foldR seq_finalize_one [] (output_groups_to_finalize output)) in
  let? materialized :=
    mapE from_panic (map_id_to_values_in_group_writes idx finalized_groups) in
  let? serialized_groups :=
    Ret (map_err (fun _ => ResourceGroupSerializationError) (serialize_groups materialized)) in
  let? to_materialize :=
    mapE from_panic (asks (fun w => um_resource_writes_to_materialize output
                                      resource_write_set (s_map w))) in
  let? materialized_resource_write_set :=
    mapE from_panic (map_id_to_values_in_write_set idx to_materialize) in
  let? materialized_events :=
    mapE from_panic (map_id_to_values_events idx (get_events output)) in
  Ret (map_err from_panic
         (incorporate_materialized_txn_output []
            (materialized_resource_write_set ++ serialized_groups) materialized_events output)).

(** [approx_output_size]. *)
Definition seq_approx_output_size (txn : Txn) (output : Output) : prog SeqWorld (option N) :=
  match block_output_limit block_gas_limit_type with
  | None => Ret None
  | Some _ =>
      let! total := add_w 64 (output_approx_size output)
        (if include_user_txn_size_in_block_output block_gas_limit_type
         then user_txn_bytes_len txn else 0%N) in
      Ret (Some total)
  end.

(** Gas accounting and conflict tracking of a transaction. *)
Definition seq_account_gas (txn : Txn) (output : Output) : prog SeqWorld unit :=
  let! approx := seq_approx_output_size txn output in
  let! sequential_reads :=
    act (fun w => let '(r, v) := take_sequential_reads (s_view w) in (r, seq_set_view v w)) in
  let summary :=
    match conflict_penalty_window block_gas_limit_type with
    | None => None
    | Some _ => Some (read_write_summary sequential_reads output)
    end in
  let! conflict :=
    act (fun w => let '(b, l) := check_and_append_module_rw_conflict
                    (module_reads sequential_reads) (module_write_set output).*1 (s_lio w) in
                  (b, seq_set_lio l w)) in
  let! _ := (if (conflict : bool)
             then update (fun w => seq_set_blp (process_module_rw_conflict (s_blp w)) w)
             else Ret tt) in
  update (fun w => seq_set_blp
    (accumulate_fee_statement (fee_statement output) summary approx (s_blp w)) w).

(** What the arm of a successful status does with [ret]: push the output and go
    on to the tests at the end of the loop, or push a discarded output and
    [continue]. *)
Inductive committed : Type :=
| Pushed (o : Output)
| Discarded (o : Output).

Definition commit_sequential (resource_group_bcs_fallback : bool) (txn : Txn) (idx : TxnIndex)
    (output : Output) : progR SeqWorld SErr committed :=
  let! _ := seq_account_gas txn output in
  let! output := materialize_agg_v1 idx output in
  let! _ := assert_ (length (aggregator_v1_delta_set output) =? 0) in
  let! failed := (if resource_group_bcs_fallback then serialization_error output
                  else Ret false) in
  if (failed : bool) then
    Ret (Ok (Discarded (discard_output DELAYED_MATERIALIZATION_CODE_INVARIANT_ERROR)))
  else
    let resource_writes := resource_write_set output in
    let? _ := apply_output_sequential output resource_writes in
    let? output := materialize_sequential idx output resource_writes in
    let! incorrect := asks (fun w => seq_incorrect_use (s_view w)) in
    if (incorrect : bool) then
      Ret (Err (from_panic (code_invariant_error "Incorrect use in sequential execution")))
    else
      let! _ := seq_hook (on_transaction_committed idx output) in
      Ret (Ok (Pushed output)).

Definition abort_sequential (idx : TxnIndex) (e : BlockExecutionError VmError)
    : progR SeqWorld SErr committed :=
  let! _ := seq_hook (on_execution_aborted idx) in
  Ret (Err (ErrorToReturn e)).

(** [match res { .. }]. *)
Definition process_sequential (resource_group_bcs_fallback : bool) (txn : Txn) (idx : TxnIndex)
    (res : ExecutionStatus Output VmError) : progR SeqWorld SErr committed :=
  match res with
  | Abort err => abort_sequential idx (FatalVMError err)
  | DelayedFieldsCodeInvariantError msg | SpeculativeExecutionAbortError msg =>
      abort_sequential idx (FatalBlockExecutorError (code_invariant_error msg))
  | Success output | SkipRest output =>
      commit_sequential resource_group_bcs_fallback txn idx output
  end.

Definition is_skip_rest (res : ExecutionStatus Output VmError) : bool :=
  match res with SkipRest _ => true | _ => false end.

(** The loop over the transactions from index [idx] on; returns [ret]. *)
Fixpoint sequential_loop (resource_group_bcs_fallback : bool) (num_txns : nat) (idx : nat)
    (ret : list Output) (txns : list Txn) : progR SeqWorld SErr (list Output) :=
  match txns with
  | [] => Ret (Ok ret)
  | txn :: txns =>
      let! _ := update (seq_set_view seq_view_new) in
      let! res := vm_execute_seq txn (as_u32 idx) in
      let must_skip := is_skip_rest res in
      let? c := process_sequential resource_group_bcs_fallback txn (as_u32 idx) res in
      match c with
      | Discarded o =>
          sequential_loop resource_group_bcs_fallback num_txns (S idx) (ret ++ [o]) txns
      | Pushed o =>
          if must_skip then Ret (Ok (ret ++ [o]))
          else
            let! stop :=
              if idx <? num_txns - 1 then asks (fun w => should_end_block_sequential (s_blp w))
              else Ret false in
            if (stop : bool) then Ret (Ok (ret ++ [o]))
            else sequential_loop resource_group_bcs_fallback num_txns (S idx) (ret ++ [o]) txns
      end
  end.

Definition init_seq_world (n : nat) : SeqWorld :=
  mkSeqWorld _ um_new (lio_new (as_u32 n)) (blp_new block_gas_limit_type n) seq_view_new
    (gen_id_start_value true) [].

(** [ret.resize_with(num_txns, skip_output)]. *)
Definition resize_with_skip (n : nat) (ret : list Output) : list Output :=
  take n ret ++ replicate (n - length ret) skip_output.

Definition execute_transactions_sequential (resource_group_bcs_fallback : bool)
    (block : list Txn) : progR SeqWorld SErr (list Output) :=
  let num_txns := length block in
  let? ret := sequential_loop resource_group_bcs_fallback num_txns 0 [] block in
  Ret (Ok (resize_with_skip num_txns ret)).

End definitions.
