(* ===== verification/BlockExecutor.v ===== *)
(** [BlockExecutor]: its configuration, [new] and [execute_block] of
    [executor.rs], which runs a block in parallel, falls back to sequential
    execution and decides what becomes of a failed block. *)
From stdpp Require Import base list gmap strings relations.
From S2P Require Import Prelude Prog BlockTypes World Execute Commit Parallel Sequential.

(** The fields of [BlockExecutorConfig] that [executor.rs] reads. *)
Record BlockExecutorConfig `{Externals} : Type := mkConfig {
  concurrency_level : nat;
  allow_fallback : bool;
  discard_failed_blocks : bool;
  block_gas_limit_type : GasLimitType;
}.

(** The executor and what it is run against: the parameters of the VM, of the
    views and of the base state. *)
Record BlockExecutor `{Externals} : Type := mkBlockExecutor {
  config : BlockExecutorConfig;
  transaction_commit_hook : bool;
}.

Section definitions.
Context {X : Externals} `{!ViewOps X World} `{!ViewOps X SeqWorld}.

(** [BlockExecutor::new]: [None] is a failed assertion. *)
Definition new (num_cpus : nat) (config : BlockExecutorConfig) (hook : bool)
    : option BlockExecutor :=
  if (0 <? concurrency_level config) && (concurrency_level config <=? num_cpus)
  then Some (mkBlockExecutor _ config hook) else None.

Context (vm_execute : Txn -> TxnIndex ->
           prog World (ExecutionStatus Output VmError * ReadSet)).
Context (get_state_value : Key -> option StateValue).
Context (vm_execute_seq : Txn -> TxnIndex -> prog SeqWorld (ExecutionStatus Output VmError)).
Context (materialize_agg_v1 : TxnIndex -> Output -> prog SeqWorld Output).
Context (output_groups_to_finalize : Output -> list (Key * Value * bool)).

(** The result of running a block: it may still be running, or have run out of
    fuel, when the schedule of the parallel execution ends; it may panic. *)
Inductive block_outcome : Type :=
| BRunning
| BOutOfFuel
| BPanic
| BResult (r : result (BlockExecutionError VmError) (list Output)).

Abbreviation SErr := (SequentialBlockExecutionError VmError).

(** One sequential attempt, on a fresh store. *)
Definition run_sequential (self : BlockExecutor) (resource_group_bcs_fallback : bool)
    (block : list Txn) : outcome (result SErr (list Output)) :=
  fst (run (execute_transactions_sequential vm_execute_seq materialize_agg_v1
              output_groups_to_finalize (block_gas_limit_type (config self))
              (transaction_commit_hook self) resource_group_bcs_fallback block)
         (init_seq_world (block_gas_limit_type (config self)) (length block))).

Definition run_parallel (self : BlockExecutor) (fuel : nat) (schedule : list nat)
    (block : list Txn) : parallel_outcome :=
  execute_transactions_parallel vm_execute get_state_value (block_gas_limit_type (config self))
    (transaction_commit_hook self) fuel (concurrency_level (config self)) schedule block.

Definition discard_code (e : BlockExecutionError VmError) : StatusCode :=
  match e with
  | FatalBlockExecutorError _ => DELAYED_MATERIALIZATION_CODE_INVARIANT_ERROR
  | FatalVMError _ => UNKNOWN_INVARIANT_VIOLATION_ERROR
  end.

(** The end of [execute_block], once [sequential_error] is known. *)
Definition fail_block (self : BlockExecutor) (block : list Txn)
    (sequential_error : BlockExecutionError VmError) : block_outcome :=
  if discard_failed_blocks (config self)
  then BResult (Ok (map (fun _ => discard_output (discard_code sequential_error)) block))
  else BResult (Err sequential_error).

(** The second sequential run, with the bcs fallback. *)
Definition retry_sequential (self : BlockExecutor) (block : list Txn) : block_outcome :=
  match run_sequential self true block with
  | Panicked => BPanic
  | Diverged => BOutOfFuel
  | Done (Ok output) => BResult (Ok output)
  | Done (Err ResourceGroupSerializationError) =>
      fail_block self block (FatalBlockExecutorError (code_invariant_error
        "resource group serialization during bcs fallback should not happen"))
  | Done (Err (ErrorToReturn err)) => fail_block self block err
  end.

(** The part of [execute_block] after the parallel run. *)
Definition execute_block_sequential (self : BlockExecutor) (block : list Txn) : block_outcome :=
  match run_sequential self false block with
  | Panicked => BPanic
  | Diverged => BOutOfFuel
  | Done (Ok output) => BResult (Ok output)
  | Done (Err ResourceGroupSerializationError) =>
      if negb (allow_fallback (config self)) then BPanic else retry_sequential self block
  | Done (Err (ErrorToReturn err)) => fail_block self block err
  end.

Definition execute_block (self : BlockExecutor) (fuel : nat) (schedule : list nat)
    (block : list Txn) : block_outcome :=
  if 1 <? concurrency_level (config self) then
    match run_parallel self fuel schedule block with
    | PRunning => BRunning
    | POutOfFuel => BOutOfFuel
    | PPanic => BPanic
    | PResult (Ok output) => BResult (Ok output)
    | PResult (Err _) =>
        if negb (allow_fallback (config self)) then BPanic
        else execute_block_sequential self block
    end
  else execute_block_sequential self block.

End definitions.
