(* ===== verification/SequentialSpec.v ===== *)
(** Theorems about sequential execution. *)
From stdpp Require Import base list gmap strings relations.
From S2P Require Import Prelude Prog BlockTypes World Sequential.

(** The resource group [k] as [finalize_group] shows it, and what a group
    operation does to it. *)
Definition group_of `{Externals} (m : um) (k : Key) : gmap Tag (ValueWithLayout Value Layout) :=
  collect_map (um_finalize_group k m).

Definition group_change `{Types} (op : Tag * (Value * option Layout))
    (g : gmap Tag (ValueWithLayout Value Layout)) : gmap Tag (ValueWithLayout Value Layout) :=
  if is_deletion op.2.1 then delete op.1 g else <[op.1 := Exchanged op.2.1 op.2.2]> g.

(** What the theorems need of [UnsyncMap]: data, groups, modules and delayed
    fields are four maps, and each write changes one entry of one of them; an
    [insert_group_op] that succeeds has changed one tag of one group. *)
Class UnsyncLaws (X : Externals) := {
  um_data : um -> gmap Key (Value * option Layout);
  um_modules : um -> gmap Key Value;
  um_write_law k v l m :
    um_data (um_write k v l m) = <[k := (v, l)]> (um_data m) /\
    um_modules (um_write k v l m) = um_modules m /\
    (forall k', group_of (um_write k v l m) k' = group_of m k') /\
    forall id, um_fetch_delayed_field id (um_write k v l m) = um_fetch_delayed_field id m;
  um_write_module_law k v m :
    um_data (um_write_module k v m) = um_data m /\
    um_modules (um_write_module k v m) = <[k := v]> (um_modules m) /\
    (forall k', group_of (um_write_module k v m) k' = group_of m k') /\
    forall id, um_fetch_delayed_field id (um_write_module k v m) = um_fetch_delayed_field id m;
  um_insert_group_op_law k t v l m :
    let m' := snd (um_insert_group_op k t v l m) in
    um_data m' = um_data m /\ um_modules m' = um_modules m /\
    (is_ok (fst (um_insert_group_op k t v l m)) = true -> forall k', group_of m' k' =
       if decide (k = k') then group_change (t, (v, l)) (group_of m k') else group_of m k') /\
    forall id, um_fetch_delayed_field id m' = um_fetch_delayed_field id m;
  um_write_delayed_law id v m :
    um_data (um_write_delayed_field id v m) = um_data m /\
    um_modules (um_write_delayed_field id v m) = um_modules m /\
    (forall k', group_of (um_write_delayed_field id v m) k' = group_of m k') /\
    forall id', um_fetch_delayed_field id' (um_write_delayed_field id v m) =
      if decide (id' = id) then Some v else um_fetch_delayed_field id' m;
}.

Section delayed.
Context {X : Externals} {UL : UnsyncLaws X}.
Implicit Types (updates : gmap Ident DelayedValue) (sp : list (Ident * Ident * DelayedApply)).

Definition old_fields (w : SeqWorld) (id : Ident) : option DelayedValue :=
  um_fetch_delayed_field id (s_map w).

(** A change that is resolved in the second phase, and its base. *)
Definition current_base (ic : Ident * DelayedChange DelayedValue DelayedApply)
    : option (Ident * Ident * DelayedApply) :=
  match ic with
  | (id, Apply apply) =>
      match get_apply_base_id apply id with
      | Current base_id => Some (id, base_id, apply)
      | Previous _ => None
      end
  | _ => None
  end.

(** The value a first-phase change gives to its field. *)
Definition first_value (old : Ident -> option DelayedValue)
    (ic : Ident * DelayedChange DelayedValue DelayedApply) : option DelayedValue :=
  match ic with
  | (id, Create v) => match old id with None => Some v | Some _ => None end
  | (id, Apply apply) =>
      match get_apply_base_id apply id with
      | Previous base_id => old base_id ≫= apply_to_base apply
      | Current _ => None
      end
  end.

Lemma wpr_first_phase changes updates sp w (Q : outcome _ -> SeqWorld -> Prop) :
  Q Panicked w ->
  (forall updates',
     (forall ic, ic ∈ changes -> current_base ic = None ->
        exists v, first_value (old_fields w) ic = Some v) ->
     (forall ic, NoDup changes.*1 -> ic ∈ changes -> current_base ic = None ->
        updates' !! ic.1 = first_value (old_fields w) ic) ->
     (forall id, (forall ic, ic ∈ changes -> ic.1 = id -> current_base ic <> None) ->
        updates' !! id = updates !! id) ->
     Q (Done (updates', sp ++ omap current_base changes)) w) ->
  wpr (foldP first_phase_change (updates, sp) changes) Q w.
Proof.
  intros HP. revert updates sp.
  induction changes as [|[id ch] changes IH]; intros updates sp HQ; cbn [foldP].
  { apply wpr_ret. rewrite <-(app_nil_r sp). apply HQ; set_solver. }
  apply wpr_bind.
  assert (Hstep : forall v,
    first_value (old_fields w) (id, ch) = Some v -> current_base (id, ch) = None ->
    wpr (foldP first_phase_change (<[id:=v]> updates, sp) changes) Q w).
  { intros v Hv Hc. apply IH. intros u' H1 H2 H3.
    assert (HQ' := HQ u'). cbn [omap list_omap] in HQ'. rewrite Hc in HQ'. apply HQ'.
    - intros ic [->|Hic]%elem_of_cons Hn; eauto.
    - intros ic Hnd [->|Hic]%elem_of_cons Hn; cbn in Hnd; apply NoDup_cons in Hnd as [Hni Hnd].
      + cbn [fst]. rewrite Hv. rewrite H3; [apply lookup_insert_eq|].
        intros ic Hic Hid. exfalso. apply Hni. rewrite <-Hid. by apply list_elem_of_fmap_2.
      + by apply H2.
    - intros id' Hid'. rewrite H3.
      + apply lookup_insert_ne. intros <-. apply (Hid' (id, ch)); [left|..]; done.
      + intros ic Hic. apply Hid'. by right. }
  destruct ch as [v|a]; cbn [first_phase_change].
  - apply wpr_bind, wpr_asks. fold (old_fields w id). apply wpr_bind, wpr_assert; [|done].
    intros Hb. apply wpr_ret, Hstep; [|done]. cbn. by destruct (old_fields w id).
  - destruct (get_apply_base_id a id) as [b|b] eqn:Hb.
    + apply wpr_bind, wpr_asks. fold (old_fields w b).
      apply wpr_bind, wpr_expect; [|done]. intros v Ho.
      apply wpr_bind, wpr_expect; [|done]. intros v' Ha.
      apply wpr_ret, Hstep; cbn; rewrite Hb, ?Ho; done.
    + apply wpr_ret, IH. intros u' H1 H2 H3.
      assert (HQ' := HQ u'). cbn [omap list_omap] in HQ'.
      assert (Hc : current_base (id, Apply a) = Some (id, b, a)) by (cbn; by rewrite Hb).
      rewrite Hc in HQ'. rewrite <-app_assoc. apply HQ'.
      * intros ic [->|Hic]%elem_of_cons Hn; [congruence|eauto].
      * intros ic Hnd [->|Hic]%elem_of_cons Hn; [congruence|]. cbn in Hnd.
        apply NoDup_cons in Hnd as [_ Hnd]. eauto.
      * intros id' Hid'. apply H3. intros ic Hic. apply Hid'. by right.
Qed.

(** A field after the updates, whether they change it or not. *)
Definition updated_field (w : SeqWorld) updates (id : Ident) : option DelayedValue :=
  match updates !! id with Some v => Some v | None => old_fields w id end.

Lemma wpr_second_phase sp updates w (Q : outcome _ -> SeqWorld -> Prop) :
  Q Panicked w ->
  (forall updates',
     (forall id, id ∉ (fun c => c.1.1) <$> sp -> updates' !! id = updates !! id) ->
     (forall sp1 sp2 id base_id apply,
        sp = sp1 ++ (id, base_id, apply) :: sp2 ->
        id ∉ (fun c => c.1.1) <$> sp2 ->
        base_id ∉ (fun c => c.1.1) <$> ((id, base_id, apply) :: sp2) ->
        exists v, updated_field w updates' base_id ≫= apply_to_base apply = Some v /\
                  updates' !! id = Some v) ->
     Q (Done updates') w) ->
  wpr (foldP second_phase_change updates sp) Q w.
Proof.
  intros HP. revert updates. induction sp as [|[[id b] a] sp IH]; intros updates HQ; cbn [foldP].
  { apply wpr_ret, HQ; [done|]. by intros [|? sp1]. }
  apply wpr_bind. cbn [second_phase_change]. apply wpr_bind.
  assert (Hstep : forall base, updated_field w updates b = Some base ->
    wpr (let! value := expect (apply_to_base a base) in Ret (<[id:=value]> updates))
      (fun o w' => match o with
                   | Done u => wpr (foldP second_phase_change u sp) Q w'
                   | Panicked => Q Panicked w'
                   | Diverged => Q Diverged w'
                   end) w).
  { intros base Hbase. apply wpr_bind, wpr_expect; [|done]. intros v Hv.
    apply wpr_ret, IH. intros u' H1 H2. apply HQ.
    - intros id' Hid'. cbn in Hid'. apply not_elem_of_cons in Hid' as [Hne Hid'].
      rewrite H1 by done. by apply lookup_insert_ne.
    - intros [|c sp1] sp2 id' b' a' Heq Hid' Hb'; cbn in Heq; simplify_eq.
      + exists v. rewrite H1 by done. rewrite lookup_insert_eq. split; [|done].
        cbn in Hb'. apply not_elem_of_cons in Hb' as [Hne Hb'].
        unfold updated_field in *. rewrite H1, lookup_insert_ne by done. by rewrite Hbase.
      + by eapply H2. }
  destruct (updates !! b) as [base|] eqn:Hb.
  - apply wpr_ret, Hstep. unfold updated_field. by rewrite Hb.
  - apply wpr_bind, wpr_asks, wpr_expect; [|done].
    intros base Ho. apply Hstep. unfold updated_field. by rewrite Hb.
Qed.

Lemma wpr_write_delayed l w (Q : outcome unit -> SeqWorld -> Prop) :
  NoDup l.*1 ->
  (forall w',
     (forall id v, (id, v) ∈ l -> old_fields w' id = Some v) ->
     (forall id, id ∉ l.*1 -> old_fields w' id = old_fields w id) ->
     um_data (s_map w') = um_data (s_map w) -> um_modules (s_map w') = um_modules (s_map w) ->
     (forall k, group_of (s_map w') k = group_of (s_map w) k) ->
     Q (Done tt) w') ->
  wpr (foldP write_delayed tt l) Q w.
Proof.
  revert w. induction l as [|[id v] l IH]; intros w Hnd HQ; cbn [foldP].
  { apply wpr_ret, HQ; [|done..]. by intros ? ? ?%not_elem_of_nil. }
  destruct (um_write_delayed_law id v (s_map w)) as (L1 & L2 & L4 & L3).
  cbn in Hnd. apply NoDup_cons in Hnd as [Hni Hnd].
  apply wpr_bind, wpr_act. cbn -[foldP]. apply IH; [done|]. intros w' H1 H2 H3 H4 H5.
  apply HQ; [| |by rewrite H3|by rewrite H4|intros k; by rewrite H5, L4].
  - intros id' v' [[= -> ->]|Hin]%elem_of_cons; [|by apply H1].
    rewrite H2 by done. unfold old_fields; cbn. by rewrite L3, decide_True.
  - intros id' [Hne Hni']%not_elem_of_cons. rewrite H2 by done.
    unfold old_fields; cbn. by rewrite L3, decide_False.
Qed.

(** The contract of the delayed field changes of an output: created fields
    hold their value, fields derived from a previous value use the values
    before the transaction, fields derived from a current value use the values
    after it, and no other field changes. *)
Record delayed_applied (changes : list (Ident * DelayedChange DelayedValue DelayedApply))
    (w w' : SeqWorld) : Prop := {
  da_create id v : (id, Create v) ∈ changes ->
    old_fields w id = None /\ old_fields w' id = Some v;
  da_previous id apply base_id :
    (id, Apply apply) ∈ changes -> get_apply_base_id apply id = Previous base_id ->
    exists v, old_fields w base_id ≫= apply_to_base apply = Some v /\
              old_fields w' id = Some v;
  da_current before id apply base_id after :
    changes = before ++ (id, Apply apply) :: after ->
    get_apply_base_id apply id = Current base_id ->
    base_id <> id ->
    (forall c, c ∈ after -> c.1 = base_id -> current_base c = None) ->
    exists v, old_fields w' base_id ≫= apply_to_base apply = Some v /\
              old_fields w' id = Some v;
  da_frame id : id ∉ changes.*1 -> old_fields w' id = old_fields w id;
}.

Lemma delayed_applied_before changes w1 w w' :
  (forall id, old_fields w1 id = old_fields w id) ->
  delayed_applied changes w1 w' -> delayed_applied changes w w'.
Proof.
  intros Hw [H1 H2 H3 H4]. split; [| |done|].
  - intros id v. rewrite <-Hw. apply H1.
  - intros id a b. rewrite <-Hw. apply H2.
  - intros id. rewrite <-Hw. apply H4.
Qed.

Lemma second_phase_ids
    (changes : list (Ident * DelayedChange DelayedValue DelayedApply)) (id : Ident) :
  id ∈ (fun c => c.1.1) <$> omap current_base changes <->
  exists c, c ∈ changes /\ c.1 = id /\ current_base c <> None.
Proof.
  rewrite list_elem_of_fmap. setoid_rewrite list_elem_of_omap. split.
  - intros ([[id' b] a] & -> & c & Hc & Hcb). exists c. split_and!; [done| |by rewrite Hcb].
    destruct c as [id2 [|a2]]; cbn in Hcb; [done|].
    destruct (get_apply_base_id a2 id2); by simplify_eq.
  - intros (c & Hc & <- & Hn). destruct (current_base c) as [[[id' b] a]|] eqn:Hcb; [|done].
    exists (id', b, a). split; [|by exists c].
    destruct c as [id2 [|a2]]; cbn in Hcb; [done|].
    destruct (get_apply_base_id a2 id2); by simplify_eq.
Qed.

Lemma NoDup_fst_eq {A B} (l : list (A * B)) c c' :
  NoDup l.*1 -> c ∈ l -> c' ∈ l -> c.1 = c'.1 -> c = c'.
Proof.
  intros Hnd [n Hn]%list_elem_of_lookup_1 [m Hm]%list_elem_of_lookup_1 Heq.
  assert (n = m) as ->; [|congruence].
  apply (NoDup_lookup l.*1 n m c.1); [done|..]; rewrite list_lookup_fmap, ?Hn, ?Hm; cbn; congruence.
Qed.

Lemma wpr_apply_delayed_fields changes w (Q : outcome unit -> SeqWorld -> Prop) :
  NoDup changes.*1 ->
  Q Panicked w ->
  (forall w', delayed_applied changes w w' ->
     um_data (s_map w') = um_data (s_map w) -> um_modules (s_map w') = um_modules (s_map w) ->
     (forall k, group_of (s_map w') k = group_of (s_map w) k) ->
     Q (Done tt) w') ->
  wpr (apply_delayed_fields changes) Q w.
Proof.
  intros Hnd HP HQ. unfold apply_delayed_fields.
  apply wpr_bind, wpr_first_phase; [done|]. intros u1 F0 F1 F2.
  apply wpr_bind, wpr_second_phase; [done|]. intros u2 S1 S2.
  apply wpr_write_delayed; [apply NoDup_fst_map_to_list|]. intros w' W1 W2 W3 W4 W5.
  apply HQ; [|done..].
  assert (Hw : forall id, old_fields w' id = updated_field w u2 id).
  { intros id. unfold updated_field. destruct (u2 !! id) as [v|] eqn:Hu.
    - by apply W1, elem_of_map_to_list.
    - apply W2. intros ([id' v] & -> & Hin)%list_elem_of_fmap.
      apply elem_of_map_to_list in Hin. cbn in *. congruence. }
  assert (Hfirst : forall c, c ∈ changes -> current_base c = None ->
    exists v, first_value (old_fields w) c = Some v /\ old_fields w' c.1 = Some v).
  { intros c Hc Hn. destruct (F0 c Hc Hn) as [v Hv]. exists v. split; [done|].
    rewrite Hw. unfold updated_field. rewrite S1; [by rewrite (F1 c), Hv|].
    intros (c' & Hc' & Heq & Hne)%second_phase_ids.
    by rewrite (NoDup_fst_eq _ _ _ Hnd Hc' Hc Heq) in Hne. }
  split.
  - intros id v Hc. destruct (Hfirst _ Hc eq_refl) as (v' & Hv & Hw'). cbn in Hv, Hw'.
    destruct (old_fields w id); by simplify_eq.
  - intros id a b Hc Hb. assert (Hn : current_base (id, Apply a) = None) by (cbn; by rewrite Hb).
    destruct (Hfirst _ Hc Hn) as (v & Hv & Hw'). cbn in Hv. rewrite Hb in Hv. eauto.
  - intros before id a b after -> Hb Hne Hafter.
    assert (Hc : current_base (id, Apply a) = Some (id, b, a)) by (cbn; by rewrite Hb).
    rewrite fmap_app in Hnd. cbn in Hnd.
    apply NoDup_app in Hnd as (_ & _ & [Hni Hnd]%NoDup_cons).
    destruct (S2 (omap current_base before) (omap current_base after) id b a) as (v & Hv & Hu).
    + rewrite omap_app. cbn [omap list_omap]. by rewrite Hc.
    + intros (c & Hin & <- & _)%second_phase_ids. apply Hni. by apply list_elem_of_fmap_2.
    + cbn. intros [->|(c & Hin & Hcb & Hcn)%second_phase_ids]%elem_of_cons; [done|].
      by apply Hcn, Hafter.
    + exists v. rewrite !Hw. unfold updated_field at 2. by rewrite Hu.
  - intros id Hni. rewrite Hw. unfold updated_field. rewrite S1, F2.
    + by rewrite lookup_empty.
    + intros c Hc <-. destruct Hni. by apply list_elem_of_fmap_2.
    + intros (c & Hc & <- & _)%second_phase_ids. by apply Hni, list_elem_of_fmap_2.
Qed.

End delayed.

(** ** [apply_output_sequential] *)
Section apply_output.
Context {X : Externals} {UL : UnsyncLaws X}.

(** The data writes of an output, in the order they are made. *)
Definition seq_data_writes (o : Output) : list (Key * (Value * option Layout)) :=
  map (fun kv => (kv.1.1, (kv.1.2, kv.2))) (resource_write_set o) ++
  map (fun g => (g.1.1, (g.1.2, None))) (resource_group_write_set o) ++
  map (fun kv => (kv.1, (kv.2, None))) (aggregator_v1_write_set o).

(** The group operations of an output, and group [k] after some of them. *)
Definition seq_group_ops (o : Output) : list (Key * (Tag * (Value * option Layout))) :=
  resource_group_write_set o ≫= fun g => map (pair g.1.1) g.2.
Definition group_after (ops : list (Key * (Tag * (Value * option Layout)))) (k : Key)
    (g : gmap Tag (ValueWithLayout Value Layout)) : gmap Tag (ValueWithLayout Value Layout) :=
  foldl (fun g kop => if decide (kop.1 = k) then group_change kop.2 g else g) g ops.

(** The data writes [ds], the group operations [gs] and the module writes [ms]
    were made, and no delayed field changed. *)
Record seq_delta (ds : list (Key * (Value * option Layout)))
    (gs : list (Key * (Tag * (Value * option Layout)))) (ms : list (Key * Value))
    (w w' : SeqWorld) : Prop := {
  sd_data : um_data (s_map w') = ins_all (um_data (s_map w)) ds;
  sd_modules : um_modules (s_map w') = ins_all (um_modules (s_map w)) ms;
  sd_groups k : group_of (s_map w') k = group_after gs k (group_of (s_map w) k);
  sd_fields id : old_fields w' id = old_fields w id;
}.

Lemma seq_delta_refl w : seq_delta [] [] [] w w.
Proof. done. Qed.

Lemma seq_delta_trans ds gs ms ds' gs' ms' w w' w'' :
  seq_delta ds gs ms w w' -> seq_delta ds' gs' ms' w' w'' ->
  seq_delta (ds ++ ds') (gs ++ gs') (ms ++ ms') w w''.
Proof.
  intros [D M G F] [D' M' G' F'].
  split; [by rewrite D', D, ins_all_app|by rewrite M', M, ins_all_app|..].
  - intros k. unfold group_after. by rewrite foldl_app, G', G.
  - intros id. by rewrite F', F.
Qed.

Lemma wpr_um_write k v l w (Q : outcome unit -> SeqWorld -> Prop) :
  (forall w', seq_delta [(k, (v, l))] [] [] w w' -> Q (Done tt) w') ->
  wpr (on_um (do_ (um_write k v l))) Q w.
Proof.
  intros HQ. apply wpr_act, HQ. destruct (um_write_law k v l (s_map w)) as (H1 & H2 & H3 & H4).
  by split.
Qed.

(** A loop of writes makes the writes of its iterations one after the other. *)
Lemma wpr_foldR_delta {A E} (body : unit -> A -> progR SeqWorld E unit)
    (ds : A -> list (Key * (Value * option Layout)))
    (gs : A -> list (Key * (Tag * (Value * option Layout)))) (l : list A) w
    (Q : outcome (result E unit) -> SeqWorld -> Prop) :
  (forall a w (Q : outcome (result E unit) -> SeqWorld -> Prop), 
     (forall e w', Q (Done (Err e)) w') ->
     (forall w', seq_delta (ds a) (gs a) [] w w' -> Q (Done (Ok tt)) w') ->
     wpr (body tt a) Q w) ->
  (forall e w', Q (Done (Err e)) w') ->
  (forall w', seq_delta (l ≫= ds) (l ≫= gs) [] w w' -> Q (Done (Ok tt)) w') ->
  wpr (foldR body tt l) Q w.
Proof.
  intros Hb HE. revert w. induction l as [|a l IH]; intros w HQ; cbn [foldR].
  { apply wpr_ret, HQ, seq_delta_refl. }
  apply wpr_bindR, Hb; [done|]. intros w1 H1. apply IH. intros w2 H2. apply HQ.
  by eapply (seq_delta_trans _ _ [] _ _ []).
Qed.

Lemma wpr_foldP_delta {A} (body : unit -> A -> prog SeqWorld unit)
    (ds : A -> list (Key * (Value * option Layout))) (ms : A -> list (Key * Value))
    (l : list A) w (Q : outcome unit -> SeqWorld -> Prop) :
  (forall a w (Q : outcome unit -> SeqWorld -> Prop),
     (forall w', seq_delta (ds a) [] (ms a) w w' -> Q (Done tt) w') -> wpr (body tt a) Q w) ->
  (forall w', seq_delta (l ≫= ds) [] (l ≫= ms) w w' -> Q (Done tt) w') ->
  wpr (foldP body tt l) Q w.
Proof.
  intros Hb. revert w. induction l as [|a l IH]; intros w HQ; cbn [foldP].
  { apply wpr_ret, HQ, seq_delta_refl. }
  apply wpr_bind, Hb. intros w1 H1. apply IH. intros w2 H2. apply HQ.
  by eapply (seq_delta_trans _ [] _ _ []).
Qed.

Lemma wpr_write_group g w (Q : outcome (result _ unit) -> SeqWorld -> Prop) :
  (forall e w', Q (Done (Err e)) w') ->
  (forall w', seq_delta [(g.1.1, (g.1.2, None))] (map (pair g.1.1) g.2) [] w w' ->
     Q (Done (Ok tt)) w') ->
  wpr (write_group tt g) Q w.
Proof.
  destruct g as [[k v] ops]. intros HE HQ. apply wpr_bindR.
  apply (wpr_foldR_delta _ (fun _ => []) (fun op => [(k, op)])); [|done|].
  - intros [t [v' l]] w1 Q' HE' HQ'. apply wpr_bind, wpr_act. cbn.
    pose proof (um_insert_group_op_law k t v' l (s_map w1)) as (H1 & H2 & H3 & H4).
    destruct (um_insert_group_op k t v' l (s_map w1)) as [[[]|e] m]; cbn in *; apply wpr_ret; [|done].
    apply HQ'. split; [done..|exact (H3 eq_refl)|done].
  - intros w1 H1. apply wpr_bind, wpr_um_write. intros w2 H2. apply wpr_ret, HQ.
    rewrite bind_nil, bind_singleton in H1.
    pose proof (seq_delta_trans _ _ _ _ _ _ _ _ _ H1 H2) as H3. by rewrite app_nil_r in H3.
Qed.

(** The functional contract of [apply_output_sequential]. *)
Record output_applied (o : Output) (w w' : SeqWorld) : Prop := {
  oa_data : um_data (s_map w') = ins_all (um_data (s_map w)) (seq_data_writes o);
  oa_groups k :
    group_of (s_map w') k = group_after (seq_group_ops o) k (group_of (s_map w) k);
  oa_modules : um_modules (s_map w') = ins_all (um_modules (s_map w)) (module_write_set o);
  oa_delayed : delayed_applied (delayed_field_change_set o) w w';
}.

Lemma wpr_apply_output o w (Q : outcome (result _ unit) -> SeqWorld -> Prop) :
  NoDup (delayed_field_change_set o).*1 ->
  (forall w', Q Panicked w') ->
  (forall e w', Q (Done (Err e)) w') ->
  (forall w', output_applied o w w' -> Q (Done (Ok tt)) w') ->
  wpr (apply_output_sequential o (resource_write_set o)) Q w.
Proof.
  intros Hnd HP HE HQ. unfold apply_output_sequential.
  apply wpr_bind, (wpr_foldP_delta _ (fun kv => [(kv.1.1, (kv.1.2, kv.2))]) (fun _ => [])).
  { intros [[k v] l] w1 Q' HQ'. by apply wpr_um_write. }
  intros w1 H1. apply wpr_bindR, (wpr_foldR_delta _ (fun g => [(g.1.1, (g.1.2, None))])
    (fun g => map (pair g.1.1) g.2)); [|done|].
  { intros g w2 Q' HE' HQ'. by apply wpr_write_group. }
  intros w2 H2. apply wpr_bind, (wpr_foldP_delta _ (fun kv => [(kv.1, (kv.2, None))]) (fun _ => [])).
  { intros kv w3 Q' HQ'. by apply wpr_um_write. }
  intros w3 H3. apply wpr_bind, (wpr_foldP_delta _ (fun _ => []) (fun kv => [kv])).
  { intros [k v] w4 Q' HQ'. apply wpr_act, HQ'.
    destruct (um_write_module_law k v (s_map w4)) as (L1 & L2 & L3 & L4). by split. }
  intros w4 H4. apply wpr_bind, wpr_apply_delayed_fields; [done..|]. intros w5 H5 D5 M5 G5.
  apply wpr_ret, HQ. rewrite !bind_nil in *. rewrite bind_singleton in H1. rewrite bind_singleton in H2.
  rewrite bind_singleton in H3.
  pose proof (seq_delta_trans _ _ _ _ _ _ _ _ _ H1 (seq_delta_trans _ _ _ _ _ _ _ _ _ H2
    (seq_delta_trans _ _ _ _ _ _ _ _ _ H3 H4))) as [D M G F].
  split; [| |by rewrite M5, M, bind_singleton, map_id|by eapply delayed_applied_before].
  - rewrite D5, D. unfold seq_data_writes. by rewrite app_nil_r.
  - intros k. rewrite G5, G. cbn [app]. by rewrite app_nil_r.
Qed.

End apply_output.

(** ** The loop over the block *)
Section loop.
Context {X : Externals} {UL : UnsyncLaws X} `{!ViewOps X SeqWorld}.
Context (vm_execute_seq : Txn -> TxnIndex -> prog SeqWorld (ExecutionStatus Output VmError)).
Context (materialize_agg_v1 : TxnIndex -> Output -> prog SeqWorld Output).
Context (output_groups_to_finalize : Output -> list (Key * Value * bool)).
Context (block_gas_limit_type : GasLimitType) (transaction_commit_hook : bool).

Abbreviation commit := (commit_sequential materialize_agg_v1 output_groups_to_finalize
  block_gas_limit_type transaction_commit_hook).
Abbreviation process := (process_sequential materialize_agg_v1 output_groups_to_finalize
  block_gas_limit_type transaction_commit_hook).
Abbreviation loop := (sequential_loop vm_execute_seq materialize_agg_v1 output_groups_to_finalize
  block_gas_limit_type transaction_commit_hook).
Abbreviation execute_sequential := (execute_transactions_sequential vm_execute_seq
  materialize_agg_v1 output_groups_to_finalize block_gas_limit_type transaction_commit_hook).

(** The VM, the materialization and the views, as programs that satisfy [P]. *)
Record parameters_satisfy (P : forall A, prog SeqWorld A -> Prop) : Prop := {
  ps_vm txn i : P _ (vm_execute_seq txn i);
  ps_agg i o : P _ (materialize_agg_v1 i o);
  ps_groups i gs : P _ (map_id_to_values_in_group_writes i gs);
  ps_writes i ws : P _ (map_id_to_values_in_write_set i ws);
  ps_events i es : P _ (map_id_to_values_events i es);
}.

Lemma fuelless_anyP {W A} (p : A -> prog W bool) l :
  (forall a, fuelless (p a)) -> fuelless (anyP p l).
Proof. intros Hp. induction l; cbn; [done|]. apply fuelless_bind; [done|]. by intros []. Qed.

Lemma fuelless_serialization o : fuelless (serialization_error o).
Proof.
  unfold serialization_error. apply fuelless_bind.
  - apply fuelless_anyP. intros kv. unfold finalize, finalize_tag. solve_fuelless.
  - intros []; [done|]. apply fuelless_anyP. intros g.
    unfold finalize, finalize_tag, apply_group_op. solve_fuelless.
Qed.

Lemma fuelless_apply_output o rws : fuelless (apply_output_sequential o rws).
Proof.
  unfold apply_output_sequential, write_resource, write_group, write_group_op, write_aggregator,
    write_module, apply_delayed_fields, first_phase_change, second_phase_change, write_delayed,
    fetch_delayed_field, on_um. solve_fuelless.
Qed.

Lemma fuelless_commit fb txn i o :
  parameters_satisfy (fun A p => fuelless p) -> fuelless (commit fb txn i o).
Proof.
  intros [_ Hagg Hg Hw He].
  unfold commit_sequential, seq_account_gas, seq_approx_output_size, add_w, materialize_sequential,
    seq_finalize_one, seq_hook.
  pose proof (fuelless_serialization). pose proof fuelless_apply_output. solve_fuelless.
Qed.

Lemma fuelless_loop fb n idx ret txns :
  parameters_satisfy (fun A p => fuelless p) -> fuelless (loop fb n idx ret txns).
Proof.
  intros HP. pose proof (fun txn i o => fuelless_commit fb txn i o HP) as Hc.
  destruct HP as [Hvm _ _ _ _].
  revert idx ret. induction txns as [|txn txns IH]; intros idx ret; cbn [sequential_loop]; [done|].
  unfold process_sequential, abort_sequential, seq_hook. solve_fuelless.
Qed.

(** C5. [apply_output_sequential] applies an output completely: the resource,
    group metadata and aggregator writes in this order, every operation of
    every resource group (an insertion or a deletion of its tag), the module
    writes, and the delayed field changes in two phases, in which a field derived from the
    current value of another uses that field's new value whether or not this
    transaction changes it, and a field derived from a previous value uses the
    value before the transaction. *)
Theorem apply_output_contract o w :
  NoDup (delayed_field_change_set o).*1 ->
  match run (apply_output_sequential o (resource_write_set o)) w with
  | (Done (Ok _), w') => output_applied o w w'
  | (Diverged, _) => False
  | _ => True
  end.
Proof.
  intros Hnd.
  assert (Hwp : wpr (apply_output_sequential o (resource_write_set o)) (fun r w' => match r with
    | Done (Ok _) => output_applied o w w' | _ => True end) w) by by apply wpr_apply_output.
  pose proof (fuelless_run _ w (fuelless_apply_output o (resource_write_set o))) as Hf.
  unfold wpr in Hwp. by destruct (run _ w) as [[[]| |] w'].
Qed.

(** *** The calls of the commit hook *)

Lemma guar_anyP {W A} (G : relation W) (p : A -> prog W bool) l :
  (forall a, guar G (p a)) -> guar G (anyP p l).
Proof. intros Hp. induction l; cbn; [done|]. apply guar_bind; [done|]. by intros []. Qed.

Lemma hooks_serialization o : guar (keeps s_hooks) (serialization_error o).
Proof.
  unfold serialization_error. apply guar_bind.
  - apply guar_anyP. intros kv. unfold finalize, finalize_tag. solve_guar.
  - intros []; [done|]. apply guar_anyP. intros g.
    unfold finalize, finalize_tag, apply_group_op. solve_guar.
Qed.

Lemma hooks_apply_output o rws : guar (keeps s_hooks) (apply_output_sequential o rws).
Proof.
  unfold apply_output_sequential, write_resource, write_group, write_group_op, write_aggregator,
    write_module, apply_delayed_fields, first_phase_change, second_phase_change, write_delayed,
    fetch_delayed_field, on_um. solve_guar.
Qed.

Lemma hooks_account_gas txn o : guar (keeps s_hooks) (seq_account_gas block_gas_limit_type txn o).
Proof. unfold seq_account_gas, seq_approx_output_size, add_w, update. solve_guar. Qed.

Lemma hooks_materialize i o rws :
  parameters_satisfy (fun A p => guar (keeps s_hooks) p) ->
  guar (keeps s_hooks) (materialize_sequential output_groups_to_finalize i o rws).
Proof.
  intros [_ _ Hg Hw He]. unfold materialize_sequential, seq_finalize_one. solve_guar.
Qed.

Definition hook_events (es : list HookEvent) : list HookEvent :=
  if transaction_commit_hook then es else [].

Lemma wpr_seq_hook e w (Q : outcome unit -> SeqWorld -> Prop) :
  (forall w', s_hooks w' = s_hooks w ++ hook_events [e] -> Q (Done tt) w') ->
  wpr (seq_hook transaction_commit_hook e) Q w.
Proof.
  intros HQ. unfold seq_hook, hook_events in *.
  destruct transaction_commit_hook; [by apply wpr_update, HQ|].
  apply wpr_ret, HQ. by rewrite app_nil_r.
Qed.

(** What one transaction adds to the hook calls, by the result it gives. *)
Definition process_post (fb : bool) (i : TxnIndex) (st : ExecutionStatus Output VmError)
    (w : SeqWorld) (r : outcome (result (SequentialBlockExecutionError VmError) committed))
    (w' : SeqWorld) : Prop :=
  match r with
  | Done (Ok (Pushed o)) =>
      status_output st <> None /\
      s_hooks w' = s_hooks w ++ hook_events [on_transaction_committed i o]
  | Done (Ok (Discarded o)) =>
      fb = true /\ o = discard_output DELAYED_MATERIALIZATION_CODE_INVARIANT_ERROR /\
      s_hooks w' = s_hooks w
  | Done (Err e) =>
      match st with
      | Success _ | SkipRest _ => s_hooks w' = s_hooks w
      | Abort err => e = ErrorToReturn (FatalVMError err) /\
          s_hooks w' = s_hooks w ++ hook_events [on_execution_aborted i]
      | SpeculativeExecutionAbortError msg | DelayedFieldsCodeInvariantError msg =>
          e = ErrorToReturn (FatalBlockExecutorError (code_invariant_error msg)) /\
          s_hooks w' = s_hooks w ++ hook_events [on_execution_aborted i]
      end
  | _ => True
  end.

Lemma wpr_commit_hooks fb txn i o st w :
  parameters_satisfy (fun A p => guar (keeps s_hooks) p) ->
  status_output st = Some o ->
  wpr (commit fb txn i o) (process_post fb i st w) w.
Proof.
  intros HP Ho. unfold commit_sequential.
  assert (Hst : forall e w', s_hooks w' = s_hooks w ->
    process_post fb i st w (Done (Err e)) w') by (intros; by destruct st).
  apply wpr_bind, (wpr_keeps s_hooks); [apply hooks_account_gas|]. intros [[]| |] w1 H1; [|done..].
  apply wpr_bind, (wpr_keeps s_hooks); [apply HP|]. intros [o1| |] w2 H2; [|done..].
  apply wpr_bind, wpr_assert; [intros _|done].
  match goal with |- wpr (bind _ ?k) _ _ => assert (Htail : forall w3, s_hooks w3 = s_hooks w ->
    wpr (k false) (process_post fb i st w) w3) end.
  { intros w3 H3. apply wpr_bindR, (wpr_keeps s_hooks); [apply hooks_apply_output|].
    intros [[[]|e]| |] w4 H4; [|apply Hst; congruence|done..].
    apply wpr_bindR, (wpr_keeps s_hooks); [by apply hooks_materialize|].
    intros [[o5|e]| |] w5 H5; [|apply Hst; congruence|done..].
    apply wpr_bind, wpr_asks. destruct (seq_incorrect_use _).
    - apply wpr_ret, Hst. congruence.
    - apply wpr_bind, wpr_seq_hook. intros w6 H6. apply wpr_ret. split; congruence. }
  apply wpr_bind. destruct fb; [|apply wpr_ret, Htail; congruence].
  apply (wpr_keeps s_hooks); [apply hooks_serialization|].
  intros [[]| |] w3 H3; [apply wpr_ret; split_and!; congruence|apply Htail; congruence|done..].
Qed.

Lemma wpr_process_hooks fb txn i st w :
  parameters_satisfy (fun A p => guar (keeps s_hooks) p) ->
  wpr (process fb txn i st) (process_post fb i st w) w.
Proof.
  intros HP. unfold process_sequential, abort_sequential.
  destruct st; try by eapply wpr_commit_hooks.
  all: apply wpr_bind, wpr_seq_hook; intros w' Hw'; by apply wpr_ret.
Qed.

Definition committed_output (c : committed) : Output :=
  match c with Pushed o | Discarded o => o end.

(** The hook calls of a list of processed transactions, from index [idx] on. *)
Fixpoint commit_events (idx : nat) (cs : list committed) : list HookEvent :=
  match cs with
  | [] => []
  | Pushed o :: cs => on_transaction_committed (as_u32 idx) o :: commit_events (S idx) cs
  | Discarded _ :: cs => commit_events (S idx) cs
  end.

Lemma hook_events_app es es' : hook_events (es ++ es') = hook_events es ++ hook_events es'.
Proof. unfold hook_events. by destruct transaction_commit_hook. Qed.

(** What the loop has done when it ends: the transactions [cs] were processed,
    in order, and the hook was called for each that was not discarded; a
    failure is that of the next transaction. *)
Definition loop_post (fb : bool) (idx : nat) (ret : list Output) (txns : list Txn) (w : SeqWorld)
    (r : outcome (result (SequentialBlockExecutionError VmError) (list Output)))
    (w' : SeqWorld) : Prop :=
  match r with
  | Done (Ok ret') => exists cs,
      length cs <= length txns /\
      (length cs < length txns -> exists o, last cs = Some (Pushed o)) /\
      ret' = ret ++ map committed_output cs /\
      (fb = false -> Forall (fun c => exists o, c = Pushed o) cs) /\
      s_hooks w' = s_hooks w ++ hook_events (commit_events idx cs)
  | Done (Err e) => exists cs, length cs < length txns /\
      (fb = false -> Forall (fun c => exists o, c = Pushed o) cs) /\
      (s_hooks w' = s_hooks w ++ hook_events (commit_events idx cs) \/
       s_hooks w' = s_hooks w ++ hook_events (commit_events idx cs ++
                       [on_execution_aborted (as_u32 (idx + length cs))]))
  | _ => True
  end.

Lemma loop_post_cons fb idx ret txn txns w w1 c r w' :
  (fb = false -> exists o, c = Pushed o) ->
  s_hooks w1 = s_hooks w ++ hook_events (commit_events idx [c]) ->
  loop_post fb (S idx) (ret ++ [committed_output c]) txns w1 r w' ->
  loop_post fb idx ret (txn :: txns) w r w'.
Proof.
  intros Hc Hw. assert (Hev : forall cs,
    s_hooks w1 ++ hook_events (commit_events (S idx) cs) =
    s_hooks w ++ hook_events (commit_events idx (c :: cs))).
  { intros cs. rewrite Hw, <-app_assoc, <-hook_events_app. by destruct c. }
  destruct r as [[ret'|e]| |]; [|idtac|done..].
  - intros (cs & H1 & H2 & -> & H3 & H4). exists (c :: cs). cbn [length]. split_and!; [lia| | | |].
    + intros Hl. destruct H2 as [o Ho]; [lia|]. exists o. by destruct cs.
    + by rewrite <-app_assoc.
    + intros Hf. constructor; auto.
    + by rewrite H4, Hev.
  - intros (cs & H1 & H2 & H3). exists (c :: cs). cbn [length]. split_and!; [lia| |].
    + intros Hf. constructor; auto.
    + rewrite Nat.add_succ_r. setoid_rewrite hook_events_app. setoid_rewrite hook_events_app in H3.
      rewrite (assoc_L app), <-Hev, <-(assoc_L app). exact H3.
Qed.

Lemma wpr_loop fb n idx ret txns w :
  parameters_satisfy (fun A p => guar (keeps s_hooks) p) ->
  wpr (loop fb n idx ret txns) (loop_post fb idx ret txns w) w.
Proof.
  intros HP. revert idx ret w. induction txns as [|txn txns IH]; intros idx ret w;
    cbn [sequential_loop].
  { apply wpr_ret. exists []. cbn. split_and!; [done|lia|by rewrite app_nil_r|auto|].
    unfold hook_events. by destruct transaction_commit_hook; rewrite app_nil_r. }
  apply wpr_bind, wpr_update.
  apply wpr_bind, (wpr_keeps s_hooks); [apply HP|]. intros [st| |] w1 H1; [|done..].
  apply wpr_bindR. eapply wpr_mono; [|by apply wpr_process_hooks].
  intros [[[o|o]|e]| |] w2 Hc; [| | |done..].
  - destruct Hc as [_ Hc]. rewrite H1 in Hc. cbn [s_hooks seq_set_view] in Hc.
    assert (Hstop : loop_post fb idx ret (txn :: txns) w (Done (Ok (ret ++ [o]))) w2).
    { exists [Pushed o]. cbn. split_and!; [lia|eauto|done| |done].
      intros _. constructor; eauto. }
    destruct (is_skip_rest st); [by apply wpr_ret|].
    apply wpr_bind. eapply (wpr_keeps (fun w => w)); [by case_goal|].
    intros [[]| |] w3 H3; [| |done..]; cbn in H3; subst w3; [by apply wpr_ret|].
    eapply wpr_mono; [|apply IH]. intros r w' Hr.
    eapply (loop_post_cons _ _ _ _ _ _ _ (Pushed o)); [eauto|exact Hc|exact Hr].
  - destruct Hc as (-> & _ & Hc). eapply wpr_mono; [|apply IH]. intros r w' Hr.
    eapply (loop_post_cons _ _ _ _ _ _ _ (Discarded o)); [done| |exact Hr].
    rewrite Hc, H1. cbn. unfold hook_events.
    by destruct transaction_commit_hook; rewrite app_nil_r.
  - exists []. cbn. split_and!; [lia|auto|].
    rewrite Nat.add_0_r. unfold process_post in Hc. rewrite H1 in Hc. cbn [s_hooks seq_set_view] in Hc.
    destruct st; [left|left|right|right|right]; try apply Hc.
    all: rewrite Hc; unfold hook_events; by destruct transaction_commit_hook; rewrite app_nil_r.
Qed.

(** *** The source of a fatal VM error *)

(** The VM aborts a transaction of [txns], the first of which has index [idx],
    with [err]. *)
Definition vm_aborts (idx : nat) (txns : list Txn) (err : VmError) : Prop :=
  exists j txn w, txns !! j = Some txn /\
    fst (run (vm_execute_seq txn (as_u32 (idx + j))) w) = Done (Abort err).

Definition not_vm_error {A} (r : outcome (result (SequentialBlockExecutionError VmError) A))
    : Prop :=
  forall err, r <> Done (Err (ErrorToReturn (FatalVMError err))).

Lemma mapE_not_vm_error {A} (p : progR SeqWorld PanicError A) w :
  wpr (mapE from_panic p) (fun r _ => not_vm_error r) w.
Proof. apply wpr_bind, wpr_trivial. intros [[]| |] w'; [..|done|done]; by apply wpr_ret. Qed.

Lemma foldR_not_vm_error {A} (body : unit -> A -> progR SeqWorld _ unit) l w :
  (forall a w, wpr (body tt a) (fun r _ => not_vm_error r) w) ->
  wpr (foldR body tt l) (fun r _ => not_vm_error r) w.
Proof.
  intros Hb. revert w. induction l as [|a l IH]; intros w; cbn [foldR]; [by apply wpr_ret|].
  apply wpr_bindR. eapply wpr_mono; [|apply Hb]. intros [[[]|e]| |] w' H; [apply IH|done..].
Qed.

(** The [?] of a step that cannot give a fatal VM error. *)
Lemma bindR_not_vm_error {A B} (p : progR SeqWorld _ A) (k : A -> progR SeqWorld _ B) w :
  wpr p (fun r _ => not_vm_error r) w ->
  (forall a w, wpr (k a) (fun r _ => not_vm_error r) w) ->
  wpr (bindR p k) (fun r _ => not_vm_error r) w.
Proof.
  intros Hp Hk. apply wpr_bindR. eapply wpr_mono; [|exact Hp].
  intros [[a|e]| |] w' H; [apply Hk|..]; try done. intros err [= ->]. by apply (H err).
Qed.

Lemma bind_not_vm_error {A B} (p : prog SeqWorld A) (k : A -> progR SeqWorld _ B) w :
  (forall a w, wpr (k a) (fun r _ => not_vm_error r) w) ->
  wpr (bind p k) (fun r _ => not_vm_error r) w.
Proof. intros Hk. apply wpr_bind, wpr_trivial. intros [a| |] w'; [apply Hk|done..]. Qed.

Lemma apply_output_not_vm_error o rws w :
  wpr (apply_output_sequential o rws) (fun r _ => not_vm_error r) w.
Proof.
  unfold apply_output_sequential. apply bind_not_vm_error. intros [] w1.
  apply bindR_not_vm_error; [apply foldR_not_vm_error|intros [] w2].
  - intros [[k v] ops] w2. apply bindR_not_vm_error.
    + apply foldR_not_vm_error. intros [t [v' l]] w3. apply mapE_not_vm_error.
    + intros [] w3. apply bind_not_vm_error. intros [] w4. by apply wpr_ret.
  - do 3 (apply bind_not_vm_error; intros [] ?). by apply wpr_ret.
Qed.

Lemma materialize_not_vm_error i o rws w :
  wpr (materialize_sequential output_groups_to_finalize i o rws) (fun r _ => not_vm_error r) w.
Proof.
  unfold materialize_sequential.
  do 2 (apply bindR_not_vm_error; [apply mapE_not_vm_error|intros ? ?]).
  apply bindR_not_vm_error; [apply wpr_ret; by destruct (serialize_groups _)|intros ? ?].
  do 3 (apply bindR_not_vm_error; [apply mapE_not_vm_error|intros ? ?]).
  apply wpr_ret. by destruct (incorporate_materialized_txn_output _ _ _ _).
Qed.

Lemma commit_not_vm_error fb txn i o w :
  wpr (commit fb txn i o) (fun r _ => not_vm_error r) w.
Proof.
  unfold commit_sequential. apply bind_not_vm_error. intros [] w1.
  apply bind_not_vm_error. intros o1 w2. apply bind_not_vm_error. intros [] w3.
  apply bind_not_vm_error. intros [] w4; [by apply wpr_ret|].
  apply bindR_not_vm_error; [apply apply_output_not_vm_error|intros [] w5].
  apply bindR_not_vm_error; [apply materialize_not_vm_error|intros o2 w6].
  apply bind_not_vm_error. intros [] w7; [by apply wpr_ret|].
  apply bind_not_vm_error. intros [] w8. by apply wpr_ret.
Qed.

Lemma process_vm_error fb txn i st w :
  wpr (process fb txn i st) (fun r _ => forall err,
    r = Done (Err (ErrorToReturn (FatalVMError err))) -> st = Abort err) w.
Proof.
  assert (Hc : forall o, wpr (commit fb txn i o) (fun r _ => forall err,
    r = Done (Err (ErrorToReturn (FatalVMError err))) -> st = Abort err) w).
  { intros o. eapply wpr_mono; [|apply commit_not_vm_error]. intros r w' Hr err ->.
    by destruct (Hr err). }
  destruct st; cbn [process_sequential]; [apply Hc|apply Hc|..]; unfold abort_sequential;
    (apply wpr_bind, wpr_trivial; intros [[]| |] w'; [apply wpr_ret|..]); naive_solver.
Qed.

Lemma loop_vm_error fb n idx ret txns w :
  wpr (loop fb n idx ret txns) (fun r _ => forall err,
    r = Done (Err (ErrorToReturn (FatalVMError err))) -> vm_aborts idx txns err) w.
Proof.
  revert idx ret w. induction txns as [|txn txns IH]; intros idx ret w; cbn [sequential_loop].
  { by apply wpr_ret. }
  assert (Hnext : forall ret w, wpr (loop fb n (S idx) ret txns) (fun r _ => forall err,
    r = Done (Err (ErrorToReturn (FatalVMError err))) -> vm_aborts idx (txn :: txns) err) w).
  { intros ret' w'. eapply wpr_mono; [|apply IH]. intros r w2 Hr err He.
    destruct (Hr err He) as (j & txn' & w3 & Hj & Hrun). exists (S j), txn', w3.
    split; [done|]. by rewrite Nat.add_succ_r. }
  apply wpr_bind, wpr_update, wpr_bind. unfold wpr at 1.
  set (w0 := seq_set_view _ w). destruct (run (vm_execute_seq txn (as_u32 idx)) w0)
    as [[st| |] w1] eqn:Hvm; [|done..]. cbn [fst snd].
  apply wpr_bindR. eapply wpr_mono; [|apply process_vm_error].
  intros [[[o|o]|e]| |] w2 Hp; [| | |done..].
  - destruct (is_skip_rest st); [by apply wpr_ret|]. apply wpr_bind, wpr_trivial.
    intros [[]| |] w3; [by apply wpr_ret|apply Hnext|done..].
  - apply Hnext.
  - intros err [= ->]. exists 0, txn, w0. rewrite Nat.add_0_r, Hvm. split; [done|].
    cbn. by rewrite (Hp err eq_refl).
Qed.

Lemma sequential_vm_error fb block w err :
  fst (run (execute_sequential fb block) w) = Done (Err (ErrorToReturn (FatalVMError err))) ->
  vm_aborts 0 block err.
Proof.
  pose proof (loop_vm_error fb (length block) 0 [] block w) as Hl. unfold wpr in Hl.
  unfold execute_transactions_sequential, bindR. rewrite run_bind.
  destruct (run (loop fb (length block) 0 [] block) w) as [[[ret|e]| |] w']; cbn; try done.
  intros [= ->]. by apply Hl.
Qed.

Lemma resize_with_skip_short n ret :
  length ret <= n -> resize_with_skip n ret = ret ++ replicate (n - length ret) skip_output.
Proof. intros H. unfold resize_with_skip. by rewrite take_ge by lia. Qed.

Lemma resize_with_skip_length n ret : length (resize_with_skip n ret) = n.
Proof.
  unfold resize_with_skip. rewrite length_app, length_take, length_replicate. lia.
Qed.

Lemma sequential_length fb block w outs :
  fst (run (execute_sequential fb block) w) = Done (Ok outs) -> length outs = length block.
Proof.
  unfold execute_transactions_sequential, bindR. rewrite run_bind.
  destruct (run (loop fb (length block) 0 [] block) w) as [[[ret|e]| |] w']; cbn; try done.
  intros [= <-]. apply resize_with_skip_length.
Qed.

(** C4. A sequential execution that returns outputs returns one per
    transaction: those of the transactions it processed, in order, then
    [skip_output] for the rest, and it leaves transactions unprocessed only
    after one that was committed; the commit hook was called exactly for the
    committed ones, in order, with the outputs returned.  An execution that
    fails does so at the transaction after the processed ones, for which the
    hook may have been told of the abort and nothing else. *)
Theorem sequential_outputs fb block :
  parameters_satisfy (fun A p => guar (keeps s_hooks) p) ->
  let '(r, w') := run (execute_sequential fb block)
                    (init_seq_world block_gas_limit_type (length block)) in
  match r with
  | Done (Ok outs) =>
      length outs = length block /\
      exists cs,
        outs = map committed_output cs ++ replicate (length block - length cs) skip_output /\
        (length cs < length block -> exists o, last cs = Some (Pushed o)) /\
        (fb = false -> Forall (fun c => exists o, c = Pushed o) cs) /\
        s_hooks w' = hook_events (commit_events 0 cs)
  | Done (Err e) => exists cs,
      length cs < length block /\
      (fb = false -> Forall (fun c => exists o, c = Pushed o) cs) /\
      (s_hooks w' = hook_events (commit_events 0 cs) \/
       s_hooks w' = hook_events (commit_events 0 cs ++ [on_execution_aborted (as_u32 (length cs))]))
  | _ => True
  end.
Proof.
  intros HP. set (w := init_seq_world _ _).
  assert (Hwp : wpr (execute_sequential fb block) (fun r w' => match r with
    | Done (Ok outs) => exists ret, outs = resize_with_skip (length block) ret /\
        loop_post fb 0 [] block w (Done (Ok ret)) w'
    | r => loop_post fb 0 [] block w r w' end) w).
  { apply wpr_bindR. eapply wpr_mono; [|by apply wpr_loop].
    intros [[ret|e]| |] w' H; [|done..]. apply wpr_ret. eauto. }
  unfold wpr in Hwp. destruct (run _ w) as [[[outs|e]| |] w']; [|done..].
  destruct Hwp as (ret & -> & cs & H1 & H2 & -> & H3 & H4). cbn in H4.
  split; [apply resize_with_skip_length|]. exists cs. split_and!; [|done..].
  cbn [app]. rewrite resize_with_skip_short; by rewrite length_map.
Qed.

(** A sequential execution always ends: with outputs, with an error, or
    with a panic. *)
Theorem sequential_terminates fb block w :
  parameters_satisfy (fun A p => fuelless p) ->
  fst (run (execute_sequential fb block) w) <> Diverged.
Proof.
  intros HP. apply fuelless_run, fuelless_bindR; [by apply fuelless_loop|done].
Qed.

Lemma map_serialization o : guar (keeps s_map) (serialization_error o).
Proof.
  unfold serialization_error. apply guar_bind.
  - apply guar_anyP. intros kv. unfold finalize, finalize_tag. solve_guar.
  - intros []; [done|]. apply guar_anyP. intros g.
    unfold finalize, finalize_tag, apply_group_op. solve_guar.
Qed.

Lemma map_account_gas txn o : guar (keeps s_map) (seq_account_gas block_gas_limit_type txn o).
Proof. unfold seq_account_gas, seq_approx_output_size, add_w, update. solve_guar. Qed.

(** C30. A transaction whose groups cannot be serialized in the bcs fallback is
    discarded without a trace in the map: what it wrote is not applied, and
    later transactions read the state before it. *)
Theorem discarded_writes_nothing fb txn i o w :
  guar (keeps s_map) (materialize_agg_v1 i o) ->
  match run (commit fb txn i o) w with
  | (Done (Ok (Discarded o')), w') =>
      fb = true /\ o' = discard_output DELAYED_MATERIALIZATION_CODE_INVARIANT_ERROR /\
      s_map w' = s_map w
  | _ => True
  end.
Proof.
  intros Hagg.
  assert (Hwp : wpr (commit fb txn i o) (fun r w' => match r with
    | Done (Ok (Discarded o')) =>
        fb = true /\ o' = discard_output DELAYED_MATERIALIZATION_CODE_INVARIANT_ERROR /\
        s_map w' = s_map w
    | _ => True end) w).
  { unfold commit_sequential.
    apply wpr_bind, (wpr_keeps s_map); [apply map_account_gas|]. intros [[]| |] w1 H1; [|done..].
    apply wpr_bind, (wpr_keeps s_map); [apply Hagg|]. intros [o1| |] w2 H2; [|done..].
    apply wpr_bind, wpr_assert; [intros _|done]. apply wpr_bind.
    match goal with |- wpr _ (fun o w' => match o with Done a => wpr (@?k a) ?Q w' | _ => _ end) _ =>
      assert (Htail : forall w3, wpr (k false) Q w3) end.
    { intros w3. apply wpr_bindR, wpr_trivial. intros [[]| |] w4; [|done..].
      apply wpr_bindR, wpr_trivial. intros [[]| |] w5; [|done..].
      apply wpr_bind, wpr_asks. destruct (seq_incorrect_use _); [done|].
      apply wpr_bind, wpr_seq_hook. intros w6 _. by apply wpr_ret. }
    destruct fb; [|apply wpr_ret, Htail].
    apply (wpr_keeps s_map); [apply map_serialization|].
    intros [[]| |] w3 H3; [apply wpr_ret; split_and!; congruence|apply Htail|done..]. }
  unfold wpr in Hwp. by destruct (run _ w) as [[[[]|]| |] w'].
Qed.
End loop.
