(* ===== verification/Agreement.v ===== *)
(** The parallel and the sequential execution write the same state.

    What parallel incarnations of the transactions of a block leave in the
    versioned maps, read at the end of the block, agrees with the map the
    sequential execution builds by applying the same outputs in order. *)
From stdpp Require Import base list gmap strings relations.
From S2P Require Import Prelude Prog BlockTypes World Footprint Execute ExecuteSpec ValidationSpec.
From S2P Require Import Sequential SequentialSpec.

Section agreement.
Context {X : Externals} {VL : VersionedLaws X} {UL : UnsyncLaws X} {KL : KindLaws X}.

(** The most recent cell of a key among the transactions before [n]. *)
Fixpoint latest {C} (cells : TxnIndex -> gmap Key C) (n : nat) (k : Key) : option C :=
  match n with
  | 0 => None
  | S i => match cells i !! k with Some c => Some c | None => latest cells i k end
  end.

(** What a cell gives to a reader. *)
Definition payload_write (c : cell data_payload) : option (Value * option Layout) :=
  match c with Live (DWrite _ v l) => Some (v, l) | _ => None end.
Definition live_value {V} (c : cell V) : option V :=
  match c with Live v => Some v | Estimate _ => None end.

(** The operations on group [k] that the cells of the transactions before [n]
    hold, in the order of the transactions. *)
Definition cell_ops (m : GroupCells) (k : Key) : list (Tag * (Value * option Layout)) :=
  match m !! k with Some c => (payload c).2 | None => [] end.
Definition group_ops_at (cells : TxnIndex -> GroupCells) (n : nat) (k : Key)
    : list (Tag * (Value * option Layout)) :=
  seq 0 n ≫= fun i => cell_ops (cells i) k.

Lemma collect_map_app {A} (l1 l2 : list (Key * A)) :
  collect_map (l1 ++ l2) = collect_map l2 ∪ collect_map l1.
Proof. unfold collect_map at 1. by rewrite ins_all_app, ins_all_union. Qed.

(** If each transaction has the cells of its writes, the most recent cell of a
    key holds the last write. *)
Lemma latest_collect {C V} (cells : TxnIndex -> gmap Key C) (f : C -> option V)
    (ws : Output -> list (Key * V)) os k :
  (forall i o, os !! i = Some o -> exists g : V -> C,
     (forall v, f (g v) = Some v) /\ cells i !! k = g <$> collect_map (ws o) !! k) ->
  latest cells (length os) k ≫= f = collect_map (os ≫= ws) !! k.
Proof.
  induction os as [|o os IH] using rev_ind; intros Hos; [done|].
  rewrite length_app, Nat.add_1_r. cbn [latest].
  destruct (Hos (length os) o) as (g & Hg & ->); [by rewrite lookup_app_r, Nat.sub_diag by lia|].
  rewrite bind_app, collect_map_app, lookup_union. cbn [mbind list_bind]. rewrite app_nil_r.
  destruct (collect_map (ws o) !! k) as [v|] eqn:Hk; cbn [fmap option_fmap option_map].
  - change (f (g v) = Some v ∪ collect_map (os ≫= ws) !! k). rewrite Hg. by destruct (collect_map (os ≫= ws) !! k).
  - rewrite (left_id_L None (∪)). apply IH. intros i o' Hi. apply Hos. by apply lookup_app_l_Some.
Qed.

(** ** Data *)

(** The data writes of an output as cells, group by group. *)
Lemma seq_data_writes_cells inc o :
  prod_map id (fun vl => Live (DWrite inc vl.1 vl.2)) <$> seq_data_writes o =
  write_assignments inc (resource_write_set o) ++
  group_metadata_assignments inc (resource_group_write_set o) ++
  write_assignments inc (map (fun '(k, v) => (k, v, None)) (aggregator_v1_write_set o)).
Proof.
  unfold seq_data_writes, write_assignments, group_metadata_assignments.
  rewrite !fmap_app.
  apply (f_equal2 app); [exact (map_map _ _ _)|].
  apply (f_equal2 app); [exact (map_map _ _ _)|].
  etrans; [exact (map_map _ _ _)|]. rewrite map_map. apply map_ext. by intros [].
Qed.

Lemma metadata_resource_disjoint inc o :
  collect_map (write_assignments inc (resource_write_set o)) ##ₘ
  collect_map (group_metadata_assignments inc (resource_group_write_set o)).
Proof.
  apply map_disjoint_spec. intros k c1 c2 H1%collect_map_lookup H2%collect_map_lookup.
  apply elem_of_map in H1 as (kv & [= -> ->] & H1), H2 as (g & [= Hk ->] & H2).
  assert (Hr : kind_of kv.1.1 = Resource).
  { apply (output_kinds o). unfold output_keys. rewrite !elem_of_app. left.
    by apply (elem_of_map_1 (fun kv => (kv.1.1, Resource))). }
  assert (Hg : kind_of g.1.1 = Group).
  { apply (output_kinds o). unfold output_keys. rewrite !elem_of_app. do 4 right.
    by apply (elem_of_map_1 (fun g => (g.1.1, Group))). }
  congruence.
Qed.

(** Group metadata and resources have different keys, so the order of their
    loops does not matter. *)
Lemma expected_data_sequential inc st o k :
  status_output st = Some o -> k ∉ (aggregator_v1_delta_set o).*1 ->
  expected_data inc st !! k =
  (fun vl => Live (DWrite inc vl.1 vl.2)) <$> collect_map (seq_data_writes o) !! k.
Proof.
  intros Ho Hk. unfold expected_data, data_assignments, data_writes. rewrite Ho.
  rewrite <-lookup_fmap, <-collect_map_fmap, seq_data_writes_cells. unfold write_assignments at 1.
  rewrite map_app, !collect_map_app.
  fold (write_assignments inc (resource_write_set o)).
  rewrite <-(assoc_L (∪)), lookup_union_r.
  - rewrite <-!(assoc_L (∪)). do 2 f_equal. apply map_union_comm, metadata_resource_disjoint.
  - apply eq_None_not_Some. rewrite collect_map_is_Some. unfold delta_assignments.
    by rewrite map_fst_map.
Qed.

(** ** Modules and groups *)

Lemma expected_mod_sequential st o k :
  status_output st = Some o ->
  expected_mod st !! k = Live <$> collect_map (module_write_set o) !! k.
Proof.
  intros Ho. unfold expected_mod. rewrite Ho, <-lookup_fmap, <-collect_map_fmap.
  done.
Qed.

Definition apply_ops (g : gmap Tag (ValueWithLayout Value Layout))
    (ops : list (Tag * (Value * option Layout))) : gmap Tag (ValueWithLayout Value Layout) :=
  foldl (fun g op => group_change op g) g ops.

Lemma group_after_filter ops k g :
  group_after ops k g = apply_ops g (filter (fun kop => kop.1 = k) ops).*2.
Proof.
  revert g. induction ops as [|[k' op] ops IH]; intros g; [done|].
  cbn [group_after foldl fst]. fold (group_after ops k). rewrite filter_cons. cbn [fst].
  case_decide; apply IH.
Qed.

Lemma filter_map_pair (k k' : Key) (l : list (Tag * (Value * option Layout))) :
  (filter (fun kop => kop.1 = k) (map (pair k') l)).*2 = if decide (k' = k) then l else [].
Proof.
  induction l as [|op l IH]; [by case_decide|]. cbn [map]. rewrite filter_cons. cbn [fst].
  case_decide as E; [|done]. cbn. rewrite IH. done.
Qed.

Lemma expected_group_sequential inc st o k :
  status_output st = Some o -> NoDup (resource_group_write_set o).*1.*1 ->
  cell_ops (expected_group inc st) k =
  (filter (fun kop => kop.1 = k) (seq_group_ops o)).*2.
Proof.
  intros Ho. unfold expected_group, seq_group_ops, cell_ops. rewrite Ho.
  generalize (resource_group_write_set o). intros l.
  induction l as [|[[k' v] ops] l IH] using rev_ind; intros Hnd; [done|].
  rewrite !fmap_app in Hnd. apply NoDup_app in Hnd as (Hl & Hk & _).
  unfold group_assignments. rewrite map_app. cbn [map fst snd]. rewrite collect_map_snoc.
  rewrite bind_app, filter_app, fmap_app. cbn [mbind list_bind fst snd].
  rewrite app_nil_r, filter_map_pair, <-IH by done. rewrite lookup_insert.
  fold (group_assignments inc l). case_decide as E; [|by rewrite app_nil_r].
  destruct (collect_map (group_assignments inc l) !! k) as [c|] eqn:Hc; [|done].
  exfalso. apply mk_is_Some, collect_map_is_Some in Hc. unfold group_assignments in Hc.
  rewrite map_fst_map in Hc. apply (Hk k); [|subst; by left].
  rewrite <-list_fmap_compose. exact Hc.
Qed.

Lemma groups_collect (cells : TxnIndex -> GroupCells) os k :
  (forall i o, os !! i = Some o ->
     cell_ops (cells i) k = (filter (fun kop => kop.1 = k) (seq_group_ops o)).*2) ->
  group_ops_at cells (length os) k =
  (filter (fun kop => kop.1 = k) (os ≫= seq_group_ops)).*2.
Proof.
  induction os as [|o os IH] using rev_ind; intros Hos; [done|].
  unfold group_ops_at. rewrite length_app, seq_app, !bind_app, filter_app, fmap_app. cbn -[seq].
  rewrite !app_nil_r. f_equal.
  - apply IH. intros i o' Hi. apply Hos. by apply lookup_app_l_Some.
  - cbn. rewrite app_nil_r. apply Hos. by rewrite lookup_app_r, Nat.sub_diag by lia.
Qed.

(** ** The sequential side *)

(** Applying outputs one after the other, as the sequential loop does. *)
Definition apply_outputs (os : list Output)
    : progR SeqWorld (SequentialBlockExecutionError VmError) unit :=
  foldR (fun _ o => apply_output_sequential o (resource_write_set o)) tt os.

Lemma wpr_apply_outputs os w (Q : outcome (result _ unit) -> SeqWorld -> Prop) :
  (forall o, o ∈ os -> NoDup (delayed_field_change_set o).*1) ->
  (forall w', Q Panicked w') ->
  (forall e w', Q (Done (Err e)) w') ->
  (forall w', um_data (s_map w') = ins_all (um_data (s_map w)) (os ≫= seq_data_writes) ->
     um_modules (s_map w') = ins_all (um_modules (s_map w)) (os ≫= module_write_set) ->
     (forall k, group_of (s_map w') k =
        group_after (os ≫= seq_group_ops) k (group_of (s_map w) k)) ->
     Q (Done (Ok tt)) w') ->
  wpr (apply_outputs os) Q w.
Proof.
  intros Hnd HP HE. revert w. unfold apply_outputs.
  induction os as [|o os IH]; intros w HQ; cbn [foldR]; [by apply wpr_ret, HQ|].
  apply wpr_bindR, wpr_apply_output; [apply Hnd; by left|done|done|].
  intros w1 [D1 G1 M1 _]. apply IH; [intros o' Ho'; apply Hnd; by right|].
  intros w2 D2 M2 G2. apply HQ; [by rewrite D2, D1, bind_cons, ins_all_app|
    by rewrite M2, M1, bind_cons, ins_all_app|].
  intros k. rewrite G2, G1, bind_cons. unfold group_after. by rewrite foldl_app.
Qed.

End agreement.

(** ** Both sides *)
Section both.
Context {X : Externals} {VL : VersionedLaws X} {LL : LioLaws X} {KL : KindLaws X} {UL : UnsyncLaws X}.
Context (vm_execute : Txn -> TxnIndex ->
           prog World (ExecutionStatus Output VmError * ReadSet)).

(** One thread per transaction, executing an incarnation of it. *)
Definition executions (incs : list Incarnation) : list txn_task := imap RunExecute incs.

Lemma executions_idx incs : map task_idx (executions incs) = seq 0 (length incs).
Proof.
  unfold executions. apply list_eq. intros i. change (map task_idx) with (fmap (M := list) task_idx).
  rewrite list_lookup_fmap, list_lookup_imap.
  destruct (incs !! i) as [inc|] eqn:Hi; cbn.
  - apply lookup_lt_Some in Hi. by rewrite lookup_seq_lt.
  - apply lookup_ge_None in Hi. symmetry. by apply lookup_seq_ge.
Qed.

(** The threads have all ended without error, and [os] are the outputs they
    recorded. *)
Definition all_executed (n : nat) (os : list Output)
    (tw : list (prog World (result PErr bool + result PanicError SchedulerTask)) * World) : Prop :=
  length os = n /\
  forall (i : nat) o, os !! i = Some o ->
    (exists outside, fst tw !! i = Some (Ret (inl (Ok outside)))) /\
    (txn_output i (w_lio (snd tw)) ≫= status_output) = Some o.

(** The keys of a change set are distinct (the sets are maps in the source). *)
Definition distinct_keys (o : Output) : Prop :=
  NoDup (delayed_field_change_set o).*1 /\ NoDup (resource_group_write_set o).*1.*1.

Lemma executed_installed block incs w schedule os (i : nat) o :
  let tw := run_schedule (map (task_thread vm_execute block) (executions incs), w) schedule in
  vm_reads_only vm_execute ->
  (forall i, tracked (footprint i w)) ->
  all_executed (length incs) os tw -> os !! i = Some o ->
  exists inc st, status_output st = Some o /\ installed inc st (footprint i (snd tw)).
Proof.
  cbn zeta. intros Hvm Ht [Hlen Hos] Hi. destruct (Hos i o Hi) as [[outside Hr] Ho].
  assert (Hinc : is_Some (incs !! i)).
  { apply lookup_lt_is_Some. rewrite <-Hlen. by eapply lookup_lt_Some. }
  destruct Hinc as [inc Hinc].
  pose proof (pool_footprint vm_execute block (executions incs) w schedule i (RunExecute i inc) Hvm)
    as Hf. rewrite executions_idx in Hf. specialize (Hf (NoDup_seq _ _) (Ht i)).
  assert (Hx : executions incs !! i = Some (RunExecute i inc))
    by (unfold executions; rewrite list_lookup_imap; apply fmap_Some; by exists inc).
  specialize (Hf Hx). cbn zeta in Hf.
  rewrite Hr in Hf. destruct Hf as (st & Hin & _). exists inc, st.
  split; [|exact Hin]. pose proof (in_out _ _ _ Hin) as Hst. cbn in Hst. cbn in Ho.
  rewrite Hst in Ho. exact Ho.
Qed.

(** The versioned maps of [w], read after the transactions of [os], and the map
    of [sw] hold the same state. *)
Record same_state (os : list Output) (w : World) (sw : SeqWorld) : Prop := {
  ss_data k :
    (forall o, o ∈ os -> k ∉ (aggregator_v1_delta_set o).*1) ->
    latest (data_at (w_data w)) (length os) k ≫= payload_write = um_data (s_map sw) !! k;
  ss_modules k :
    latest (module_at (w_mod w)) (length os) k ≫= live_value = um_modules (s_map sw) !! k;
  ss_groups k :
    apply_ops ∅ (group_ops_at (group_at (w_group w)) (length os) k) = group_of (s_map sw) k;
}.

Lemma installed_same_state os w (sw sw' : SeqWorld) :
  (forall i o, os !! i = Some o -> exists inc st,
     status_output st = Some o /\ installed inc st (footprint i w)) ->
  Forall distinct_keys os ->
  um_data (s_map sw') = collect_map (os ≫= seq_data_writes) ->
  um_modules (s_map sw') = collect_map (os ≫= module_write_set) ->
  (forall k, group_of (s_map sw') k = group_after (os ≫= seq_group_ops) k ∅) ->
  same_state os w sw'.
Proof.
  intros Hin Hdist HD HM HG. rewrite Forall_forall in Hdist. split; intros k.
  - intros Hk. rewrite HD. apply latest_collect. intros i o Hi.
    destruct (Hin i o Hi) as (inc & st & Ho & [_ _ _ Hd _ _ _ _]). cbn in Hd.
    exists (fun vl => Live (DWrite inc vl.1 vl.2)). split; [by intros []|]. rewrite Hd.
    apply expected_data_sequential; [done|]. apply Hk. by eapply list_elem_of_lookup_2.
  - rewrite HM. apply latest_collect. intros i o Hi.
    destruct (Hin i o Hi) as (inc & st & Ho & [_ _ _ _ _ Hm _ _]). cbn in Hm.
    exists Live. split; [done|]. rewrite Hm. by apply expected_mod_sequential.
  - rewrite HG, group_after_filter. f_equal. apply groups_collect. intros i o Hi.
    destruct (Hin i o Hi) as (inc & st & Ho & [_ _ _ _ Hg _ _ _]). cbn in Hg. rewrite Hg.
    apply expected_group_sequential; [done|]. apply Hdist. by eapply list_elem_of_lookup_2.
Qed.

(** C3. One thread per transaction executes an incarnation of it, their
    accesses to the shared maps interleaved in any order, until all have ended
    without error.  Then the versioned maps hold what the sequential
    execution's map holds after applying the recorded outputs one after the
    other: for every key that no output changes by a delta the most recent
    data cell gives the value, for every key the most recent module cell gives
    the module, and the operations in the group cells, taken in the order of
    the transactions, give the group. *)
Theorem parallel_sequential_agree block incs w schedule os sw :
  vm_reads_only vm_execute ->
  (forall i, tracked (footprint i w)) ->
  let tw := run_schedule (map (task_thread vm_execute block) (executions incs), w) schedule in
  all_executed (length incs) os tw ->
  Forall distinct_keys os ->
  um_data (s_map sw) = ∅ -> um_modules (s_map sw) = ∅ ->
  (forall k, group_of (s_map sw) k = ∅) ->
  match run (apply_outputs os) sw with
  | (Done (Ok _), sw') => same_state os (snd tw) sw'
  | (Diverged, _) => False
  | _ => True
  end.
Proof.
  intros Hvm Ht tw Hall Hdist HD HM HG.
  pose proof (fun i o => executed_installed block incs w schedule os i o Hvm Ht Hall) as Hin.
  assert (Hwp : wpr (apply_outputs os)
    (fun r sw' => match r with Done (Ok _) => same_state os (snd tw) sw' | _ => True end) sw).
  { apply wpr_apply_outputs; [|done|done|].
    - intros o Ho. rewrite Forall_forall in Hdist. by apply Hdist.
    - intros sw' D M G. apply (installed_same_state os (snd tw) sw); [done|done|..].
      + by rewrite D, HD.
      + by rewrite M, HM.
      + intros k. by rewrite G, HG. }
  assert (Hf : fuelless (apply_outputs os))
    by (apply fuelless_foldR; intros; apply fuelless_apply_output).
  apply (fuelless_run _ sw) in Hf. unfold wpr in Hwp. by destruct (run _ sw) as [[[]| |] sw'].
Qed.

End both.
