(* ===== verification/CommitSpec.v ===== *)
(** Theorems about committing transactions. *)
From stdpp Require Import base list gmap strings relations.
From S2P Require Import Prelude Prog BlockTypes World Footprint Execute Commit Parallel.

(** What the theorems need of [Scheduler]: it hands out transactions to commit
    in order of their index, keeps the queue of committed transactions that
    are to be materialized, and can be halted. *)
Class SchedLaws (X : Externals) := {
  commit_idx : sched -> nat;
  commit_queue : sched -> list TxnIndex;
  halted : sched -> bool;
  sched_keeps (s s' : sched) : Prop :=
    commit_idx s' = commit_idx s /\ num_txns s' = num_txns s /\
    commit_queue s' = commit_queue s /\ (halted s = true -> halted s' = true);
  try_commit_law s :
    match try_commit s with
    | (Some (i, _), s') =>
        i = commit_idx s /\ i < num_txns s /\ commit_idx s' = S i /\
        num_txns s' = num_txns s /\ commit_queue s' = commit_queue s /\
        (halted s = true -> halted s' = true)
    | (None, s') => sched_keeps s s'
    end;
  add_to_commit_queue_law i s :
    commit_idx (add_to_commit_queue i s) = commit_idx s /\
    num_txns (add_to_commit_queue i s) = num_txns s /\
    commit_queue (add_to_commit_queue i s) = commit_queue s ++ [i] /\
    (halted s = true -> halted (add_to_commit_queue i s) = true);
  pop_from_commit_queue_law s :
    match pop_from_commit_queue s with
    | (Some i, s') => commit_queue s = i :: commit_queue s'
    | (None, s') => commit_queue s = [] /\ commit_queue s' = []
    end;
  halt_law s : sched_keeps s (snd (halt s)) /\ halted (snd (halt s)) = true;
  finish_execution_during_commit_law i s :
    sched_keeps s (snd (finish_execution_during_commit i s));
}.

(** ** The commit loop *)
Section commit_loop.
Context {X : Externals} {SL : SchedLaws X}.
Context (vm_execute : Txn -> TxnIndex ->
           prog World (ExecutionStatus Output VmError * ReadSet)).
Context (block_gas_limit_type : GasLimitType).

(** What may happen around the commit loop: other threads take transactions
    from the front of the queue, and may halt the scheduler. *)
Definition draining (w w' : World) : Prop :=
  commit_idx (w_sched w') = commit_idx (w_sched w) /\
  num_txns (w_sched w') = num_txns (w_sched w) /\
  commit_queue (w_sched w') `suffix_of` commit_queue (w_sched w) /\
  (halted (w_sched w) = true -> halted (w_sched w') = true).

#[export] Instance draining_refl : Reflexive draining.
Proof. by intros w. Qed.

#[export] Instance draining_trans : Transitive draining.
Proof.
  intros w1 w2 w3 (A1 & A2 & A3 & A4) (B1 & B2 & B3 & B4). split_and!; [congruence..| |auto].
  by etrans.
Qed.

Lemma rtc_draining w w' : rtc draining w w' -> draining w w'.
Proof. induction 1; [done|by etrans]. Qed.

Lemma draining_same_sched w w' : w_sched w' = w_sched w -> draining w w'.
Proof. intros H. unfold draining. by rewrite H. Qed.

Lemma draining_keeps w s : sched_keeps (w_sched w) s -> draining w (set_sched s w).
Proof. intros (H1 & H2 & H3 & H4). split_and!; cbn; [done..| |done]. by rewrite H3. Qed.

Lemma guar_same_sched {A} (f : World -> A * World) :
  (forall w, w_sched (snd (f w)) = w_sched w) -> guar draining (act f).
Proof. intros Hf. apply guar_act. intros w. by apply draining_same_sched. Qed.

Lemma draining_on_data {A} (f : vd -> A * vd) : guar draining (on_data f).
Proof. apply guar_same_sched. intros w. by destruct (f _). Qed.
Lemma draining_on_group {A} (f : vgd -> A * vgd) : guar draining (on_group f).
Proof. apply guar_same_sched. intros w. by destruct (f _). Qed.
Lemma draining_on_mod {A} (f : vmod -> A * vmod) : guar draining (on_mod f).
Proof. apply guar_same_sched. intros w. by destruct (f _). Qed.
Lemma draining_on_delayed {A} (f : vdf -> A * vdf) : guar draining (on_delayed f).
Proof. apply guar_same_sched. intros w. by destruct (f _). Qed.
Lemma draining_on_lio {A} (f : lio -> A * lio) : guar draining (on_lio f).
Proof. apply guar_same_sched. intros w. by destruct (f _). Qed.
Lemma draining_on_blp {A} (f : blp -> A * blp) : guar draining (on_blp f).
Proof. apply guar_same_sched. intros w. by destruct (f _). Qed.

Lemma draining_finish i : guar draining (on_sched (finish_execution_during_commit i)).
Proof.
  apply guar_act. intros w. pose proof (finish_execution_during_commit_law i (w_sched w)) as H.
  destruct (finish_execution_during_commit i _). by apply draining_keeps.
Qed.

Local Hint Resolve draining_on_data draining_on_group draining_on_mod draining_on_delayed
  draining_on_lio draining_on_blp draining_finish : guar.

Lemma draining_execute i inc block :
  (forall txn i, guar draining (vm_execute txn i)) ->
  guar draining (execute vm_execute i inc block).
Proof.
  intros Hvm. unfold execute, process_result, apply_updates, apply_group_write,
    apply_resource_write, apply_module_write, apply_delta, apply_delayed_change, remove_stale,
    remove_stale_delayed, ask_lio. solve_guar.
Qed.

Lemma draining_validate_commit i : guar draining (validate_commit_ready i).
Proof. unfold validate_commit_ready, ask_lio. solve_guar. Qed.

Lemma draining_prepare i inc block :
  (forall txn i, guar draining (vm_execute txn i)) ->
  guar draining (prepare_commit vm_execute block_gas_limit_type i inc block).
Proof.
  intros Hvm. pose proof (fun i inc => draining_execute i inc block Hvm).
  pose proof draining_validate_commit.
  unfold prepare_commit, reexecute, update_transaction_on_abort, mark_estimate,
    mark_estimate_delayed, validate, account_gas, approx_output_size, add_w, sub_w, finalize_one,
    ask_lio. solve_guar.
Qed.

Lemma fuelless_execute i inc block :
  (forall txn i, fuelless (vm_execute txn i)) -> fuelless (execute vm_execute i inc block).
Proof.
  intros Hvm. unfold execute, process_result, apply_updates, apply_group_write,
    apply_resource_write, apply_module_write, apply_delta, apply_delayed_change, remove_stale,
    remove_stale_delayed, ask_lio, on_data, on_group, on_mod, on_delayed, on_lio. solve_fuelless.
Qed.

Lemma fuelless_prepare i inc block :
  (forall txn i, fuelless (vm_execute txn i)) ->
  fuelless (prepare_commit vm_execute block_gas_limit_type i inc block).
Proof.
  intros Hvm. pose proof (fun i inc => fuelless_execute i inc block Hvm).
  assert (forall i, fuelless (validate_commit_ready i)).
  { intros j. unfold validate_commit_ready, ask_lio, on_delayed. solve_fuelless. }
  unfold prepare_commit, reexecute, update_transaction_on_abort, mark_estimate,
    mark_estimate_delayed, validate, account_gas, approx_output_size, add_w, sub_w, finalize_one,
    ask_lio, on_data, on_group, on_mod, on_delayed, on_lio, on_sched, on_blp. solve_fuelless.
Qed.

(** The halting test halts the scheduler when it stops at the last
    transaction. *)
Lemma wp_commit_halts i task w (Q : outcome bool -> World -> Prop) :
  (forall w', draining w w' -> Q Panicked w') ->
  (forall stop w', draining w w' ->
     (i + 1 = num_txns (w_sched w) -> stop = true) ->
     (stop = true -> halted (w_sched w') = true) -> Q (Done stop) w') ->
  wp draining (commit_halts i task) Q w.
Proof.
  intros HP HQ. unfold commit_halts.
  apply wp_bind, wp_act. intros w1 w2 H1%rtc_draining H2%rtc_draining; cbn [fst snd and_then] in H2 |- *.
  assert (Hn : num_txns (w_sched w1) = num_txns (w_sched w)) by apply H1. rewrite Hn.
  assert (H12 : draining w w2) by by etrans. clear H1 H2.
  set (n := num_txns (w_sched w)) in *.
  match goal with |- wp _ (bind ?p _) _ _ => assert (Hp : wp draining p (fun o w' =>
    exists stop, o = Done stop /\ draining w2 w' /\ (i + 1 = n -> stop = true)) w2) end.
  { destruct (Nat.eqb_spec (i + 1) n).
    - apply wp_ret. intros w3 H3%rtc_draining. eauto.
    - apply wp_act. intros w3 w4 H3%rtc_draining H4%rtc_draining. cbn in H4.
      eexists. split_and!; [done|by etrans|done]. }
  apply wp_bind. eapply wp_mono; [|exact Hp].
  intros ? w3 (stop & -> & H3 & Hstop). assert (H13 : draining w w3) by by etrans. cbn [and_then].
  destruct stop; [|apply wp_ret; intros w4 H4%rtc_draining; apply HQ; [by etrans|done|done]].
  apply wp_bind, (wp_guar _ draining); [done|by case_goal; try apply guar_assert|
    by case_goal; try apply fuelless_assert|].
  intros o w4 Ho H4%rtc_draining. assert (H14 : draining w w4) by by etrans.
  destruct o as [[]| |]; cbn [and_then]; [|auto|done].
  apply wp_bind, wp_act. intros w5 w6 H5%rtc_draining H6%rtc_draining.
  pose proof (halt_law (w_sched w5)) as [Hk Hh].
  destruct (halt (w_sched w5)) as [b s]; cbn in *. clear Hp.
  apply wp_ret. intros w7 H7%rtc_draining.
  assert (Hs : draining (set_sched s w5) w7) by by etrans.
  apply HQ; [|done|].
  - etrans; [exact H14|]. etrans; [exact H5|]. etrans; [by apply draining_keeps|exact Hs].
  - intros _. by apply Hs.
Qed.

(** What the commit loop has done when it ends, started at commit index [c]
    with the queue [q] in a block of [n] transactions. *)
Definition commit_post (n c : nat) (q : list TxnIndex)
    (r : outcome (result PErr unit)) (w' : World) : Prop :=
  match r with
  | Done (Ok _) => exists c', c <= c' <= n /\ commit_idx (w_sched w') = c' /\
      commit_queue (w_sched w') `suffix_of` q ++ seq c (c' - c) /\
      (c < c' -> c' = n -> halted (w_sched w') = true)
  | Done (Err _) => exists c', c < c' <= n /\ commit_idx (w_sched w') = c' /\
      commit_queue (w_sched w') `suffix_of` q ++ seq c (c' - 1 - c)
  | Panicked => True
  | Diverged => False
  end.

Lemma commit_post_step n c q q' r w' :
  c < n -> q' `suffix_of` q ++ [c] ->
  (S c = n -> match r with Done (Ok _) => halted (w_sched w') = true | _ => True end) ->
  commit_post n (S c) q' r w' -> commit_post n c q r w'.
Proof.
  intros Hc Hq Hh. destruct r as [[u|e]| |]; cbn [commit_post]; [| |done|done].
  - intros (c' & H1 & H2 & H3 & H4). exists c'. split_and!; [lia|lia|done| |].
    + etrans; [exact H3|]. replace (c' - c) with (S (c' - S c)) by lia. cbn [seq].
      change (c :: ?l) with ([c] ++ l). rewrite app_assoc. by apply suffix_app.
    + intros _ Hn. destruct (decide (S c = n)); [auto|]. apply H4; [lia|done].
  - intros (c' & H1 & H2 & H3). exists c'. split_and!; [lia|lia|done|].
    etrans; [exact H3|]. replace (c' - 1 - c) with (S (c' - 1 - S c)) by lia. cbn [seq].
    change (c :: ?l) with ([c] ++ l). rewrite app_assoc. by apply suffix_app.
Qed.

Abbreviation commit_loop := (prepare_and_queue_commit_ready_txns vm_execute block_gas_limit_type).

Context (Hvm : forall txn i, guar draining (vm_execute txn i)).
Context (Hfuel : forall txn i, fuelless (vm_execute txn i)).

Lemma wp_commit_loop fuel task block w :
  commit_idx (w_sched w) <= num_txns (w_sched w) ->
  num_txns (w_sched w) - commit_idx (w_sched w) < fuel ->
  wp draining (commit_loop fuel task block)
    (commit_post (num_txns (w_sched w)) (commit_idx (w_sched w)) (commit_queue (w_sched w))) w.
Proof.
  set (n := num_txns (w_sched w)).
  assert (Hn : num_txns (w_sched w) = n) by done. clearbody n. revert w Hn.
  induction fuel as [|fuel IH]; intros w Hn Hle Hf; [lia|].
  remember (commit_idx (w_sched w)) as c eqn:Hc0. remember (commit_queue (w_sched w)) as q eqn:Hq0.
  cbn [prepare_and_queue_commit_ready_txns].
  apply wp_bind, wp_act. intros w1 w2 (D1 & D2 & D3 & D4)%rtc_draining H2%rtc_draining.
  pose proof (try_commit_law (w_sched w1)) as Hl.
  destruct (try_commit (w_sched w1)) as [[[i inc]|] s]; cbn [fst snd and_then] in *.
  2: { apply wp_ret. intros w3 H3%rtc_draining. destruct Hl as (L1 & L2 & L3 & L4).
       assert (draining (set_sched s w1) w3) as (E1 & E2 & E3 & E4) by by etrans. cbn in *.
       exists c. split_and!; [lia|lia|congruence| |lia].
       rewrite Nat.sub_diag, app_nil_r. etrans; [exact E3|]. by rewrite L3, Hq0. }
  destruct Hl as (-> & Hi & L1 & L2 & L3 & L4). rewrite D1, <-Hc0 in *.
  assert (Hc : c < n) by (rewrite D2, Hn in Hi; done). clear Hi.
  (** After [try_commit]: the index has moved, the queue has not grown. *)
  assert (Hw2 : forall w', draining w2 w' ->
    commit_idx (w_sched w') = S c /\ num_txns (w_sched w') = n /\
    commit_queue (w_sched w') `suffix_of` q).
  { intros w' H3. assert (draining (set_sched s w1) w') as (E1 & E2 & E3 & E4) by by etrans.
    cbn in *. split_and!; [congruence|congruence|]. etrans; [exact E3|]. by rewrite L3, Hq0. }
  apply wp_bind, (wp_guar _ draining);
    [done|by apply draining_prepare|by apply fuelless_prepare|].
  intros [[[]|e]| |] w3 Ho H3%rtc_draining; cbn [and_then]; [| |done|done].
  2: { apply wp_ret. intros w4 H4%rtc_draining.
       destruct (Hw2 w4) as (E1 & E2 & E3); [by etrans|].
       exists (S c). split_and!; [lia|lia|done|].
       replace (S c - 1 - c) with 0 by lia. by rewrite app_nil_r. }
  apply wp_bind, wp_commit_halts; [done|]. intros stop w4 H4 Hlast Hhalt. cbn [and_then].
  destruct (Hw2 w4) as (E1 & E2 & E3); [by etrans|].
  destruct (Hw2 w3 H3) as (_ & N3 & _). rewrite N3 in Hlast.
  apply wp_bind, wp_act. intros w5 w6 H5%rtc_draining H6%rtc_draining. cbn [fst snd do_] in H6.
  pose proof (add_to_commit_queue_law c (w_sched w5)) as (A1 & A2 & A3 & A4).
  assert (H25 : draining w2 w5) by (etrans; [exact H3|]; by etrans).
  destruct (Hw2 w5 H25) as (F1 & F2 & F3).
  (** After [add_to_commit_queue]. *)
  assert (Hw6 : forall w', draining w6 w' -> commit_idx (w_sched w') = S c /\
    num_txns (w_sched w') = n /\ commit_queue (w_sched w') `suffix_of` q ++ [c] /\
    (stop = true -> halted (w_sched w') = true)).
  { intros w' H7. assert (draining (set_sched (add_to_commit_queue c (w_sched w5)) w5) w')
      as (G1 & G2 & G3 & G4) by by etrans.
    cbn in *. split_and!; [congruence|congruence| |].
    - etrans; [exact G3|]. rewrite A3. by apply suffix_app.
    - intros Hs. apply G4, A4, H5. auto. }
  destruct stop; cbn [and_then].
  - apply wp_ret. intros w7 H7%rtc_draining. destruct (Hw6 w7 H7) as (G1 & G2 & G3 & G4).
    exists (S c). split_and!; [lia|lia|done| |auto].
    by replace (S c - c) with 1 by lia.
  - destruct (Hw6 w6) as (G1 & G2 & G3 & G4); [done|].
    assert (S c <> n) by (intros Hs; rewrite Nat.add_1_r in Hlast; by specialize (Hlast Hs)).
    eapply wp_mono; [|apply IH; [done|lia|lia]]. intros r w7 Hr. rewrite G1 in Hr.
    eapply commit_post_step; [done|exact G3|done|exact Hr].
Qed.

(** C2. One thread runs the commit loop while the others, under any schedule,
    take transactions from the commit queue and do not commit themselves.
    When the loop has ended, the transactions it queued are consecutive from
    the commit index on, in increasing order, none missing and none twice; a
    transaction whose commit fails is not queued and none after it is; if the
    whole block was committed the scheduler is halted; and with more fuel than
    transactions left the loop does end. *)
Theorem commits_in_order fuel task block w (others : list (progR World PErr unit)) schedule :
  commit_idx (w_sched w) <= num_txns (w_sched w) ->
  num_txns (w_sched w) - commit_idx (w_sched w) < fuel ->
  (forall q, q ∈ others -> guar draining q) ->
  let tw := run_schedule (commit_loop fuel task block :: others, w) schedule in
  match fst tw !! 0 with
  | Some (Ret r) => commit_post (num_txns (w_sched w)) (commit_idx (w_sched w))
                      (commit_queue (w_sched w)) (Done r) (snd tw)
  | Some NoFuel => False
  | _ => True
  end.
Proof.
  intros Hle Hf Ho.
  pose proof (wp_commit_loop fuel task block w Hle Hf) as Hwp.
  pose proof (wp_pool draining (commit_loop fuel task block :: others) w 0 _ schedule _
                eq_refl Hwp) as Hpool. cbn zeta in *.
  match type of Hpool with ?A -> _ => assert (Hg : A) end.
  { intros [|j] q Hj Hq; [done|]. apply Ho. by eapply list_elem_of_lookup_2. }
  specialize (Hpool Hg). by destruct (fst (run_schedule _ _) !! 0) as [[]|].
Qed.
End commit_loop.

(** ** Materialization *)
Section materialize.
Context {X : Externals} {LL : LioLaws X} {SL : SchedLaws X} `{!ViewOps X World}.
Context (get_state_value : Key -> option StateValue) (transaction_commit_hook : bool).

Abbreviation materialize := (materialize_txn_commit get_state_value transaction_commit_hook).

(** The results, the hook calls and the scheduler. *)
Definition final_obs (w : World) : list Output * list HookEvent * sched :=
  (w_results w, w_hooks w, w_sched w).

(** The views replace identifiers by values: they are programs that satisfy
    [P]. *)
Record views_satisfy (P : forall A, prog World A -> Prop) : Prop := {
  vs_groups i gs : P _ (map_id_to_values_in_group_writes i gs);
  vs_writes i ws : P _ (map_id_to_values_in_write_set i ws);
  vs_events i es : P _ (map_id_to_values_events i es);
}.

Definition status_event (i : TxnIndex) (st : ExecutionStatus Output VmError) : HookEvent :=
  match status_output st with
  | Some o => on_transaction_committed i o
  | None => on_execution_aborted i
  end.

Definition store_status (rs : list Output) (i : TxnIndex)
    (st : ExecutionStatus Output VmError) : list Output :=
  match status_output st with Some o => <[i := o]> rs | None => rs end.

(** [st] is a status a transaction may be committed with, and its result has a
    slot. *)
Definition storable (rs : list Output) (i : TxnIndex) (st : ExecutionStatus Output VmError)
    : Prop :=
  match st with
  | Success _ | SkipRest _ => i < length rs
  | Abort _ => True
  | _ => False
  end.

Definition materialize_post (i : TxnIndex) (w : World) (r : outcome (result PanicError unit))
    (w' : World) : Prop :=
  match r with
  | Done (Ok _) => exists st, storable (w_results w) i st /\
      w_results w' = store_status (w_results w) i st /\
      w_hooks w' = w_hooks w ++ (if transaction_commit_hook then [status_event i st] else []) /\
      w_sched w' = w_sched w
  | Done (Err _) => final_obs w' = final_obs w
  | _ => True
  end.

Lemma wpr_take_final_result i w (Q : outcome unit -> World -> Prop) :
  let st := fst (take_output i (w_lio w)) in
  (forall w', Q Panicked w') ->
  (forall w', storable (w_results w) i st ->
     w_results w' = store_status (w_results w) i st -> w_hooks w' = w_hooks w ->
     w_sched w' = w_sched w -> Q (Done tt) w') ->
  wpr (take_final_result i) Q w.
Proof.
  intros st HP HQ. apply wpr_bind, wpr_act.
  assert (Hst : st = fst (take_output i (w_lio w))) by done. clearbody st.
  destruct (take_output i (w_lio w)) as [st' l]; cbn in Hst; subst st'. cbn [fst snd].
  assert (Hstore : forall t, status_output st = Some t ->
    (i < length (w_results w) -> storable (w_results w) i st) ->
    wpr (store_result i t) Q (set_lio l w)).
  { intros t Ht Hs. apply wpr_bind, wpr_asks, wpr_bind, wpr_assert; [|done].
    intros Hi%Nat.ltb_lt. apply wpr_update, HQ; cbn; [by apply Hs| |done..].
    unfold store_status. by rewrite Ht. }
  destruct st; [by apply Hstore|by apply Hstore|by apply wpr_ret, HQ|by apply wpr_crash..].
Qed.

Lemma wpr_publish i w (Q : outcome (result PanicError unit) -> World -> Prop) :
  (forall w', Q Panicked w') ->
  (forall w' st, storable (w_results w) i st ->
     w_results w' = store_status (w_results w) i st ->
     w_hooks w' = w_hooks w ++ (if transaction_commit_hook then [status_event i st] else []) ->
     w_sched w' = w_sched w -> Q (Done (Ok tt)) w') ->
  wpr (let! _ := commit_listener transaction_commit_hook i in
       let! _ := take_final_result i in Ret (Ok tt)) Q w.
Proof.
  intros HP HQ. apply wpr_bind. unfold commit_listener, hook.
  destruct transaction_commit_hook.
  - apply wpr_bind, wpr_asks, wpr_bind, wpr_expect; [|done]. intros st Hst.
    assert (Hrun : wpr (take_final_result i) (fun o w' => match o with
        | Done _ => wpr (Ret (Ok tt)) Q w' | Panicked => Q Panicked w'
        | Diverged => Q Diverged w' end)
        (set_hooks (w_hooks w ++ [status_event i st]) w)).
    { apply wpr_take_final_result; cbn; [done|]. rewrite (take_output_law _ _ _ Hst).
      intros w' H1 H2 H3 H4. apply wpr_ret. by eapply HQ. }
    unfold status_event in Hrun.
    destruct st; cbn [status_output] in Hrun; first [by apply wpr_update, wpr_bind, Hrun | by apply wpr_crash].
  - apply wpr_ret, wpr_bind, wpr_take_final_result; [done|].
    intros w' H1 H2 H3 H4. apply wpr_ret. eapply HQ; [done..| |done]. by rewrite app_nil_r.
Qed.

Lemma guar_delta_writes i :
  guar (keeps final_obs) (materialize_aggregator_v1_delta_writes get_state_value i).
Proof.
  unfold materialize_aggregator_v1_delta_writes, materialize_delta_write, materialize_from_base,
    ask_lio, on_data. solve_guar.
Qed.

Lemma wpr_materialize i w :
  views_satisfy (fun A p => guar (keeps final_obs) p) ->
  wpr (materialize i) (materialize_post i w) w.
Proof.
  intros [Hg Hw He]. unfold materialize_txn_commit.
  assert (Hlio : forall B (f : lio -> B * lio), guar (keeps final_obs) (on_lio f))
    by (intros; unfold on_lio; solve_guar).
  assert (HE : forall e w', final_obs w' = final_obs w ->
    materialize_post i w (Done (Err e)) w') by done.
  apply wpr_bind, (wpr_keeps final_obs); [done|]. intros [fg| |] w1 H1; [|done..].
  apply wpr_bindR, (wpr_keeps final_obs); [done|].
  intros [[mg|e]| |] w2 H2; [|apply HE; congruence|done..].
  apply wpr_bindR, wpr_ret. destruct (serialize_groups mg) as [sg|e]; cbn [map_err];
    [|apply HE; congruence].
  apply wpr_bind, (wpr_keeps final_obs); [done|]. intros [rws| |] w3 H3; [|done..].
  apply wpr_bindR, (wpr_keeps final_obs); [apply guar_asks, _|].
  intros [[tm|e]| |] w4 H4; [|apply HE; congruence|done..].
  apply wpr_bindR, (wpr_keeps final_obs); [done|].
  intros [[ms|e]| |] w5 H5; [|apply HE; congruence|done..].
  apply wpr_bind, wpr_asks. apply wpr_bindR, (wpr_keeps final_obs); [done|].
  intros [[me|e]| |] w6 H6; [|apply HE; congruence|done..].
  apply wpr_bind, (wpr_keeps final_obs); [apply guar_delta_writes|].
  intros [dw| |] w7 H7; [|done..].
  apply wpr_bindR, (wpr_keeps final_obs); [done|].
  intros [[[]|e]| |] w8 H8; [|apply HE; congruence|done..].
  assert (Ho : final_obs w8 = final_obs w) by congruence. injection Ho as O1 O2 O3.
  apply wpr_publish; [done|]. intros w9 st P1 P2 P3 P4. exists st. by rewrite <-O1, <-O2, <-O3.
Qed.

(** *** Draining the commit queue *)

Abbreviation drain := (drain_commit_queue get_state_value transaction_commit_hook).

(** The queue [q] was materialized with the statuses [sts]. *)
Fixpoint store_statuses (rs : list Output) (q : list TxnIndex)
    (sts : list (ExecutionStatus Output VmError)) : list Output :=
  match q, sts with
  | i :: q, st :: sts => store_statuses (store_status rs i st) q sts
  | _, _ => rs
  end.

Definition drain_post (q : list TxnIndex) (w : World) (r : outcome (result PanicError unit))
    (w' : World) : Prop :=
  match r with
  | Done (Ok _) => exists sts, length sts = length q /\
      w_results w' = store_statuses (w_results w) q sts /\
      w_hooks w' = w_hooks w ++
        (if transaction_commit_hook then zip_with status_event q sts else []) /\
      commit_queue (w_sched w') = []
  | Done (Err _) => exists q1 i q2 sts, q = q1 ++ i :: q2 /\ length sts = length q1 /\
      w_results w' = store_statuses (w_results w) q1 sts /\
      w_hooks w' = w_hooks w ++
        (if transaction_commit_hook then zip_with status_event q1 sts else []) /\
      commit_queue (w_sched w') = q2
  | Panicked => True
  | Diverged => False
  end.

Lemma drain_post_cons i q st w w1 r w' :
  w_results w1 = store_status (w_results w) i st ->
  w_hooks w1 = w_hooks w ++ (if transaction_commit_hook then [status_event i st] else []) ->
  drain_post q w1 r w' -> drain_post (i :: q) w r w'.
Proof.
  intros Hr Hh. destruct r as [[u|e]| |]; cbn [drain_post]; [| |done..].
  - intros (sts & H1 & H2 & H3 & H4). exists (st :: sts). cbn.
    rewrite <-Hr. split_and!; [lia|done| |done]. rewrite H3, Hh, <-app_assoc.
    by destruct transaction_commit_hook.
  - intros (q1 & j & q2 & sts & -> & H1 & H2 & H3 & H4). exists (i :: q1), j, q2, (st :: sts).
    cbn. rewrite <-Hr. split_and!; [done|lia|done| |done]. rewrite H3, Hh, <-app_assoc.
    by destruct transaction_commit_hook.
Qed.

Lemma fuelless_materialize i :
  views_satisfy (fun A p => fuelless p) -> fuelless (materialize i).
Proof.
  intros [Hg Hw He]. unfold materialize_txn_commit, commit_listener, hook, take_final_result,
    store_result, materialize_aggregator_v1_delta_writes, materialize_delta_write,
    materialize_from_base, ask_lio, on_lio, on_data, update. solve_fuelless.
Qed.

Lemma wpr_drain fuel w :
  views_satisfy (fun A p => guar (keeps final_obs) p) ->
  views_satisfy (fun A p => fuelless p) ->
  length (commit_queue (w_sched w)) < fuel ->
  wpr (drain fuel) (drain_post (commit_queue (w_sched w)) w) w.
Proof.
  intros Hv Hf. revert w. induction fuel as [|fuel IH]; intros w Hl; [lia|].
  cbn [drain_commit_queue]. apply wpr_bind, wpr_act.
  pose proof (pop_from_commit_queue_law (w_sched w)) as Hpop.
  destruct (pop_from_commit_queue (w_sched w)) as [[i|] s]; cbn [fst snd].
  - rewrite Hpop in *. cbn in Hl. apply wpr_bindR.
    pose proof (fuelless_run _ (set_sched s w) (fuelless_materialize i Hf)) as Hnd.
    pose proof (wpr_materialize i (set_sched s w) Hv) as Hm. unfold wpr in *.
    destruct (run (materialize i) (set_sched s w)) as [[[[]|e]| |] w1]; [| |done|done];
      cbn [fst snd] in *.
    + destruct Hm as (st & M0 & M1 & M2 & M3). cbn in *. subst s.
      eapply drain_post_cons; [done|done|]. apply IH. lia.
    + injection Hm as M1 M2 M3. cbn in *. exists [], i, (commit_queue s), [].
      split_and!; [done|done|done| |by rewrite M3].
      rewrite M2. by destruct transaction_commit_hook; rewrite app_nil_r.
  - destruct Hpop as [H1 H2]. rewrite H1. apply wpr_ret. exists []. cbn.
    split_and!; [done|done| |done]. by destruct transaction_commit_hook; rewrite app_nil_r.
Qed.

(** C6. [drain_commit_queue] materializes the queued transactions in queue
    order: each result lands in the slot of its transaction (an abort leaves
    the slot as it was), the commit hook hears of each exactly once with the
    very output stored, and the queue is empty at the end.  If a
    materialization fails, those before it have been published and those
    after it are still queued.  With more fuel than queued transactions it
    ends. *)
Theorem drain_materializes_queue fuel w :
  views_satisfy (fun A p => guar (keeps final_obs) p) ->
  views_satisfy (fun A p => fuelless p) ->
  length (commit_queue (w_sched w)) < fuel ->
  drain_post (commit_queue (w_sched w)) w (fst (run (drain fuel) w)) (snd (run (drain fuel) w)).
Proof. exact (wpr_drain fuel w). Qed.
End materialize.
