(* ===== verification/ParallelSpec.v ===== *)
(** Theorems about the worker threads and the parallel execution of a block. *)
From stdpp Require Import base list gmap strings relations.
From S2P Require Import Prelude Prog BlockTypes World Footprint Execute Commit Parallel.

Section workers.
Context {X : Externals} `{!ViewOps X World}.
Context (vm_execute : Txn -> TxnIndex ->
           prog World (ExecutionStatus Output VmError * ReadSet)).
Context (get_state_value : Key -> option StateValue).
Context (block_gas_limit_type : GasLimitType) (transaction_commit_hook : bool).

Abbreviation worker := (worker vm_execute get_state_value block_gas_limit_type
  transaction_commit_hook).
Abbreviation worker_loop := (worker_loop vm_execute get_state_value block_gas_limit_type
  transaction_commit_hook).
Abbreviation run_workers := (run_workers vm_execute get_state_value block_gas_limit_type
  transaction_commit_hook).
Abbreviation execute_parallel := (execute_transactions_parallel vm_execute get_state_value
  block_gas_limit_type transaction_commit_hook).

(** The VM and the views, as programs that satisfy [P]. *)
Record worker_parameters (P : forall A, prog World A -> Prop) : Prop := {
  wk_vm txn i : P _ (vm_execute txn i);
  wk_groups i gs : P _ (map_id_to_values_in_group_writes i gs);
  wk_writes i ws : P _ (map_id_to_values_in_write_set i ws);
  wk_events i es : P _ (map_id_to_values_events i es);
}.

(** What no step of [worker_loop] changes: the error flag and the number of
    result slots. *)
Definition outside_obs (w : World) : bool * nat := (w_error w, length (w_results w)).

Section frame.
Context (HP : worker_parameters (fun A p => guar (keeps outside_obs) p)).

Lemma obs_execute i inc block : guar (keeps outside_obs) (execute vm_execute i inc block).
Proof using HP.
  destruct HP as [Hvm _ _ _]. unfold execute, process_result, apply_updates, apply_group_write,
    apply_resource_write, apply_module_write, apply_delta, apply_delayed_change, remove_stale,
    remove_stale_delayed, ask_lio, on_data, on_group, on_mod, on_delayed, on_lio. solve_guar.
Qed.

Lemma obs_validate_commit i : guar (keeps outside_obs) (validate_commit_ready i).
Proof. unfold validate_commit_ready, ask_lio, on_delayed. solve_guar. Qed.

Lemma obs_prepare i inc block :
  guar (keeps outside_obs) (prepare_commit vm_execute block_gas_limit_type i inc block).
Proof using HP.
  pose proof (fun i inc => obs_execute i inc block). pose proof obs_validate_commit.
  unfold prepare_commit, reexecute, update_transaction_on_abort, mark_estimate,
    mark_estimate_delayed, validate, account_gas, approx_output_size, add_w, sub_w, finalize_one,
    ask_lio, on_data, on_group, on_mod, on_delayed, on_lio, on_sched, on_blp. solve_guar.
Qed.

Lemma obs_commit_loop fuel task block : guar (keeps outside_obs)
  (prepare_and_queue_commit_ready_txns vm_execute block_gas_limit_type fuel task block).
Proof using HP.
  pose proof (fun i inc => obs_prepare i inc block).
  induction fuel as [|fuel IH]; cbn [prepare_and_queue_commit_ready_txns]; [done|].
  unfold commit_halts, on_sched, ask_lio. solve_guar.
Qed.

Lemma obs_store_result i t : guar (keeps outside_obs) (store_result i t).
Proof.
  unfold store_result, update. apply guar_bind; [apply guar_asks, _|intros n].
  apply guar_bind; [apply guar_assert|intros _]. apply guar_act. intros w.
  unfold keeps, outside_obs; cbn. by rewrite length_insert.
Qed.

Lemma obs_materialize i :
  guar (keeps outside_obs) (materialize_txn_commit get_state_value transaction_commit_hook i).
Proof using HP.
  destruct HP as [_ Hg Hw He]. pose proof obs_store_result.
  unfold materialize_txn_commit, commit_listener, hook, take_final_result,
    materialize_aggregator_v1_delta_writes, materialize_delta_write,
    materialize_from_base, ask_lio, on_lio, on_data, update. solve_guar.
Qed.

Lemma obs_drain fuel :
  guar (keeps outside_obs) (drain_commit_queue get_state_value transaction_commit_hook fuel).
Proof using HP.
  pose proof obs_materialize. induction fuel as [|fuel IH]; cbn [drain_commit_queue]; [done|].
  unfold on_sched. solve_guar.
Qed.

Lemma obs_coordinate n fuel task block : guar (keeps outside_obs)
  (coordinate_commits vm_execute block_gas_limit_type n fuel task block).
Proof using HP.
  pose proof obs_commit_loop. induction fuel as [|fuel IH]; cbn [coordinate_commits]; [done|].
  unfold on_sched. solve_guar.
Qed.

Lemma obs_perform n task block : guar (keeps outside_obs)
  (perform_task vm_execute get_state_value transaction_commit_hook n task block).
Proof using HP.
  pose proof obs_drain. pose proof obs_execute.
  unfold perform_task, validate, update_on_validation, update_transaction_on_abort, mark_estimate,
    mark_estimate_delayed, ask_lio, on_data, on_group, on_mod, on_delayed, on_sched, update.
  solve_guar.
Qed.

Lemma obs_worker_loop fuel block : guar (keeps outside_obs) (worker_loop fuel block).
Proof using HP.
  unfold Parallel.worker_loop. generalize fuel at 1 as n. generalize Retry as task.
  pose proof obs_drain. pose proof obs_coordinate. pose proof obs_perform.
  induction fuel as [|fuel IH]; intros task n; cbn [worker_steps]; [done|]. solve_guar.
Qed.

(** ** The error flag *)

Lemma error_worker_loop fuel block : guar (keeps w_error) (worker_loop fuel block).
Proof using HP.
  eapply guar_mono; [|apply obs_worker_loop]. unfold keeps, outside_obs. congruence.
Qed.

Definition failed (r : result PErr unit) : Prop := is_ok r = false.

Lemma flagged_worker fuel block : flagged w_error failed (worker fuel block).
Proof using HP.
  apply flagged_bind; [apply error_worker_loop|].
  intros [u|e]; [done|]. intros w. right. by intros [].
Qed.

(** Steps that may raise the error flag but never lower it. *)
Definition error_grows (w w' : World) : Prop := w_error w = true -> w_error w' = true.

#[export] Instance error_grows_refl : Reflexive error_grows.
Proof. intros w He. exact He. Qed.

Lemma rtc_error_grows w w' : rtc error_grows w w' -> error_grows w w'.
Proof. induction 1 as [|w1 w2 w3 H _ IH]; [reflexivity|]. intros He. auto. Qed.

Lemma grows_worker fuel block : guar error_grows (worker fuel block).
Proof using HP.
  apply guar_bind.
  - eapply guar_mono; [|apply error_worker_loop]. intros w w' Hw He. by rewrite Hw.
  - intros [u|e]; [done|]. unfold update, on_sched. solve_guar.
Qed.

Lemma wp_worker fuel block w : wp error_grows (worker fuel block)
  (fun o w' => match o with Done (Err _) => w_error w' = true | _ => True end) w.
Proof.
  apply wp_bind, wp_trivial. intros [[u|e]| |] w1; cbn [and_then]; [by apply wp_ret| |done|done].
  apply wp_bind, wp_act. intros w2 w3 _ H3%rtc_error_grows. cbn [and_then].
  apply wp_bind, wp_act. intros w4 w5 H4%rtc_error_grows H5%rtc_error_grows. cbn [and_then fst snd].
  apply wp_ret. intros w6 H6%rtc_error_grows. apply H6, H5.
  assert (He : w_error w4 = true) by by apply H4, H3. by destruct (halt (w_sched w4)).
Qed.

Lemma workers_lookup fuel n block i p :
  replicate n (worker fuel block) !! i = Some p -> p = worker fuel block.
Proof. intros H. by apply lookup_replicate in H as [-> _]. Qed.

Lemma workers_failed fuel n schedule block rs :
  join (fst (run_workers fuel n schedule block)) = AllDone rs ->
  w_error (snd (run_workers fuel n schedule block)) = true <-> exists r, r ∈ rs /\ failed r.
Proof using HP.
  intros Hps%join_all_done. split.
  - intros He. unfold Parallel.run_workers in *.
    apply (flag_schedule w_error failed) in He as (i & p & Hi & Hp); [|
      intros j p ->%workers_lookup; apply flagged_worker|done].
    assert (Hi' : map Ret rs !! i = Some p) by (rewrite <-Hi, <-Hps; reflexivity).
    apply map_lookup_Some_1 in Hi' as (r & -> & Hr). exists r.
    split; [by eapply list_elem_of_lookup_2|done].
  - intros (r & [i Hi]%list_elem_of_lookup_1 & Hr).
    assert (Hth : fst (run_workers fuel n schedule block) !! i = Some (Ret r))
      by (rewrite Hps; by apply map_lookup_Some).
    destruct (replicate n (worker fuel block) !! i) as [p|] eqn:Hw.
    2: { exfalso. apply lookup_ge_None in Hw. apply lookup_lt_Some in Hth.
         unfold Parallel.run_workers in Hth. rewrite run_schedule_length in Hth.
         cbn [fst] in Hth. rewrite length_replicate in *. lia. }
    pose proof (workers_lookup _ _ _ _ _ Hw) as ->.
    pose proof (wp_pool error_grows _ (init_world (length block) block_gas_limit_type) i _
      schedule _ Hw (wp_worker fuel block _)) as Hpool. cbn zeta in Hpool.
    unfold Parallel.run_workers in *. rewrite Hth in Hpool.
    destruct r as [u|e]; [done|]. apply Hpool. intros j q _ ->%workers_lookup. apply grows_worker.
Qed.

Lemma workers_results_length fuel n schedule block :
  length (w_results (snd (run_workers fuel n schedule block))) = length block.
Proof using HP.
  assert (Hk : rtc (keeps (fun w => length (w_results w)))
    (init_world (length block) block_gas_limit_type) (snd (run_workers fuel n schedule block))).
  { apply guar_schedule. intros i p ->%workers_lookup. apply guar_bind.
    - eapply guar_mono; [|apply obs_worker_loop]. unfold keeps, outside_obs. congruence.
    - intros [u|e]; [done|]. unfold update, on_sched. solve_guar. }
  apply rtc_keeps in Hk. rewrite Hk. cbn. by rewrite length_replicate.
Qed.

Lemma parallel_length fuel n schedule block outs :
  execute_parallel fuel n schedule block = PResult (Ok outs) -> length outs = length block.
Proof using HP.
  unfold execute_transactions_parallel.
  destruct (negb (1 <? n)); [done|]. destruct block as [|txn block]; [by intros [= <-]|].
  pose proof (workers_results_length fuel n schedule (txn :: block)) as Hlen.
  destruct (run_workers fuel n schedule (txn :: block)) as [ps w].
  destruct (join ps); [|done..]. destruct (w_error w); [done|]. by intros [= <-].
Qed.

(** C7. Whatever the schedule: a parallel execution that returns outputs
    returns exactly one per transaction and no worker has failed; it returns
    [Err(())] exactly when some worker's loop has returned an error. *)
Theorem parallel_result fuel n schedule block r :
  execute_parallel fuel n schedule block = PResult r ->
  match r with
  | Ok outs => length outs = length block /\
      (block <> [] -> exists rs,
         join (fst (run_workers fuel n schedule block)) = AllDone rs /\
         Forall (fun r => is_ok r = true) rs /\
         outs = w_results (snd (run_workers fuel n schedule block)))
  | Err _ => exists rs,
      join (fst (run_workers fuel n schedule block)) = AllDone rs /\
      exists r, r ∈ rs /\ is_ok r = false
  end.
Proof using HP.
  unfold execute_transactions_parallel.
  destruct (negb (1 <? n)); [done|]. destruct block as [|txn block]; [by intros [= <-]|].
  set (b := txn :: block).
  pose proof (workers_results_length fuel n schedule b) as Hlen.
  destruct (run_workers fuel n schedule b) as [ps w] eqn:Hrun.
  destruct (join ps) as [rs| | |] eqn:Hj; [|done..]. intros [= <-].
  pose proof (workers_failed fuel n schedule b rs) as Hf. rewrite Hrun in Hf. cbn in Hf, Hlen |- *.
  specialize (Hf Hj). destruct (w_error w); cbn.
  - exists rs. split; [done|]. apply Hf. done.
  - split; [done|]. intros _. exists rs. split_and!; [done| |done].
    apply Forall_forall. intros r Hr. destruct (is_ok r) eqn:Hok; [done|].
    exfalso. assert (false = true); [|done]. apply Hf. eauto.
Qed.
End frame.
End workers.
