(* ===== verification/BlockExecutorSpec.v ===== *)
(** Theorems about [execute_block]. *)
From stdpp Require Import base list gmap strings relations.
From S2P Require Import Prelude Prog BlockTypes World Execute Commit Parallel Sequential.
From S2P Require Import BlockExecutor SequentialSpec ParallelSpec.

Section execute_block.
Context {X : Externals} `{!ViewOps X World} `{!ViewOps X SeqWorld}.
Context (vm_execute : Txn -> TxnIndex ->
           prog World (ExecutionStatus Output VmError * ReadSet)).
Context (get_state_value : Key -> option StateValue).
Context (vm_execute_seq : Txn -> TxnIndex -> prog SeqWorld (ExecutionStatus Output VmError)).
Context (materialize_agg_v1 : TxnIndex -> Output -> prog SeqWorld Output).
Context (output_groups_to_finalize : Output -> list (Key * Value * bool)).

Abbreviation execute_block := (execute_block vm_execute get_state_value vm_execute_seq
  materialize_agg_v1 output_groups_to_finalize).
Abbreviation execute_block_sequential := (execute_block_sequential vm_execute_seq
  materialize_agg_v1 output_groups_to_finalize).
Abbreviation retry_sequential := (retry_sequential vm_execute_seq
  materialize_agg_v1 output_groups_to_finalize).
Abbreviation run_sequential := (run_sequential vm_execute_seq
  materialize_agg_v1 output_groups_to_finalize).
Abbreviation run_parallel := (run_parallel vm_execute get_state_value).

(** What a failed block becomes, and what its outputs have in common with the
    outputs of the other branches: there is one per transaction. *)
Definition one_per_txn (block : list Txn) (r : block_outcome) : Prop :=
  match r with BResult (Ok outs) => length outs = length block | _ => True end.

Lemma fail_block_length self block e : one_per_txn block (fail_block self block e).
Proof. unfold fail_block. destruct (discard_failed_blocks _); cbn; [apply length_map|done]. Qed.

Lemma run_sequential_length self fb block outs :
  run_sequential self fb block = Done (Ok outs) -> length outs = length block.
Proof. apply sequential_length. Qed.

Lemma execute_block_sequential_length self block :
  one_per_txn block (execute_block_sequential self block).
Proof.
  unfold BlockExecutor.execute_block_sequential, BlockExecutor.retry_sequential.
  destruct (run_sequential self false block) as [[outs|[|e]]| |] eqn:H1; try done.
  - cbn. by eapply run_sequential_length.
  - destruct (negb _); [done|].
    destruct (run_sequential self true block) as [[outs|[|e]]| |] eqn:H2; try done.
    + cbn. by eapply run_sequential_length.
    + apply fail_block_length.
    + apply fail_block_length.
  - apply fail_block_length.
Qed.

(** C8. Whatever path a block takes (parallel, sequential fallback, bcs
    fallback, discarding), a successful result holds one output per
    transaction of the block. *)
Theorem execute_block_length self fuel schedule block outs :
  worker_parameters vm_execute (fun A p => guar (keeps outside_obs) p) ->
  execute_block self fuel schedule block = BResult (Ok outs) ->
  length outs = length block.
Proof.
  intros HP. unfold BlockExecutor.execute_block.
  pose proof (execute_block_sequential_length self block) as Hs.
  assert (Hseq : execute_block_sequential self block = BResult (Ok outs) ->
    length outs = length block) by (intros H; by rewrite H in Hs).
  destruct (1 <? _); [|done].
  destruct (run_parallel self fuel schedule block) as [| | |[o|[]]] eqn:Hp; try done.
  - intros [= ->]. by apply (parallel_length _ _ _ _ HP) in Hp.
  - destruct (negb _); [done|exact Hseq].
Qed.

(** The error a block ends with: that of the first sequential run or, if it
    could not serialize a resource group, that of the bcs fallback, which must
    not fail for this reason again. *)
Inductive sequential_error (self : BlockExecutor) (block : list Txn)
    : BlockExecutionError VmError -> Prop :=
| first_run_fails e :
    run_sequential self false block = Done (Err (ErrorToReturn e)) ->
    sequential_error self block e
| bcs_fallback_fails e :
    run_sequential self false block = Done (Err ResourceGroupSerializationError) ->
    run_sequential self true block = Done (Err (ErrorToReturn e)) ->
    sequential_error self block e
| bcs_fallback_not_serializable :
    run_sequential self false block = Done (Err ResourceGroupSerializationError) ->
    run_sequential self true block = Done (Err ResourceGroupSerializationError) ->
    sequential_error self block (FatalBlockExecutorError (code_invariant_error
      "resource group serialization during bcs fallback should not happen")).

(** The outputs of the run that ends a block without an error. *)
Inductive sequential_success (self : BlockExecutor) (block : list Txn) (outs : list Output)
    : Prop :=
| first_run_succeeds : run_sequential self false block = Done (Ok outs) ->
    sequential_success self block outs
| bcs_fallback_succeeds :
    run_sequential self false block = Done (Err ResourceGroupSerializationError) ->
    run_sequential self true block = Done (Ok outs) ->
    sequential_success self block outs.

(** What a failed block with error [e] is turned into. *)
Definition failed_result (self : BlockExecutor) (block : list Txn)
    (e : BlockExecutionError VmError) (r : result (BlockExecutionError VmError) (list Output))
    : Prop :=
  if discard_failed_blocks (config self) then
    exists code, r = Ok (replicate (length block) (discard_output code)) /\
      match e with
      | FatalBlockExecutorError _ => code = DELAYED_MATERIALIZATION_CODE_INVARIANT_ERROR
      | FatalVMError err =>
          code = UNKNOWN_INVARIANT_VIOLATION_ERROR /\ vm_aborts vm_execute_seq 0 block err
      end
  else r = Err e.

Lemma sequential_error_vm self block err :
  sequential_error self block (FatalVMError err) -> vm_aborts vm_execute_seq 0 block err.
Proof. intros He. inversion He; by eapply sequential_vm_error. Qed.

Lemma fail_block_result self block e r :
  sequential_error self block e -> fail_block self block e = BResult r ->
  failed_result self block e r.
Proof.
  intros He. unfold fail_block, failed_result.
  destruct (discard_failed_blocks _); intros [= <-]; [|done].
  exists (discard_code e). split.
  - f_equal. clear. induction block; cbn; congruence.
  - destruct e; cbn; eauto using sequential_error_vm.
Qed.

Lemma sequential_result self block r :
  execute_block_sequential self block = BResult r ->
  (exists outs, r = Ok outs /\ sequential_success self block outs) \/
  (exists e, sequential_error self block e /\ failed_result self block e r).
Proof.
  unfold BlockExecutor.execute_block_sequential, BlockExecutor.retry_sequential.
  destruct (run_sequential self false block) as [[outs|[|e]]| |] eqn:E1; try done.
  - intros [= <-]. left. eauto using sequential_success.
  - destruct (negb _); [done|].
    destruct (run_sequential self true block) as [[outs|[|e]]| |] eqn:E2; try done.
    + intros [= <-]. left. eauto using sequential_success.
    + intros H. pose proof (bcs_fallback_not_serializable self block E1 E2) as He.
      right. eexists. split; [exact He|by apply fail_block_result].
    + intros H. pose proof (bcs_fallback_fails self block e E1 E2) as He.
      right. eexists. split; [exact He|by apply fail_block_result].
  - intros H. pose proof (first_run_fails self block e E1) as He.
    right. eexists. split; [exact He|by apply fail_block_result].
Qed.

End execute_block.
