(* ===== verification/Reference.v ===== *)
(** A small executable instance of everything the block executor calls.

    The interfaces of [BlockTypes] and [World] have laws; this file shows that
    they can all hold at once, and gives the witnesses of the theorems
    something to run.  Keys carry their kind, the versioned maps are maps of
    maps, a transaction is the status its execution returns, and the scheduler
    hands out each transaction once and commits in order. *)
From stdpp Require Import base list gmap strings relations.
From S2P Require Import Prelude Prog BlockTypes World Footprint Execute ExecuteSpec.
From S2P Require Import Sequential SequentialSpec Commit CommitSpec.

(** ** Types *)

Record ROutput : Type := mkOut {
  ro_res : list (nat * Z);
  ro_agg : list (nat * Z);
  ro_deltas : list (nat * N);
  ro_mods : list (nat * Z);
  ro_groups : list (nat * Z * list (nat * Z));
  ro_delayed : list (nat * DelayedChange Z (bool * nat * Z));
  ro_tag : nat;
}.

Definition plain_output (tag : nat) : ROutput := mkOut [] [] [] [] [] [] tag.

(** A key is its kind (0 resource, 1 module, 2 group) and a number; a negative
    value is a deletion; a group with more than two entries cannot be
    serialized; the block gas limit bounds the number of transactions. *)
Definition R_types : Types := {|
  Key := nat * nat; Ident := nat; Tag := nat; Bytes := Z; Value := Z; Layout := unit;
  DeltaOp := N; DelayedValue := Z; DelayedApply := bool * nat * Z;
  DelayedEntry := DelayedChange Z (bool * nat * Z); WriteOp := Z; Event := nat;
  Txn := ExecutionStatus ROutput nat; Output := ROutput; VmError := nat;
  FeeStatement := unit; RWSummary := unit; GasLimitType := option nat;
  FinalizedGroup := unit; MaterializedGroup := unit; StateValue := Z;
  overflow_checks := true; debug_fmt := fun s => s; gen_id_start_value := fun b => if b then 1%N else 2%N;
  user_txn_bytes_len := fun _ => 1%N;
  resource_group_write_set := fun o =>
    map (fun g => ((2, g.1.1), g.1.2, map (fun tv => (tv.1, (tv.2, None))) g.2)) (ro_groups o);
  resource_write_set := fun o => map (fun kv => ((0, kv.1), kv.2, None)) (ro_res o);
  aggregator_v1_write_set := fun o => map (fun kv => ((0, kv.1), kv.2)) (ro_agg o);
  module_write_set := fun o => map (fun kv => ((1, kv.1), kv.2)) (ro_mods o);
  aggregator_v1_delta_set := fun o => map (fun kv => ((0, kv.1), kv.2)) (ro_deltas o);
  delayed_field_change_set := ro_delayed;
  fee_statement := fun _ => tt; output_approx_size := fun _ => 1%N;
  group_reads_needing_delayed_field_exchange := fun _ => [];
  get_events := fun _ => [];
  incorporate_materialized_txn_output := fun _ _ _ o => Ok o;
  skip_output := plain_output 100;
  discard_output := fun c => plain_output
    (match c with DELAYED_MATERIALIZATION_CODE_INVARIANT_ERROR => 101 | _ => 102 end);
  into_entry_no_additional_history := fun c => c;
  is_deletion := fun v => (v <? 0)%Z;
  extract_raw_bytes := fun v => if (v <? 0)%Z then None else Some v;
  from_state_value := fun v => v;
  as_u128 := fun v => Some (if (v <? 0)%Z then None else Some (Z.to_N v));
  apply_to := fun d v => Some (d + v)%N;
  delta_write_op := Z.of_N;
  get_apply_base_id := fun a _ => if a.1.1 then Previous a.1.2 else Current a.1.2;
  apply_to_base := fun a v => Some (v + a.2)%Z;
  bcs_to_bytes_is_err := fun m => 2 <? size m;
  map_finalized_group := fun _ _ _ _ => Ok tt;
  serialize_groups := fun _ => Ok [];
  block_output_limit := fun _ => None;
  include_user_txn_size_in_block_output := fun _ => false;
  conflict_penalty_window := fun _ => None;
|}.

(** ** Versioned maps: the cells of each transaction *)

Definition cells_at `{Countable K} {C} (m : gmap nat (gmap K C)) (i : nat) : gmap K C :=
  default ∅ (m !! i).
Definition on_cells `{Countable K} {C} (i : nat) (u : gmap K C -> gmap K C)
    (m : gmap nat (gmap K C)) : gmap nat (gmap K C) :=
  <[i := u (cells_at m i)]> m.

Lemma on_cells_updates `{Countable K} {C} i u (m : gmap nat (gmap K C)) :
  updates_at cells_at i u m (on_cells i u m).
Proof.
  split; [|intros j Hj]; unfold cells_at at 1, on_cells.
  - by rewrite lookup_insert_eq.
  - by rewrite lookup_insert_ne.
Qed.

Definition R_data : @VersionedData R_types := {|
  vd := gmap nat (gmap (@Key R_types) (cell (@data_payload R_types)));
  vd_new := ∅;
  vd_write := fun k i inc v l => on_cells i <[k := Live (@DWrite R_types inc v l)]>;
  vd_add_delta := fun k i d => on_cells i <[k := Live (@DDelta R_types d)]>;
  vd_remove := fun k i => on_cells i (delete k);
  vd_mark_estimate := fun k i => on_cells i (alter to_estimate k);
  vd_materialize_delta := fun k i m =>
    (match cells_at m i !! k with
     | Some (Live (DDelta d)) => Err d
     | _ => Ok 0%N
     end, m);
  vd_set_base_value := fun _ _ m => m;
|}.

Definition R_group : @VersionedGroupData R_types := {|
  vgd := gmap nat (gmap (@Key R_types) (cell (nat * list (nat * (Z * option unit)))));
  vgd_new := ∅;
  vgd_write := fun k i inc ops m =>
    (negb (bool_decide (ops.*1 ⊆ @group_tags R_types (cells_at m i) k)),
     on_cells i <[k := Live (inc, ops)]> m);
  vgd_remove := fun k i => on_cells i (delete k);
  vgd_mark_estimate := fun k i => on_cells i (alter to_estimate k);
  vgd_get_last_committed_group := fun _ _ => Ok [];
  vgd_finalize_group := fun _ _ m => (Ok [], m);
|}.

Definition R_mod : @VersionedModules R_types := {|
  vmod := gmap nat (gmap (@Key R_types) (cell Z));
  vmod_new := ∅;
  vmod_write := fun k i v => on_cells i <[k := Live v]>;
  vmod_remove := fun k i => on_cells i (delete k);
  vmod_mark_estimate := fun k i => on_cells i (alter to_estimate k);
|}.

Definition R_delayed : @VersionedDelayedFields R_types := {|
  vdf := gmap nat (gmap nat (cell (@DelayedEntry R_types)));
  vdf_new := ∅;
  vdf_record_change := fun id i e m => (Ok tt, on_cells i <[id := Live e]> m);
  vdf_remove := fun id i => on_cells i (delete id);
  vdf_mark_estimate := fun id i => on_cells i (alter to_estimate id);
  vdf_try_commit := fun _ _ m => (Ok tt, m);
|}.

(** The captured reads are whether an error was captured. *)
Definition R_reads : @CapturedReads R_types R_data R_group R_delayed := {|
  ReadSet := bool;
  capture_delayed_field_read_error := fun _ => true;
  is_incorrect_use := fun _ => false;
  validate_data_reads := fun b _ _ => negb b;
  validate_group_reads := fun _ _ _ => true;
  validate_delayed_field_reads := fun b _ _ => Ok (negb b);
|}.

(** ** Records: the reads and the status of each transaction *)

Definition R_keys (st : ExecutionStatus ROutput nat) : list (@Key R_types * KeyKind) :=
  @status_keys R_types st.

Definition R_lio : @LastInputOutput R_types R_data R_group R_delayed R_reads := {|
  lio := gmap nat (bool * ExecutionStatus ROutput nat);
  lio_new := fun _ => ∅;
  modified_keys := fun i m => (fun rs => R_keys rs.2) <$> m !! i;
  delayed_field_keys := fun i m => (fun rs => @status_ids R_types rs.2) <$> m !! i;
  record := fun i rs st _ m => (true, <[i := (rs, st)]> m);
  read_set := fun i m => fst <$> m !! i;
  check_fatal_vm_error := fun i m =>
    match m !! i with Some (_, Abort _) => Err FatalVMErrorParallel | _ => Ok tt end;
  check_execution_status_during_commit := fun i m =>
    match m !! i with
    | Some (_, SpeculativeExecutionAbortError msg) => Err (code_invariant_error msg)
    | _ => Ok tt
    end;
  lio_fee_statement := fun i m => (m !! i) ≫= fun rs => (fun _ => tt) <$> status_output rs.2;
  lio_output_approx_size := fun _ _ => None;
  get_txn_read_write_summary := fun _ _ => (tt : @RWSummary R_types);
  update_to_skip_rest := fun i => alter (fun rs => (rs.1,
    match rs.2 with Success o => SkipRest o | st => st end)) i;
  groups_to_finalize := fun _ _ => [];
  record_finalized_group := fun _ _ m => m;
  block_skips_rest_at_idx := fun i m =>
    match m !! i with Some (_, SkipRest _) => true | _ => false end;
  aggregator_v1_delta_keys := fun i m =>
    match (m !! i) ≫= fun rs => status_output rs.2 with
    | Some o => map (fun kv => (0, kv.1)) (ro_deltas o)
    | None => []
    end;
  take_finalized_group := fun _ m => ([], m);
  lio_resource_writes_to_materialize := fun _ _ _ _ => Ok [];
  take_resource_write_set := fun _ m => ([], m);
  lio_events := fun _ _ => [];
  record_materialized_txn_output := fun _ _ _ _ m => (Ok tt, m);
  txn_output := fun i m => snd <$> m !! i;
  take_output := fun i m => (default (Abort 0) (snd <$> m !! i), m);
  check_and_append_module_rw_conflict := fun _ _ m => (false, m);
|}.

(** ** Scheduler *)

Record RSched : Type := mkRSched {
  rs_n : nat;
  rs_next : nat;
  rs_executed : gset nat;
  rs_commit_idx : nat;
  rs_queue : list nat;
  rs_halted : bool;
  rs_coordinating : bool;
}.

Definition R_sched : SchedulerOps := {|
  sched := RSched;
  sched_new := fun n => mkRSched n 0 ∅ 0 [] false false;
  num_txns := rs_n;
  try_abort := fun _ _ s => (true, s);
  finish_abort := fun i inc s => (Ok (ExecutionTask i (S inc) Execution), s);
  finish_validation := fun _ _ s => s;
  queueing_commits_arm := fun s => s;
  queueing_commits_mark_done := fun s =>
    mkRSched (rs_n s) (rs_next s) (rs_executed s) (rs_commit_idx s) (rs_queue s) (rs_halted s) false;
  should_coordinate_commits := fun s =>
    if negb (rs_coordinating s) && negb (rs_halted s) &&
       bool_decide (rs_commit_idx s ∈ rs_executed s)
    then (true, mkRSched (rs_n s) (rs_next s) (rs_executed s) (rs_commit_idx s) (rs_queue s)
                  (rs_halted s) true)
    else (false, s);
  try_commit := fun s =>
    if bool_decide (rs_commit_idx s ∈ rs_executed s) && (rs_commit_idx s <? rs_n s)
    then (Some (rs_commit_idx s, 0),
          mkRSched (rs_n s) (rs_next s) (rs_executed s) (S (rs_commit_idx s)) (rs_queue s)
            (rs_halted s) (rs_coordinating s))
    else (None, s);
  finish_execution_during_commit := fun _ s => (Ok tt, s);
  finish_execution := fun i _ _ s =>
    (Ok Retry, mkRSched (rs_n s) (rs_next s) ({[i]} ∪ rs_executed s) (rs_commit_idx s)
                 (rs_queue s) (rs_halted s) (rs_coordinating s));
  add_to_commit_queue := fun i s =>
    mkRSched (rs_n s) (rs_next s) (rs_executed s) (rs_commit_idx s) (rs_queue s ++ [i])
      (rs_halted s) (rs_coordinating s);
  pop_from_commit_queue := fun s =>
    match rs_queue s with
    | [] => (None, s)
    | i :: q => (Some i, mkRSched (rs_n s) (rs_next s) (rs_executed s) (rs_commit_idx s) q
                           (rs_halted s) (rs_coordinating s))
    end;
  halt := fun s =>
    (negb (rs_halted s), mkRSched (rs_n s) (rs_next s) (rs_executed s) (rs_commit_idx s)
                           (rs_queue s) true (rs_coordinating s));
  next_task := fun s =>
    if rs_halted s then (TaskDone, s)
    else if rs_next s <? rs_n s
    then (ExecutionTask (rs_next s) 0 Execution,
          mkRSched (rs_n s) (S (rs_next s)) (rs_executed s) (rs_commit_idx s) (rs_queue s)
            (rs_halted s) (rs_coordinating s))
    else (Retry, s);
|}.

(** The gas limit processor counts transactions. *)
Definition R_blp : @GasLimitProcessor R_types := {|
  blp := option nat * nat;
  blp_new := fun (limit : @GasLimitType R_types) _ => ((limit : option nat), 0);
  accumulate_fee_statement := fun _ _ _ b => (b.1, S b.2);
  process_module_rw_conflict := fun b => b;
  should_end_block_parallel := fun b => match b.1 with Some n => n <=? b.2 | None => false end;
  should_end_block_sequential := fun b => match b.1 with Some n => n <=? b.2 | None => false end;
|}.

(** ** Unsynchronized map *)

Record RMap : Type := mkRMap {
  rm_data : gmap (nat * nat) (Z * option unit);
  rm_mods : gmap (nat * nat) Z;
  rm_fields : gmap nat Z;
  rm_groups : gmap (nat * nat) (gmap nat (ValueWithLayout Z unit));
}.

Definition R_insert_group_op (k : nat * nat) (t : nat) (v : Z) (l : option unit) (m : RMap) : RMap :=
  mkRMap (rm_data m) (rm_mods m) (rm_fields m)
    (<[k := (if (v <? 0)%Z then delete t else <[t := Exchanged v l]>)
              (default ∅ (rm_groups m !! k))]> (rm_groups m)).

Definition R_unsync : @UnsyncOps R_types := {|
  um := RMap;
  um_new := mkRMap ∅ ∅ ∅ ∅;
  um_write := fun k v l m => mkRMap (<[k := (v, l)]> (rm_data m)) (rm_mods m) (rm_fields m) (rm_groups m);
  um_insert_group_op := fun (k : @Key R_types) (t : @Tag R_types) (v : @Value R_types) l m =>
    (Ok tt, R_insert_group_op k t v l m);
  um_write_module := fun k v m => mkRMap (rm_data m) (<[k := v]> (rm_mods m)) (rm_fields m) (rm_groups m);
  um_fetch_delayed_field := fun id m => rm_fields m !! id;
  um_write_delayed_field := fun id v m =>
    mkRMap (rm_data m) (rm_mods m) (<[id := v]> (rm_fields m)) (rm_groups m);
  um_finalize_group := fun k m =>
    map_to_list (default ∅ (rm_groups m !! k));
  um_resource_writes_to_materialize := fun _ _ _ => Ok [];
  seq_view := unit; seq_view_new := tt; SeqReads := unit;
  take_sequential_reads := fun v => (tt, v);
  seq_incorrect_use := fun _ => false;
  module_reads := fun _ => [];
  read_write_summary := fun _ _ => (tt : @RWSummary R_types);
|}.

#[export] Instance RX : Externals := {|
  X_types := R_types; X_data := R_data; X_group := R_group; X_mod := R_mod;
  X_delayed := R_delayed; X_reads := R_reads; X_lio := R_lio; X_sched := R_sched;
  X_blp := R_blp; X_unsync := R_unsync;
|}.

(** ** The laws hold *)

#[export] Instance R_data_laws : DataLaws RX.
Proof. by refine {| data_at := (cells_at : @vd R_types R_data -> _) |}; intros; apply on_cells_updates. Defined.

#[export] Instance R_group_laws : GroupLaws RX.
Proof.
  refine {| group_at := (cells_at : @vgd R_types R_group -> _) |}; intros;
    try apply on_cells_updates.
  destruct (bool_decide_reflect (ops.*1 ⊆ @group_tags R_types (cells_at m i) k)) as [Hs|Hs];
    [exact Hs|]. exfalso. revert H. cbn. by rewrite bool_decide_false.
Defined.

#[export] Instance R_mod_laws : ModuleLaws RX.
Proof. by refine {| module_at := (cells_at : @vmod R_types R_mod -> _) |}; intros; apply on_cells_updates. Defined.

#[export] Instance R_delayed_laws : DelayedLaws RX.
Proof.
  refine {| delayed_at := (cells_at : @vdf R_types R_delayed -> _) |}; intros;
    try apply on_cells_updates.
  exists (Some (Live e)). split; [|done]. exact (on_cells_updates i (partial_alter _ id) m).
Defined.

#[export] Instance R_versioned_laws : VersionedLaws RX :=
  {| VL_data := _; VL_group := _; VL_mod := _; VL_delayed := _ |}.

#[export] Instance R_lio_laws : LioLaws RX.
Proof.
  split; cbn; intros.
  - by rewrite lookup_insert_eq.
  - by rewrite lookup_insert_eq.
  - by rewrite lookup_insert_eq.
  - by rewrite lookup_insert_eq.
  - by rewrite lookup_insert_ne.
  - by rewrite H.
Qed.

Definition R_kind (k : nat * nat) : KeyKind :=
  match k.1 with 0 => Resource | 1 => ModuleKind | _ => Group end.

#[export] Instance R_kind_laws : KindLaws RX.
Proof.
  refine {| kind_of := R_kind |}.
  intros o k kind. unfold output_keys; cbn. rewrite !map_map. unlist.
  intros [(x & [= -> ->] & _)|[(x & [= -> ->] & _)|[(x & [= -> ->] & _)|[(x & [= -> ->] & _)
    |(x & [= -> ->] & _)]]]]; reflexivity.
Defined.

#[export] Instance R_sched_laws : SchedLaws RX.
Proof.
  refine {| commit_idx := rs_commit_idx : @sched R_sched -> nat; commit_queue := rs_queue;
            halted := rs_halted |}; cbn -[Nat.ltb].
  - intros s. destruct (bool_decide _); cbn -[Nat.ltb]; [|by repeat split].
    destruct (Nat.ltb_spec (rs_commit_idx s) (rs_n s)); repeat split; auto.
  - intros i s. repeat split; auto.
  - intros s. destruct (rs_queue s) eqn:E; cbn; auto.
  - intros s. repeat split; auto.
  - intros i s. repeat split; auto.
Defined.

Lemma R_group_of (m : RMap) (k : @Key R_types) :
  group_of (m : @um R_types R_unsync) k = default ∅ (rm_groups m !! k).
Proof. apply (collect_map_of_map (K := nat)). Qed.

#[export] Instance R_unsync_laws : UnsyncLaws RX.
Proof.
  refine {| um_data := rm_data : @um R_types R_unsync -> _; um_modules := rm_mods |};
    cbn -[group_of];
    intros; split_and!; try done.
  { intros _ k'. rewrite !R_group_of. cbn. rewrite lookup_insert.
    case_decide; [subst k'|done]. unfold group_change; cbn. by destruct (v <? 0)%Z. }
  intros id'. rewrite lookup_insert. repeat case_decide; congruence.
Defined.

(** ** A VM, and views, for the instance *)

#[export] Instance R_views : ViewOps RX World := {|
  map_id_to_values_in_group_writes := fun _ _ => Ret (Ok []);
  map_id_to_values_in_write_set := fun _ _ => Ret (Ok []);
  map_id_to_values_events := fun _ _ => Ret (Ok []);
|}.

#[export] Instance R_seq_views : ViewOps RX SeqWorld := {|
  map_id_to_values_in_group_writes := fun _ _ => Ret (Ok []);
  map_id_to_values_in_write_set := fun _ _ => Ret (Ok []);
  map_id_to_values_events := fun _ _ => Ret (Ok []);
|}.

(** A transaction is executed by returning the status it is. *)
Definition R_vm (txn : Txn) (i : TxnIndex)
    : prog World (ExecutionStatus Output VmError * ReadSet) :=
  let! _ := asks (fun w => w_data w) in Ret (txn, false).
Definition R_vm_seq (txn : Txn) (i : TxnIndex) : prog SeqWorld (ExecutionStatus Output VmError) :=
  let! _ := asks s_map in Ret txn.
Definition R_agg (i : TxnIndex) (o : Output) : prog SeqWorld Output := Ret o.
Definition R_groups (o : Output) : list (Key * Value * bool) := [].
Definition R_base (k : Key) : option StateValue := Some 0%Z.

Lemma R_vm_reads_only : vm_reads_only R_vm.
Proof. intros txn i j w. by split. Qed.

Lemma R_vm_keeps {B} (obs : World -> B) txn i : guar (keeps obs) (R_vm txn i).
Proof. intros w. by split. Qed.

Lemma R_init_tracked n glt i : tracked (footprint i (init_world n glt)).
Proof.
  split; unfold keys_of, ids_of; cbn; unfold cells_at; rewrite ?lookup_empty; cbn.
  - by intros k kind ?%not_elem_of_nil.
  - intros k. rewrite lookup_empty. by intros [].
  - intros k. rewrite lookup_empty. by intros [].
  - intros k. rewrite lookup_empty. by intros [].
  - intros k. rewrite lookup_empty. by intros [].
Qed.
