(* ===== verification/BlockWitnesses.v ===== *)
(** The theorems about the block executor at concrete blocks.

    Each witness applies a theorem to the instance of [Reference], where the
    parameters are concrete functions and the laws hold, and shows that the
    case the theorem speaks of does occur there. *)
From stdpp Require Import base list gmap strings relations.
From S2P Require Import Prelude Prog BlockTypes World Footprint Execute ExecuteSpec ValidationSpec.
From S2P Require Import Commit Parallel Sequential BlockExecutor SequentialSpec Agreement.
From S2P Require Import CommitSpec ParallelSpec BlockExecutorSpec Reference.

(** ** Transactions and blocks *)

(** Writes two resources, a module, a group and a delayed field. *)
Definition out_a : Output :=
  mkOut [(1, 10%Z); (2, 20%Z)] [(3, 30%Z)] [] [(4, 40%Z)] [(5, 50%Z, [(0, 1%Z)])]
    [(7, Create 70%Z); (8, Apply (false, 7, 5%Z))] 1.
Definition out_b : Output := mkOut [(1, 11%Z)] [] [] [] [] [] 2.
(** Writes a group that cannot be serialized. *)
Definition out_big : Output :=
  mkOut [] [] [] [] [(5, 50%Z, [(0, 1%Z); (1, 2%Z); (2, 3%Z)])] [] 3.

Definition block_ab : list Txn := [Success out_a; Success out_b].

(** Two threads taking turns. *)
Definition two_threads (n : nat) : list nat := flat_map (fun _ => [0; 1; 1; 0]) (seq 0 n).

(** ** Execution and validation *)

Definition tasks_ab : list txn_task := [RunExecute 0 0; RunValidation 1 0 false 0].
Definition start_ab : World := init_world 2 (None : GasLimitType).

Definition has_executed {A B E} (p : option (prog World (result E A + B))) : bool :=
  match p with Some (Ret (inl (Ok _))) => true | _ => false end.

Lemma has_executed_ok {A B E} (p : option (prog World (result E A + B))) :
  has_executed p = true -> exists a, p = Some (Ret (inl (Ok a))).
Proof. destruct p as [[[[]|]| | |]|]; try done. eauto. Qed.

Lemma threads_keep_footprints_witness :
  let tw := run_schedule (map (task_thread R_vm block_ab) tasks_ab, start_ab) (two_threads 30) in
  has_executed (fst tw !! 0) = true /\
  match fst tw !! 0 with
  | Some (Ret r) => task_post (RunExecute 0 0) (footprint 0 start_ab) r (footprint 0 (snd tw))
  | Some Crash => footprint 0 (snd tw) = footprint 0 start_ab
  | _ => True
  end.
Proof.
  split; [vm_compute; reflexivity|].
  apply (threads_keep_footprints R_vm block_ab tasks_ab start_ab (two_threads 30) 0
    (RunExecute 0 0)).
  - exact R_vm_reads_only.
  - cbn. repeat constructor; set_solver.
  - intros t _. apply R_init_tracked.
  - reflexivity.
Defined.

Lemma validation_outcome_witness :
  let '(r, w') := run (update_on_validation 0 0 false 0) start_ab in
  match try_abort 0 0 (w_sched start_ab) with
  | (false, s) => r = Done (Ok Retry) /\ w' = set_sched (finish_validation 0 0 s) start_ab
  | (true, s) =>
      r = Done (fst (finish_abort 0 0 s)) /\ w_sched w' = snd (finish_abort 0 0 s) /\
      footprint 0 w' = estimated (footprint 0 start_ab) /\
      forall j, j <> 0 -> footprint j w' = footprint j start_ab
  end.
Proof. exact (validation_outcome 0 0 false 0 start_ab (R_init_tracked 2 None 0)). Defined.

(** ** Sequential execution *)

Definition is_done_ok {A E} (o : outcome (result E A)) : bool :=
  match o with Done (Ok _) => true | _ => false end.

Definition start_seq : SeqWorld := init_seq_world (None : GasLimitType) 2.

Lemma apply_output_contract_witness :
  is_done_ok (fst (run (apply_output_sequential out_a (resource_write_set out_a)) start_seq)) = true /\
  match run (apply_output_sequential out_a (resource_write_set out_a)) start_seq with
  | (Done (Ok _), w') => output_applied out_a start_seq w'
  | (Diverged, _) => False
  | _ => True
  end.
Proof.
  split; [vm_compute; reflexivity|].
  apply (apply_output_contract out_a start_seq). cbn. apply NoDup_cons. split; [set_solver|].
  apply NoDup_singleton.
Defined.

Lemma R_seq_hooks :
  parameters_satisfy R_vm_seq R_agg (fun A p => guar (keeps s_hooks) p).
Proof. by split. Qed.

Lemma R_seq_fuelless : parameters_satisfy R_vm_seq R_agg (fun A p => fuelless p).
Proof. by split. Qed.

Abbreviation run_seq fb block :=
  (run (execute_transactions_sequential R_vm_seq R_agg R_groups (Some 2) true fb block)
     (init_seq_world (Some 2 : GasLimitType) (length block))).

(** Three transactions under a gas limit of two: the third is skipped. *)
Definition block_abb : list Txn := [Success out_a; Success out_b; Success out_b].

Definition sequential_abb : Prop :=
  let '(r, w') := run_seq false block_abb in
  match r with
  | Done (Ok outs) =>
      length outs = length block_abb /\
      exists cs,
        outs = map committed_output cs ++ replicate (length block_abb - length cs) skip_output /\
        (length cs < length block_abb -> exists o, last cs = Some (Pushed o)) /\
        (false = false -> Forall (fun c => exists o, c = Pushed o) cs) /\
        s_hooks w' = hook_events true (commit_events 0 cs)
  | Done (Err e) => exists cs,
      length cs < length block_abb /\
      (false = false -> Forall (fun c => exists o, c = Pushed o) cs) /\
      (s_hooks w' = hook_events true (commit_events 0 cs) \/
       s_hooks w' = hook_events true
         (commit_events 0 cs ++ [on_execution_aborted (as_u32 (length cs))]))
  | _ => True
  end.

Lemma sequential_outputs_witness :
  match fst (run_seq false block_abb) with
  | Done (Ok outs) => map ro_tag outs
  | _ => []
  end = [1; 2; 100] /\ sequential_abb.
Proof.
  split; [vm_compute; reflexivity|].
  exact (sequential_outputs R_vm_seq R_agg R_groups (Some 2) true false block_abb R_seq_hooks).
Defined.

Lemma sequential_terminates_witness :
  fst (run (execute_transactions_sequential R_vm_seq R_agg R_groups None true true block_abb)
         start_seq) <> Diverged.
Proof.
  exact (sequential_terminates R_vm_seq R_agg R_groups None true true block_abb start_seq
           R_seq_fuelless).
Defined.

Definition is_discarded {A E} (o : outcome (result E (committed (X := A)))) : bool :=
  match o with Done (Ok (Discarded _)) => true | _ => false end.

Lemma discarded_writes_nothing_witness :
  let p := commit_sequential R_agg R_groups (None : GasLimitType) true true
             (Success out_big) 0 out_big in
  is_discarded (fst (run p start_seq)) = true /\
  match run p start_seq with
  | (Done (Ok (Discarded o')), w') =>
      true = true /\ o' = discard_output DELAYED_MATERIALIZATION_CODE_INVARIANT_ERROR /\
      s_map w' = s_map start_seq
  | _ => True
  end.
Proof.
  split; [vm_compute; reflexivity|].
  exact (discarded_writes_nothing R_agg R_groups None true true (Success out_big) 0 out_big
           start_seq I).
Defined.

(** ** Agreement *)

(** Writes a resource that [out_a] writes too, holds a delta, and changes and
    extends the group of [out_a]. *)
Definition out_c : Output :=
  mkOut [(1, 11%Z)] [] [(9, 5%N)] [(4, 41%Z)] [(5, 51%Z, [(0, 2%Z); (1, 7%Z)])] [] 4.
Definition block_ac : list Txn := [Success out_a; Success out_c].

Abbreviation run_ac :=
  (run_schedule (map (task_thread R_vm block_ac) (executions [0; 0]), start_ab) (two_threads 30)).

Lemma parallel_sequential_agree_witness :
  is_done_ok (fst (run (apply_outputs [out_a; out_c]) start_seq)) = true /\
  match run (apply_outputs [out_a; out_c]) start_seq with
  | (Done (Ok _), sw') => same_state [out_a; out_c] (snd run_ac) sw'
  | (Diverged, _) => False
  | _ => True
  end.
Proof.
  split; [vm_compute; reflexivity|].
  refine (parallel_sequential_agree R_vm block_ac [0; 0] start_ab (two_threads 30) [out_a; out_c]
    start_seq R_vm_reads_only (R_init_tracked 2 None) _ _ eq_refl eq_refl (fun _ => eq_refl)).
  - split; [reflexivity|]. intros [|[|i]] o Ho; [injection Ho as <-|injection Ho as <-|done].
    + split; [apply has_executed_ok; vm_compute; reflexivity|vm_compute; reflexivity].
    + split; [apply has_executed_ok; vm_compute; reflexivity|vm_compute; reflexivity].
  - repeat constructor; cbn; apply (bool_decide_unpack _); vm_compute; exact I.
Defined.

(** ** Committing *)

(** The store when both transactions have been executed. *)
Definition executed_ab : World :=
  set_sched (mkRSched 2 2 {[0; 1]} 0 [] false false)
    (snd (run (execute R_vm 1 0 block_ab) (snd (run (execute R_vm 0 0 block_ab) start_ab)))).

(** A thread that takes a transaction from the queue. *)
Definition popper : progR World PErr unit :=
  let! _ := on_sched pop_from_commit_queue in Ret (Ok tt).

Lemma popper_draining : guar draining popper.
Proof.
  apply guar_bind; [|done]. apply guar_act. intros w. cbn.
  destruct (rs_queue (w_sched w)) as [|i q] eqn:Hq; cbn;
    [by apply draining_same_sched|].
  repeat split; cbn; auto. exists [i]. by rewrite Hq.
Qed.

Lemma R_vm_draining txn i : guar draining (R_vm txn i).
Proof. intros w. split; [reflexivity|exact I]. Qed.

Lemma R_vm_fuelless txn i : fuelless (R_vm txn i).
Proof. done. Qed.

Definition is_ret {W A} (p : option (prog W A)) : bool :=
  match p with Some (Ret _) => true | _ => false end.

Lemma commits_in_order_witness :
  let tw := run_schedule (prepare_and_queue_commit_ready_txns R_vm (None : GasLimitType) 3 Retry block_ab
                            :: [popper], executed_ab) (two_threads 30) in
  is_ret (fst tw !! 0) = true /\
  match fst tw !! 0 with
  | Some (Ret r) => commit_post 2 0 [] (Done r) (snd tw)
  | Some NoFuel => False
  | _ => True
  end.
Proof.
  split; [vm_compute; reflexivity|].
  apply (commits_in_order R_vm None R_vm_draining R_vm_fuelless 3 Retry block_ab executed_ab
           [popper] (two_threads 30)).
  - apply Nat.leb_le. vm_compute. reflexivity.
  - apply Nat.ltb_lt. vm_compute. reflexivity.
  - intros q ->%list_elem_of_singleton. exact popper_draining.
Defined.

(** The store when both transactions are in the commit queue. *)
Definition queued_ab : World := set_sched (mkRSched 2 2 {[0; 1]} 2 [0; 1] true false) executed_ab.

Lemma R_views_keep : views_satisfy (fun A p => guar (keeps final_obs) p).
Proof. by split. Qed.

Lemma R_views_fuelless : views_satisfy (fun A p => fuelless p).
Proof. by split. Qed.

Lemma drain_materializes_queue_witness :
  is_done_ok (fst (run (drain_commit_queue R_base true 3) queued_ab)) = true /\
  drain_post true (commit_queue (w_sched queued_ab)) queued_ab (fst (run (drain_commit_queue R_base true 3) queued_ab))
    (snd (run (drain_commit_queue R_base true 3) queued_ab)).
Proof.
  split; [vm_compute; reflexivity|].
  refine (drain_materializes_queue R_base true 3 queued_ab R_views_keep R_views_fuelless _).
  cbn. lia.
Defined.

(** ** Blocks *)

Lemma R_worker_parameters {B} (obs : World -> B) :
  worker_parameters R_vm (fun A p => guar (keeps obs) p).
Proof. by split. Qed.

(** A gas limit of two: the third transaction is skipped in parallel too. *)
Abbreviation parallel block :=
  (execute_transactions_parallel R_vm R_base (Some 2 : GasLimitType) true 40 2 (two_threads 400) block).
Abbreviation workers block :=
  (run_workers R_vm R_base (Some 2 : GasLimitType) true 40 2 (two_threads 400) block).

Definition outs_abb : list Output := [out_a; out_b; skip_output].

Lemma parallel_result_witness :
  length outs_abb = length block_abb /\
  (block_abb <> [] -> exists rs,
     join (fst (workers block_abb)) = AllDone rs /\
     Forall (fun r => is_ok r = true) rs /\
     outs_abb = w_results (snd (workers block_abb))).
Proof.
  exact (parallel_result R_vm R_base (Some 2) true (R_worker_parameters outside_obs) 40 2
    (two_threads 400) block_abb (Ok outs_abb)
    ltac:(vm_cast_no_check (eq_refl (PResult (Ok outs_abb))))).
Defined.

Definition executor_2 (fallback discard : bool) : BlockExecutor :=
  mkBlockExecutor _ (mkConfig _ 2 fallback discard (Some 2)) true.

Abbreviation exec_block self block :=
  (execute_block R_vm R_base R_vm_seq R_agg R_groups self 40 (two_threads 400) block).

Lemma execute_block_length_witness : length outs_abb = 3.
Proof.
  exact (execute_block_length R_vm R_base R_vm_seq R_agg R_groups (executor_2 false false) 40
    (two_threads 400) block_abb outs_abb (R_worker_parameters outside_obs)
    ltac:(vm_cast_no_check (eq_refl (BResult (Ok outs_abb))))).
Defined.

(** A block whose second transaction makes the VM fail. *)
Definition block_bad : list Txn := [Success out_a; Abort 9; Success out_b].

Definition discarded_bad : list Output :=
  replicate 3 (discard_output UNKNOWN_INVARIANT_VIOLATION_ERROR).


Definition block_skip_big : list Txn := [SkipRest out_big; Success out_b].
Definition block_skip : list Txn := [SkipRest out_a; Success out_b].

(** In the bcs fallback a [SkipRest] transaction that is discarded does not
    end the block: the [continue] bypasses the test of [must_skip], and the
    transaction after it is executed and committed. *)
Theorem discarded_skip_rest_continues :
  match fst (run_seq true block_skip_big) with
  | Done (Ok outs) => map ro_tag outs
  | _ => []
  end = [101; 2] /\
  match fst (run_seq true block_skip) with
  | Done (Ok outs) => map ro_tag outs
  | _ => []
  end = [1; 100].
Proof. vm_compute. split; reflexivity. Qed.
