(* ===== verification/Machine.v ===== *)
(** Single-threaded code that mutates a state and may panic.

    [M S A] is such code over a state of type [S]: [None] is a panic.  A
    function without state is an [option].  Machine integers are [Z] with the
    width of each operation written out: an operation that leaves the range
    panics or wraps around, as the build is configured ([checked]). *)
From stdpp Require Import base list option numbers.
From S2P Require Import Prelude.

(** Does the build check arithmetic for overflow? *)
Class Build := { checked : bool }.

Definition M (S A : Type) : Type := S -> option (A * S).

Definition ret {S A} (a : A) : M S A := fun s => Some (a, s).
Definition bindM {S A B} (p : M S A) (k : A -> M S B) : M S B :=
  fun s => match p s with Some (a, s') => k a s' | None => None end.
Definition lift {S A} (o : option A) : M S A :=
  fun s => match o with Some a => Some (a, s) | None => None end.
Definition gets {S A} (f : S -> A) : M S A := fun s => Some (f s, s).
Definition modify {S} (f : S -> S) : M S unit := fun s => Some (tt, f s).
Definition panic {S A} : M S A := fun _ => None.
Definition guard_ {S} (b : bool) : M S unit := if b then ret tt else panic.

Declare Scope machine_scope.
Delimit Scope machine_scope with machine.
Notation "'let%' x := p 'in' q" := (bindM p (fun x => q))
  (at level 10, x pattern, q at level 200,
   format "'let%'  x  :=  p  'in' '//' q") : machine_scope.
Open Scope machine_scope.

(** [for x in l { .. }] with the mutable locals [a] of the body. *)
Fixpoint foldM {S A X} (body : A -> X -> M S A) (a : A) (l : list X) : M S A :=
  match l with
  | [] => ret a
  | x :: l => let% a' := body a x in foldM body a' l
  end.

Lemma bindM_Some {S A B} (p : M S A) (k : A -> M S B) s b s'' :
  bindM p k s = Some (b, s'') <-> exists a s', p s = Some (a, s') /\ k a s' = Some (b, s'').
Proof.
  unfold bindM. destruct (p s) as [[a s']|]; split.
  - eauto.
  - intros (a' & s1 & [= <- <-] & H). done.
  - done.
  - by intros (? & ? & ? & _).
Qed.

Lemma bindM_ext {S A B} (p q : M S A) (k k' : A -> M S B) s :
  p s = q s -> (forall a s', q s = Some (a, s') -> k a s' = k' a s') -> bindM p k s = bindM q k' s.
Proof. unfold bindM. intros -> H. destruct (q s) as [[a s']|]; [by apply H|done]. Qed.

Lemma bindM_assoc {S A B C} (p : M S A) (k : A -> M S B) (k' : B -> M S C) s :
  bindM (bindM p k) k' s = bindM p (fun a => bindM (k a) k') s.
Proof. unfold bindM. by destruct (p s) as [[a s']|]. Qed.

Lemma lift_Some {S A} (o : option A) (s s' : S) a :
  lift o s = Some (a, s') <-> o = Some a /\ s' = s.
Proof. unfold lift. destruct o; naive_solver. Qed.

Lemma foldM_ext {S A X} (f g : A -> X -> M S A) a l s :
  (forall a x s, f a x s = g a x s) -> foldM f a l s = foldM g a l s.
Proof.
  intros H. revert a s. induction l as [|x l IH]; intros a s; [done|]. cbn.
  apply bindM_ext; [done|]. intros. apply IH.
Qed.

Lemma foldM_app {S A X} (body : A -> X -> M S A) a l1 l2 s :
  foldM body a (l1 ++ l2) s = bindM (foldM body a l1) (fun a' => foldM body a' l2) s.
Proof.
  revert a s. induction l1 as [|x l1 IH]; intros a s; [done|]. cbn. unfold bindM at 1 2 3.
  destruct (body a x s) as [[a' s']|]; [|done]. apply IH.
Qed.

(** Invariants of loops: [I] relates the items seen so far to the locals and the
    state. *)
Lemma foldM_inv_from {S A X} (I : list X -> A -> S -> Prop) (body : A -> X -> M S A) pre l a s a' s' :
  I pre a s ->
  (forall seen x a s a' s', I seen a s -> x ∈ l -> body a x s = Some (a', s') ->
     I (seen ++ [x]) a' s') ->
  foldM body a l s = Some (a', s') -> I (pre ++ l) a' s'.
Proof.
  revert pre a s. induction l as [|x l IH]; intros pre a s H0 Hstep; cbn.
  - intros [= <- <-]. by rewrite app_nil_r.
  - rewrite bindM_Some. intros (a1 & s1 & H1 & H2).
    change (x :: l) with ([x] ++ l). rewrite app_assoc. eapply IH; [..|exact H2].
    + eapply Hstep; [exact H0|by left|exact H1].
    + intros seen y a2 s2 a3 s3 HI Hy. apply Hstep; [done|by right].
Qed.

Lemma foldM_inv {S A X} (I : list X -> A -> S -> Prop) (body : A -> X -> M S A) l a s a' s' :
  I [] a s ->
  (forall seen x a s a' s', I seen a s -> x ∈ l -> body a x s = Some (a', s') ->
     I (seen ++ [x]) a' s') ->
  foldM body a l s = Some (a', s') -> I l a' s'.
Proof. exact (foldM_inv_from I body [] l a s a' s'). Qed.

(** ** Machine integers *)

Definition in_range (w : Z) (a : Z) : Prop := (0 <= a < 2 ^ w)%Z.

Section arith.
Context `{Build}.
Open Scope Z_scope.

(** The value of an operation on [w]-bit unsigned integers. *)
Definition wrap (w a : Z) : option Z :=
  if (0 <=? a) && (a <? 2 ^ w) then Some a
  else if checked then None else Some (a mod 2 ^ w).

Definition add (w a b : Z) : option Z := wrap w (a + b).
Definition sub (w a b : Z) : option Z := wrap w (a - b).
Definition mul (w a b : Z) : option Z := wrap w (a * b).

(** Division panics on zero whatever the build. *)
Definition div (a b : Z) : option Z := if b =? 0 then None else Some (a / b).
Definition rem (a b : Z) : option Z := if b =? 0 then None else Some (a mod b).

Lemma wrap_in w a : in_range w a -> wrap w a = Some a.
Proof.
  intros [H1 H2]. unfold wrap. apply Z.leb_le in H1. apply Z.ltb_lt in H2. by rewrite H1, H2.
Qed.

Lemma wrap_range w a r : 0 <= w -> wrap w a = Some r -> in_range w r.
Proof.
  intros Hw. unfold wrap. destruct (_ && _) eqn:E.
  - intros [= <-]. apply andb_prop in E as [?%Z.leb_le ?%Z.ltb_lt]. done.
  - destruct checked; [done|]. intros [= <-]. apply Z.mod_pos_bound. lia.
Qed.

End arith.

(** [n as u64], [n as u8], ...: truncation. *)
Definition cast (w a : Z) : Z := (a mod 2 ^ w)%Z.

Lemma cast_in w a : in_range w a -> cast w a = a.
Proof. intros H. by apply Z.mod_small. Qed.

(** ** Updates of a slot of a vector *)

(** [v[i] = f(v[i])], which panics out of range. *)
Definition alter_at {A} (f : A -> A) (i : nat) (v : list A) : option (list A) :=
  match v !! i with Some a => Some (<[i := f a]> v) | None => None end.

Lemma alter_at_Some {A} (f : A -> A) i v v' :
  alter_at f i v = Some v' <-> exists a, v !! i = Some a /\ v' = <[i := f a]> v.
Proof. unfold alter_at. destruct (v !! i); naive_solver. Qed.
