(* ===== verification/CommonTransactions.v ===== *)
(** Accounts, transactions and [common_transactions.rs].

    [Account], [AccountData] and the transaction builder are in a file of the
    crate that is not part of the repository, the payloads are generated by
    [aptos_cached_packages]: both are interfaces here.  What a signed
    transaction holds is read back by the accessors of [SignedTransaction]. *)
From stdpp Require Import base list.
From S2P Require Import Prelude Machine.

Class Accounts := {
  Account : Type;
  AccountData : Type;
  Address : Type;
  data_account : AccountData -> Account;
  address : Account -> Address;
  address_bytes : Address -> list Z;
  auth_key : Account -> list Z;
  data_balance : AccountData -> Z;
  data_sequence_number : AccountData -> Z;
  data_sent_events_count : AccountData -> Z;
  data_received_events_count : AccountData -> Z;
}.

(** [aptos_stdlib]: the payloads the file builds. *)
Class Payloads `{Accounts} := {
  Payload : Type;
  aptos_account_create_account : Address -> Payload;
  aptos_coin_transfer : Address -> Z -> Payload;
  xtl_airdrop_initialize : Z -> Payload;
  xtl_airdrop_transfer_n : list Address -> Payload;
  xtl_ballot_initialize : list (list Z) -> Payload;
  xtl_ballot_vote : Address -> Z -> Payload;
  xtl_million_pixel_initialize : Payload;
  xtl_million_pixel_occupy : Address -> Z -> Z -> Payload;
  xtl_kitty_breeding_initialize : Payload;
  xtl_kitty_breeding_mint : Address -> Z -> bool -> Payload;
  xtl_kitty_breeding_breed : Address -> Z -> Z -> bool -> Payload;
  xtl_empty_empty : Payload;
  (** [Script::new(EMPTY_SCRIPT.to_vec(), vec![], vec![])] as a payload. *)
  empty_script : Payload;
}.

(** [TransactionBuilder] and [SignedTransaction]. *)
Class Transactions `{Payloads} := {
  TransactionBuilder : Type;
  SignedTransaction : Type;
  transaction : Account -> TransactionBuilder;
  payload : Payload -> TransactionBuilder -> TransactionBuilder;
  sequence_number : Z -> TransactionBuilder -> TransactionBuilder;
  max_gas_amount : Z -> TransactionBuilder -> TransactionBuilder;
  gas_unit_price : Z -> TransactionBuilder -> TransactionBuilder;
  sign : TransactionBuilder -> SignedTransaction;
  txn_sender : SignedTransaction -> Address;
  txn_payload : SignedTransaction -> Payload;
  txn_sequence_number : SignedTransaction -> Z;
  txn_gas_unit_price : SignedTransaction -> Z;
}.

(** A built transaction holds what was given to the builder, in whatever order
    the setters were called. *)
Class TransactionLaws `(Transactions) : Prop := {
  sender_law a : txn_sender (sign (transaction a)) = address a;
  sender_payload b p : txn_sender (sign (payload p b)) = txn_sender (sign b);
  sender_seq b n : txn_sender (sign (sequence_number n b)) = txn_sender (sign b);
  sender_gas b n : txn_sender (sign (gas_unit_price n b)) = txn_sender (sign b);
  payload_law b p : txn_payload (sign (payload p b)) = p;
  payload_seq b n : txn_payload (sign (sequence_number n b)) = txn_payload (sign b);
  payload_gas b n : txn_payload (sign (gas_unit_price n b)) = txn_payload (sign b);
  seq_law b n : txn_sequence_number (sign (sequence_number n b)) = n;
  seq_gas b n : txn_sequence_number (sign (gas_unit_price n b)) = txn_sequence_number (sign b);
  gas_law b n : txn_gas_unit_price (sign (gas_unit_price n b)) = n;
}.

Section definitions.
Context `{Transactions}.

Definition empty_txn (sender : Account) (seq_num gas_amount unit_price : Z) : SignedTransaction :=
  sign (gas_unit_price unit_price (max_gas_amount gas_amount (sequence_number seq_num
    (payload empty_script (transaction sender))))).

Definition create_account_txn (sender new_account : Account) (seq_num : Z) : SignedTransaction :=
  sign (sequence_number seq_num
    (payload (aptos_account_create_account (address new_account)) (transaction sender))).

Definition peer_to_peer_txn (sender receiver : Account) (seq_num transfer_amount unit_price : Z)
    : SignedTransaction :=
  sign (gas_unit_price unit_price (sequence_number seq_num
    (payload (aptos_coin_transfer (address receiver) transfer_amount) (transaction sender)))).

Definition airdrop_initialize_txn (sender : Account) (amount seq_num unit_price : Z)
    : SignedTransaction :=
  sign (gas_unit_price unit_price (sequence_number seq_num
    (payload (xtl_airdrop_initialize amount) (transaction sender)))).

Definition airdrop_transfer_txn (sender : Account) (receiver : list Address)
    (seq_num unit_price : Z) : SignedTransaction :=
  sign (gas_unit_price unit_price (sequence_number seq_num
    (payload (xtl_airdrop_transfer_n receiver) (transaction sender)))).

Definition ballot_initialize_txn (sender : Account) (names : list (list Z))
    (seq_num unit_price : Z) : SignedTransaction :=
  sign (gas_unit_price unit_price (sequence_number seq_num
    (payload (xtl_ballot_initialize names) (transaction sender)))).

Definition ballot_vote_txn (sender : Account) (forum : Address)
    (proposal_index seq_num unit_price : Z) : SignedTransaction :=
  sign (gas_unit_price unit_price (sequence_number seq_num
    (payload (xtl_ballot_vote forum proposal_index) (transaction sender)))).

Definition million_pixel_initialize_txn (sender : Account) (seq_num unit_price : Z)
    : SignedTransaction :=
  sign (gas_unit_price unit_price (sequence_number seq_num
    (payload xtl_million_pixel_initialize (transaction sender)))).

Definition million_pixel_occupy_txn (sender : Account) (globalstore : Address)
    (x y seq_num unit_price : Z) : SignedTransaction :=
  sign (gas_unit_price unit_price (sequence_number seq_num
    (payload (xtl_million_pixel_occupy globalstore x y) (transaction sender)))).

Definition kitty_initialize_txn (sender : Account) (seq_num unit_price : Z) : SignedTransaction :=
  sign (gas_unit_price unit_price (sequence_number seq_num
    (payload xtl_kitty_breeding_initialize (transaction sender)))).

Definition kitty_mint_txn (sender : Account) (globalstore : Address) (genes : Z) (gender : bool)
    (seq_num unit_price : Z) : SignedTransaction :=
  sign (gas_unit_price unit_price (sequence_number seq_num
    (payload (xtl_kitty_breeding_mint globalstore genes gender) (transaction sender)))).

Definition kitty_breed_txn (sender : Account) (globalstore : Address) (m s : Z) (gender : bool)
    (seq_num unit_price : Z) : SignedTransaction :=
  sign (gas_unit_price unit_price (sequence_number seq_num
    (payload (xtl_kitty_breeding_breed globalstore m s gender) (transaction sender)))).

Definition empty_empty_txn (sender : Account) (seq_num unit_price : Z) : SignedTransaction :=
  sign (gas_unit_price unit_price (sequence_number seq_num
    (payload xtl_empty_empty (transaction sender)))).

End definitions.

Create Rewrite HintDb txn.
#[export] Hint Rewrite @sender_law @sender_payload @sender_seq @sender_gas @payload_law
  @payload_seq @payload_gas @seq_law @seq_gas @gas_law using (typeclasses eauto) : txn.
