(* ===== verification/AccountUniverse.v ===== *)
(** Account universes: [account_universe.rs] and [account_universe/universe.rs].

    A universe is a vector of accounts with their current balances and
    counters, and a picker that chooses accounts.  Mutable references to
    accounts are indexes into the vector; balances and counters are [u64]
    values, indexes are natural numbers. *)

From stdpp Require Import base list option numbers strings sorting.
From S2P Require Import Prelude Prog Machine CommonTransactions.

(** The constants of [gas_costs]. *)
Class GasCosts := {
  TXN_RESERVED : Z;
  CREATE_ACCOUNT_FIRST : Z;
  CREATE_ACCOUNT_NEXT : Z;
  CREATE_ACCOUNT_TOO_LOW_FIRST : Z;
  CREATE_ACCOUNT_TOO_LOW_NEXT : Z;
  CREATE_EXISTING_ACCOUNT_FIRST : Z;
  CREATE_EXISTING_ACCOUNT_NEXT : Z;
  PEER_TO_PEER : Z;
  PEER_TO_PEER_TOO_LOW : Z;
  PEER_TO_PEER_NEW_RECEIVER_FIRST : Z;
  PEER_TO_PEER_NEW_RECEIVER_NEXT : Z;
  PEER_TO_PEER_NEW_RECEIVER_TOO_LOW_FIRST : Z;
  PEER_TO_PEER_NEW_RECEIVER_TOO_LOW_NEXT : Z;
}.

(** [TransactionStatus] and [ExecutionStatus] of [aptos_types]. *)
Inductive AbortLocation `{Accounts} : Type :=
| AbortScript
| AbortModule (module_address : Address) (name : string).

Inductive TxnExecutionStatus `{Accounts} : Type :=
| ExecSuccess
| MoveAbort (location : AbortLocation) (code : Z) (info : option string).

Inductive DiscardCode : Type := INSUFFICIENT_BALANCE_FOR_TRANSACTION_FEE | OtherDiscard (code : Z).

Inductive TransactionStatus `{Accounts} : Type :=
| Keep (status : TxnExecutionStatus)
| Discard (code : DiscardCode)
| Retry.

(** [proptest]'s [Index] and [pick_slice_idxs] of [aptos_proptest_helpers]. *)
Class Indexes := {
  Index : Type;
  (** [index.index(size)] for a positive [size]. *)
  index_at : Index -> nat -> nat;
  pick_slice_idxs : nat -> list Index -> list nat;
}.

Class IndexLaws `(Indexes) : Prop := {
  index_at_law i n : 0 < n -> index_at i n < n;
  pick_slice_sorted_law n ixs : StronglySorted lt (pick_slice_idxs n ixs);
  pick_slice_bound_law n ixs k : k ∈ pick_slice_idxs n ixs -> k < n;
  pick_slice_length_law n ixs : length (pick_slice_idxs n ixs) = min n (length ixs);
}.

(** Everything the universe code is parametrised by. *)
Class Env := {
  env_accounts :: Accounts;
  env_payloads :: Payloads;
  env_transactions :: Transactions;
  env_gas_costs :: GasCosts;
  env_indexes :: Indexes;
  env_build :: Build;
}.

(** [index.index(size)] panics when there is nothing to pick. *)
Definition index_of `{Indexes} (i : Index) (n : nat) : option nat :=
  if n =? 0 then None else Some (index_at i n).

Section definitions.
Context {ENV : Env}.
(** [known_locations::core_account_module_abort()]. *)
Context (core_account_module_abort : AbortLocation).
Open Scope Z_scope.

(** ** Defaults *)

(** [env::var]: the value, or why there is none. *)
Inductive EnvVar : Type := VarSet (s : string) | NotPresent | NotUnicode.

(** [UNIVERSE_SIZE], with [str::parse::<usize>] as an argument; the process is
    aborted on a value that cannot be read. *)
Definition UNIVERSE_SIZE (parse : string -> option Z) (var : EnvVar) : option Z :=
  match var with
  | VarSet s => parse s
  | NotPresent => Some 20
  | NotUnicode => None
  end.

Definition default_num_accounts (universe_size : Z) : Z := universe_size.
Definition default_num_transactions (universe_size : Z) : option Z := mul 64 universe_size 2.

(** The range of balances of [AccountUniverseGen::success_strategy]. *)
Definition success_balances (universe_size : Z) : option (Z * Z) :=
  n ← default_num_transactions universe_size;
  transfers ← mul 64 100000 n;
  min_balance ← mul 64 transfers 5;
  max_balance ← mul 64 (cast 64 min_balance) 10;
  Some (cast 64 min_balance, max_balance).

(** ** Accounts *)

Record AccountCurrent : Type := mkAccountCurrent {
  initial_data : AccountData;
  balance : Z;
  acc_sequence_number : Z;
  sent_events_count : Z;
  received_events_count : Z;
  event_counter_created : bool;
}.

Definition new_account_current (d : AccountData) : AccountCurrent :=
  mkAccountCurrent d (data_balance d) (data_sequence_number d) (data_sent_events_count d)
    (data_received_events_count d) false.

Definition account (a : AccountCurrent) : Account := data_account (initial_data a).

Definition set_balance (b : Z) (a : AccountCurrent) : AccountCurrent :=
  mkAccountCurrent (initial_data a) b (acc_sequence_number a) (sent_events_count a)
    (received_events_count a) (event_counter_created a).
Definition set_sequence_number (n : Z) (a : AccountCurrent) : AccountCurrent :=
  mkAccountCurrent (initial_data a) (balance a) n (sent_events_count a)
    (received_events_count a) (event_counter_created a).
Definition set_sent_events_count (n : Z) (a : AccountCurrent) : AccountCurrent :=
  mkAccountCurrent (initial_data a) (balance a) (acc_sequence_number a) n
    (received_events_count a) (event_counter_created a).
Definition set_received_events_count (n : Z) (a : AccountCurrent) : AccountCurrent :=
  mkAccountCurrent (initial_data a) (balance a) (acc_sequence_number a) (sent_events_count a)
    n (event_counter_created a).

Definition increase_account_sequence_number (a : AccountCurrent) : option AccountCurrent :=
  n ← add 64 (acc_sequence_number a) 1; Some (set_sequence_number n a).

Definition create_account_gas_cost (a : AccountCurrent) : Z :=
  if event_counter_created a then CREATE_ACCOUNT_NEXT else CREATE_ACCOUNT_FIRST.
Definition create_account_low_balance_gas_cost (a : AccountCurrent) : Z :=
  if event_counter_created a then CREATE_ACCOUNT_TOO_LOW_NEXT else CREATE_ACCOUNT_TOO_LOW_FIRST.
Definition create_existing_account_gas_cost (a : AccountCurrent) : Z :=
  if event_counter_created a then CREATE_EXISTING_ACCOUNT_NEXT else CREATE_EXISTING_ACCOUNT_FIRST.
Definition peer_to_peer_gas_cost (a : AccountCurrent) : Z := PEER_TO_PEER.
Definition peer_to_peer_too_low_gas_cost (a : AccountCurrent) : Z := PEER_TO_PEER_TOO_LOW.
Definition peer_to_peer_new_receiver_gas_cost (a : AccountCurrent) : Z :=
  if event_counter_created a then PEER_TO_PEER_NEW_RECEIVER_NEXT
  else PEER_TO_PEER_NEW_RECEIVER_FIRST.
Definition peer_to_peer_new_receiver_too_low_gas_cost (a : AccountCurrent) : Z :=
  if event_counter_created a then PEER_TO_PEER_NEW_RECEIVER_TOO_LOW_NEXT
  else PEER_TO_PEER_NEW_RECEIVER_TOO_LOW_FIRST.

(** [txn_one_account_result]: the status, whether the transaction succeeds, and
    the sender after it. *)
Definition txn_one_account_result (sender : AccountCurrent)
    (amount gas_price gas_used low_gas_used : Z)
    : option (TransactionStatus * bool * AccountCurrent) :=
  max_gas ← mul 64 TXN_RESERVED gas_price;
  let enough_max_gas := max_gas <=? balance sender in
  let enough_to_transfer := amount <=? balance sender in
  gas ← mul 64 gas_used gas_price;
  to_deduct ← add 64 amount gas;
  let enough_to_succeed := to_deduct <=? balance sender in
  match enough_max_gas, enough_to_transfer, enough_to_succeed with
  | true, true, true =>
      seq ← add 64 (acc_sequence_number sender) 1;
      sent ← add 64 (sent_events_count sender) 1;
      bal ← sub 64 (balance sender) to_deduct;
      Some (Keep ExecSuccess, true,
            set_balance bal (set_sent_events_count sent (set_sequence_number seq sender)))
  | true, true, false =>
      seq ← add 64 (acc_sequence_number sender) 1;
      gas ← mul 64 gas_used gas_price;
      bal ← sub 64 (balance sender) gas;
      Some (Keep (MoveAbort core_account_module_abort 6 None), false,
            set_balance bal (set_sequence_number seq sender))
  | true, false, _ =>
      seq ← add 64 (acc_sequence_number sender) 1;
      low_gas ← mul 64 low_gas_used gas_price;
      bal ← sub 64 (balance sender) low_gas;
      Some (Keep (MoveAbort core_account_module_abort 10 None), false,
            set_balance bal (set_sequence_number seq sender))
  | false, _, _ =>
      Some (Discard INSUFFICIENT_BALANCE_FOR_TRANSACTION_FEE, false, sender)
  end.

(** ** [log_balance_strategy] *)

(** [u64::next_power_of_two]. *)
Definition next_power_of_two (n : Z) : option Z :=
  if n <=? 1 then Some 1 else wrap 64 (2 ^ Z.log2_up n).

(** The loop: the ranges it pushes. *)
Fixpoint log_balance_loop (fuel : nat) (max_balance lower_bound upper_bound : Z)
    (strategies : list (Z * Z)) : outcome (list (Z * Z)) :=
  match fuel with
  | O => Diverged
  | S fuel =>
      let strategies := strategies ++ [(lower_bound, upper_bound)] in
      if max_balance <=? upper_bound then Done strategies
      else
        match mul 64 upper_bound 2 with
        | None => Panicked
        | Some doubled =>
            log_balance_loop fuel max_balance upper_bound (Z.min doubled max_balance) strategies
        end
  end.

Definition log_balance_strategy (fuel : nat) (max_balance : Z) : outcome (list (Z * Z)) :=
  match next_power_of_two TXN_RESERVED with
  | None => Panicked
  | Some minimum =>
      if negb (minimum <=? max_balance) then Panicked
      else log_balance_loop fuel max_balance 0 minimum []
  end.

(** ** Pickers *)

Inductive AccountPickStyle : Type := Unlimited | Limited (limit : Z).

Inductive AccountPicker : Type :=
| PickUnlimited (num_accounts : nat)
| PickLimited (remaining : list (nat * Z)).

Definition new_picker (style : AccountPickStyle) (num_accounts : nat) : AccountPicker :=
  match style with
  | Unlimited => PickUnlimited num_accounts
  | Limited limit => PickLimited (map (fun idx => (idx, limit)) (seq 0 num_accounts))
  end.

(** [Vec::remove]. *)
Definition remove_at {A} (i : nat) (v : list A) : list A := take i v ++ drop (S i) v.

Definition pick_limited (remaining : list (nat * Z)) (remaining_idx : nat)
    : option (nat * list (nat * Z)) :=
  match remaining !! remaining_idx with
  | None => None
  | Some (account_idx, times) =>
      times_remaining ← sub 64 times 1;
      Some (account_idx,
            if times_remaining =? 0 then remove_at remaining_idx remaining
            else <[remaining_idx := (account_idx, times_remaining)]> remaining)
  end.

Definition picker_pick (p : AccountPicker) (index : Index) : option (nat * AccountPicker) :=
  match p with
  | PickUnlimited num_accounts =>
      idx ← index_of index num_accounts; Some (idx, p)
  | PickLimited remaining =>
      remaining_idx ← index_of index (length remaining);
      '(idx, remaining) ← pick_limited remaining remaining_idx;
      Some (idx, PickLimited remaining)
  end.

Definition pick_pair_impl (max : nat) (i1 i2 : Index) : option (nat * nat) :=
  match pick_slice_idxs max [i1; i2] with
  | [a; b] => if (a <? b)%nat then Some (a, b) else None
  | _ => None
  end.

Definition picker_pick_pair (p : AccountPicker) (i1 i2 : Index)
    : option (nat * nat * AccountPicker) :=
  match p with
  | PickUnlimited num_accounts =>
      '(a, b) ← pick_pair_impl num_accounts i1 i2; Some (a, b, p)
  | PickLimited remaining =>
      '(remaining_idx_1, remaining_idx_2) ← pick_pair_impl (length remaining) i1 i2;
      '(account_idx_2, remaining) ← pick_limited remaining remaining_idx_2;
      '(account_idx_1, remaining) ← pick_limited remaining remaining_idx_1;
      Some (account_idx_1, account_idx_2, PickLimited remaining)
  end.

(** ** Universes *)

Record AccountUniverseGen : Type := mkUniverseGen {
  gen_accounts : list AccountData;
  gen_pick_style : AccountPickStyle;
}.

Record AccountUniverse : Type := mkUniverse {
  accounts : list AccountCurrent;
  pick_style : AccountPickStyle;
  picker : AccountPicker;
  ignore_new_accounts : bool;
}.

Definition set_accounts (l : list AccountCurrent) (u : AccountUniverse) : AccountUniverse :=
  mkUniverse l (pick_style u) (picker u) (ignore_new_accounts u).
Definition set_picker (p : AccountPicker) (u : AccountUniverse) : AccountUniverse :=
  mkUniverse (accounts u) (pick_style u) p (ignore_new_accounts u).

Definition set_pick_style (style : AccountPickStyle) (g : AccountUniverseGen) : AccountUniverseGen :=
  mkUniverseGen (gen_accounts g) style.
Definition gen_num_accounts (g : AccountUniverseGen) : nat := length (gen_accounts g).

Definition new_universe (l : list AccountData) (style : AccountPickStyle) (ignore : bool)
    : AccountUniverse :=
  let accounts := map new_account_current l in
  mkUniverse accounts style (new_picker style (length accounts)) ignore.

(** [setup] and [setup_gas_cost_stability], on any executor that can be given
    account data. *)
Definition setup_universe {E} (add_account_data : AccountData -> E -> E) (ignore : bool)
    (g : AccountUniverseGen) (executor : E) : AccountUniverse * E :=
  (new_universe (gen_accounts g) (gen_pick_style g) ignore,
   foldl (fun e d => add_account_data d e) executor (gen_accounts g)).

Definition setup {E} (add_account_data : AccountData -> E -> E) :=
  setup_universe add_account_data false.
Definition setup_gas_cost_stability {E} (add_account_data : AccountData -> E -> E) :=
  setup_universe add_account_data true.

Definition num_accounts (u : AccountUniverse) : nat := length (accounts u).

Definition add_account (d : AccountData) (u : AccountUniverse) : AccountUniverse :=
  if negb (ignore_new_accounts u) then set_accounts (accounts u ++ [new_account_current d]) u
  else u.

Definition reset_picker (u : AccountUniverse) : AccountUniverse :=
  set_picker (new_picker (pick_style u) (length (accounts u))) u.

(** [AccountUniverse::account] and [account_mut]: a bounds-checked index. *)
Definition account_at (u : AccountUniverse) (index : nat) : option AccountCurrent :=
  accounts u !! index.

(** [AccountUniverse::pick]: the index; the account is the one it denotes. *)
Definition pick (index : Index) : M AccountUniverse nat :=
  fun u =>
    '(idx, p) ← picker_pick (picker u) index;
    _ ← accounts u !! idx;
    Some (idx, set_picker p u).

(** ** Pairs *)

Record AccountPairGen : Type := mkPairGen {
  pair_1 : Index;
  pair_2 : Index;
  reverse : bool;
}.

(** [AccountPairGen::pick]: [idx_1] and [idx_2] of the pair. *)
Definition pick_pair (g : AccountPairGen) : M AccountUniverse (nat * nat) :=
  fun u =>
    '(low_idx, high_idx, p) ← picker_pick_pair (picker u) (pair_1 g) (pair_2 g);
    (* [split_at_mut(low_idx + 1)], [head[low_idx]], [tail[high_idx - low_idx - 1]] *)
    _ ← accounts u !! low_idx;
    tail_idx ← sub 64 (Z.of_nat high_idx) (Z.of_nat low_idx) ≫= fun d => sub 64 d 1;
    _ ← drop (S low_idx) (accounts u) !! Z.to_nat tail_idx;
    Some (if reverse g then (high_idx, low_idx) else (low_idx, high_idx), set_picker p u).

(** ** Peer-to-peer transfers: [account_universe/peer_to_peer.rs] *)

Record P2PTransferGen : Type := mkP2P {
  sender_receiver : AccountPairGen;
  amount : Z;
}.

(** ** Strategies

    A strategy of [proptest] is the set of the values it can produce. *)

Definition Strategy (A : Type) : Type := A -> Prop.

(** [lo..hi]. *)
Definition range_strategy (lo hi : Z) : Strategy Z := fun x => lo <= x < hi.

(** [AccountUniverseGen::strategy]; [AccountData::strategy] is an argument. *)
Definition universe_strategy (data_strategy : Strategy Z -> Strategy AccountData)
    (num_accounts : Strategy Z) (balance_strategy : Strategy Z) (style : AccountPickStyle)
    : Strategy AccountUniverseGen :=
  fun g => num_accounts (Z.of_nat (length (gen_accounts g))) /\
    Forall (data_strategy balance_strategy) (gen_accounts g) /\ gen_pick_style g = style.

(** [AccountUniverseGen::success_strategy]. *)
Definition success_strategy (data_strategy : Strategy Z -> Strategy AccountData)
    (universe_size min_accounts : Z) : option (Strategy AccountUniverseGen) :=
  '(min_balance, max_balance) ← success_balances universe_size;
  Some (universe_strategy data_strategy
          (range_strategy min_accounts (default_num_accounts universe_size))
          (range_strategy min_balance max_balance) Unlimited).

(** The transfers have amounts of the inclusive range. *)
Definition p2p_strategy (min max : Z) : Strategy P2PTransferGen :=
  fun g => min <= amount g <= max.

(** [bad_txn_strategy] is in a file of the original crate. *)
Definition all_transactions_strategy {B} (bad_txn_strategy : Strategy B) (min max : Z)
    : Strategy (P2PTransferGen + B) :=
  fun t => match t with inl g => p2p_strategy min max g | inr b => bad_txn_strategy b end.

(** What a transfer does to the two accounts. *)
Definition p2p_result (core_code_address : Address) (amount : Z) (price : Z)
    (sender receiver : AccountCurrent)
    : option (TransactionStatus * Z * AccountCurrent * AccountCurrent) :=
  let enough_to_transfer := amount <=? balance sender in
  gas_amount ← mul 64 (peer_to_peer_gas_cost sender) price;
  to_deduct ← add 64 amount gas_amount;
  let enough_max_gas := gas_amount <=? balance sender in
  let enough_to_succeed := to_deduct <=? balance sender in
  let abort := Keep (MoveAbort (AbortModule core_code_address "coin") 65542 None) in
  match enough_max_gas, enough_to_transfer, enough_to_succeed with
  | true, true, true =>
      seq ← add 64 (acc_sequence_number sender) 1;
      sent ← add 64 (sent_events_count sender) 1;
      bal ← sub 64 (balance sender) to_deduct;
      rbal ← add 64 (balance receiver) amount;
      received ← add 64 (received_events_count receiver) 1;
      Some (Keep ExecSuccess, peer_to_peer_gas_cost sender,
            set_balance bal (set_sent_events_count sent (set_sequence_number seq sender)),
            set_received_events_count received (set_balance rbal receiver))
  | true, true, false =>
      seq ← add 64 (acc_sequence_number sender) 1;
      gas ← mul 64 (peer_to_peer_gas_cost sender) price;
      bal ← sub 64 (balance sender) gas;
      Some (abort, peer_to_peer_gas_cost sender, set_balance bal (set_sequence_number seq sender),
            receiver)
  | true, false, _ =>
      seq ← add 64 (acc_sequence_number sender) 1;
      gas ← mul 64 (peer_to_peer_too_low_gas_cost sender) price;
      bal ← sub 64 (balance sender) gas;
      Some (abort, peer_to_peer_too_low_gas_cost sender,
            set_balance bal (set_sequence_number seq sender), receiver)
  | false, _, _ =>
      Some (Discard INSUFFICIENT_BALANCE_FOR_TRANSACTION_FEE, 0, sender, receiver)
  end.

Definition p2p_apply (core_code_address : Address) (g : P2PTransferGen)
    : M AccountUniverse (SignedTransaction * (TransactionStatus * Z)) :=
  let% (s, r) := pick_pair (sender_receiver g) in
  let% sender := (fun u => a ← accounts u !! s; Some (a, u)) in
  let% receiver := (fun u => a ← accounts u !! r; Some (a, u)) in
  let txn := peer_to_peer_txn (account sender) (account receiver)
               (acc_sequence_number sender) (amount g) 100 in
  let% (status, gas_used, sender', receiver') :=
    lift (p2p_result core_code_address (amount g) (txn_gas_unit_price txn) sender receiver) in
  let% _ := modify (fun u => set_accounts (<[r := receiver']> (<[s := sender']> (accounts u))) u) in
  ret (txn, (status, gas_used)).

End definitions.

(** ** The oracle: running transactions and comparing with the universe *)

(** [AUTransactionGen]: a transaction that can be applied to a universe. *)
Class AUTransactionGen `{Env} (G : Type) :=
  apply : G -> M AccountUniverse (SignedTransaction * (TransactionStatus * Z)).

(** What the oracle calls of [FakeExecutor], and what it reads of its answers. *)
Class Executor `{Env} (E : Type) := {
  ExecError : Type;
  TxnOutput : Type;
  WriteSet : Type;
  AccountResource : Type;
  CoinStoreResource : Type;
  from_head_genesis : E;
  add_account_data : AccountData -> E -> E;
  exec_block : list SignedTransaction -> E -> result ExecError (list TxnOutput);
  apply_write_set : WriteSet -> E -> E;
  read_account_resource : Account -> E -> option AccountResource;
  read_coin_store_resource : Account -> E -> option CoinStoreResource;
  output_status : TxnOutput -> TransactionStatus;
  output_gas_used : TxnOutput -> Z;
  output_write_set : TxnOutput -> WriteSet;
  authentication_key : AccountResource -> list Z;
  resource_sequence_number : AccountResource -> Z;
  coin : CoinStoreResource -> Z;
  transaction_status_eq : TransactionStatus -> TransactionStatus -> bool;
}.

Section oracle.
Context {ENV : Env}.
Context {G E : Type} `{!AUTransactionGen G} `{!Executor E}.

(** [transaction_gens.iter().map(|g| g.apply(&mut universe)).unzip()]. *)
Definition apply_all (gens : list G)
    : M AccountUniverse (list (SignedTransaction * (TransactionStatus * Z))) :=
  foldM (fun acc g => let% x := apply g in ret (acc ++ [x])) [] gens.

(** The comparison loops: the first failed [prop_assert!] is the error. *)
Fixpoint check_gas (idx : nat) (outs : list TxnOutput) (expected : list (TransactionStatus * Z))
    : result string unit :=
  match outs, expected with
  | output :: outs, exp :: expected =>
      if negb (transaction_status_eq (output_status output) exp.1) then
        Err "unexpected status for transaction"
      else if negb (output_gas_used output =? exp.2)%Z then
        Err "transaction did not have expected gas cost"
      else check_gas (S idx) outs expected
  | _, _ => Ok tt
  end.

Definition run_and_assert_gas_cost_stability (gen : AccountUniverseGen) (gens : list G)
    : option (result string unit) :=
  let '(universe, executor) := setup_gas_cost_stability add_account_data gen from_head_genesis in
  match apply_all gens universe with
  | None => None
  | Some (applied, _) =>
      match exec_block applied.*1 executor with
      | Err _ => None
      | Ok outputs => Some (check_gas 0 outputs applied.*2)
      end
  end.

(** The second loop also applies the write set of each output. *)
Fixpoint check_statuses (idx : nat) (outs : list TxnOutput)
    (expected : list (TransactionStatus * Z)) (executor : E) : result string E :=
  match outs, expected with
  | output :: outs, exp :: expected =>
      if negb (transaction_status_eq (output_status output) exp.1) then
        Err "unexpected status for transaction"
      else check_statuses (S idx) outs expected (apply_write_set (output_write_set output) executor)
  | _, _ => Ok executor
  end.

Definition list_Z_eqb (a b : list Z) : bool := bool_decide (a = b).

(** [assert_accounts_match]: [None] when a resource is missing. *)
Fixpoint accounts_match (l : list AccountCurrent) (executor : E) : option (result string unit) :=
  match l with
  | [] => Some (Ok tt)
  | a :: l =>
      match read_account_resource (account a) executor with
      | None => None
      | Some resource =>
          match read_coin_store_resource (account a) executor with
          | None => None
          | Some store =>
              if negb (list_Z_eqb (auth_key (account a)) (authentication_key resource)) then
                Some (Err "account should have correct auth key")
              else if negb (balance a =? coin store)%Z then
                Some (Err "account should have correct balance")
              else if negb (acc_sequence_number a =? resource_sequence_number resource)%Z then
                Some (Err "account should have correct sequence number")
              else accounts_match l executor
          end
      end
  end.

Definition assert_accounts_match (universe : AccountUniverse) (executor : E)
    : option (result string unit) := accounts_match (accounts universe) executor.

Definition run_and_assert_universe (gen : AccountUniverseGen) (gens : list G)
    : option (result string unit) :=
  let '(universe, executor) := setup add_account_data gen from_head_genesis in
  match apply_all gens universe with
  | None => None
  | Some (applied, universe) =>
      match exec_block applied.*1 executor with
      | Err _ => None
      | Ok outputs =>
          if negb (length outputs =? length applied) then Some (Err "outputs.len()")
          else
            match check_statuses 0 outputs applied.*2 executor with
            | Err e => Some (Err e)
            | Ok executor => assert_accounts_match universe executor
            end
      end
  end.

End oracle.
