(* ===== verification/AccountUniverseSpec.v ===== *)
(** Theorems about account universes: pickers, transfers and balances. *)
From stdpp Require Import base list option numbers strings sets sorting.
From S2P Require Import Prelude Prog Machine CommonTransactions AccountUniverse.

Open Scope Z_scope.

(** ** Pickers *)
Section pickers.
Context {ENV : Env} {IL : IndexLaws env_indexes}.

(** How often the account [idx] may still be picked. *)
Fixpoint times (rem : list (nat * Z)) (idx : nat) : Z :=
  match rem with
  | [] => 0
  | (a, t) :: rem => (if decide (a = idx) then t else 0) + times rem idx
  end.

Definition count (idx : nat) (l : list nat) : nat := length (filter (fun j => j = idx) l).

Lemma times_app l1 l2 idx : times (l1 ++ l2) idx = times l1 idx + times l2 idx.
Proof. induction l1 as [|[a t] l1 IH]; cbn; [done|]. rewrite IH. lia. Qed.

Lemma count_app l1 l2 idx : count idx (l1 ++ l2) = (count idx l1 + count idx l2)%nat.
Proof. unfold count. by rewrite filter_app, length_app. Qed.

Lemma count_singleton idx a : count idx [a] = if decide (a = idx) then 1%nat else 0%nat.
Proof. unfold count. rewrite filter_cons. by case_decide. Qed.

(** The state of a limited picker after the picks [picked]: the accounts that
    remain are in order, each may still be picked at least once, and for every
    account the picks made and the picks left add up to the limit. *)
Record remaining_wf (limit : Z) (n : nat) (picked : list nat) (rem : list (nat * Z)) : Prop := {
  rw_sorted : StronglySorted lt rem.*1;
  rw_pos : Forall (fun at_ => 0 < at_.2) rem;
  rw_bound : Forall (fun at_ => (at_.1 < n)%nat) rem;
  rw_count idx : (idx < n)%nat -> Z.of_nat (count idx picked) + times rem idx = limit;
  rw_picked : Forall (fun idx => (idx < n)%nat) picked;
}.

Lemma times_nonneg rem idx : Forall (fun at_ => 0 < at_.2) rem -> 0 <= times rem idx.
Proof.
  induction 1 as [|[a t] rem Ht _ IH]; cbn in *; [lia|]. case_decide; lia.
Qed.

Lemma new_picker_wf limit n :
  0 < limit -> remaining_wf limit n [] (map (fun idx => (idx, limit)) (seq 0 n)).
Proof.
  intros Hl. split.
  - rewrite map_fst_map. cbn. rewrite map_id. generalize 0%nat as k.
    induction n as [|n IH]; intros k; cbn; constructor; [apply IH|].
    apply Forall_forall. intros j Hj%elem_of_seq. lia.
  - apply Forall_forall. by intros [a t] (i & [= -> ->] & _)%elem_of_map.
  - apply Forall_forall. intros [a t] (i & [= -> ->] & Hi%elem_of_seq)%elem_of_map. cbn. lia.
  - intros idx Hidx. cbn.
    assert (Ht : forall k m, times (map (fun idx => (idx, limit)) (seq k m)) idx =
      if decide (k <= idx < k + m)%nat then limit else 0).
    { intros k m. revert k. induction m as [|m IH]; intros k; cbn; [case_decide; lia|].
      rewrite IH. repeat case_decide; lia. }
    rewrite Ht, decide_True; lia.
  - constructor.
Qed.

(** Removing or lowering one entry of a well-formed list. *)
Lemma remaining_wf_step limit n picked l1 a t l2 mid :
  remaining_wf limit n picked (l1 ++ (a, t) :: l2) ->
  (mid = [] /\ t = 1) \/ (mid = [(a, t - 1)] /\ 1 < t) ->
  remaining_wf limit n (picked ++ [a]) (l1 ++ mid ++ l2).
Proof.
  intros [Hs Hp Hb Hc Hk] Hmid.
  rewrite !fmap_app in Hs. cbn in Hs. apply StronglySorted_app in Hs as (S1 & S2 & S3).
  apply StronglySorted_cons in S3 as [S3 S4].
  apply Forall_app in Hp as [P1 [P2 P3]%Forall_cons].
  apply Forall_app in Hb as [B1 [B2 B3]%Forall_cons].
  split.
  - rewrite !fmap_app. apply StronglySorted_app_2; [|done|].
    + intros x1 x2 H1 H2. apply S1; [done|]. destruct Hmid as [[-> _]|[-> _]]; cbn in *; set_solver.
    + destruct Hmid as [[-> _]|[-> _]]; cbn; [done|]. by constructor.
  - apply Forall_app; split; [done|]. apply Forall_app; split; [|done].
    destruct Hmid as [[-> _]|[-> ?]]; constructor; cbn; [lia|done].
  - apply Forall_app; split; [done|]. apply Forall_app; split; [|done].
    destruct Hmid as [[-> _]|[-> ?]]; constructor; [done|done].
  - intros idx Hidx. specialize (Hc idx Hidx). rewrite count_app, count_singleton.
    rewrite times_app in Hc |- *. rewrite times_app. cbn in Hc.
    destruct Hmid as [[-> ->]|[-> _]]; cbn; repeat case_decide; lia.
  - apply Forall_app; split; [done|]. by constructor.
Qed.

Lemma pick_limited_spec limit n picked rem i a t :
  limit < 2 ^ 64 ->
  remaining_wf limit n picked rem -> rem !! i = Some (a, t) ->
  exists rem', pick_limited rem i = Some (a, rem') /\
    remaining_wf limit n (picked ++ [a]) rem' /\ take i rem' = take i rem.
Proof.
  intros Hlim Hwf Hi. pose proof (take_drop_middle _ _ _ Hi) as Hsplit.
  assert (Ht : 0 < t).
  { destruct Hwf as [_ Hp _ _ _]. rewrite Forall_forall in Hp.
    apply (Hp (a, t)). by eapply list_elem_of_lookup_2. }
  assert (Hlen : length (take i rem) = i)
    by (rewrite length_take_le; [done|]; apply lookup_lt_Some in Hi; lia).
  assert (Ht' : t <= limit).
  { destruct Hwf as [_ Hp Hb Hc _]. rewrite <-Hsplit in Hc, Hp, Hb.
    apply Forall_app in Hb as [_ [Hb _]%Forall_cons]. specialize (Hc a Hb).
    rewrite times_app in Hc. cbn in Hc. rewrite decide_True in Hc by done.
    apply Forall_app in Hp as [Hp1 [_ Hp2]%Forall_cons].
    pose proof (times_nonneg _ a Hp1). pose proof (times_nonneg _ a Hp2). lia. }
  rewrite <-Hsplit in Hwf. unfold pick_limited. rewrite Hi. unfold sub.
  rewrite wrap_in by (split; lia). cbn [mbind option_bind].
  destruct (Z.eqb_spec (t - 1) 0) as [H1|H1]; eexists; (split; [done|]); unfold remove_at.
  - split; [|rewrite take_app_length'; done].
    apply (remaining_wf_step _ _ _ _ _ t _ []); [done|]. left. split; [done|lia].
  - rewrite insert_take_drop by (by eapply lookup_lt_Some).
    split; [|rewrite take_app_length'; done].
    apply (remaining_wf_step _ _ _ _ _ t _ [(a, t - 1)]); [done|]. right. split; [done|lia].
Qed.

(** Sequences of picks. *)
Inductive pick_op : Type := PickOne (i : Index) | PickPair (i1 i2 : Index).

Definition pick_step (p : AccountPicker) (op : pick_op) : option (list nat * AccountPicker) :=
  match op with
  | PickOne i => '(a, p) ← picker_pick p i; Some ([a], p)
  | PickPair i1 i2 => '(a, b, p) ← picker_pick_pair p i1 i2; Some ([a; b], p)
  end.

Fixpoint run_picks (p : AccountPicker) (ops : list pick_op) : option (list nat * AccountPicker) :=
  match ops with
  | [] => Some ([], p)
  | op :: ops =>
      '(l, p) ← pick_step p op;
      '(l', p) ← run_picks p ops;
      Some (l ++ l', p)
  end.

(** How many accounts a pick needs. *)
Definition needs (op : pick_op) : nat := match op with PickOne _ => 1 | PickPair _ _ => 2 end.

Lemma pick_pair_impl_spec n i1 i2 :
  (2 <= n)%nat -> exists a b, pick_pair_impl n i1 i2 = Some (a, b) /\ (a < b < n)%nat.
Proof.
  intros Hn. unfold pick_pair_impl.
  pose proof (pick_slice_length_law n [i1; i2]) as Hlen.
  pose proof (pick_slice_sorted_law n [i1; i2]) as Hs.
  pose proof (pick_slice_bound_law n [i1; i2]) as Hb.
  destruct (pick_slice_idxs n [i1; i2]) as [|a [|b [|c l]]]; cbn in Hlen; try lia.
  apply StronglySorted_cons in Hs as [[Hab _]%Forall_cons _].
  assert (Hbn : (b < n)%nat) by (apply Hb; right; left).
  exists a, b. apply Nat.ltb_lt in Hab as Hab'. by rewrite Hab'.
Qed.

Lemma index_of_spec i n : (0 < n)%nat -> exists k, index_of i n = Some k /\ (k < n)%nat.
Proof.
  intros Hn. unfold index_of. destruct (Nat.eqb_spec n 0); [lia|].
  exists (index_at i n). split; [done|]. by apply index_at_law.
Qed.

(** One pick from a limited picker with enough accounts left. *)
Lemma pick_step_spec limit n picked rem op :
  limit < 2 ^ 64 -> remaining_wf limit n picked rem -> (needs op <= length rem)%nat ->
  exists l rem', pick_step (PickLimited rem) op = Some (l, PickLimited rem') /\
    remaining_wf limit n (picked ++ l) rem' /\ StronglySorted lt l /\ length l = needs op.
Proof.
  intros Hlim Hwf Hn. destruct op as [i|i1 i2]; cbn in *.
  - destruct (index_of_spec i (length rem) Hn) as (k & -> & Hk). cbn.
    apply lookup_lt_is_Some in Hk as [[a t] Hk].
    destruct (pick_limited_spec _ _ _ _ _ _ _ Hlim Hwf Hk) as (rem' & -> & Hwf' & _). cbn.
    exists [a], rem'. split_and!; [done|done| |done]. by repeat constructor.
  - destruct (pick_pair_impl_spec (length rem) i1 i2 Hn) as (k1 & k2 & -> & Hk). cbn.
    destruct (lookup_lt_is_Some_2 rem k1) as [[a1 t1] H1]; [lia|].
    destruct (lookup_lt_is_Some_2 rem k2) as [[a2 t2] H2]; [lia|].
    destruct (pick_limited_spec _ _ _ _ _ _ _ Hlim Hwf H2) as (rem1 & -> & Hwf1 & Htake). cbn.
    assert (H1' : rem1 !! k1 = Some (a1, t1)).
    { rewrite <-(lookup_take_lt rem1 k2 k1), Htake, lookup_take_lt; [done|lia..]. }
    destruct (pick_limited_spec _ _ _ _ _ _ _ Hlim Hwf1 H1') as (rem2 & -> & Hwf2 & _). cbn.
    assert (Ha : (a1 < a2)%nat).
    { destruct Hwf as [Hs _ _ _ _]. rewrite <-(take_drop k2 rem), fmap_app in Hs.
      apply (StronglySorted_app_1_elem_of lt _ _ _ _ Hs).
      - apply (list_elem_of_lookup_2 _ k1).
        rewrite list_lookup_fmap, lookup_take_lt, H1 by lia. done.
      - apply (list_elem_of_lookup_2 _ 0).
        by rewrite list_lookup_fmap, lookup_drop, Nat.add_0_r, H2. }
    exists [a1; a2], rem2. split_and!; [done| |by repeat constructor|done].
    destruct Hwf2 as [W1 W2 W3 W4 W5]. split; [done..| |].
    + intros idx Hidx. rewrite <-(W4 idx Hidx). rewrite <-app_assoc, !count_app.
      change [a1; a2] with ([a1] ++ [a2]). change ([a2] ++ [a1]) with ([a2] ++ [a1]).
      rewrite !count_app. lia.
    + rewrite <-app_assoc in W5. apply Forall_app in W5 as [? W5]. apply Forall_app. split; [done|].
      by apply Forall_cons in W5 as [? [? _]%Forall_cons]; repeat constructor.
Qed.

Lemma pick_step_none rem op :
  (length rem < needs op)%nat -> pick_step (PickLimited rem) op = None.
Proof.
  intros Hn. destruct op as [i|i1 i2]; cbn in *.
  - unfold index_of. by destruct (Nat.eqb_spec (length rem) 0); [|lia].
  - unfold pick_pair_impl. pose proof (pick_slice_length_law (length rem) [i1; i2]) as Hlen.
    destruct (pick_slice_idxs (length rem) [i1; i2]) as [|a [|b [|c r]]]; cbn in Hlen;
      try lia; done.
Qed.

Lemma run_picks_wf limit n picked rem ops l p :
  limit < 2 ^ 64 -> remaining_wf limit n picked rem ->
  run_picks (PickLimited rem) ops = Some (l, p) ->
  exists rem', p = PickLimited rem' /\ remaining_wf limit n (picked ++ l) rem'.
Proof.
  intros Hlim. revert picked rem l. induction ops as [|op ops IH]; intros picked rem l Hwf; cbn.
  { intros [= <- <-]. exists rem. by rewrite app_nil_r. }
  destruct (decide (needs op <= length rem)%nat) as [Hn|Hn].
  - destruct (pick_step_spec _ _ _ _ op Hlim Hwf Hn) as (l1 & rem1 & -> & Hwf1 & _). cbn.
    destruct (run_picks (PickLimited rem1) ops) as [[l2 p2]|] eqn:Hr; cbn; [|done].
    intros [= <- <-]. rewrite app_assoc. by eapply IH.
  - by rewrite pick_step_none by lia.
Qed.

Lemma elem_of_remaining rem idx :
  Forall (fun at_ => 0 < at_.2) rem -> idx ∈ rem.*1 <-> 0 < times rem idx.
Proof.
  induction 1 as [|[a t] rem Ht Hp IH]; cbn.
  - split; [by intros ?%not_elem_of_nil|lia].
  - rewrite elem_of_cons, IH. pose proof (times_nonneg rem idx Hp). cbn in Ht.
    case_decide as Ha; split.
    + lia.
    + intros _. by left.
    + intros [->|?]; [done|lia].
    + intros ?. right. lia.
Qed.

Lemma sorted_NoDup l : StronglySorted lt l -> NoDup l.
Proof.
  induction 1 as [|a l _ IH Hl]; [constructor|]. apply NoDup_cons. split; [|done].
  intros Ha. rewrite Forall_forall in Hl. specialize (Hl a Ha). lia.
Qed.

(** The accounts that remain are those that were picked less than [limit]
    times. *)
Lemma remaining_left limit n picked rem :
  remaining_wf limit n picked rem ->
  length rem = length (filter (fun idx => Z.of_nat (count idx picked) < limit) (seq 0 n)).
Proof.
  intros [Hs Hp Hb Hc _]. rewrite <-(length_fmap fst rem).
  apply Permutation_length, NoDup_Permutation.
  - by apply sorted_NoDup.
  - apply NoDup_filter, NoDup_seq.
  - intros idx. rewrite elem_of_remaining, list_elem_of_filter, elem_of_seq by done. split.
    + intros Ht. assert (Hi : (idx < n)%nat).
      { apply (elem_of_remaining rem idx Hp) in Ht.
        apply list_elem_of_fmap in Ht as ([a t] & -> & Hin).
        rewrite Forall_forall in Hb. exact (Hb _ Hin). }
      specialize (Hc idx Hi). lia.
    + intros [Hlt Hi]. specialize (Hc idx). lia.
Qed.

(** C32. A picker limited to [limit] picks per account: whatever sequence of
    single and pair picks it has answered, no account was picked more than
    [limit] times and only accounts of the universe were picked; and the next
    pick is answered, a pair with two different accounts in increasing order,
    exactly as long as enough accounts have picks left. *)
Theorem limited_picker limit n ops picked p op :
  0 < limit < 2 ^ 64 ->
  run_picks (new_picker (Limited limit) n) ops = Some (picked, p) ->
  Forall (fun idx => (idx < n)%nat) picked /\
  (forall idx, Z.of_nat (count idx picked) <= limit) /\
  let left := filter (fun idx => Z.of_nat (count idx picked) < limit) (seq 0 n) in
  ((needs op <= length left)%nat ->
     exists l p', pick_step p op = Some (l, p') /\ StronglySorted lt l /\ length l = needs op) /\
  ((length left < needs op)%nat -> pick_step p op = None).
Proof.
  intros [Hl0 Hlim] Hr. cbn [new_picker] in Hr.
  destruct (run_picks_wf _ _ _ _ _ _ _ Hlim (new_picker_wf limit n Hl0) Hr) as (rem & -> & Hwf).
  cbn [app] in Hwf. cbn zeta. rewrite <-(remaining_left _ _ _ _ Hwf).
  pose proof Hwf as [_ Hp _ Hc Hk]. split_and!; [done| | |apply pick_step_none].
  - intros idx. destruct (decide (idx < n)%nat) as [Hi|Hi].
    + specialize (Hc idx Hi). pose proof (times_nonneg _ idx Hp). lia.
    + assert (count idx picked = 0%nat) as ->; [|lia]. unfold count.
      apply length_zero_iff_nil. destruct (filter _ picked) as [|j r] eqn:Hf; [done|]. exfalso.
      assert (Hj : j ∈ filter (fun j => j = idx) picked) by (rewrite Hf; by left).
      apply list_elem_of_filter in Hj as [-> Hj].
      rewrite Forall_forall in Hk. specialize (Hk _ Hj). lia.
  - intros Hn. destruct (pick_step_spec _ _ _ _ op Hlim Hwf Hn) as (l & rem' & H1 & H2 & H3 & H4).
    eauto 10.
Qed.

End pickers.

(** ** Accounts added after the picker was built *)
Section added_accounts.
Context {ENV : Env} {IL : IndexLaws env_indexes}.

(** The index of an account that no pick can return. *)
Definition unpickable (u : AccountUniverse) (idx : nat) : Prop :=
  forall i, match pick i u with Some (idx', _) => idx' <> idx | None => True end.

Lemma new_picker_bound style n i idx p :
  picker_pick (new_picker style n) i = Some (idx, p) -> (idx < n)%nat.
Proof.
  destruct style as [|limit]; cbn; intros Hp.
  - apply bind_Some in Hp as (k & Hk & [= <- <-]). unfold index_of in Hk.
    destruct (Nat.eqb_spec n 0); [done|]. injection Hk as <-. apply index_at_law. lia.
  - apply bind_Some in Hp as (k & _ & Hp). apply bind_Some in Hp as ([a rem] & Ha & [= <- <-]).
    unfold pick_limited in Ha. destruct (map _ _ !! k) as [[a' t]|] eqn:Hk; [|done].
    apply map_lookup_Some_1 in Hk as (j & [= -> ->] & Hj). apply lookup_seq in Hj.
    apply bind_Some in Ha as (t' & _ & [= <- _]). lia.
Qed.

(** An account added to a universe cannot be picked until the picker is
    reset: the picker keeps choosing among the accounts there were when it was
    made. *)
Theorem added_account_not_picked l style d :
  let u := add_account d (new_universe l style false) in
  num_accounts u = S (length l) /\ unpickable u (length l) /\
  picker (reset_picker u) = new_picker style (S (length l)).
Proof.
  cbn. unfold num_accounts, reset_picker; cbn. rewrite length_app, length_map, Nat.add_1_r.
  split_and!; [done| |done].
  intros i. unfold pick; cbn. rewrite length_map.
  destruct (picker_pick (new_picker style (length l)) i) as [[idx p]|] eqn:Hp; cbn; [|done].
  destruct ((map new_account_current l ++ _) !! idx); cbn; [|done].
  apply new_picker_bound in Hp. lia.
Qed.
End added_accounts.

(** ** Transfers *)
Section transfers.
Context {ENV : Env} {IL : IndexLaws env_indexes} {TL : TransactionLaws env_transactions}.
Context (core_code_address : Address).
(** The gas constants: running out of money early is not dearer than a
    transfer, and the cost of a transfer at the unit price of 100 is a [u64]
    value far from the bound. *)
Context (Hlow : 0 <= PEER_TO_PEER_TOO_LOW <= PEER_TO_PEER).
Context (Hgas : PEER_TO_PEER * 100 < 2 ^ 63).

#[local] Instance p2p_gen : AUTransactionGen P2PTransferGen := p2p_apply core_code_address.

#[export] Instance TransactionStatus_success_dec (st : TransactionStatus) :
  Decision (st = Keep ExecSuccess).
Proof. destruct st as [[|]| |]; [by left|right..]; done. Defined.

Definition kept (st : TransactionStatus) : bool :=
  match st with Keep _ => true | _ => false end.

(** What a transfer does to its two accounts: the sender pays the gas and, if
    the transfer succeeds, the amount that the receiver gets. *)
Record transfer_ok (amount gas_used : Z) (st : TransactionStatus)
    (s r s' r' : AccountCurrent) : Prop := {
  to_total : balance s' + balance r' = balance s + balance r - gas_used * 100;
  to_gas : 0 <= gas_used;
  to_sender : 0 <= balance s';
  to_receiver : balance r' = balance r + (if decide (st = Keep ExecSuccess) then amount else 0);
  to_success : st = Keep ExecSuccess <-> amount + PEER_TO_PEER * 100 <= balance s;
  to_discard : kept st = false <-> balance s < PEER_TO_PEER * 100;
  to_nothing : kept st = false -> s' = s /\ r' = r /\ gas_used = 0;
}.


(** Closes [transfer_ok] when the branch of the transfer is known. *)
Ltac close_transfer :=
  split; cbn;
  [ lia | lia | lia | case_decide; first [done | lia]
  | split; intros; first [done | lia]
  | split; intros; first [done | lia]
  | intros; first [done | auto] ].

Lemma p2p_result_ok amt s r st gas s' r' :
  0 <= amt -> 0 <= balance s -> 0 <= balance r -> balance s + balance r < 2 ^ 63 ->
  p2p_result core_code_address amt 100 s r = Some (st, gas, s', r') ->
  transfer_ok amt gas st s r s' r'.
Proof using Hlow Hgas.
  intros Ha Hs Hr Hsum. unfold p2p_result, peer_to_peer_gas_cost, peer_to_peer_too_low_gas_cost.
  unfold mul. rewrite (wrap_in 64 (PEER_TO_PEER * 100)) by (split; lia). cbn [mbind option_bind].
  destruct (add 64 amt (PEER_TO_PEER * 100)) as [d|] eqn:Hd; cbn [mbind option_bind]; [|done].
  destruct (Z.leb_spec (PEER_TO_PEER * 100) (balance s)) as [Hmax|Hmax].
  2: { intros [= <- <- <- <-]. close_transfer. }
  destruct (Z.leb_spec amt (balance s)) as [Htr|Htr].
  - unfold add in Hd. rewrite wrap_in in Hd by (split; lia). injection Hd as <-.
    destruct (Z.leb_spec (amt + PEER_TO_PEER * 100) (balance s)) as [Hsu|Hsu]; intros Hr1.
    + apply bind_Some in Hr1 as (seq & _ & Hr1). apply bind_Some in Hr1 as (sent & _ & Hr1).
      unfold sub, add in Hr1.
      rewrite (wrap_in 64 (balance s - (amt + PEER_TO_PEER * 100))) in Hr1 by (split; lia).
      rewrite (wrap_in 64 (balance r + amt)) in Hr1 by (split; lia). cbn in Hr1.
      apply bind_Some in Hr1 as (rec & _ & [= <- <- <- <-]).
      close_transfer.
    + apply bind_Some in Hr1 as (seq & _ & Hr1). unfold sub in Hr1.
      rewrite wrap_in in Hr1 by (split; lia). cbn in Hr1. injection Hr1 as <- <- <- <-.
      close_transfer.
  - intros Hr1. apply bind_Some in Hr1 as (seq & _ & Hr1). unfold sub in Hr1.
    rewrite (wrap_in 64 (PEER_TO_PEER_TOO_LOW * 100)) in Hr1 by (split; lia).
    cbn [mbind option_bind] in Hr1.
    rewrite (wrap_in 64 (balance s - PEER_TO_PEER_TOO_LOW * 100)) in Hr1 by (split; lia).
    cbn in Hr1. injection Hr1 as <- <- <- <-.
    close_transfer.
Qed.

(** *** The pair of accounts of a transfer *)

(** The picker only knows accounts of the universe. *)
Definition picker_ok (n : nat) (p : AccountPicker) : Prop :=
  match p with
  | PickUnlimited m => (m <= n)%nat
  | PickLimited rem => Forall (fun at_ => (at_.1 < n)%nat) rem
  end.

Lemma pick_limited_ok n rem i a rem' :
  Forall (fun at_ => (at_.1 < n)%nat) rem -> pick_limited rem i = Some (a, rem') ->
  (a < n)%nat /\ Forall (fun at_ => (at_.1 < n)%nat) rem'.
Proof.
  intros Hf Hp. unfold pick_limited in Hp. destruct (rem !! i) as [[a' t]|] eqn:Hi; [|done].
  apply bind_Some in Hp as (t' & _ & [= <- <-]).
  assert (Ha : (a' < n)%nat) by (eapply (Forall_lookup_1 _ _ _ _ Hf Hi)).
  split; [done|]. destruct (t' =? 0).
  - unfold remove_at. apply Forall_app. split; [by apply Forall_take|by apply Forall_drop].
  - by apply Forall_insert.
Qed.

Lemma picker_pick_pair_ok n p i1 i2 a b p' :
  picker_ok n p -> picker_pick_pair p i1 i2 = Some (a, b, p') ->
  (a < n)%nat /\ (b < n)%nat /\ picker_ok n p'.
Proof.
  intros Hok Hp. destruct p as [m|rem]; cbn in *.
  - apply bind_Some in Hp as ([x y] & Hxy & [= <- <- <-]). unfold pick_pair_impl in Hxy.
    pose proof (pick_slice_bound_law m [i1; i2]) as Hb.
    destruct (pick_slice_idxs m [i1; i2]) as [|x' [|y' [|]]]; try done.
    destruct (x' <? y')%nat; [|done]. injection Hxy as <- <-.
    assert (x' < m)%nat by (apply Hb; left). assert (y' < m)%nat by (apply Hb; right; left). cbn. lia.
  - apply bind_Some in Hp as ([k1 k2] & _ & Hp).
    apply bind_Some in Hp as ([a2 rem2] & H2 & Hp). apply bind_Some in Hp as ([a1 rem1] & H1 & Hp).
    injection Hp as <- <- <-. apply (pick_limited_ok n) in H2 as [? Hf2]; [|done].
    apply (pick_limited_ok n) in H1 as [? Hf1]; done.
Qed.

(** A universe small enough for its indexes to be [usize] values. *)
Record universe_wf (u : AccountUniverse) : Prop := {
  uw_size : Z.of_nat (length (accounts u)) < 2 ^ 63;
  uw_picker : picker_ok (length (accounts u)) (picker u);
  uw_balances : Forall (fun a => 0 <= balance a) (accounts u);
}.

Lemma wrap_mod w a r : wrap w a = Some r -> r = a mod 2 ^ w.
Proof.
  unfold wrap. destruct (_ && _) eqn:E.
  - intros [= <-]. apply andb_prop in E as [?%Z.leb_le ?%Z.ltb_lt]. by rewrite Z.mod_small.
  - destruct checked; [done|]. by intros [= <-].
Qed.

Lemma pick_pair_distinct g u s r u' :
  universe_wf u -> pick_pair g u = Some ((s, r), u') ->
  s <> r /\ accounts u' = accounts u /\ (s < length (accounts u))%nat /\
  (r < length (accounts u))%nat /\ picker_ok (length (accounts u)) (picker u').
Proof.
  intros [Hlen Hok _] Hp. unfold pick_pair in Hp.
  apply bind_Some in Hp as ([[lo hi] p] & Hpp & Hp).
  destruct (picker_pick_pair_ok _ _ _ _ _ _ _ Hok Hpp) as (Hlo & Hhi & Hok').
  apply bind_Some in Hp as (a & _ & Hp). apply bind_Some in Hp as (t & Ht & Hp).
  apply bind_Some in Ht as (d & Hd%wrap_mod & Ht%wrap_mod).
  apply bind_Some in Hp as (b & Hb & Hp). rewrite lookup_drop in Hb. apply lookup_lt_Some in Hb.
  assert (Hlt : (lo < hi)%nat).
  { destruct (decide (lo < hi)%nat) as [|Hge]; [done|]. exfalso.
    assert (Hm : t = Z.of_nat hi - Z.of_nat lo - 1 + 2 ^ 64).
    { rewrite Ht, Hd, Zminus_mod_idemp_l.
      replace (Z.of_nat hi - Z.of_nat lo - 1)
        with ((Z.of_nat hi - Z.of_nat lo - 1 + 2 ^ 64) + (-1) * 2 ^ 64) by lia.
      rewrite Z.mod_add by lia. rewrite Z.mod_small; lia. }
    lia. }
  destruct (reverse g); injection Hp as <- <- <-; split_and!; try done; lia.
Qed.

(** *** Balances *)

Fixpoint total_balance (l : list AccountCurrent) : Z :=
  match l with [] => 0 | a :: l => balance a + total_balance l end.

Lemma total_balance_app l1 l2 : total_balance (l1 ++ l2) = total_balance l1 + total_balance l2.
Proof. induction l1 as [|a l1 IH]; cbn; [done|]. lia. Qed.

Lemma total_balance_insert l i a a' :
  l !! i = Some a -> total_balance (<[i := a']> l) = total_balance l - balance a + balance a'.
Proof.
  intros Hi. rewrite insert_take_drop by (by eapply lookup_lt_Some).
  rewrite <-(take_drop_middle l i a Hi) at 3. rewrite !total_balance_app. cbn. lia.
Qed.

Lemma total_balance_nonneg l : Forall (fun a => 0 <= balance a) l -> 0 <= total_balance l.
Proof. induction 1; cbn in *; lia. Qed.

Lemma total_balance_two l i j a b :
  Forall (fun a => 0 <= balance a) l -> i <> j -> l !! i = Some a -> l !! j = Some b ->
  balance a + balance b <= total_balance l.
Proof.
  intros Hf Hne Hi Hj.
  set (z := set_balance 0 a).
  assert (Hj' : <[i := z]> l !! j = Some b) by by rewrite list_lookup_insert_ne.
  pose proof (total_balance_insert l i a z Hi) as H1.
  pose proof (total_balance_insert _ j b z Hj') as H2.
  assert (Hz : 0 <= total_balance (<[j := z]> (<[i := z]> l))).
  { apply total_balance_nonneg, Forall_insert; [|done]. by apply Forall_insert. }
  cbn in H1, H2. lia.
Qed.

Lemma p2p_apply_ok g u txn st gas u' :
  universe_wf u -> total_balance (accounts u) < 2 ^ 63 -> 0 <= amount g ->
  p2p_apply core_code_address g u = Some ((txn, (st, gas)), u') ->
  exists s r a b a' b', s <> r /\ accounts u !! s = Some a /\ accounts u !! r = Some b /\
    accounts u' = <[r := b']> (<[s := a']> (accounts u)) /\
    transfer_ok (amount g) gas st a b a' b' /\
    picker_ok (length (accounts u)) (picker u') /\
    txn = peer_to_peer_txn (account a) (account b) (acc_sequence_number a) (amount g) 100.
Proof using All.
  intros Hwf Htot Hamt Hp. unfold p2p_apply in Hp.
  apply bindM_Some in Hp as ([s r] & u1 & Hpick & Hp).
  destruct (pick_pair_distinct _ _ _ _ _ Hwf Hpick) as (Hne & Hacc & _ & _ & Hok).
  apply bindM_Some in Hp as (a & u2 & Ha & Hp). apply bind_Some in Ha as (a0 & Ha & [= <- <-]).
  apply bindM_Some in Hp as (b & u3 & Hb & Hp). apply bind_Some in Hb as (b0 & Hb & [= <- <-]).
  rewrite Hacc in Ha, Hb.
  apply bindM_Some in Hp as ([[[st' gas'] a'] b'] & u4 & Hres & Hp).
  apply lift_Some in Hres as [Hres ->].
  apply bindM_Some in Hp as (x & u5 & [= <- <-] & [= <- <- <- <-]).
  exists s, r, a0, b0, a', b'. cbn. rewrite Hacc. split_and!; try done.
  assert (Hprice : txn_gas_unit_price (peer_to_peer_txn (account a0) (account b0)
    (acc_sequence_number a0) (amount g) 100) = 100)
    by (unfold peer_to_peer_txn; apply gas_law).
  rewrite Hprice in Hres. destruct Hwf as [_ _ Hf].
  pose proof (total_balance_two _ _ _ _ _ Hf Hne Ha Hb).
  apply p2p_result_ok; try done; [..|lia].
  - by apply (Forall_lookup_1 _ _ _ _ Hf Ha).
  - by apply (Forall_lookup_1 _ _ _ _ Hf Hb).
Qed.

Lemma p2p_apply_conserves g u txn st gas u' :
  universe_wf u -> total_balance (accounts u) < 2 ^ 63 -> 0 <= amount g ->
  p2p_apply core_code_address g u = Some ((txn, (st, gas)), u') ->
  universe_wf u' /\ total_balance (accounts u') = total_balance (accounts u) - gas * 100 /\
  0 <= gas * 100 /\ length (accounts u') = length (accounts u).
Proof using All.
  intros Hwf Htot Hamt Hp.
  destruct (p2p_apply_ok _ _ _ _ _ _ Hwf Htot Hamt Hp)
    as (s & r & a & b & a' & b' & Hne & Ha & Hb & Hacc & [T1 T0 T2 T3 T4 T5 T6] & Hok & _).
  destruct Hwf as [Hsize _ Hf].
  assert (Hb0 : 0 <= balance b) by by apply (Forall_lookup_1 _ _ _ _ Hf Hb).
  assert (Hb' : 0 <= balance b') by (rewrite T3; case_decide; lia).
  split_and!; [split| | |].
  - rewrite Hacc, !length_insert. done.
  - by rewrite Hacc, !length_insert.
  - rewrite Hacc. apply Forall_insert; [|done]. by apply Forall_insert.
  - rewrite Hacc. erewrite total_balance_insert by (by rewrite list_lookup_insert_ne).
    erewrite total_balance_insert by done. lia.
  - lia.
  - by rewrite Hacc, !length_insert.
Qed.

(** C31. A peer-to-peer transfer in a universe: two different accounts are
    involved and no other changes; a success moves the amount from the sender
    to the receiver; a transfer that is kept costs the sender the gas it
    reports at the unit price of 100, a discarded one changes nothing; which
    of these happens is decided by the sender's balance; and the transaction
    carries the sender's sequence number. *)
Theorem transfer_moves_money g u txn st gas u' :
  universe_wf u -> total_balance (accounts u) < 2 ^ 63 -> 0 <= amount g ->
  p2p_apply core_code_address g u = Some ((txn, (st, gas)), u') ->
  exists s r a b a' b', s <> r /\ accounts u !! s = Some a /\ accounts u !! r = Some b /\
    accounts u' = <[r := b']> (<[s := a']> (accounts u)) /\
    transfer_ok (amount g) gas st a b a' b' /\
    txn_sequence_number txn = acc_sequence_number a /\
    txn_sender txn = address (account a) /\
    txn_payload txn = aptos_coin_transfer (address (account b)) (amount g).
Proof using All.
  intros Hwf Htot Hamt Hp.
  destruct (p2p_apply_ok _ _ _ _ _ _ Hwf Htot Hamt Hp)
    as (s & r & a & b & a' & b' & H1 & H2 & H3 & H4 & H5 & _ & ->).
  exists s, r, a, b, a', b'. unfold peer_to_peer_txn. autorewrite with txn. by split_and!.
Qed.

Definition gas_total {A B} (l : list (A * (B * Z))) : Z := foldr Z.add 0 (map (fun x => x.2.2) l).

Lemma gas_total_app {A B} (l1 l2 : list (A * (B * Z))) :
  gas_total (l1 ++ l2) = gas_total l1 + gas_total l2.
Proof.
  unfold gas_total. rewrite map_app, foldr_app. induction l1 as [|x l1 IH]; cbn; [done|]. lia.
Qed.

(** C23. Over any list of transfers the total of the balances decreases by
    exactly the gas of the transfers, and no balance becomes negative. *)
Theorem transfers_conserve_money gens u applied u' :
  universe_wf u -> total_balance (accounts u) < 2 ^ 63 ->
  Forall (fun g => 0 <= amount g) gens ->
  apply_all gens u = Some (applied, u') ->
  universe_wf u' /\ length applied = length gens /\
  total_balance (accounts u') =
    total_balance (accounts u) - 100 * gas_total applied.
Proof using All.
  intros Hwf Htot Hamt Ha.
  set (I := fun (seen : list P2PTransferGen)
      (applied : list (SignedTransaction * (TransactionStatus * Z))) u1 =>
    universe_wf u1 /\ length applied = length seen /\ 0 <= gas_total applied /\
    total_balance (accounts u1) = total_balance (accounts u) - 100 * gas_total applied).
  enough (Hinv : I gens applied u') by (destruct Hinv as (? & ? & _ & ?); done).
  refine (foldM_inv I _ _ _ _ _ _ _ _ Ha); [by split_and!; [| |cbn; lia|cbn; lia]|].
  intros seen g acc u1 acc' u2 (W & L & P & T) Hg Hstep.
  apply bindM_Some in Hstep as ([txn [st gas]] & u3 & Hap & [= <- <-]).
  rewrite Forall_forall in Hamt.
  destruct (p2p_apply_conserves g u1 txn st gas u3 W ltac:(lia) (Hamt g Hg) Hap)
    as (W' & T' & P' & _).
  unfold I. rewrite !length_app, gas_total_app. cbn. split_and!; [done|lia|lia|lia].
Qed.

(** *** Universes in which every transfer succeeds *)

(** The account can afford [n] more transfers of at most 100,000 and its
    counters can count them. *)
Record rich (n : nat) (a : AccountCurrent) : Prop := {
  rich_balance : Z.of_nat n * 500000 <= balance a;
  rich_seq : 0 <= acc_sequence_number a < 2 ^ 64 - Z.of_nat n;
  rich_sent : 0 <= sent_events_count a < 2 ^ 64 - Z.of_nat n;
  rich_received : 0 <= received_events_count a < 2 ^ 64 - Z.of_nat n;
}.

Lemma rich_weaken n a : rich (S n) a -> rich n a.
Proof. intros [? ? ? ?]. split; lia. Qed.

Lemma pick_pair_unlimited g u m :
  universe_wf u -> picker u = PickUnlimited m -> (2 <= m)%nat ->
  exists s r, pick_pair g u = Some ((s, r), u) /\ s <> r /\
    (s < length (accounts u))%nat /\ (r < length (accounts u))%nat.
Proof.
  intros [Hsize Hok _] Hpick Hm. rewrite Hpick in Hok. cbn in Hok.
  destruct (pick_pair_impl_spec m (pair_1 g) (pair_2 g) Hm) as (lo & hi & Hp & Hlt).
  unfold pick_pair. rewrite Hpick. cbn. rewrite Hp. cbn [mbind option_bind].
  destruct (lookup_lt_is_Some_2 (accounts u) lo) as [a Ha]; [lia|]. rewrite Ha.
  unfold sub. cbn [mbind option_bind]. rewrite wrap_in by (split; lia). cbn [mbind option_bind].
  rewrite wrap_in by (split; lia). cbn [mbind option_bind]. rewrite lookup_drop.
  destruct (lookup_lt_is_Some_2 (accounts u) (S lo + Z.to_nat (Z.of_nat hi - Z.of_nat lo - 1)))
    as [b Hb]; [lia|]. rewrite Hb. cbn [mbind option_bind].
  assert (set_picker (PickUnlimited m) u = u) as -> by (rewrite <-Hpick; by destruct u).
  destruct (reverse g); eexists _, _; (split; [done|]); lia.
Qed.

Lemma p2p_result_success amt s r n :
  PEER_TO_PEER * 100 <= 400000 -> 0 <= amt <= 100000 -> rich (S n) s -> rich (S n) r ->
  balance s + balance r < 2 ^ 63 ->
  exists s' r', p2p_result core_code_address amt 100 s r =
      Some (Keep ExecSuccess, PEER_TO_PEER, s', r') /\ rich n s' /\ rich n r'.
Proof using Hlow Hgas.
  intros Hp Ha [S1 S2 S3 S4] [R1 R2 R3 R4] Hsum.
  unfold p2p_result, peer_to_peer_gas_cost, peer_to_peer_too_low_gas_cost, mul, add, sub.
  rewrite (wrap_in 64 (PEER_TO_PEER * 100)) by (split; lia). cbn [mbind option_bind].
  rewrite (wrap_in 64 (amt + PEER_TO_PEER * 100)) by (split; lia). cbn [mbind option_bind].
  destruct (Z.leb_spec (PEER_TO_PEER * 100) (balance s)); [|lia].
  destruct (Z.leb_spec amt (balance s)); [|lia].
  destruct (Z.leb_spec (amt + PEER_TO_PEER * 100) (balance s)); [|lia].
  rewrite !wrap_in by (split; lia). cbn [mbind option_bind].
  eexists _, _. split; [done|]. split; split; cbn; lia.
Qed.

Lemma p2p_apply_success g u n m :
  PEER_TO_PEER * 100 <= 400000 -> universe_wf u -> total_balance (accounts u) < 2 ^ 63 ->
  0 <= amount g <= 100000 -> Forall (rich (S n)) (accounts u) ->
  picker u = PickUnlimited m -> (2 <= m)%nat ->
  exists txn u', p2p_apply core_code_address g u =
      Some ((txn, (Keep ExecSuccess, PEER_TO_PEER)), u') /\
    Forall (rich n) (accounts u') /\ picker u' = PickUnlimited m.
Proof using All.
  intros Hp Hwf Htot Ha Hrich Hpick Hm.
  destruct (pick_pair_unlimited (sender_receiver g) u m Hwf Hpick Hm) as (s & r & Hsr & Hne & Hs & Hr).
  destruct (lookup_lt_is_Some_2 _ _ Hs) as [a Has]. destruct (lookup_lt_is_Some_2 _ _ Hr) as [b Hbr].
  pose proof (total_balance_two _ _ _ _ _ (uw_balances _ Hwf) Hne Has Hbr).
  destruct (p2p_result_success (amount g) a b n) as (a' & b' & Hres & Ra & Rb); [done|done| | |lia|].
  1-2: by eapply (Forall_lookup_1 _ _ _ _ Hrich).
  unfold p2p_apply, bindM, lift, modify, ret. rewrite Hsr, Has. cbn [mbind option_bind].
  rewrite Hbr. cbn [mbind option_bind].
  unfold peer_to_peer_txn at 1. rewrite gas_law, Hres. eexists _, _. split; [done|].
  split; [|done]. cbn. repeat (apply Forall_insert; [|done]).
  eapply Forall_impl; [exact Hrich|]. apply rich_weaken.
Qed.

(** Universes with the balances of [success_strategy]: with at least two
    accounts and a gas cost of a transfer of at most 400,000, the
    default number of transfers of at most 100,000 can be applied, in any
    order and to any accounts, and every one of them succeeds. *)
Lemma success_universe size lo hi u m gens :
  PEER_TO_PEER * 100 <= 400000 -> 0 <= size < 2 ^ 40 ->
  success_balances size = Some (lo, hi) ->
  universe_wf u -> total_balance (accounts u) < 2 ^ 63 ->
  Forall (fun a => lo <= balance a < hi /\ 0 <= acc_sequence_number a < 2 ^ 63 /\
    0 <= sent_events_count a < 2 ^ 63 /\ 0 <= received_events_count a < 2 ^ 63) (accounts u) ->
  picker u = PickUnlimited m -> (2 <= m)%nat ->
  Z.of_nat (length gens) <= 2 * size -> Forall (fun g => 0 <= amount g <= 100000) gens ->
  exists applied u', apply_all gens u = Some (applied, u') /\ length applied = length gens /\
    Forall (fun x => x.2 = (Keep ExecSuccess, PEER_TO_PEER)) applied.
Proof using All.
  intros Hp Hsize Hbal Hwf Htot Hacc Hpick Hm Hn Hamt.
  assert (Hr : Forall (rich (length gens)) (accounts u)).
  { unfold success_balances, default_num_transactions, mul in Hbal.
    repeat (rewrite ?cast_in, wrap_in in Hbal by (split; lia); cbn [mbind option_bind] in Hbal).
    injection Hbal as <- <-.
    eapply Forall_impl; [exact Hacc|]. cbn. intros a (? & ? & ? & ?). split; lia. }
  clear Hacc Hbal Hn. unfold apply_all.
  assert (Hgen : forall acc, Forall (fun x => x.2 = (Keep ExecSuccess, PEER_TO_PEER)) acc ->
    exists applied u', foldM (fun acc g => let% x := apply g in ret (acc ++ [x])) acc gens u =
      Some (applied, u') /\ length applied = (length acc + length gens)%nat /\
      Forall (fun x => x.2 = (Keep ExecSuccess, PEER_TO_PEER)) applied).
  2: { destruct (Hgen [] ltac:(constructor)) as (applied & u' & ? & ? & ?). eauto. }
  revert u Hwf Htot Hpick Hr.
  induction Hamt as [|g gens Hg Hamt IH]; intros u Hwf Htot Hpick Hr acc Hacc.
  { exists acc, u. cbn. split_and!; [done|lia|done]. }
  destruct (p2p_apply_success g u (length gens) m) as (txn & u1 & Hap & Hr1 & Hpick1); try done.
  destruct (p2p_apply_conserves g u _ _ _ u1 Hwf Htot ltac:(lia) Hap) as (Hwf1 & Htot1 & Hgas1 & _).
  destruct (IH u1 Hwf1 ltac:(lia) Hpick1 Hr1 (acc ++ [(txn, (Keep ExecSuccess, PEER_TO_PEER))]))
    as (applied & u' & Hrun & Hlen & Hall).
  { apply Forall_app. split; [done|]. by repeat constructor. }
  exists applied, u'. split_and!; [|rewrite Hlen, length_app; cbn; lia|done].
  cbn [foldM]. unfold bindM at 1. unfold bindM at 1. change (apply g u) with (p2p_apply core_code_address g u).
  rewrite Hap. cbn [ret]. exact Hrun.
Qed.
Lemma total_balance_bound l b : Forall (fun a => balance a < b) l -> total_balance l <= Z.of_nat (length l) * b.
Proof. induction 1 as [|a l Ha _ IH]; cbn [total_balance length]; lia. Qed.

(** C26. Every universe that [success_strategy] can produce, set up with at least two
    accounts, takes the default number of transfers of [p2p_strategy] up to 100,000, in
    any order and between any accounts, without a panic, and every one of them succeeds;
    the gas cost of a transfer is at most 400,000. *)
Theorem success_strategy_succeeds (data_strategy : Strategy Z -> Strategy AccountData)
    size min_accounts strategy g gens {E} (add : AccountData -> E -> E) (executor : E) :
  (forall balances d, data_strategy balances d -> balances (data_balance d) /\
     0 <= data_sequence_number d < 2 ^ 63 /\ 0 <= data_sent_events_count d < 2 ^ 63 /\
     0 <= data_received_events_count d < 2 ^ 63) ->
  PEER_TO_PEER * 100 <= 400000 -> 0 <= size < 2 ^ 19 -> 2 <= min_accounts ->
  success_strategy data_strategy size min_accounts = Some strategy -> strategy g ->
  default_num_transactions size = Some (Z.of_nat (length gens)) -> Forall (p2p_strategy 0 100000) gens ->
  exists applied u', apply_all gens (setup add g executor).1 = Some (applied, u') /\ length applied = length gens /\
    Forall (fun x => x.2 = (Keep ExecSuccess, PEER_TO_PEER)) applied.
Proof using All.
  intros Hdata Hp Hsize Hmin Hst Hg Hn Hgens. unfold success_strategy in Hst.
  apply bind_Some in Hst as ([lo hi] & Hbal & [= <-]). destruct Hg as (Hlen & Hacc & Hstyle).
  unfold range_strategy, default_num_accounts in Hlen.
  assert (Hb : lo = 1000000 * size /\ hi = 10000000 * size).
  { unfold success_balances, default_num_transactions, mul in Hbal.
    repeat (rewrite ?cast_in, wrap_in in Hbal by (split; lia); cbn [mbind option_bind] in Hbal).
    injection Hbal as <- <-. lia. }
  assert (Hall : Forall (fun a => lo <= balance a < hi /\ 0 <= acc_sequence_number a < 2 ^ 63 /\
    0 <= sent_events_count a < 2 ^ 63 /\ 0 <= received_events_count a < 2 ^ 63) (map new_account_current (gen_accounts g))).
  { apply Forall_map. eapply Forall_impl; [exact Hacc|]. intros d Hd. by apply Hdata in Hd. }
  unfold setup, setup_universe, new_universe. cbn [fst]. rewrite Hstyle. cbn [new_picker].
  eapply (success_universe size lo hi _ (length (map new_account_current (gen_accounts g)))); try done; cbn; rewrite ?length_map.
  - lia.
  - split; cbn; rewrite ?length_map; [lia|lia|].
    eapply Forall_impl; [exact Hall|]. intros a (? & _). lia.
  - eapply Z.le_lt_trans; [apply (total_balance_bound _ hi)|rewrite length_map; nia].
    eapply Forall_impl; [exact Hall|]. by intros a ((_ & ?) & _).
  - lia.
  - unfold default_num_transactions, mul in Hn. rewrite wrap_in in Hn by (split; lia). injection Hn as Hn. lia.
Qed.

End transfers.


(** ** [txn_one_account_result] *)
Section one_account.
Context {ENV : Env}.
Context (core_account_module_abort : AbortLocation).

(** A transfer out of one account, when the gas used is within the reserved
    gas and nothing overflows: the outcome is a success exactly when the sender
    can reserve the gas and pay the amount with the gas; the sender is charged
    the amount and the gas on success, the gas of the failing path when the
    transaction is kept but fails, and nothing when it is discarded; and its
    sequence number goes up exactly when the transaction is kept. *)
Theorem one_account_charges sender amt price used low st ok sender' :
  0 <= price -> 0 <= used <= TXN_RESERVED -> 0 <= low <= TXN_RESERVED ->
  0 <= amt -> 0 <= balance sender < 2 ^ 62 -> TXN_RESERVED * price < 2 ^ 62 ->
  0 <= acc_sequence_number sender < 2 ^ 64 - 1 ->
  txn_one_account_result core_account_module_abort sender amt price used low =
    Some (st, ok, sender') ->
  (ok = true <-> st = Keep ExecSuccess) /\
  (ok = true <-> TXN_RESERVED * price <= balance sender /\ amt + used * price <= balance sender) /\
  (kept st = false <-> balance sender < TXN_RESERVED * price) /\
  balance sender' = balance sender -
    (if kept st then
       if ok then amt + used * price
       else if amt <=? balance sender then used * price else low * price
     else 0) /\
  0 <= balance sender' /\
  acc_sequence_number sender' = acc_sequence_number sender + (if kept st then 1 else 0).
Proof.
  intros Hp Hu Hl Ha Hb Hr Hs. unfold txn_one_account_result, mul, add, sub.
  assert (Hup : 0 <= used * price <= TXN_RESERVED * price) by nia.
  assert (Hlp : 0 <= low * price <= TXN_RESERVED * price) by nia.
  rewrite (wrap_in 64 (TXN_RESERVED * price)) by (split; lia).
  rewrite (wrap_in 64 (used * price)) by (split; lia).
  rewrite (wrap_in 64 (low * price)) by (split; lia).
  rewrite (wrap_in 64 (acc_sequence_number sender + 1)) by (split; lia). cbn [mbind option_bind].
  destruct (wrap 64 (amt + used * price)) as [d|] eqn:Hd; cbn [mbind option_bind]; [|done].
  destruct (Z.leb_spec (TXN_RESERVED * price) (balance sender)) as [H1|H1].
  2: { intros [= <- <- <-]. cbn. split_and!; try lia; split; intros; first [done|lia]. }
  destruct (Z.leb_spec amt (balance sender)) as [H2|H2].
  - rewrite wrap_in in Hd by (split; lia). injection Hd as <-.
    destruct (Z.leb_spec (amt + used * price) (balance sender)) as [H3|H3]; intros Hres.
    + apply bind_Some in Hres as (sent & _ & Hres). rewrite wrap_in in Hres by (split; lia).
      cbn in Hres. injection Hres as <- <- <-. cbn.
      split_and!; try lia; split; intros; first [done|lia].
    + rewrite wrap_in in Hres by (split; lia). cbn in Hres. injection Hres as <- <- <-. cbn.
      split_and!; try lia; split; intros; first [done|lia].
  - intros Hres. rewrite wrap_in in Hres by (split; lia). cbn in Hres. injection Hres as <- <- <-.
    cbn. split_and!; try lia; split; intros; first [done|lia].
Qed.
End one_account.

(** ** [log_balance_strategy] *)
Section log_balance.
Context {ENV : Env}.

(** The ranges [l] are non-empty and follow each other from [lo] to [hi]. *)
Fixpoint covers (l : list (Z * Z)) (lo hi : Z) : Prop :=
  match l with
  | [] => lo = hi
  | (a, b) :: l => a = lo /\ a < b /\ covers l b hi
  end.

Lemma covers_snoc l lo mid hi : covers l lo mid -> mid < hi -> covers (l ++ [(mid, hi)]) lo hi.
Proof.
  revert lo. induction l as [|[a b] l IH]; intros lo; cbn.
  - intros -> Hlt. done.
  - intros (-> & Hab & Hc) Hlt. split_and!; [done|done|]. by apply IH.
Qed.

Lemma log_balance_loop_spec fuel max_balance k l :
  0 <= k <= 63 -> max_balance <= 2 ^ 63 -> (Z.to_nat (63 - k) < fuel)%nat ->
  forall lo, covers l 0 lo -> lo < 2 ^ k -> 2 ^ k <= max_balance ->
  exists l', log_balance_loop fuel max_balance lo (2 ^ k) l = Done l' /\ covers l' 0 max_balance.
Proof.
  revert k l. induction fuel as [|fuel IH]; intros k l Hk Hmax Hf lo Hc Hlo Hle; [lia|].
  cbn [log_balance_loop]. destruct (Z.leb_spec max_balance (2 ^ k)) as [H1|H1].
  { eexists. split; [done|]. replace max_balance with (2 ^ k) by lia. by apply covers_snoc. }
  assert (Hk' : k < 63).
  { destruct (Z.eq_dec k 63) as [->|]; lia. }
  assert (Hpow : 2 ^ k * 2 = 2 ^ (k + 1)) by (rewrite Z.pow_add_r; lia).
  assert (Hb : 2 ^ (k + 1) <= 2 ^ 63) by (apply Z.pow_le_mono_r; lia).
  unfold mul. rewrite wrap_in by (split; lia). rewrite Hpow.
  destruct (Z.le_gt_cases (2 ^ (k + 1)) max_balance) as [H2|H2].
  - rewrite Z.min_l by done. apply IH; [lia|lia|lia|by apply covers_snoc|lia|lia].
  - rewrite Z.min_r by lia. destruct fuel as [|fuel]; [lia|]. cbn [log_balance_loop].
    rewrite Z.leb_refl. eexists. split; [done|]. apply covers_snoc; [by apply covers_snoc|done].
Qed.

(** C33. [log_balance_strategy] ends and its ranges are non-empty, follow each
    other without gap or overlap and cover exactly the balances from zero to
    the maximum, for every maximum from the reserved gas rounded up to a power
    of two up to [2^63]. *)
Theorem log_balance_covers max_balance :
  1 < TXN_RESERVED <= 2 ^ 63 -> 2 ^ Z.log2_up TXN_RESERVED <= max_balance <= 2 ^ 63 ->
  exists l, log_balance_strategy 65 max_balance = Done l /\ covers l 0 max_balance.
Proof.
  intros Ht [Hmin Hmax]. unfold log_balance_strategy, next_power_of_two.
  destruct (Z.leb_spec TXN_RESERVED 1); [lia|].
  pose proof (Z.log2_up_nonneg TXN_RESERVED) as Hn.
  assert (Hb : Z.log2_up TXN_RESERVED <= 63) by (apply Z.log2_up_le_pow2; lia).
  assert (Hp : 2 ^ Z.log2_up TXN_RESERVED <= 2 ^ 63) by (apply Z.pow_le_mono_r; lia).
  assert (Hpos : 0 < 2 ^ Z.log2_up TXN_RESERVED) by (apply Z.pow_pos_nonneg; lia).
  rewrite wrap_in by (split; lia). apply Z.leb_le in Hmin as Hm'. rewrite Hm'. cbn [negb].
  apply log_balance_loop_spec; try done; lia.
Qed.

Lemma log_balance_loop_overflow fuel max_balance k lo l :
  checked = true -> 0 <= k <= 63 -> 2 ^ 63 < max_balance -> (Z.to_nat (63 - k) < fuel)%nat ->
  log_balance_loop fuel max_balance lo (2 ^ k) l = Panicked.
Proof.
  intros Hck. revert k lo l. induction fuel as [|fuel IH]; intros k lo l Hk Hmax Hf; [lia|].
  assert (Hb : 2 ^ k <= 2 ^ 63) by (apply Z.pow_le_mono_r; lia).
  cbn [log_balance_loop]. destruct (Z.leb_spec max_balance (2 ^ k)) as [H1|H1]; [lia|].
  assert (Hpow : 2 ^ k * 2 = 2 ^ (k + 1)) by (rewrite Z.pow_add_r; lia).
  unfold mul. rewrite Hpow. destruct (Z.eq_dec k 63) as [->|Hne].
  - unfold wrap. by rewrite Hck.
  - assert (Hb' : 2 ^ (k + 1) <= 2 ^ 63) by (apply Z.pow_le_mono_r; lia).
    assert (0 < 2 ^ (k + 1)) by (apply Z.pow_pos_nonneg; lia).
    rewrite wrap_in by (split; lia). rewrite Z.min_l by lia. apply IH; lia.
Qed.

(** For a maximum above [2^63] the doubling of the bound overflows: with
    overflow checks [log_balance_strategy] panics instead of returning
    ranges. *)
Theorem log_balance_overflows max_balance :
  checked = true -> 1 < TXN_RESERVED <= 2 ^ 63 -> 2 ^ 63 < max_balance ->
  log_balance_strategy 65 max_balance = Panicked.
Proof.
  intros Hck Ht Hmax. unfold log_balance_strategy, next_power_of_two.
  destruct (Z.leb_spec TXN_RESERVED 1); [lia|].
  pose proof (Z.log2_up_nonneg TXN_RESERVED) as Hn.
  assert (Hb : Z.log2_up TXN_RESERVED <= 63) by (apply Z.log2_up_le_pow2; lia).
  assert (Hp : 2 ^ Z.log2_up TXN_RESERVED <= 2 ^ 63) by (apply Z.pow_le_mono_r; lia).
  assert (Hpos : 0 < 2 ^ Z.log2_up TXN_RESERVED) by (apply Z.pow_pos_nonneg; lia).
  rewrite wrap_in by (split; lia).
  destruct (Z.leb_spec (2 ^ Z.log2_up TXN_RESERVED) max_balance); [|lia]. cbn [negb].
  apply log_balance_loop_overflow; try done; lia.
Qed.
End log_balance.

(** ** The oracle *)
Section oracle.
Context {ENV : Env}.
Context {G E : Type} {GEN : AUTransactionGen G} {EX : Executor E}.

(** The output says what the universe predicted. *)
Definition status_agrees (o : TxnOutput) (x : SignedTransaction * (TransactionStatus * Z)) : Prop :=
  transaction_status_eq (output_status o) x.2.1 = true.

(** What the executor stores for an account is what the universe predicts. *)
Definition account_agrees (e : E) (a : AccountCurrent) : Prop :=
  exists r c, read_account_resource (account a) e = Some r /\
    read_coin_store_resource (account a) e = Some c /\
    auth_key (account a) = authentication_key r /\
    balance a = coin c /\ acc_sequence_number a = resource_sequence_number r.

Definition apply_outputs (outs : list TxnOutput) (e : E) : E :=
  foldl (fun e o => apply_write_set (output_write_set o) e) e outs.

Lemma check_statuses_ok idx outs applied e e' :
  length outs = length applied ->
  check_statuses idx outs applied.*2 e = Ok e' <->
  Forall2 status_agrees outs applied /\ e' = apply_outputs outs e.
Proof.
  revert idx applied e. induction outs as [|o outs IH]; intros idx [|x applied] e Hlen; try done.
  - cbn. split; [intros [= ->]|intros [_ ->]]; by split || done.
  - cbn in *. rewrite Forall2_cons. unfold status_agrees at 1.
    destruct (transaction_status_eq _ _); cbn; [rewrite IH by lia|]; naive_solver.
Qed.

Lemma accounts_match_ok l e :
  accounts_match l e = Some (Ok tt) <-> Forall (account_agrees e) l.
Proof.
  induction l as [|a l IH]; cbn; [by split|].
  rewrite Forall_cons, <-IH. unfold account_agrees, list_Z_eqb.
  destruct (read_account_resource _ _) as [r|]; [|naive_solver].
  destruct (read_coin_store_resource _ _) as [c|]; [|naive_solver].
  case_bool_decide; cbn; [|naive_solver].
  destruct (Z.eqb_spec (balance a) (coin c)); cbn; [|naive_solver].
  destruct (Z.eqb_spec (acc_sequence_number a) (resource_sequence_number r)); cbn; naive_solver.
Qed.

(** The end-to-end test of a universe passes exactly when every transaction
    can be applied to the universe, the executor answers the block with one
    output per transaction, each output has the predicted status, and after the
    write sets of all outputs the stored key, balance and sequence number of
    every account are those the universe predicts. *)
Lemma universe_test_passes (gen : AccountUniverseGen) (gens : list G) :
  let e := foldl (fun (e : E) d => add_account_data d e) from_head_genesis (gen_accounts gen) in
  run_and_assert_universe (E := E) gen gens = Some (Ok tt) <->
  exists applied u outs,
    apply_all gens (new_universe (gen_accounts gen) (gen_pick_style gen) false) =
      Some (applied, u) /\
    exec_block applied.*1 e = Ok outs /\
    Forall2 status_agrees outs applied /\
    Forall (account_agrees (apply_outputs outs e)) (accounts u).
Proof.
  intros e. unfold run_and_assert_universe, setup, setup_universe. cbn [fst snd]. fold e.
  destruct (apply_all _ _) as [[applied u]|]; [|by split; [|intros (? & ? & ? & ? & _)]].
  destruct (exec_block _ _) as [outs|err] eqn:Hx.
  2: { split; [done|]. intros (? & ? & ? & [= <- <-] & Hx' & _). congruence. }
  destruct (Nat.eqb_spec (length outs) (length applied)) as [Hlen|Hlen]; cbn [negb].
  2: { split; [done|]. intros (a' & u' & o' & [= <- <-] & Hx' & Hf%Forall2_length & _). congruence. }
  destruct (check_statuses _ _ _ _) as [e'|err] eqn:Hc.
  - apply check_statuses_ok in Hc as [Hs ->]; [|done]. unfold assert_accounts_match.
    rewrite accounts_match_ok. split; [by eauto 10|].
    intros (a' & u' & o' & [= <- <-] & Hx' & _ & Hm). congruence.
  - split; [done|]. intros (a' & u' & o' & [= <- <-] & Hx' & Hs & _).
    assert (o' = outs) as -> by congruence. assert (Hok : check_statuses 0 outs applied.*2 e = Ok (apply_outputs outs e))
      by by apply check_statuses_ok.
    congruence.
Qed.
End oracle.
