(* ===== verification/UniverseWitnesses.v ===== *)
(** A concrete universe: small accounts, a transaction type and an index type
    that satisfy the interfaces of [CommonTransactions] and [AccountUniverse],
    and the theorems about universes at concrete inputs. *)
From stdpp Require Import base list option numbers strings sorting.
From S2P Require Import Prelude Prog Machine CommonTransactions AccountUniverse.
From S2P Require Import AccountUniverseSpec.

Open Scope Z_scope.

(** ** The environment *)

#[export] Instance toy_accounts : Accounts := {|
  Account := Z;
  AccountData := Z * Z * Z;
  Address := Z;
  data_account d := d.1.1;
  address a := a;
  address_bytes a := replicate 31 0 ++ [a mod 256];
  auth_key a := [a];
  data_balance d := d.1.2;
  data_sequence_number d := d.2;
  data_sent_events_count _ := 0;
  data_received_events_count _ := 0;
|}.

Inductive ToyPayload : Type :=
| CreateAccount (a : Z)
| CoinTransfer (a amount : Z)
| AirdropInitialize (amount : Z)
| AirdropTransfer (l : list Z)
| BallotInitialize (names : list (list Z))
| BallotVote (forum proposal : Z)
| PixelInitialize
| PixelOccupy (store x y : Z)
| KittyInitialize
| KittyMint (store genes : Z) (gender : bool)
| KittyBreed (store m s : Z) (gender : bool)
| EmptyCall
| EmptyScript.

#[export] Instance toy_payloads : Payloads := {|
  Payload := ToyPayload;
  aptos_account_create_account := CreateAccount;
  aptos_coin_transfer := CoinTransfer;
  xtl_airdrop_initialize := AirdropInitialize;
  xtl_airdrop_transfer_n := AirdropTransfer;
  xtl_ballot_initialize := BallotInitialize;
  xtl_ballot_vote := BallotVote;
  xtl_million_pixel_initialize := PixelInitialize;
  xtl_million_pixel_occupy := PixelOccupy;
  xtl_kitty_breeding_initialize := KittyInitialize;
  xtl_kitty_breeding_mint := KittyMint;
  xtl_kitty_breeding_breed := KittyBreed;
  xtl_empty_empty := EmptyCall;
  empty_script := EmptyScript;
|}.

(** A transaction: its sender, payload, sequence number, gas limit and price. *)
Record ToyTxn : Type := mkToyTxn {
  toy_sender : Z;
  toy_payload : ToyPayload;
  toy_seq : Z;
  toy_max_gas : Z;
  toy_price : Z;
}.

#[export] Instance toy_transactions : Transactions := {|
  TransactionBuilder := ToyTxn;
  SignedTransaction := ToyTxn;
  transaction a := mkToyTxn a EmptyScript 0 0 0;
  payload p b := mkToyTxn (toy_sender b) p (toy_seq b) (toy_max_gas b) (toy_price b);
  sequence_number n b := mkToyTxn (toy_sender b) (toy_payload b) n (toy_max_gas b) (toy_price b);
  max_gas_amount n b := mkToyTxn (toy_sender b) (toy_payload b) (toy_seq b) n (toy_price b);
  gas_unit_price n b := mkToyTxn (toy_sender b) (toy_payload b) (toy_seq b) (toy_max_gas b) n;
  sign b := b;
  txn_sender := toy_sender;
  txn_payload := toy_payload;
  txn_sequence_number := toy_seq;
  txn_gas_unit_price := toy_price;
|}.

#[export] Instance toy_transaction_laws : TransactionLaws toy_transactions.
Proof. by split. Qed.

#[export] Instance toy_gas : GasCosts := {|
  TXN_RESERVED := 1000;
  CREATE_ACCOUNT_FIRST := 8;
  CREATE_ACCOUNT_NEXT := 7;
  CREATE_ACCOUNT_TOO_LOW_FIRST := 5;
  CREATE_ACCOUNT_TOO_LOW_NEXT := 4;
  CREATE_EXISTING_ACCOUNT_FIRST := 5;
  CREATE_EXISTING_ACCOUNT_NEXT := 4;
  PEER_TO_PEER := 6;
  PEER_TO_PEER_TOO_LOW := 3;
  PEER_TO_PEER_NEW_RECEIVER_FIRST := 9;
  PEER_TO_PEER_NEW_RECEIVER_NEXT := 8;
  PEER_TO_PEER_NEW_RECEIVER_TOO_LOW_FIRST := 5;
  PEER_TO_PEER_NEW_RECEIVER_TOO_LOW_NEXT := 4;
|}.

#[export] Instance toy_indexes : Indexes := {|
  Index := nat;
  index_at i n := (i mod n)%nat;
  pick_slice_idxs n ixs := seq 0 (min n (length ixs));
|}.

Lemma seq_sorted k n : StronglySorted lt (seq k n).
Proof.
  revert k. induction n as [|n IH]; intros k; cbn; constructor; [apply IH|].
  apply Forall_forall. intros j Hj%elem_of_seq. lia.
Qed.

#[export] Instance toy_index_laws : IndexLaws toy_indexes.
Proof.
  split; cbn; intros.
  - apply Nat.mod_upper_bound. lia.
  - apply seq_sorted.
  - match goal with H : _ ∈ _ |- _ => apply elem_of_seq in H end. lia.
  - by rewrite length_seq.
Qed.

#[export] Instance toy_build : Build := {| checked := true |}.

#[export] Instance toy_env : Env := {|
  env_accounts := toy_accounts;
  env_payloads := toy_payloads;
  env_transactions := toy_transactions;
  env_gas_costs := toy_gas;
  env_indexes := toy_indexes;
  env_build := toy_build;
|}.

(** Three accounts, each with a balance that can be chosen. *)
Definition toy_data (b1 b2 b3 : Z) : list (@AccountData toy_accounts) :=
  [(11, b1, 4); (22, b2, 0); (33, b3, 9)].

Definition toy_universe (b1 b2 b3 : Z) : AccountUniverse :=
  new_universe (ENV := toy_env) (toy_data b1 b2 b3) Unlimited false.

Lemma toy_universe_wf b1 b2 b3 :
  0 <= b1 -> 0 <= b2 -> 0 <= b3 -> universe_wf (toy_universe b1 b2 b3).
Proof. intros. split; cbn; [lia|lia|]. by repeat constructor. Qed.

(** A transfer from the first picked account to the second, or back. *)
Definition toy_transfer (amt : Z) (rev : bool) : P2PTransferGen :=
  mkP2P (ENV := toy_env) (mkPairGen (ENV := toy_env) 0%nat 1%nat rev) amt.

(** ** Witnesses *)

Lemma limited_picker_witness :
  let p := new_picker (Limited 2) 3 in
  exists p', run_picks p [PickPair (ENV := toy_env) 0%nat 1%nat; PickPair (ENV := toy_env) 0%nat 1%nat]
      = Some ([0; 1; 0; 1]%nat, p') /\
    pick_step p' (PickOne (ENV := toy_env) 5%nat) <> None /\
    pick_step p' (PickPair (ENV := toy_env) 0%nat 1%nat) = None.
Proof.
  cbn zeta. eexists. split; [reflexivity|]. split.
  - destruct (limited_picker (ENV := toy_env) 2 3 _ _ _ (PickOne (ENV := toy_env) 5%nat)
      ltac:(lia) (eq_refl : run_picks (new_picker (Limited 2) 3)
        [PickPair (ENV := toy_env) 0%nat 1%nat; PickPair (ENV := toy_env) 0%nat 1%nat]
        = Some ([0; 1; 0; 1]%nat, _))) as (_ & _ & H & _).
    destruct H as (l & p' & H & _); [vm_compute; lia|]. by rewrite H.
  - destruct (limited_picker (ENV := toy_env) 2 3 _ _ _ (PickPair (ENV := toy_env) 0%nat 1%nat)
      ltac:(lia) (eq_refl : run_picks (new_picker (Limited 2) 3)
        [PickPair (ENV := toy_env) 0%nat 1%nat; PickPair (ENV := toy_env) 0%nat 1%nat]
        = Some ([0; 1; 0; 1]%nat, _))) as (_ & _ & _ & H).
    apply H. vm_compute. lia.
Defined.

Lemma added_account_not_picked_witness :
  unpickable (ENV := toy_env) (add_account (44, 0, 0) (toy_universe 1 2 3)) 3.
Proof.
  exact (proj1 (proj2 (added_account_not_picked (ENV := toy_env)
    (toy_data 1 2 3) Unlimited (44, 0, 0)))).
Defined.

(** The state and the answer of one transfer. *)
Definition toy_applied (amt : Z) (rev : bool) (u : AccountUniverse) :=
  p2p_apply (ENV := toy_env) 1 (toy_transfer amt rev) u.

Lemma transfer_moves_money_witness :
  exists txn st gas u',
    toy_applied 500 false (toy_universe 5000 10 0) = Some ((txn, (st, gas)), u') /\
    map balance (accounts u') = [5000 - 500 - 600; 10 + 500; 0] /\
    exists s r a b a' b', s <> r /\
      accounts (toy_universe 5000 10 0) !! s = Some a /\
      accounts (toy_universe 5000 10 0) !! r = Some b /\
      accounts u' = <[r := b']> (<[s := a']> (accounts (toy_universe 5000 10 0))) /\
      transfer_ok 500 gas st a b a' b' /\
      txn_sequence_number txn = acc_sequence_number a /\
      txn_sender txn = address (account a) /\
      txn_payload txn = aptos_coin_transfer (address (account b)) 500.
Proof.
  assert (Hb : option_map (fun x => map balance (accounts x.2))
    (toy_applied 500 false (toy_universe 5000 10 0)) = Some [3900; 510; 0]) by reflexivity.
  destruct (toy_applied 500 false (toy_universe 5000 10 0)) as [[[txn [st gas]] u']|] eqn:H;
    [|discriminate Hb].
  exists txn, st, gas, u'. split; [reflexivity|]. split; [by injection Hb|]. clear Hb.
  apply (transfer_moves_money (ENV := toy_env) 1 ltac:(cbn; lia) ltac:(cbn; lia)
    (toy_transfer 500 false) (toy_universe 5000 10 0) txn st gas u');
    [by apply toy_universe_wf|cbn; lia|cbn; lia|exact H].
Defined.

#[local] Instance toy_gen : AUTransactionGen P2PTransferGen := p2p_gen (ENV := toy_env) 1.

Lemma transfers_conserve_money_witness :
  exists applied u',
    apply_all (ENV := toy_env) [toy_transfer 500 false; toy_transfer 9000 true; toy_transfer 100 true]
      (toy_universe 5000 1000 0) = Some (applied, u') /\
    universe_wf u' /\ gas_total applied = 6 + 3 + 6 /\
    total_balance (accounts u') = 6000 - 100 * gas_total applied.
Proof.
  assert (Hb : option_map (fun x => gas_total x.1) (apply_all (ENV := toy_env)
    [toy_transfer 500 false; toy_transfer 9000 true; toy_transfer 100 true]
    (toy_universe 5000 1000 0)) = Some 15) by reflexivity.
  destruct (apply_all _ _) as [[applied u']|] eqn:H; [|discriminate Hb].
  exists applied, u'. split; [reflexivity|].
  destruct (transfers_conserve_money (ENV := toy_env) 1 ltac:(cbn; lia) ltac:(cbn; lia)
    [toy_transfer 500 false; toy_transfer 9000 true; toy_transfer 100 true]
    (toy_universe 5000 1000 0) applied u') as (H1 & _ & H2);
    [by apply toy_universe_wf|cbn; lia|repeat constructor; cbn; lia|exact H|].
  split; [exact H1|]. split; [by injection Hb|exact H2].
Defined.

(** Three accounts with the least balance of a size of four, and its eight transfers. *)
Lemma success_strategy_succeeds_witness :
  exists applied u',
    apply_all (ENV := toy_env) (repeat (toy_transfer 100000 false) 8)
      (toy_universe 4000000 4000000 4000000) = Some (applied, u') /\
    length applied = 8%nat /\ Forall (fun x => x.2 = (Keep ExecSuccess, PEER_TO_PEER)) applied.
Proof.
  apply (success_strategy_succeeds (ENV := toy_env) 1 ltac:(cbn; lia) ltac:(cbn; lia)
    (fun balances d => balances (data_balance d) /\ 0 <= data_sequence_number d < 2 ^ 63)
    4 2 (universe_strategy (ENV := toy_env) (fun balances d => balances (data_balance d) /\ 0 <= data_sequence_number d < 2 ^ 63)
           (range_strategy 2 4) (range_strategy 4000000 40000000) Unlimited)
    (mkUniverseGen (ENV := toy_env) (toy_data 4000000 4000000 4000000) Unlimited)
    (repeat (toy_transfer 100000 false) 8) (fun _ e => e) tt).
  - intros balances d [? ?]. cbn in *. split_and!; lia || done.
  - cbn. lia.
  - lia.
  - lia.
  - reflexivity.
  - split; [unfold range_strategy; cbn; lia|]. split; [|done]. repeat constructor; unfold range_strategy; cbn; lia.
  - reflexivity.
  - repeat constructor; cbn; lia.
Defined.

Lemma one_account_charges_witness :
  let a := new_account_current (ENV := toy_env) (11, 60000, 4) in
  exists st ok a',
    txn_one_account_result (ENV := toy_env) AbortScript a 59000 50 600 400 = Some (st, ok, a') /\
    ok = false /\ kept st = true /\ balance a' = 60000 - 600 * 50.
Proof.
  cbn zeta.
  assert (Hb : option_map (fun x => (x.1.2, kept x.1.1)) (txn_one_account_result (ENV := toy_env)
    AbortScript (new_account_current (ENV := toy_env) (11, 60000, 4)) 59000 50 600 400)
    = Some (false, true)) by reflexivity.
  destruct (txn_one_account_result _ _ _ _ _ _) as [[[st ok] a']|] eqn:H; [|discriminate Hb].
  exists st, ok, a'. split; [reflexivity|]. injection Hb as Hok Hkept.
  destruct (one_account_charges (ENV := toy_env) AbortScript
    (new_account_current (ENV := toy_env) (11, 60000, 4)) 59000 50 600 400 st ok a')
    as (_ & _ & _ & Hbal & _); [cbn; lia..|exact H|].
  rewrite Hbal, Hok, Hkept. by split_and!.
Defined.

Lemma log_balance_covers_witness :
  exists l, log_balance_strategy (ENV := toy_env) 65 5000 = Done l /\
    covers l 0 5000 /\ l = [(0, 1024); (1024, 2048); (2048, 4096); (4096, 5000)].
Proof.
  destruct (log_balance_covers (ENV := toy_env) 5000) as (l & H1 & H2).
  - cbn. lia.
  - split; [by vm_compute|cbn; lia].
  - exists l. split; [exact H1|]. split; [exact H2|]. vm_compute in H1. congruence.
Defined.

Lemma log_balance_overflows_witness :
  log_balance_strategy (ENV := toy_env) 65 (2 ^ 63 + 1) = Panicked.
Proof. apply (log_balance_overflows (ENV := toy_env)); [reflexivity|cbn; lia|lia]. Defined.
