(* ===== verification/Simulator.v ===== *)
(** The workload simulator: [aptos-transaction-benchmarks/src/simulator.rs].

    The simulator keeps an account universe and a state view.  A run sets up
    accounts with an applied block, generates a block of transactions at random
    and measures its execution.  A mutable reference to an account is its index
    in the universe.  The block executor ([BlockAptosVM]), the random numbers
    and the clock are outside the repository: they share a state of their own,
    so that two executions of the same block may differ. *)
From stdpp Require Import base list option numbers strings gmap.
From S2P Require Import Prelude Prog Machine CommonTransactions AccountUniverse.

Class SimEnv := {
  sim_env :: Env;
  (** [Transaction], [SignatureVerifiedTransaction] of [aptos_types]. *)
  Transaction : Type;
  UserTransaction : SignedTransaction -> Transaction;
  VerifiedTransaction : Type;
  into_signature_verified_block : list Transaction -> list VerifiedTransaction;
  TransactionOutput : Type;
  SimWriteSet : Type;
  status : TransactionOutput -> TransactionStatus;
  write_set : TransactionOutput -> SimWriteSet;
  (** [FakeDataStore] and the [FakeExecutor] that builds the first one. *)
  StateView : Type;
  add_write_set : SimWriteSet -> StateView -> StateView;
  SimExecutor : Type;
  sim_from_head_genesis : SimExecutor;
  sim_add_account_data : AccountData -> SimExecutor -> SimExecutor;
  get_state_view : SimExecutor -> StateView;
  (** The rest of the world: thread scheduling, random numbers, the clock. *)
  Outside : Type;
  (** [rng.gen_range(low, high)] for [low < high]. *)
  gen_range_outside : Z -> Z -> Outside -> Z * Outside;
  (** [Instant::now()], in nanoseconds. *)
  now_outside : Outside -> Z * Outside;
  (** [BlockAptosVM::execute_block] with a concurrency level and a gas limit;
      the outputs after [into_transaction_outputs_forced]. *)
  vm_execute_block : list VerifiedTransaction -> StateView -> Z -> option Z -> Outside ->
    option (list TransactionOutput) * Outside;
  (** [num_cpus::get()]. *)
  num_cpus : Z;
  (** A value of [AccountUniverseGen::strategy] for a number of accounts and a
      range of balances. *)
  generate_universe : nat -> Z -> Z -> AccountPickStyle -> Outside ->
    option AccountUniverseGen * Outside;
}.

Section definitions.
Context {SENV : SimEnv}.
Open Scope Z_scope.

Record Similator : Type := mkSimilator {
  account_universe : AccountUniverse;
  state_view : StateView;
  outside : Outside;
}.

Definition set_universe (u : AccountUniverse) (s : Similator) : Similator :=
  mkSimilator u (state_view s) (outside s).
Definition set_state_view (v : StateView) (s : Similator) : Similator :=
  mkSimilator (account_universe s) v (outside s).
Definition set_outside (o : Outside) (s : Similator) : Similator :=
  mkSimilator (account_universe s) (state_view s) o.

(** ** Access to the world and the accounts *)

(** [rng.gen_range(low, high)], which panics on an empty range. *)
Definition gen_range (low high : Z) : M Similator Z :=
  fun s =>
    if low <? high then
      let '(r, o) := gen_range_outside low high (outside s) in Some (r, set_outside o s)
    else None.

Definition now : M Similator Z :=
  fun s => let '(t, o) := now_outside (outside s) in Some (t, set_outside o s).

(** [execute_block(..).expect(..)]. *)
Definition execute_block (block : list VerifiedTransaction) (concurrency_level : Z)
    (maybe_block_gas_limit : option Z) : M Similator (list TransactionOutput) :=
  fun s =>
    let '(r, o) := vm_execute_block block (state_view s) concurrency_level maybe_block_gas_limit
                     (outside s) in
    outputs ← r; Some (outputs, set_outside o s).

Definition sim_accounts (s : Similator) : list AccountCurrent := accounts (account_universe s).
Definition sim_num_accounts (s : Similator) : nat := num_accounts (account_universe s).

Definition account_mut (index : nat) : M Similator AccountCurrent :=
  fun s => a ← account_at (account_universe s) index; Some (a, s).

(** [account_mut(index).increase_account_sequence_number()]. *)
Definition increase_at (index : nat) : M Similator unit :=
  fun s =>
    a ← account_at (account_universe s) index;
    a' ← increase_account_sequence_number a;
    Some (tt, set_universe (set_accounts (<[index := a']> (sim_accounts s)) (account_universe s)) s).

(** [accounts_mut().split_at_mut(mid)]: the index of [head[i]] and [tail[i]]. *)
Definition split_at_mut (mid : nat) : M Similator unit :=
  let% n := gets sim_num_accounts in guard_ (mid <=? n)%nat.
Definition head_at (mid i : nat) : M Similator nat :=
  let% _ := guard_ (i <? mid)%nat in ret i.
Definition tail_at (mid i : nat) : M Similator nat :=
  let% n := gets sim_num_accounts in
  let% _ := guard_ (i <? n - mid)%nat in ret (mid + i)%nat.

(** The end of each round: a transaction with the sender's sequence number is
    built, the number is increased and the transaction is pushed. *)
Definition submit (index : nat) (build : AccountCurrent -> SignedTransaction)
    (txns : list SignedTransaction) : M Similator (list SignedTransaction) :=
  let% sender := account_mut index in
  let txn := build sender in
  let% _ := increase_at index in
  ret (txns ++ [txn]).

(** [for i in 0..n]. *)
Definition for_ {A} (n : nat) (a : A) (body : A -> nat -> M Similator A) : M Similator A :=
  foldM body a (seq 0 n).

(** ** Construction *)

Definition INITIAL_BALANCE : Z := 500000 * 1000000 * 5.

Definition with_account_nums (num_accounts : nat) (o : Outside) : option Similator :=
  let balance := INITIAL_BALANCE in
  upper ← add 64 balance 1;
  let '(g, o) := generate_universe num_accounts balance upper Unlimited o in
  universe_gen ← g;
  let '(universe, executor) :=
    setup_gas_cost_stability sim_add_account_data universe_gen sim_from_head_genesis in
  Some (mkSimilator universe (get_state_view executor) o).

(** ** ERC20 transfers *)

Definition verified_block (txns : list SignedTransaction) : list VerifiedTransaction :=
  into_signature_verified_block (map UserTransaction txns).

(** One edge of the transaction graph: the locals are the map of sequence
    numbers and the transactions. *)
Definition erc20_step (u : AccountUniverse)
    (acc : gmap nat Z * list SignedTransaction) (tuple : nat * nat)
    : option (gmap nat Z * list SignedTransaction) :=
  let '(seq_map, signed_transactions) := acc in
  sender ← account_at u tuple.1;
  receiver ← account_at u tuple.2;
  seq_map ← match seq_map !! tuple.1 with
            | Some n => n' ← add 64 n 1; Some (<[tuple.1 := n']> seq_map)
            | None => Some (<[tuple.1 := cast 64 (acc_sequence_number sender)]> seq_map)
            end;
  n ← seq_map !! tuple.1;
  let txn := peer_to_peer_txn (account sender) (account receiver) (cast 64 n) 1 100 in
  Some (seq_map, signed_transactions ++ [txn]).

Fixpoint erc20_loop (u : AccountUniverse) (acc : gmap nat Z * list SignedTransaction)
    (graph : list (nat * nat)) : option (gmap nat Z * list SignedTransaction) :=
  match graph with
  | [] => Some acc
  | tuple :: graph => acc ← erc20_step u acc tuple; erc20_loop u acc graph
  end.

Definition gen_transaction_for_erc20 (transaction_graph : list (nat * nat))
    : M Similator (list VerifiedTransaction) :=
  fun s =>
    '(_, signed_transactions) ← erc20_loop (account_universe s) (∅, []) transaction_graph;
    Some (verified_block signed_transactions, s).

(** ** Execution *)

Definition is_success (o : TransactionOutput) : bool :=
  match status o with Keep ExecSuccess => true | _ => false end.

(** [output.iter().for_each(..)] that asserts success and applies the writes. *)
Definition apply_output (o : TransactionOutput) : M Similator unit :=
  let% _ := guard_ (is_success o) in
  modify (fun s => set_state_view (add_write_set (write_set o) (state_view s)) s).

Definition execute_and_apply_transactions (signed_transactions : list SignedTransaction)
    : M Similator unit :=
  let block := verified_block signed_transactions in
  let% output := execute_block block num_cpus None in
  foldM (fun _ o => apply_output o) tt output.

(** The measurement shared by the two benchmarks. *)
Definition measure (transactions : list VerifiedTransaction) (concurrency_level : Z)
    (maybe_block_gas_limit : option Z) : M Similator (list TransactionOutput * Z) :=
  let block_size := Z.of_nat (length transactions) in
  let% timer := now in
  let% output := execute_block transactions concurrency_level maybe_block_gas_limit in
  let% t := now in
  let exec_time := Z.max 0 (t - timer) / 1000000 in
  let% _ := now in
  let% total := lift (mul 64 block_size 1000) in
  let% tps := lift (div total (cast 64 exec_time)) in
  ret (output, tps).

Definition execute_benchmark_sequential (transactions : list VerifiedTransaction)
    (maybe_block_gas_limit : option Z) : M Similator (list TransactionOutput * Z) :=
  measure transactions 1 maybe_block_gas_limit.

Definition execute_benchmark_parallel (transactions : list VerifiedTransaction)
    (concurrency_level_per_shard : Z) (maybe_block_gas_limit : option Z)
    : M Similator (list TransactionOutput * Z) :=
  measure transactions concurrency_level_per_shard maybe_block_gas_limit.

Definition execute_blockstm_benchmark (transactions : list VerifiedTransaction)
    (run_par run_seq : bool) (concurrency_level_per_shard : Z) (maybe_block_gas_limit : option Z)
    : M Similator (Z * Z) :=
  let% (output, par_tps) :=
    if run_par then
      execute_benchmark_parallel transactions concurrency_level_per_shard maybe_block_gas_limit
    else ret ([], 0) in
  let% _ := guard_ (forallb is_success output) in
  let% (output, seq_tps) :=
    if run_seq then execute_benchmark_sequential transactions maybe_block_gas_limit
    else ret ([], 0) in
  let% _ := guard_ (forallb is_success output) in
  ret (par_tps, seq_tps).

(** The end of every run: the block is measured in parallel and sequentially. *)
Definition benchmark (txns : list SignedTransaction) : M Similator (Z * Z) :=
  execute_blockstm_benchmark (verified_block txns) true true num_cpus None.

(** ** Airdrop *)

Definition airdrop_initialize_all : M Similator (list SignedTransaction) :=
  let% n := gets sim_num_accounts in
  for_ n [] (fun txns i =>
    submit i (fun sender => airdrop_initialize_txn (account sender) 1000000000
                              (acc_sequence_number sender) 100) txns).

Definition airdrop_receivers (acc_nums : nat) : M Similator (list Address) :=
  for_ 5 [] (fun receivers _ =>
    let% random_number := gen_range 0 (Z.of_nat acc_nums) in
    let% receiver := account_mut (Z.to_nat random_number) in
    ret (receivers ++ [address (account receiver)])).

Definition airdrop_transfers (transaction_nums : nat) : M Similator (list SignedTransaction) :=
  let% acc_nums := gets sim_num_accounts in
  for_ transaction_nums [] (fun txns _ =>
    let% random_number := gen_range 0 (Z.of_nat acc_nums) in
    let% receivers := airdrop_receivers acc_nums in
    submit (Z.to_nat random_number)
      (fun sender => airdrop_transfer_txn (account sender) receivers
                       (acc_sequence_number sender) 100) txns).

Definition run_airdrop (transaction_nums : nat) : M Similator (Z * Z) :=
  let% initialized_transactions := airdrop_initialize_all in
  let% _ := execute_and_apply_transactions initialized_transactions in
  let% transfer_transactions := airdrop_transfers transaction_nums in
  benchmark transfer_transactions.

(** ** Ballot *)

(** The bytes of the three proposals. *)
Definition proposals : list (list Z) := [[97; 97]; [98; 98]; [99; 99]].

Definition ballot_initialize : M Similator (list SignedTransaction) :=
  let% _ := split_at_mut 1 in
  let% forum := head_at 1 0 in
  submit forum (fun a => ballot_initialize_txn (account a) proposals (acc_sequence_number a) 100) [].

Definition ballot_votes (transaction_num acc_nums : nat) : M Similator (list SignedTransaction) :=
  let% _ := split_at_mut 1 in
  for_ transaction_num [] (fun txns _ =>
    let% proposal_index := gen_range 0 3 in
    let% upper := lift (sub 64 (Z.of_nat acc_nums) 1) in
    let% sender_index := gen_range 0 upper in
    let% sender := tail_at 1 (Z.to_nat sender_index) in
    let% forum_idx := head_at 1 0 in
    let% forum := account_mut forum_idx in
    submit sender
      (fun a => ballot_vote_txn (account a) (address (account forum)) proposal_index
                  (acc_sequence_number a) 100) txns).

Definition run_ballot (transaction_num : nat) : M Similator (Z * Z) :=
  let% acc_nums := gets sim_num_accounts in
  let% initialized_transactions := ballot_initialize in
  let% _ := execute_and_apply_transactions initialized_transactions in
  let% vote_transactions := ballot_votes transaction_num acc_nums in
  benchmark vote_transactions.

(** ** Ballot with shards *)

Definition ballot_sharding_initialize (shard_num : nat) : M Similator (list SignedTransaction) :=
  let% _ := split_at_mut shard_num in
  for_ shard_num [] (fun txns i =>
    let% forum := head_at shard_num i in
    submit forum
      (fun a => ballot_initialize_txn (account a) proposals (acc_sequence_number a) 100) txns).

(** [sender.account().address().to_vec()[31] % shard_num as u8]. *)
Definition forums_index (a : Address) (shard_num : nat) : option Z :=
  byte ← address_bytes a !! 31%nat;
  rem byte (cast 8 (Z.of_nat shard_num)).

Definition ballot_sharding_votes (transaction_num acc_nums shard_num : nat)
    : M Similator (list SignedTransaction) :=
  let% _ := split_at_mut shard_num in
  for_ transaction_num [] (fun txns _ =>
    let% proposal_index := gen_range 0 3 in
    let% upper := lift (sub 64 (Z.of_nat acc_nums) (Z.of_nat shard_num)) in
    let% sender_index := gen_range 0 upper in
    let% sender := tail_at shard_num (Z.to_nat sender_index) in
    let% sender_account := account_mut sender in
    let% index := lift (forums_index (address (account sender_account)) shard_num) in
    let% forum_idx := head_at shard_num (Z.to_nat index) in
    let% forum := account_mut forum_idx in
    submit sender
      (fun a => ballot_vote_txn (account a) (address (account forum)) proposal_index
                  (acc_sequence_number a) 100) txns).

Definition run_ballot_sharding (transaction_num shard_num : nat) : M Similator (Z * Z) :=
  let% acc_nums := gets sim_num_accounts in
  let% initialized_transactions := ballot_sharding_initialize shard_num in
  let% _ := execute_and_apply_transactions initialized_transactions in
  let% vote_transactions := ballot_sharding_votes transaction_num acc_nums shard_num in
  benchmark vote_transactions.

(** ** Million pixel *)

Definition mp_initialize : M Similator (list SignedTransaction) :=
  let% _ := split_at_mut 1 in
  let% store := head_at 1 0 in
  submit store (fun a => million_pixel_initialize_txn (account a) (acc_sequence_number a) 100) [].

Definition mp_occupies (transaction_num : nat) : M Similator (list SignedTransaction) :=
  let% _ := split_at_mut 1 in
  let% n := gets sim_num_accounts in
  let acc_nums := (n - 1)%nat in
  for_ transaction_num [] (fun txns _ =>
    let% x := gen_range 0 100 in
    let% y := gen_range 0 100 in
    let% sender_index := gen_range 0 (Z.of_nat acc_nums) in
    let% sender := tail_at 1 (Z.to_nat sender_index) in
    let% store_idx := head_at 1 0 in
    let% store := account_mut store_idx in
    submit sender
      (fun a => million_pixel_occupy_txn (account a) (address (account store)) x y
                  (acc_sequence_number a) 100) txns).

Definition run_mp (transaction_num : nat) : M Similator (Z * Z) :=
  let% initialized_transactions := mp_initialize in
  let% _ := execute_and_apply_transactions initialized_transactions in
  let% occupy_transactions := mp_occupies transaction_num in
  benchmark occupy_transactions.

(** ** Kitty *)

(** One of the two minting loops. *)
Definition kitty_mints (acc_nums : nat) (gender : bool) (txns : list SignedTransaction)
    : M Similator (list SignedTransaction) :=
  for_ acc_nums txns (fun txns i =>
    let% sender := tail_at 1 i in
    let% store_idx := head_at 1 0 in
    let% store := account_mut store_idx in
    let% genes := gen_range 0 (2 ^ 32 - 1) in
    submit sender
      (fun a => kitty_mint_txn (account a) (address (account store)) genes gender
                  (acc_sequence_number a) 100) txns).

Definition kitty_initialize : M Similator (list SignedTransaction) :=
  let% _ := split_at_mut 1 in
  let% n := gets sim_num_accounts in
  let acc_nums := (n - 1)%nat in
  let% store := head_at 1 0 in
  let% txns :=
    submit store (fun a => kitty_initialize_txn (account a) (acc_sequence_number a) 100) [] in
  let% txns := kitty_mints acc_nums true txns in
  kitty_mints acc_nums false txns.

Definition kitty_breeds (transaction_num : nat) : M Similator (list SignedTransaction) :=
  let% _ := split_at_mut 1 in
  let% n := gets sim_num_accounts in
  let acc_nums := Z.of_nat (n - 1) in
  for_ transaction_num [] (fun txns _ =>
    let% m := gen_range 0 acc_nums in
    let% twice := lift (mul 64 acc_nums 2) in
    let% s := gen_range acc_nums twice in
    let% sender_index := gen_range 0 acc_nums in
    let% sender := tail_at 1 (Z.to_nat sender_index) in
    let% store_idx := head_at 1 0 in
    let% store := account_mut store_idx in
    submit sender
      (fun a => kitty_breed_txn (account a) (address (account store)) (cast 64 m) (cast 64 s) false
                  (acc_sequence_number a) 100) txns).

Definition run_kitty (transaction_num : nat) : M Similator (Z * Z) :=
  let% initialized_transactions := kitty_initialize in
  let% _ := execute_and_apply_transactions initialized_transactions in
  let% breed_transactions := kitty_breeds transaction_num in
  benchmark breed_transactions.

(** ** Empty *)

Definition empty_calls (transaction_nums : nat) : M Similator (list SignedTransaction) :=
  let% acc_nums := gets sim_num_accounts in
  for_ transaction_nums [] (fun txns _ =>
    let% random_number := gen_range 0 (Z.of_nat acc_nums) in
    submit (Z.to_nat random_number)
      (fun sender => empty_empty_txn (account sender) (acc_sequence_number sender) 100) txns).

Definition run_empty (transaction_nums : nat) : M Similator (Z * Z) :=
  let% empty_transactions := empty_calls transaction_nums in
  benchmark empty_transactions.

End definitions.
