(* ===== verification/SimulatorSpec.v ===== *)
(** Theorems about the simulator: the sequence numbers of the generated
    transactions, the blocks that are applied and measured, and the shards of
    the ballot workload. *)
From stdpp Require Import base list option numbers strings gmap.
From S2P Require Import Prelude Prog Machine CommonTransactions AccountUniverse Simulator.

Open Scope Z_scope.

(** Documented behaviour of [rand] and of addresses. *)
Class SimLaws (SENV : SimEnv) : Prop := {
  sim_transaction_laws :: TransactionLaws env_transactions;
  gen_range_law low high o :
    low < high -> low <= (gen_range_outside low high o).1 < high;
  address_bytes_length a : length (address_bytes a) = 32%nat;
  address_bytes_range a b : b ∈ address_bytes a -> 0 <= b < 256;
  into_verified_length l : length (into_signature_verified_block l) = length l;
}.

(** A workload of the benchmark, as the commands of [main.rs] name them. *)
Inductive Workload : Type :=
| Airdrop
| Ballot
| BallotSharding (num_shardings : nat)
| MillionPixel
| Kitty
| Empty.

(** The calls that set a workload up, and the calls that are measured, with [N]
    accounts. *)
Definition setup_call {SENV : SimEnv} (w : Workload) (t : SignedTransaction) : Prop :=
  match w with
  | Airdrop => txn_payload t = xtl_airdrop_initialize 1000000000
  | Ballot | BallotSharding _ => txn_payload t = xtl_ballot_initialize proposals
  | MillionPixel => txn_payload t = xtl_million_pixel_initialize
  | Kitty => txn_payload t = xtl_kitty_breeding_initialize \/
      exists store genes gender, 0 <= genes < 2 ^ 32 - 1 /\
        txn_payload t = xtl_kitty_breeding_mint store genes gender
  | Empty => False
  end.

Definition measured_call {SENV : SimEnv} (w : Workload) (N : nat) (t : SignedTransaction) : Prop :=
  match w with
  | Airdrop => exists receivers, length receivers = 5%nat /\
      txn_payload t = xtl_airdrop_transfer_n receivers
  | Ballot | BallotSharding _ => exists forum proposal, 0 <= proposal < 3 /\
      txn_payload t = xtl_ballot_vote forum proposal
  | MillionPixel => exists store x y, 0 <= x < 100 /\ 0 <= y < 100 /\
      txn_payload t = xtl_million_pixel_occupy store x y
  | Kitty => exists store m s, 0 <= m < Z.of_nat (N - 1) /\
      Z.of_nat (N - 1) <= s < Z.of_nat (N - 1) * 2 /\
      txn_payload t = xtl_kitty_breeding_breed store m s false
  | Empty => txn_payload t = xtl_empty_empty
  end.

Section generators.
Context {SENV : SimEnv} {SL : SimLaws SENV}.

(** ** Sequence numbers *)

(** The accounts after the account [i] has sent one more transaction. *)
Definition bump (i : nat) (l : list AccountCurrent) : list AccountCurrent :=
  alter (fun a => set_sequence_number (acc_sequence_number a + 1) a) i l.
Definition bump_all (idxs : list nat) (l : list AccountCurrent) : list AccountCurrent :=
  foldl (fun l i => bump i l) l idxs.

(** [t] is the next transaction of the account [a], at the unit price of 100. *)
Record sent_by (a : AccountCurrent) (t : SignedTransaction) : Prop := {
  sb_sender : txn_sender t = address (account a);
  sb_seq : txn_sequence_number t = acc_sequence_number a;
  sb_price : txn_gas_unit_price t = 100;
}.

(** The transactions [txns] are sent by the accounts [idxs], each with the
    sequence number its sender has at that point. *)
Fixpoint sent (l : list AccountCurrent) (idxs : list nat) (txns : list SignedTransaction) : Prop :=
  match idxs, txns with
  | [], [] => True
  | i :: idxs, t :: txns =>
      (exists a, l !! i = Some a /\ sent_by a t) /\ sent (bump i l) idxs txns
  | _, _ => False
  end.

Lemma length_bump i l : length (bump i l) = length l.
Proof. apply length_alter. Qed.

Lemma length_bump_all idxs l : length (bump_all idxs l) = length l.
Proof.
  revert l. induction idxs as [|i idxs IH]; intros l; [done|].
  exact (eq_trans (IH _) (length_bump i l)).
Qed.

Lemma bump_insert i l a :
  l !! i = Some a -> <[i := set_sequence_number (acc_sequence_number a + 1) a]> l = bump i l.
Proof.
  intros Ha. rewrite list_insert_alter. apply list_alter_ext; [|done]. intros b Hb. congruence.
Qed.

Lemma bump_all_app i1 i2 l : bump_all (i1 ++ i2) l = bump_all i2 (bump_all i1 l).
Proof. apply foldl_app. Qed.

Lemma sent_app l i1 i2 t1 t2 :
  sent l i1 t1 -> sent (bump_all i1 l) i2 t2 -> sent l (i1 ++ i2) (t1 ++ t2).
Proof.
  revert l t1. induction i1 as [|i i1 IH]; intros l [|t t1]; cbn; try done.
  intros [H1 H2] H3. split; [done|]. by apply IH.
Qed.

Lemma sent_length l idxs txns : sent l idxs txns -> length idxs = length txns.
Proof.
  revert l txns. induction idxs as [|i idxs IH]; intros l [|t txns]; cbn; try done.
  intros [_ H]. f_equal. by eapply IH.
Qed.

(** ** What a generator does *)

(** From [s] to [s'] the accounts [idxs] have sent the transactions [txns]; the
    state view and the rest of the universe are the same. *)
Record emitted (idxs : list nat) (txns : list SignedTransaction) (s s' : Similator) : Prop := {
  em_sent : sent (sim_accounts s) idxs txns;
  em_accounts : account_universe s' =
    set_accounts (bump_all idxs (sim_accounts s)) (account_universe s);
  em_view : state_view s' = state_view s;
}.

Lemma emitted_outside o s : emitted [] [] s (set_outside o s).
Proof. split; [done| |done]. cbn. unfold sim_accounts. by destruct (account_universe s). Qed.

Lemma emitted_refl s : emitted [] [] s s.
Proof. split; [done| |done]. cbn. unfold sim_accounts. by destruct (account_universe s). Qed.

Lemma em_sim_accounts idxs txns s s' :
  emitted idxs txns s s' -> sim_accounts s' = bump_all idxs (sim_accounts s).
Proof. intros [_ H _]. unfold sim_accounts at 1. by rewrite H. Qed.

Lemma emitted_trans i1 t1 i2 t2 s s1 s2 :
  emitted i1 t1 s s1 -> emitted i2 t2 s1 s2 -> emitted (i1 ++ i2) (t1 ++ t2) s s2.
Proof.
  intros H1 H2. pose proof (em_sim_accounts _ _ _ _ H1) as Ha.
  destruct H1 as [S1 A1 V1], H2 as [S2 A2 V2]. rewrite Ha in S2, A2. split.
  - by apply sent_app.
  - rewrite A2, A1, bump_all_app. done.
  - congruence.
Qed.

Lemma emitted_num idxs txns s s' :
  emitted idxs txns s s' -> sim_num_accounts s' = sim_num_accounts s.
Proof.
  intros H%em_sim_accounts. unfold sim_num_accounts, num_accounts.
  fold (sim_accounts s') (sim_accounts s). by rewrite H, length_bump_all.
Qed.

(** Every account can send [n] more transactions. *)
Definition room (n : nat) (s : Similator) : Prop :=
  Forall (fun a => 0 <= acc_sequence_number a /\ acc_sequence_number a + Z.of_nat n < 2 ^ 64)
    (sim_accounts s).

Lemma room_bump n i l :
  Forall (fun a => 0 <= acc_sequence_number a /\
    acc_sequence_number a + Z.of_nat (S n) < 2 ^ 64) l ->
  Forall (fun a => 0 <= acc_sequence_number a /\
    acc_sequence_number a + Z.of_nat n < 2 ^ 64) (bump i l).
Proof.
  intros H. apply Forall_lookup. intros j a Hj. unfold bump in Hj.
  rewrite list_lookup_alter in Hj. case_decide as Hne.
  - apply fmap_Some in Hj as (b & Hb & ->).
    apply (Forall_lookup_1 _ _ _ _ H) in Hb. cbn. lia.
  - apply (Forall_lookup_1 _ _ _ _ H) in Hj. lia.
Qed.

Lemma room_emitted n idxs txns s s' :
  emitted idxs txns s s' -> room (length txns + n) s -> room n s'.
Proof.
  intros He. unfold room. rewrite (em_sim_accounts _ _ _ _ He).
  destruct He as [Hs _ _]. rewrite <-(sent_length _ _ _ Hs). clear Hs.
  generalize (sim_accounts s) as l. induction idxs as [|i idxs IH]; intros l H; [done|].
  cbn. apply IH. by apply room_bump.
Qed.

(** [p] adds [n] transactions with the property [P] that its senders can send,
    whatever the state, as long as there are [N] accounts with room for [n]
    transactions. *)
Definition generates (P : SignedTransaction -> Prop) (N n : nat)
    (p : list SignedTransaction -> M Similator (list SignedTransaction)) : Prop :=
  forall s txns, sim_num_accounts s = N -> room n s ->
  exists idxs ts s', p txns s = Some (txns ++ ts, s') /\ length ts = n /\ Forall P ts /\
    emitted idxs ts s s'.

(** *** Rules *)
Section rules.
Context (P : SignedTransaction -> Prop).

(** A step that does not touch the accounts. *)
Lemma generates_step {A} N n (q : M Similator A) (I : A -> Prop) k :
  (forall s, sim_num_accounts s = N -> exists a o, q s = Some (a, set_outside o s) /\ I a) ->
  (forall a, I a -> generates P N n (k a)) ->
  generates P N n (fun txns => bindM q (fun a => k a txns)).
Proof.
  intros Hq Hk s txns HN Hr. destruct (Hq s HN) as (a & o & Hqs & Ha).
  unfold bindM. rewrite Hqs.
  destruct (Hk a Ha (set_outside o s) txns HN Hr) as (idxs & ts & s' & H1 & H2 & HP & H3).
  exists idxs, ts, s'. split_and!; [done|done|done|].
  exact (emitted_trans [] [] _ _ _ _ _ (emitted_outside o s) H3).
Qed.

Lemma set_outside_same s : set_outside (outside s) s = s.
Proof. by destruct s. Qed.

Lemma gen_range_total low high s :
  low < high -> exists r o, gen_range low high s = Some (r, set_outside o s) /\ low <= r < high.
Proof using SL.
  intros Hlt. unfold gen_range. apply Z.ltb_lt in Hlt as Hlt'. rewrite Hlt'.
  pose proof (gen_range_law low high (outside s) Hlt) as Hr.
  destruct (gen_range_outside low high (outside s)) as [r o]. by exists r, o.
Qed.

Lemma account_mut_total i s :
  (i < sim_num_accounts s)%nat -> exists a, account_mut i s = Some (a, s).
Proof.
  intros Hi. destruct (lookup_lt_is_Some_2 (accounts (account_universe s)) i Hi) as [a Ha].
  exists a. unfold account_mut, account_at. by rewrite Ha.
Qed.

Lemma generates_range N n low high k :
  low < high -> (forall r, low <= r < high -> generates P N n (k r)) ->
  generates P N n (fun txns => bindM (gen_range low high) (fun r => k r txns)).
Proof using SL.
  intros Hlt. apply generates_step. intros s _. by apply gen_range_total.
Qed.

Lemma generates_lift {A} N n (o : option A) a k :
  o = Some a -> generates P N n (k a) ->
  generates P N n (fun txns => bindM (lift o) (fun a => k a txns)).
Proof.
  intros -> Hk. apply (generates_step _ _ _ (fun b => b = a)); [|by intros ? ->].
  intros s _. exists a, (outside s). by rewrite set_outside_same.
Qed.

Lemma generates_head N n mid i k :
  (i < mid)%nat -> generates P N n (k i) ->
  generates P N n (fun txns => bindM (head_at mid i) (fun j => k j txns)).
Proof.
  intros Hi Hk. apply (generates_step _ _ _ (fun j => j = i)); [|by intros ? ->].
  intros s _. unfold head_at. apply Nat.ltb_lt in Hi. rewrite Hi.
  exists i, (outside s). by rewrite set_outside_same.
Qed.

Lemma generates_tail N n mid i k :
  (i < N - mid)%nat -> generates P N n (k (mid + i)%nat) ->
  generates P N n (fun txns => bindM (tail_at mid i) (fun j => k j txns)).
Proof.
  intros Hi Hk. apply (generates_step _ _ _ (fun j => j = (mid + i)%nat)); [|by intros ? ->].
  intros s HN. unfold tail_at, gets, bindM. rewrite HN. apply Nat.ltb_lt in Hi. rewrite Hi.
  exists (mid + i)%nat, (outside s). by rewrite set_outside_same.
Qed.

Lemma generates_split N n mid k :
  (mid <= N)%nat -> generates P N n k ->
  generates P N n (fun txns => bindM (split_at_mut mid) (fun _ => k txns)).
Proof.
  intros Hi Hk. apply (generates_step _ _ _ (fun _ => True)); [|done].
  intros s HN. unfold split_at_mut, gets, bindM. rewrite HN. apply Nat.leb_le in Hi. rewrite Hi.
  exists tt, (outside s). by rewrite set_outside_same.
Qed.

Lemma generates_num N n k :
  generates P N n (k N) ->
  generates P N n (fun txns => bindM (gets sim_num_accounts) (fun m => k m txns)).
Proof.
  intros Hk. apply (generates_step _ _ _ (fun m => m = N)); [|by intros ? ->].
  intros s HN. exists N, (outside s). unfold gets. by rewrite HN, set_outside_same.
Qed.

Lemma generates_account N n i k :
  (i < N)%nat -> (forall a, generates P N n (k a)) ->
  generates P N n (fun txns => bindM (account_mut i) (fun a => k a txns)).
Proof.
  intros Hi Hk. apply (generates_step _ _ _ (fun _ => True)); [|done].
  intros s HN. destruct (account_mut_total i s) as [a Ha]; [lia|].
  exists a, (outside s). by rewrite set_outside_same.
Qed.

Lemma generates_submit N i build :
  (i < N)%nat -> (forall a, sent_by a (build a) /\ P (build a)) ->
  generates P N 1 (submit i build).
Proof.
  intros Hi Hb s txns HN Hr. unfold sim_num_accounts, num_accounts in HN.
  destruct (lookup_lt_is_Some_2 (accounts (account_universe s)) i) as [a Ha]; [lia|].
  pose proof (Forall_lookup_1 _ _ _ _ Hr Ha) as Hroom. cbn in Hroom.
  unfold submit, increase_at, account_mut, account_at, bindM. rewrite Ha. cbn [mbind option_bind].
  rewrite Ha. cbn [mbind option_bind]. unfold increase_account_sequence_number, add.
  rewrite wrap_in by (split; lia). cbn [mbind option_bind ret].
  destruct (Hb a) as [Hsb HPb].
  eexists [i], [build a], _. split; [done|]. split; [done|]. split; [by repeat constructor|].
  split; [|cbn; f_equal|done].
  - cbn. split; [|done]. by exists a.
  - by apply bump_insert.
Qed.

Lemma generates_seq N n1 n2 p q :
  generates P N n1 p -> generates P N n2 q ->
  generates P N (n1 + n2) (fun txns => bindM (p txns) q).
Proof.
  intros Hp Hq s txns HN Hr.
  destruct (Hp s txns HN) as (i1 & t1 & s1 & H1 & L1 & P1 & E1).
  { eapply Forall_impl; [exact Hr|]. cbn. lia. }
  destruct (Hq s1 (txns ++ t1)) as (i2 & t2 & s2 & H2 & L2 & P2 & E2).
  { by rewrite (emitted_num _ _ _ _ E1). }
  { eapply room_emitted; [exact E1|]. by rewrite L1. }
  exists (i1 ++ i2), (t1 ++ t2), s2. unfold bindM. rewrite H1, H2, app_assoc.
  split_and!; [done|rewrite length_app; lia|by apply Forall_app|]. by eapply emitted_trans.
Qed.

Lemma generates_nil N : generates P N 0 (fun txns => ret txns).
Proof.
  intros s txns _ _. exists [], [], s. split_and!; [by rewrite app_nil_r|done|done|apply emitted_refl].
Qed.

Lemma generates_for N k n body :
  (forall i, (i < n)%nat -> generates P N k (fun txns => body txns i)) ->
  generates P N (n * k) (fun txns => for_ n txns body).
Proof.
  intros Hb. unfold for_.
  assert (H : forall m, (m <= n)%nat ->
    generates P N (m * k) (fun txns => foldM body txns (seq (n - m) m))).
  { induction m as [|m IH]; intros Hm; [apply generates_nil|]. cbn [Nat.mul seq foldM].
    apply (generates_seq N k (m * k) (fun txns => body txns (n - S m)%nat)
      (fun txns => foldM body txns (seq (S (n - S m)) m))); [apply Hb; lia|].
    replace (S (n - S m)) with (n - m)%nat by lia. apply IH. lia. }
  specialize (H n ltac:(lia)). by rewrite Nat.sub_diag in H.
Qed.

(** The number of the loop's rounds, when each adds one transaction. *)
Lemma generates_for1 N n body :
  (forall i, (i < n)%nat -> generates P N 1 (fun txns => body txns i)) ->
  generates P N n (fun txns => for_ n txns body).
Proof. intros H%generates_for. by rewrite Nat.mul_1_r in H. Qed.

(** A generator that starts with no transactions. *)
Definition starts (N n : nat) (p : M Similator (list SignedTransaction)) : Prop :=
  forall s, sim_num_accounts s = N -> room n s ->
  exists idxs ts s', p s = Some (ts, s') /\ length ts = n /\ Forall P ts /\ emitted idxs ts s s'.

Lemma starts_of N n p : generates P N n p -> starts N n (p []).
Proof. intros H s HN Hr. exact (H s [] HN Hr). Qed.
End rules.

#[local] Opaque submit.

(** The next rule for the program of the goal. *)
Ltac generate :=
  repeat first
    [ apply generates_range; [lia|intros]
    | apply generates_head; [lia|]
    | apply generates_tail; [lia|]
    | apply generates_account; [lia|intros]
    | apply generates_split; [lia|]
    | apply generates_num
    | apply generates_for1; intros ].

(** The last one: the transaction that is built is the sender's next one. *)
Ltac submit :=
  apply generates_submit; [lia|intros; split; [split|];
    cbn [setup_call measured_call]; cbv beta delta [airdrop_initialize_txn
    airdrop_transfer_txn ballot_initialize_txn ballot_vote_txn million_pixel_initialize_txn
    million_pixel_occupy_txn kitty_initialize_txn kitty_mint_txn kitty_breed_txn
    empty_empty_txn]; autorewrite with txn; eauto 12].

(** ** The generators *)

Lemma airdrop_initialize_generates N : starts (setup_call Airdrop) N N airdrop_initialize_all.
Proof using SL.
  apply (starts_of _ N N (fun txns => let% n := gets sim_num_accounts in
    for_ n txns (fun txns i => submit i _ txns))).
  generate. submit.
Qed.

Lemma receivers_total N s :
  (0 < N)%nat -> sim_num_accounts s = N ->
  exists l o, airdrop_receivers N s = Some (l, set_outside o s) /\ length l = 5%nat.
Proof using SL.
  intros HN. unfold airdrop_receivers, for_. revert s.
  assert (H : forall (l : list nat) acc s, sim_num_accounts s = N -> exists r o,
    foldM (fun receivers _ =>
      let% random_number := gen_range 0 (Z.of_nat N) in
      let% receiver := account_mut (Z.to_nat random_number) in
      ret (receivers ++ [address (account receiver)])) acc l s = Some (r, set_outside o s) /\
    length r = (length acc + length l)%nat).
  { induction l as [|x l IH]; intros acc s Hs.
    { exists acc, (outside s). cbn. rewrite set_outside_same. split; [done|lia]. }
    cbn [foldM]. unfold bindM at 1 2 3.
    destruct (gen_range_total 0 (Z.of_nat N) s ltac:(lia)) as (r & o & -> & Hr).
    destruct (account_mut_total (Z.to_nat r) (set_outside o s)) as (a & ->).
    { change (sim_num_accounts (set_outside o s)) with (sim_num_accounts s). lia. }
    cbn [ret].
    destruct (IH (acc ++ [address (account a)]) (set_outside o s)) as (l' & o' & H1 & H2); [done|].
    exists l', o'. split; [exact H1|]. rewrite H2, length_app. cbn. lia. }
  intros s Hs. destruct (H (seq 0 5) [] s Hs) as (l & o & H1 & H2). eauto.
Qed.

Lemma airdrop_transfers_generates N n : (0 < N)%nat -> starts (measured_call Airdrop N) N n (airdrop_transfers n).
Proof using SL.
  intros HN. apply (starts_of _ N n (fun txns => let% acc_nums := gets sim_num_accounts in
    for_ n txns (fun txns _ =>
      let% random_number := gen_range 0 (Z.of_nat acc_nums) in
      let% receivers := airdrop_receivers acc_nums in
      submit (Z.to_nat random_number) _ txns))).
  generate. apply (generates_step _ _ _ _ (fun l => length l = 5%nat)); [|intros; submit].
  intros s Hs. destruct (receivers_total N s) as (l & o & H1 & H2); eauto.
Qed.

Lemma ballot_initialize_generates N : (0 < N)%nat -> starts (setup_call Ballot) N 1 ballot_initialize.
Proof using SL.
  intros HN. apply (starts_of _ N 1 (fun txns => let% _ := split_at_mut 1 in
    let% forum := head_at 1 0 in submit forum _ txns)). generate. submit.
Qed.

Lemma ballot_votes_generates N n :
  (1 < N)%nat -> Z.of_nat N < 2 ^ 62 -> starts (measured_call Ballot N) N n (ballot_votes n N).
Proof using SL.
  intros HN Hmax. apply (starts_of _ N n (fun txns => let% _ := split_at_mut 1 in
    for_ n txns (fun txns _ =>
      let% proposal_index := gen_range 0 3 in
      let% upper := lift (sub 64 (Z.of_nat N) 1) in
      let% sender_index := gen_range 0 upper in
      let% sender := tail_at 1 (Z.to_nat sender_index) in
      let% forum_idx := head_at 1 0 in
      let% forum := account_mut forum_idx in submit sender _ txns))).
  generate. eapply generates_lift; [apply wrap_in; split; lia|]. generate. submit.
Qed.

(** The index of a forum: below the number of shards as a byte. *)
Lemma forums_index_spec a shard_num :
  forums_index a shard_num = None <-> Z.of_nat shard_num mod 256 = 0.
Proof using SL.
  unfold forums_index. destruct (lookup_lt_is_Some_2 (address_bytes a) 31) as [b Hb].
  { rewrite address_bytes_length. lia. }
  rewrite Hb. cbn [mbind option_bind]. unfold rem, cast. change (2 ^ 8) with 256.
  by destruct (Z.eqb_spec (Z.of_nat shard_num mod 256) 0).
Qed.

Lemma forums_index_bound a shard_num i :
  forums_index a shard_num = Some i -> 0 <= i < Z.of_nat shard_num mod 256.
Proof using SL.
  unfold forums_index. intros (b & Hb & Hr)%bind_Some.
  apply list_elem_of_lookup_2, address_bytes_range in Hb.
  unfold rem, cast in Hr. change (2 ^ 8) with 256 in Hr.
  pose proof (Z.mod_pos_bound (Z.of_nat shard_num) 256 ltac:(lia)).
  destruct (Z.eqb_spec (Z.of_nat shard_num mod 256) 0); [done|]. injection Hr as <-.
  apply Z.mod_pos_bound. lia.
Qed.

Lemma ballot_sharding_initialize_generates N k :
  (k <= N)%nat -> starts (setup_call (BallotSharding k)) N k (ballot_sharding_initialize k).
Proof using SL.
  intros HN. apply (starts_of _ N k (fun txns => let% _ := split_at_mut k in
    for_ k txns (fun txns i => let% forum := head_at k i in submit forum _ txns))).
  generate. submit.
Qed.

Lemma ballot_sharding_votes_generates N n k :
  (k < N)%nat -> Z.of_nat N < 2 ^ 62 -> Z.of_nat k mod 256 <> 0 ->
  starts (measured_call (BallotSharding k) N) N n (ballot_sharding_votes n N k).
Proof using SL.
  intros HN Hmax Hk. apply (starts_of _ N n (fun txns => let% _ := split_at_mut k in
    for_ n txns (fun txns _ =>
      let% proposal_index := gen_range 0 3 in
      let% upper := lift (sub 64 (Z.of_nat N) (Z.of_nat k)) in
      let% sender_index := gen_range 0 upper in
      let% sender := tail_at k (Z.to_nat sender_index) in
      let% sender_account := account_mut sender in
      let% index := lift (forums_index (address (account sender_account)) k) in
      let% forum_idx := head_at k (Z.to_nat index) in
      let% forum := account_mut forum_idx in submit sender _ txns))).
  generate. eapply generates_lift; [apply wrap_in; split; lia|]. generate.
  match goal with |- context [forums_index ?x k] => destruct (forums_index x k) as [j|] eqn:Hj end.
  2: { by apply forums_index_spec in Hj. }
  apply forums_index_bound in Hj.
  pose proof (Z.mod_le (Z.of_nat k) 256 ltac:(lia) ltac:(lia)).
  eapply generates_lift; [done|]. generate. submit.
Qed.

Lemma mp_initialize_generates N : (0 < N)%nat -> starts (setup_call MillionPixel) N 1 mp_initialize.
Proof using SL.
  intros HN. apply (starts_of _ N 1 (fun txns => let% _ := split_at_mut 1 in
    let% store := head_at 1 0 in submit store _ txns)). generate. submit.
Qed.

Lemma mp_occupies_generates N n : (1 < N)%nat -> starts (measured_call MillionPixel N) N n (mp_occupies n).
Proof using SL.
  intros HN. apply (starts_of _ N n (fun txns => let% _ := split_at_mut 1 in
    let% m := gets sim_num_accounts in
    for_ n txns (fun txns _ =>
      let% x := gen_range 0 100 in
      let% y := gen_range 0 100 in
      let% sender_index := gen_range 0 (Z.of_nat (m - 1)) in
      let% sender := tail_at 1 (Z.to_nat sender_index) in
      let% store_idx := head_at 1 0 in
      let% store := account_mut store_idx in submit sender _ txns))).
  generate. submit.
Qed.

Lemma kitty_mints_generates N gender :
  (0 < N)%nat -> generates (setup_call Kitty) N (N - 1) (kitty_mints (N - 1) gender).
Proof using SL.
  intros HN. unfold kitty_mints. generate. submit.
Qed.

Lemma kitty_initialize_generates N :
  (0 < N)%nat -> starts (setup_call Kitty) N (1 + ((N - 1) + (N - 1))) kitty_initialize.
Proof using SL.
  intros HN. apply (starts_of _ N _ (fun txns => let% _ := split_at_mut 1 in
    let% n := gets sim_num_accounts in
    let% store := head_at 1 0 in
    let% txns := submit store (fun a => kitty_initialize_txn (account a)
      (acc_sequence_number a) 100) txns in
    let% txns := kitty_mints (n - 1) true txns in
    kitty_mints (n - 1) false txns)).
  generate. apply (generates_seq _ N 1 _ (submit _ _)); [submit|].
  apply (generates_seq _ N _ _ (kitty_mints (N - 1) true)); by apply kitty_mints_generates.
Qed.

Lemma kitty_breeds_generates N n :
  (1 < N)%nat -> Z.of_nat N < 2 ^ 62 -> starts (measured_call Kitty N) N n (kitty_breeds n).
Proof using SL.
  intros HN Hmax. apply (starts_of _ N n (fun txns => let% _ := split_at_mut 1 in
    let% m := gets sim_num_accounts in
    for_ n txns (fun txns _ =>
      let% x := gen_range 0 (Z.of_nat (m - 1)) in
      let% twice := lift (mul 64 (Z.of_nat (m - 1)) 2) in
      let% y := gen_range (Z.of_nat (m - 1)) twice in
      let% sender_index := gen_range 0 (Z.of_nat (m - 1)) in
      let% sender := tail_at 1 (Z.to_nat sender_index) in
      let% store_idx := head_at 1 0 in
      let% store := account_mut store_idx in submit sender _ txns))).
  generate. eapply generates_lift; [apply wrap_in; split; lia|]. generate. submit.
  rewrite !cast_in by (split; lia). eauto 12.
Qed.

Lemma empty_calls_generates N n : (0 < N)%nat -> starts (measured_call Empty N) N n (empty_calls n).
Proof using SL.
  intros HN. apply (starts_of _ N n (fun txns => let% acc_nums := gets sim_num_accounts in
    for_ n txns (fun txns _ => let% random_number := gen_range 0 (Z.of_nat acc_nums) in
      submit (Z.to_nat random_number) _ txns))).
  generate. submit.
Qed.

End generators.

(** ** Measurements *)
Section measurements.
Context {SENV : SimEnv}.

(** What one execution of a block answers, and how long it takes. *)
Definition answer (block : list VerifiedTransaction) (c : Z) (lim : option Z) (s : Similator)
    : option (list TransactionOutput) :=
  (vm_execute_block block (state_view s) c lim (now_outside (outside s)).2).1.

Definition measured_ms (block : list VerifiedTransaction) (c : Z) (lim : option Z)
    (s : Similator) : Z :=
  let '(t0, o0) := now_outside (outside s) in
  let o1 := (vm_execute_block block (state_view s) c lim o0).2 in
  Z.max 0 ((now_outside o1).1 - t0) / 1000000.

(** The time as the code counts it, and what is outside after the measurement. *)
Definition elapsed_ms (block : list VerifiedTransaction) (c : Z) (lim : option Z)
    (s : Similator) : Z :=
  cast 64 (measured_ms block c lim s).
Definition after_measure (block : list VerifiedTransaction) (c : Z) (lim : option Z)
    (s : Similator) : Outside :=
  let o1 := (vm_execute_block block (state_view s) c lim (now_outside (outside s)).2).2 in
  (now_outside (now_outside o1).2).2.

Lemma measure_exact block c lim s :
  Z.of_nat (length block) < 2 ^ 54 ->
  measure block c lim s =
    match answer block c lim s with
    | None => None
    | Some outs =>
        if elapsed_ms block c lim s =? 0 then None
        else Some ((outs, Z.of_nat (length block) * 1000 / elapsed_ms block c lim s),
                   set_outside (after_measure block c lim s) s)
    end.
Proof.
  intros Hlen. unfold elapsed_ms, after_measure, measured_ms, answer, measure, now, execute_block, bindM.
  destruct (now_outside (outside s)) as [t0 o0]. cbn [state_view set_outside outside snd].
  destruct (vm_execute_block block (state_view s) c lim o0) as [[outs|] o1]; cbn [fst snd]; [|done].
  cbn [mbind option_bind set_outside outside].
  destruct (now_outside o1) as [t1 o2]. cbn [fst snd set_outside outside].
  destruct (now_outside o2) as [t2 o3]. cbn [snd].
  unfold lift, mul. rewrite wrap_in by (split; lia). unfold div.
  by destruct (cast 64 (Z.max 0 (t1 - t0) / 1000000) =? 0).
Qed.

Lemma measure_cases block c lim s :
  Z.of_nat (length block) < 2 ^ 54 -> 0 <= measured_ms block c lim s < 2 ^ 64 ->
  exists o, measure block c lim s =
    match answer block c lim s with
    | None => None
    | Some outs =>
        if measured_ms block c lim s =? 0 then None
        else Some ((outs, Z.of_nat (length block) * 1000 / measured_ms block c lim s),
                   set_outside o s)
    end.
Proof.
  intros Hlen Hms. exists (after_measure block c lim s). rewrite measure_exact by done.
  unfold elapsed_ms. by rewrite cast_in.
Qed.

(** C38. A measurement of a block: it panics when the executor does not start and
    when less than a millisecond passes (the division by the elapsed time);
    otherwise it returns the outputs with the transactions per second, and
    changes neither the accounts nor the state view. *)
Theorem measure_result block c lim s :
  Z.of_nat (length block) < 2 ^ 54 -> 0 <= measured_ms block c lim s < 2 ^ 64 ->
  (answer block c lim s = None -> measure block c lim s = None) /\
  (measured_ms block c lim s = 0 -> measure block c lim s = None) /\
  forall outs, answer block c lim s = Some outs -> 0 < measured_ms block c lim s ->
  exists o, measure block c lim s =
    Some ((outs, Z.of_nat (length block) * 1000 / measured_ms block c lim s), set_outside o s).
Proof.
  intros Hlen Hms. destruct (measure_cases block c lim s Hlen Hms) as [o ->].
  split; [by intros ->|]. split.
  - intros ->. by destruct (answer _ _ _ _).
  - intros outs -> Hpos. exists o. by destruct (Z.eqb_spec (measured_ms block c lim s) 0); [lia|].
Qed.
End measurements.

(** ** Runs *)

Section runs.
Context {SENV : SimEnv} {SL : SimLaws SENV}.

Definition run_workload (w : Workload) (n : nat) : M Similator (Z * Z) :=
  match w with
  | Airdrop => run_airdrop n
  | Ballot => run_ballot n
  | BallotSharding k => run_ballot_sharding n k
  | MillionPixel => run_mp n
  | Kitty => run_kitty n
  | Empty => run_empty n
  end.

(** The numbers of accounts a workload can run with. *)
Definition suits (w : Workload) (N : nat) : Prop :=
  match w with
  | Airdrop | Empty => (0 < N)%nat
  | Ballot | MillionPixel | Kitty => (1 < N)%nat
  | BallotSharding k => (k < N)%nat /\ Z.of_nat k mod 256 <> 0
  end.

(** How many transactions set it up. *)
Definition setup_count (w : Workload) (N : nat) : nat :=
  match w with
  | Airdrop => N
  | Ballot | MillionPixel => 1
  | BallotSharding k => k
  | Kitty => 1 + ((N - 1) + (N - 1))
  | Empty => 0
  end.

Lemma lookup_bump i j l :
  bump i l !! j = (fun a => if decide (i = j) then
    set_sequence_number (acc_sequence_number a + 1) a else a) <$> l !! j.
Proof.
  unfold bump. rewrite list_lookup_alter. destruct (decide (i = j)) as [->|]; [done|].
  by destruct (l !! j).
Qed.

Lemma verified_length txns : length (verified_block txns) = length txns.
Proof using SL. unfold verified_block. by rewrite into_verified_length, length_map. Qed.

(** *** The set-up block *)

Definition apply_writes (outs : list TransactionOutput) (v : StateView) : StateView :=
  foldl (fun v o => add_write_set (write_set o) v) v outs.

(** The simulator after a block that is executed with success and applied;
    nothing if the executor fails or a transaction does not succeed. *)
Definition applied (txns : list SignedTransaction) (s : Similator) : option Similator :=
  let '(r, o) := vm_execute_block (verified_block txns) (state_view s) num_cpus None (outside s) in
  outs ← r;
  if forallb is_success outs
  then Some (set_state_view (apply_writes outs (state_view s)) (set_outside o s)) else None.

Lemma apply_outputs_cases outs s :
  foldM (fun _ o => apply_output o) tt outs s =
    if forallb is_success outs
    then Some (tt, set_state_view (apply_writes outs (state_view s)) s) else None.
Proof.
  revert s. induction outs as [|x outs IH]; intros s; [by destruct s|]. cbn [foldM forallb].
  unfold bindM at 1. unfold apply_output at 1, bindM.
  destruct (is_success x); cbn [guard_ ret panic modify andb]; [|done]. rewrite IH. done.
Qed.

Lemma execute_and_apply_exact txns s :
  execute_and_apply_transactions txns s =
  match applied txns s with Some s' => Some (tt, s') | None => None end.
Proof.
  unfold execute_and_apply_transactions, execute_block, applied, bindM.
  destruct (vm_execute_block _ _ _ _ _) as [[outs|] o]; [|done]. cbn [mbind option_bind].
  rewrite apply_outputs_cases. by destruct (forallb is_success outs).
Qed.

Lemma applied_accounts txns s s' :
  applied txns s = Some s' -> account_universe s' = account_universe s.
Proof.
  unfold applied. destruct (vm_execute_block _ _ _ _ _) as [[outs|] o]; [|done].
  cbn [mbind option_bind]. destruct (forallb _ _); [|done]. by intros [= <-].
Qed.

(** *** The measured block *)

(** One measurement: the transactions per second; nothing if the executor fails,
    a transaction does not succeed or less than a millisecond passes. *)
Definition measurement (txns : list SignedTransaction) (c : Z) (lim : option Z) (s : Similator)
    : option (Z * Similator) :=
  let block := verified_block txns in
  outs ← answer block c lim s;
  if (elapsed_ms block c lim s =? 0) || negb (forallb is_success outs) then None
  else Some (Z.of_nat (length txns) * 1000 / elapsed_ms block c lim s,
             set_outside (after_measure block c lim s) s).

Definition measurement_if (run : bool) (txns : list SignedTransaction) (c : Z) (lim : option Z)
    (s : Similator) : option (Z * Similator) :=
  if run then measurement txns c lim s else Some (0, s).

(** In parallel, then sequentially. *)
Definition two_measurements (run_par run_seq : bool) (txns : list SignedTransaction) (c : Z)
    (lim : option Z) (s : Similator) : option (Z * Z * Similator) :=
  '(par_tps, s) ← measurement_if run_par txns c lim s;
  '(seq_tps, s) ← measurement_if run_seq txns 1 lim s;
  Some (par_tps, seq_tps, s).

Lemma measure_then {B} txns c lim s (k : Z -> M Similator B) (run : bool) :
  Z.of_nat (length txns) < 2 ^ 54 ->
  (let% (output, tps) := if run then measure (verified_block txns) c lim else ret ([], 0) in
   let% _ := guard_ (forallb is_success output) in k tps) s =
  match measurement_if run txns c lim s with Some (tps, s') => k tps s' | None => None end.
Proof using SL.
  intros Hlen. unfold bindM. destruct run; cbn [measurement_if]; [|done].
  rewrite measure_exact by (by rewrite verified_length). unfold measurement. rewrite verified_length.
  destruct (answer _ _ _ _) as [outs|]; [|done]. cbn [mbind option_bind].
  destruct (elapsed_ms _ _ _ _ =? 0); [done|]. cbn [orb].
  by destruct (forallb is_success outs).
Qed.

Lemma blockstm_exact txns run_par run_seq c lim s :
  Z.of_nat (length txns) < 2 ^ 54 ->
  execute_blockstm_benchmark (verified_block txns) run_par run_seq c lim s =
  two_measurements run_par run_seq txns c lim s.
Proof using SL.
  intros Hlen. unfold execute_blockstm_benchmark, execute_benchmark_parallel.
  etrans; [exact (measure_then txns c lim s (fun par_tps =>
    let% (output, seq_tps) :=
      if run_seq then execute_benchmark_sequential (verified_block txns) lim
      else ret ([], 0) in
    let% _ := guard_ (forallb is_success output) in
    ret (par_tps, seq_tps)) run_par Hlen)|].
  unfold two_measurements. destruct (measurement_if run_par txns c lim s) as [[par s1]|]; [|done].
  cbn [mbind option_bind]. unfold execute_benchmark_sequential.
  etrans; [exact (measure_then txns 1 lim s1 (fun seq_tps => ret (par, seq_tps)) run_seq Hlen)|].
  by destruct (measurement_if run_seq txns 1 lim s1) as [[]|].
Qed.

Lemma measurement_if_bounds run txns c lim s tps s' :
  measurement_if run txns c lim s = Some (tps, s') ->
  0 <= tps <= Z.of_nat (length txns) * 1000 /\ exists o, s' = set_outside o s.
Proof.
  destruct run; cbn [measurement_if].
  - unfold measurement. destruct (answer _ _ _ _) as [outs|]; [|done]. cbn [mbind option_bind].
    destruct (Z.eqb_spec (elapsed_ms (verified_block txns) c lim s) 0) as [|Hne]; [done|].
    cbn [orb]. destruct (negb _); [done|]. intros [= <- <-]. split; [|by eexists].
    pose proof (Z.mod_pos_bound (measured_ms (verified_block txns) c lim s) (2 ^ 64) ltac:(lia)) as Hc.
    change (_ mod _) with (elapsed_ms (verified_block txns) c lim s) in Hc.
    split; [apply Z.div_pos; lia|]. apply Z.div_le_upper_bound; [lia|]. nia.
  - intros [= <- <-]. split; [lia|]. exists (outside s). by destruct s.
Qed.

(** *** A whole run *)

(** What a run of [n] transactions with [N] accounts from [s] gives: the
    transactions [txns1] that set it up are generated; if they cannot be executed
    and applied the run panics, else the transactions [txns2] are generated on
    the state they leave, and measured in parallel and sequentially.  Every
    transaction carries the next sequence number of its sender. *)
Definition workload_spec (w : Workload) (N n : nat) (s : Similator)
    (r : option (Z * Z * Similator)) : Prop :=
  exists idxs1 txns1 s1,
    emitted idxs1 txns1 s s1 /\ length txns1 = setup_count w N /\ Forall (setup_call w) txns1 /\
    match (match w with Empty => Some s1 | _ => applied txns1 s1 end) with
    | None => r = None
    | Some s2 => exists idxs2 txns2 s3,
        emitted idxs2 txns2 s2 s3 /\ length txns2 = n /\ Forall (measured_call w N) txns2 /\
        sent (sim_accounts s) (idxs1 ++ idxs2) (txns1 ++ txns2) /\
        r = two_measurements true true txns2 num_cpus None s3
    end.

Lemma bench_exact P N n bench s :
  Z.of_nat n < 2 ^ 54 -> starts P N n bench -> sim_num_accounts s = N -> room n s ->
  exists idxs txns s1, emitted idxs txns s s1 /\ length txns = n /\ Forall P txns /\
    (let% t := bench in benchmark t) s = two_measurements true true txns num_cpus None s1.
Proof using SL.
  intros Hn Hb HN Hr. destruct (Hb s HN Hr) as (idxs & txns & s1 & H1 & L1 & P1 & E1).
  exists idxs, txns, s1. split_and!; [done..|]. unfold bindM. rewrite H1.
  apply blockstm_exact. by rewrite L1.
Qed.

Lemma run_exact w N n init bench s :
  match w with Empty => False | _ => True end ->
  Z.of_nat n < 2 ^ 54 -> starts (setup_call w) N (setup_count w N) init ->
  starts (measured_call w N) N n bench ->
  sim_num_accounts s = N -> room (setup_count w N + n) s ->
  workload_spec w N n s ((let% t := init in
    let% _ := execute_and_apply_transactions t in
    let% t := bench in benchmark t) s).
Proof using SL.
  intros Hw Hn Hi Hb HN Hr.
  destruct (Hi s HN) as (i1 & t1 & s1 & H1 & L1 & P1 & E1).
  { eapply Forall_impl; [exact Hr|]. cbn. lia. }
  assert (Hrun : (let% t := init in
    let% _ := execute_and_apply_transactions t in
    let% t := bench in benchmark t) s =
    match applied t1 s1 with Some s2 => (let% t := bench in benchmark t) s2 | None => None end).
  { unfold bindM at 1. rewrite H1. unfold bindM at 1. rewrite execute_and_apply_exact.
    by destruct (applied t1 s1). }
  rewrite Hrun. exists i1, t1, s1. split_and!; [done..|].
  assert (Hm : match w with Empty => Some s1 | _ => applied t1 s1 end = applied t1 s1)
    by by destruct w.
  rewrite Hm.
  destruct (applied t1 s1) as [s2|] eqn:Ha; [|done]. apply applied_accounts in Ha.
  assert (Hs2 : sim_accounts s2 = sim_accounts s1) by (unfold sim_accounts; by rewrite Ha).
  destruct (bench_exact _ N n bench s2 Hn Hb) as (i2 & t2 & s3 & E2 & L2 & P2 & H2).
  { unfold sim_num_accounts. rewrite Ha. rewrite <-HN. exact (emitted_num _ _ _ _ E1). }
  { unfold room. rewrite Hs2. change (room n s1). eapply room_emitted; [exact E1|]. by rewrite L1. }
  exists i2, t2, s3. split_and!; [done..| |done]. apply sent_app; [by apply E1|].
  rewrite <-(em_sim_accounts _ _ _ _ E1), <-Hs2. by apply E2.
Qed.

Lemma workload_exact w N n s :
  suits w N -> Z.of_nat N < 2 ^ 62 -> Z.of_nat n < 2 ^ 54 ->
  sim_num_accounts s = N -> room (setup_count w N + n) s ->
  workload_spec w N n s (run_workload w n s).
Proof using SL.
  intros Hw HN Hn Hnum Hr. destruct w as [| |k| | |]; cbn [run_workload suits] in *.
  - apply (run_exact Airdrop); try done; [apply airdrop_initialize_generates|].
    by apply airdrop_transfers_generates.
  - unfold run_ballot, bindM at 1, gets. rewrite Hnum.
    apply (run_exact Ballot); try done; [apply ballot_initialize_generates; lia|].
    by apply ballot_votes_generates.
  - unfold run_ballot_sharding, bindM at 1, gets. rewrite Hnum. destruct Hw.
    apply (run_exact (BallotSharding k)); try done;
      [apply ballot_sharding_initialize_generates; lia|].
    by apply ballot_sharding_votes_generates.
  - apply (run_exact MillionPixel); try done; [apply mp_initialize_generates; lia|].
    by apply mp_occupies_generates.
  - apply (run_exact Kitty); try done; [apply kitty_initialize_generates; lia|].
    by apply kitty_breeds_generates.
  - destruct (bench_exact _ N n (empty_calls n) s Hn (empty_calls_generates N n Hw) Hnum Hr)
      as (i & t & s1 & E & L & P & H).
    exists [], [], s. split_and!; [apply emitted_refl|done|constructor|].
    exists i, t, s1. split_and!; [done..|by apply E|exact H].
Qed.

(** C22. What a run of a workload does, whatever the executor answers.  With
    enough accounts (and, with shards, a number of them that is not a multiple
    of 256) the calls that set the workload up and the calls that are measured
    are generated without a panic, as many as asked for, each with the next
    sequence number of its sender; the set-up block is applied to the state view
    and the measured block is not.  The run panics exactly when the executor
    fails on one of the blocks, a transaction does not succeed, or a measurement
    takes less than a millisecond; otherwise it returns the throughput of the
    parallel and of the sequential execution of the measured block. *)
Theorem workload_runs w N n s :
  suits w N -> Z.of_nat N < 2 ^ 62 -> Z.of_nat n < 2 ^ 54 ->
  sim_num_accounts s = N -> room (setup_count w N + n) s ->
  workload_spec w N n s (run_workload w n s).
Proof using SL. apply workload_exact. Qed.

End runs.

(** ** ERC20 transfers *)
Section erc20.
Context {SENV : SimEnv} {SL : SimLaws SENV}.

(** The transfer of one edge of the graph. *)
Definition transfer_of (l : list AccountCurrent) (edge : nat * nat) (t : SignedTransaction) : Prop :=
  exists r, l !! edge.2 = Some r /\ txn_payload t = aptos_coin_transfer (address (account r)) 1.

(** The map of sequence numbers holds the last number of every account that has
    sent a transaction; [l'] are the accounts with their next numbers. *)
Definition seq_map_ok (l l' : list AccountCurrent) (seq_map : gmap nat Z) : Prop :=
  length l' = length l /\
  forall i a, l' !! i = Some a ->
    match seq_map !! i with
    | Some n => acc_sequence_number a = n + 1
    | None => l !! i = Some a
    end.

Lemma seq_map_step l l' seq_map i n a :
  seq_map_ok l l' seq_map -> l' !! i = Some a -> acc_sequence_number a = n ->
  seq_map_ok l (bump i l') (<[i := n]> seq_map).
Proof.
  intros [Hlen Hok] Hi Hn. split; [by rewrite length_bump|].
  intros j b Hj. rewrite lookup_bump in Hj. apply fmap_Some in Hj as (c & Hc & ->).
  destruct (decide (i = j)) as [->|Hne].
  - rewrite lookup_insert_eq. assert (c = a) as -> by congruence. cbn. lia.
  - rewrite lookup_insert_ne by done. by apply (Hok j).
Qed.

Lemma same_account l l' i a b :
  map account l' = map account l -> l' !! i = Some a -> l !! i = Some b -> account a = account b.
Proof.
  intros Hm Ha Hb. assert (H : map account l' !! i = map account l !! i) by by rewrite Hm.
  change (map account l') with (account <$> l') in H. change (map account l) with (account <$> l) in H.
  rewrite !list_lookup_fmap, Ha, Hb in H. cbn in H. congruence.
Qed.

Lemma account_bump i l : map account (bump i l) = map account l.
Proof.
  change (account <$> bump i l = account <$> l). apply list_eq. intros j.
  rewrite !list_lookup_fmap, lookup_bump, <-option_fmap_compose.
  destruct (l !! j) as [a|]; [|done]. cbn. by case_decide.
Qed.

Lemma erc20_loop_ok u l' seq_map acc graph :
  seq_map_ok (accounts u) l' seq_map -> map account l' = map account (accounts u) ->
  Forall (fun a => 0 <= acc_sequence_number a /\
    acc_sequence_number a + Z.of_nat (length graph) < 2 ^ 64) l' ->
  Forall (fun e => (e.1 < length (accounts u))%nat /\ (e.2 < length (accounts u))%nat) graph ->
  exists seq_map' txns, erc20_loop u (seq_map, acc) graph = Some (seq_map', acc ++ txns) /\
    sent l' graph.*1 txns /\ Forall2 (transfer_of (accounts u)) graph txns.
Proof using SL.
  revert l' seq_map acc. induction graph as [|[i j] graph IH]; intros l' seq_map acc Hok Hacc Hroom Hg.
  { exists seq_map, []. by rewrite app_nil_r. }
  apply Forall_cons in Hg as [[Hi Hj] Hg]. cbn [fst snd] in Hi, Hj.
  destruct (lookup_lt_is_Some_2 _ _ Hi) as [a Ha]. destruct (lookup_lt_is_Some_2 _ _ Hj) as [b Hb].
  pose proof Hok as [Hlen Hmap]. destruct (lookup_lt_is_Some_2 l' i) as [a' Ha']; [lia|].
  pose proof (Forall_lookup_1 _ _ _ _ Hroom Ha') as Hra. cbn [length] in Hra.
  pose proof (same_account _ _ _ _ _ Hacc Ha' Ha) as Heq.
  set (n := acc_sequence_number a') in *.
  set (txn := peer_to_peer_txn (account a) (account b) n 1 100).
  assert (Hstep : erc20_step u (seq_map, acc) (i, j) = Some (<[i := n]> seq_map, acc ++ [txn])).
  { unfold erc20_step, account_at. cbn [fst snd]. rewrite Ha, Hb. cbn [mbind option_bind].
    specialize (Hmap i a' Ha'). destruct (seq_map !! i) as [m|].
    - unfold add. rewrite wrap_in by (split; lia). cbn [mbind option_bind].
      rewrite <-Hmap, lookup_insert_eq. cbn [mbind option_bind].
      rewrite (cast_in 64) by (split; lia). done.
    - assert (a' = a) as -> by congruence. cbn [mbind option_bind].
      rewrite (cast_in 64 (acc_sequence_number a)) by (split; lia).
      rewrite lookup_insert_eq. cbn [mbind option_bind].
      rewrite (cast_in 64) by (split; lia). done. }
  destruct (IH (bump i l') (<[i := n]> seq_map) (acc ++ [txn])) as (m' & txns & H1 & H2 & H3).
  - by eapply seq_map_step.
  - by rewrite account_bump.
  - by apply room_bump.
  - done.
  - exists m', (txn :: txns). cbn [erc20_loop]. rewrite Hstep. cbn [mbind option_bind].
    rewrite H1, <-app_assoc. split; [done|]. split.
    + cbn. split; [|done]. exists a'. split; [done|].
      split; unfold txn, peer_to_peer_txn; autorewrite with txn; [by rewrite Heq|done|done].
    + constructor; [|done]. exists b. split; [done|].
      unfold txn, peer_to_peer_txn. by autorewrite with txn.
Qed.

Lemma erc20_transactions_ok graph s :
  room (length graph) s ->
  Forall (fun e => (e.1 < sim_num_accounts s)%nat /\ (e.2 < sim_num_accounts s)%nat) graph ->
  exists txns, gen_transaction_for_erc20 graph s = Some (verified_block txns, s) /\
    sent (sim_accounts s) graph.*1 txns /\
    Forall2 (transfer_of (sim_accounts s)) graph txns.
Proof using SL.
  intros Hroom Hg.
  destruct (erc20_loop_ok (account_universe s) (sim_accounts s) ∅ [] graph)
    as (m & txns & H1 & H2 & H3); [|done..|].
  { split; [done|]. intros i a Ha. by rewrite lookup_empty. }
  exists txns. unfold gen_transaction_for_erc20. rewrite H1. by split_and!.
Qed.
(** C36. The ERC20 replay: for a graph over the accounts of the universe the
    transactions are generated without a panic, one per edge and in order, each
    a transfer of one unit between the accounts of its edge that carries the
    next sequence number of its sender; the simulator itself is unchanged, so
    every replay of a graph generates the same block. *)
Theorem erc20_transactions graph s :
  room (length graph) s ->
  Forall (fun e => (e.1 < sim_num_accounts s)%nat /\ (e.2 < sim_num_accounts s)%nat) graph ->
  exists txns, gen_transaction_for_erc20 graph s = Some (verified_block txns, s) /\
    sent (sim_accounts s) graph.*1 txns /\
    Forall2 (transfer_of (sim_accounts s)) graph txns.
Proof using SL. apply erc20_transactions_ok. Qed.
End erc20.

(** ** Shards *)
Section shards.
Context {SENV : SimEnv} {SL : SimLaws SENV}.

(** The shard of a voter: the number of shards is cut down to a byte, so a
    vote goes to one of the first [shard_num mod 256] forums (all of them only
    up to 255 shards), and with a multiple of 256 shards every run that votes
    panics on the remainder by zero. *)
Theorem shard_of_voter shard_num :
  (forall a i, forums_index a shard_num = Some i -> 0 <= i < Z.of_nat shard_num mod 256) /\
  (Z.of_nat shard_num mod 256 = 0 ->
     forall transaction_num acc_nums s,
     ballot_sharding_votes (S transaction_num) acc_nums shard_num s = None).
Proof using SL.
  split; [intros a i; apply forums_index_bound|]. intros Hz n acc s.
  destruct (ballot_sharding_votes (S n) acc shard_num s) as [[txns s']|] eqn:H; [|done]. exfalso.
  unfold ballot_sharding_votes, for_ in H. cbn [seq foldM] in H.
  repeat (apply bindM_Some in H as (? & ? & H' & H);
    match type of H' with
    | bindM _ _ _ = _ => clear H; rename H' into H
    | lift (forums_index _ _) _ = _ =>
        apply lift_Some in H' as [H' _]
    | _ => clear H'
    end).
  all: match goal with H : forums_index ?a _ = _ |- _ =>
    pose proof (proj2 (forums_index_spec a shard_num) Hz); congruence end.
Qed.
End shards.
