(* ===== verification/BenchMain.v ===== *)
(** The commands of the benchmark: [aptos-transaction-benchmarks/src/main.rs].

    The parsed options are records; the file system with its CSV reader and the
    [TransactionBencher] of the crate, whose source is not in the repository,
    are arguments.  What a command prints is what its definition returns. *)
From Stdlib Require Import Ascii.
From stdpp Require Import base list option numbers strings sorting.
From S2P Require Import Prelude Prog Machine CommonTransactions AccountUniverse Simulator.

Section definitions.
Context {SENV : SimEnv}.
Open Scope Z_scope.

(** ** Options *)

Record ReplayERC20HistoricOpt : Type := mkReplayOpt {
  skip_parallel : bool;
  skip_sequential : bool;
  num_warmups : Z;
  num_runs : Z;
  maybe_block_gas_limit : option Z;
  data_path : string;
  replay_num_accounts : nat;
}.

(** [num_warmups] and [num_runs] are options of every command. *)
Record CommonOpt : Type := mkCommonOpt {
  common_num_warmups : Z;
  common_num_runs : Z;
  common_num_accounts : nat;
  num_transactions : nat;
}.

Record CommonShardingOpt : Type := mkCommonShardingOpt {
  sharding_num_warmups : Z;
  sharding_num_runs : Z;
  sharding_num_accounts : nat;
  sharding_num_transactions : nat;
  num_shardings : nat;
}.

Record ParamSweepOpt : Type := mkParamSweepOpt {
  sweep_num_accounts : list Z;
  block_sizes : option (list Z);
  sweep_skip_parallel : bool;
  sweep_skip_sequential : bool;
  sweep_num_warmups : Z;
  sweep_num_runs : Z;
  sweep_maybe_block_gas_limit : option Z;
}.

Record ExecuteOpt {SocketAddr : Type} : Type := mkExecuteOpt {
  exec_num_accounts : Z;
  exec_num_warmups : Z;
  exec_block_size : Z;
  num_blocks : Z;
  concurrency_level_per_shard : Z;
  num_executor_shards : Z;
  remote_executor_addresses : option (list SocketAddr);
  no_conflict_txns : bool;
  exec_maybe_block_gas_limit : option Z;
  generate_then_execute : bool;
}.

(** ** [str::parse::<usize>] *)

Definition digit_of (c : Ascii.ascii) : option Z :=
  let n := Z.of_N (Ascii.N_of_ascii c) in
  if (48 <=? n) && (n <=? 57) then Some (n - 48) else None.

Fixpoint parse_digits (acc : Z) (s : string) : option Z :=
  match s with
  | EmptyString => Some acc
  | String c s =>
      d ← digit_of c;
      let v := acc * 10 + d in
      if v <? 2 ^ 64 then parse_digits v s else None
  end.

(** A sign may come first; nothing or a sign alone is not a number. *)
Definition parse_usize (s : string) : option Z :=
  match s with
  | EmptyString => None
  | String c rest =>
      if Ascii.eqb c "+"%char then
        match rest with EmptyString => None | _ => parse_digits 0 rest end
      else parse_digits 0 s
  end.

(** ** [read_csv_with_header] *)

(** [record.get(i).unwrap_or("0").parse::<usize>().unwrap_or(0)]. *)
Definition csv_field (record : list string) (i : nat) : Z :=
  default 0 (parse_usize (default "0"%string (record !! i))).

Fixpoint read_records {Error} (records : list (result Error (list string))) (data : list (Z * Z))
    : result Error (list (Z * Z)) :=
  match records with
  | [] => Ok data
  | Err e :: _ => Err e
  | Ok record :: records =>
      read_records records (data ++ [(csv_field record 0, csv_field record 1)])
  end.

Definition read_csv_with_header {Error}
    (open : string -> result Error (list (result Error (list string)))) (file_path : string)
    : result Error (list (Z * Z)) :=
  match open file_path with
  | Err e => Err e
  | Ok records => read_records records []
  end.

(** ** Averages *)

Fixpoint sum_from (acc : Z) (l : list Z) : option Z :=
  match l with
  | [] => Some acc
  | m :: l => acc ← add 64 acc m; sum_from acc l
  end.

(** The sum of the measurements divided by their number. *)
Definition average (l : list Z) : option Z :=
  sum ← sum_from 0 l; div sum (Z.of_nat (length l)).

(** ** [replay_erc20] *)

Definition graph_of (data : list (Z * Z)) : list (nat * nat) :=
  map (fun e => (Z.to_nat e.1, Z.to_nat e.2)) data.

Section replay.
Context {Error : Type} (open : string -> result Error (list (result Error (list string)))).

(** One replay: the file is read, its transactions generated and measured. *)
Definition replay_once (opt : ReplayERC20HistoricOpt) : M Similator (Z * Z) :=
  match read_csv_with_header open (data_path opt) with
  | Err _ => panic
  | Ok data =>
      let% transactions := gen_transaction_for_erc20 (graph_of data) in
      execute_blockstm_benchmark transactions (negb (skip_parallel opt))
        (negb (skip_sequential opt)) num_cpus (maybe_block_gas_limit opt)
  end.

(** The measurement loop: the parallel and the sequential measurements. *)
Definition replay_loop (opt : ReplayERC20HistoricOpt) (total_runs : nat)
    : M Similator (list Z * list Z) :=
  for_ total_runs ([], []) (fun '(par_measurements, seq_measurements) _ =>
    let% (tps1, tps2) := replay_once opt in
    ret (par_measurements ++ [tps1], seq_measurements ++ [tps2])).

(** The averages that are printed: sequential and parallel. *)
Definition replay_erc20 (opt : ReplayERC20HistoricOpt) (o : Outside)
    : option (option Z * option Z * Similator) :=
  bencher ← with_account_nums (replay_num_accounts opt) o;
  let run_parallel := negb (skip_parallel opt) in
  let run_sequential := negb (skip_sequential opt) in
  if negb (run_sequential || run_parallel) then None
  else
    total_runs ← add 64 (num_runs opt) (num_warmups opt);
    '(par_measurements, seq_measurements, bencher) ←
      replay_loop opt (Z.to_nat total_runs) bencher;
    seq_tps ← (if run_sequential then avg ← average seq_measurements; Some (Some avg)
               else Some None);
    par_tps ← (if run_parallel then avg ← average par_measurements; Some (Some avg)
               else Some None);
    Some (seq_tps, par_tps, bencher).

End replay.

(** ** [param_sweep] and [execute] *)

Section bencher.
Context {SocketAddr : Type}.

(** [TransactionBencher::new(any_with((low, high)))] and its
    [blockstm_benchmark], with the arguments in the order of the call. *)
Context (blockstm_benchmark : Z * Z ->
  Z -> Z -> bool -> bool -> Z -> Z -> Z -> Z -> option (list SocketAddr) -> bool -> option Z ->
  bool -> M Outside (list Z * list Z)).

(** [Vec::sort]. *)
Definition sort (l : list Z) : list Z := merge_sort Z.le l.

(** The measurement of one block size and number of accounts. *)
Definition sweep_cell (opt : ParamSweepOpt) (block_size num_accounts : Z)
    : M Outside (list Z * list Z) :=
  blockstm_benchmark (1, 2) num_accounts block_size (negb (sweep_skip_parallel opt))
    (negb (sweep_skip_sequential opt)) (sweep_num_warmups opt) (sweep_num_runs opt) 1 num_cpus
    None false (sweep_maybe_block_gas_limit opt) false.

(** The two nested loops that collect the measurements. *)
Definition sweep_measurements (opt : ParamSweepOpt) (block_sizes : list Z)
    : M Outside (list (list Z) * list (list Z)) :=
  foldM (fun acc block_size =>
    foldM (fun '(par_measurements, seq_measurements) num_accounts =>
      let% (par_tps, seq_tps) := sweep_cell opt block_size num_accounts in
      ret (par_measurements ++ [sort par_tps], seq_measurements ++ [sort seq_tps]))
      acc (sweep_num_accounts opt))
    ([], []) block_sizes.

(** What is printed for one block size and number of accounts: the sequential
    average, the parallel average and the speed-up. *)
Definition report_cell (run_parallel run_sequential : bool) (par seq : option (list Z))
    : option (option Z * option Z * option Z) :=
  seq_avg ← (if run_sequential then l ← seq; avg ← average l; Some (Some avg) else Some None);
  let seq_tps := default 1 seq_avg in
  if run_parallel then
    l ← par;
    par_tps ← average l;
    speed_up ← (if run_sequential then q ← div par_tps seq_tps; Some (Some q) else Some None);
    Some (seq_avg, Some par_tps, speed_up)
  else Some (seq_avg, None, None).

(** The two nested loops that print, with the counter [i]. *)
Definition sweep_report (opt : ParamSweepOpt) (run_parallel run_sequential : bool)
    (par_measurements seq_measurements : list (list Z)) (block_sizes : list Z)
    : M Outside (nat * list (Z * Z * (option Z * option Z * option Z))) :=
  foldM (fun acc block_size =>
    foldM (fun '(i, out) num_accounts =>
      let% r := lift (report_cell run_parallel run_sequential
                        (par_measurements !! i) (seq_measurements !! i)) in
      ret (S i, out ++ [(num_accounts, block_size, r)]))
      acc (sweep_num_accounts opt))
    (0%nat, []) block_sizes.

Definition param_sweep (opt : ParamSweepOpt)
    : M Outside (list (Z * Z * (option Z * option Z * option Z))) :=
  let block_sizes := default [100000] (block_sizes opt) in
  let run_parallel := negb (sweep_skip_parallel opt) in
  let run_sequential := negb (sweep_skip_sequential opt) in
  let% _ := guard_ (run_sequential || run_parallel) in
  let% (par_measurements, seq_measurements) := sweep_measurements opt block_sizes in
  let% (_, out) := sweep_report opt run_parallel run_sequential par_measurements seq_measurements
                     block_sizes in
  ret out.

Definition execute (opt : @ExecuteOpt SocketAddr) : M Outside Z :=
  let% (par_tps, _) :=
    blockstm_benchmark (1000, 1000000) (exec_num_accounts opt) (exec_block_size opt) true false
      (exec_num_warmups opt) (num_blocks opt) (num_executor_shards opt)
      (concurrency_level_per_shard opt) (remote_executor_addresses opt) (no_conflict_txns opt)
      (exec_maybe_block_gas_limit opt) (generate_then_execute opt) in
  lift (average par_tps).

End bencher.

(** ** The workloads *)

Definition with_bencher (num_accounts : nat) (run : M Similator (Z * Z)) (o : Outside)
    : option (Z * Z * Similator) :=
  bencher ← with_account_nums num_accounts o; run bencher.

Definition airdrop (opt : CommonOpt) :=
  with_bencher (common_num_accounts opt) (run_airdrop (num_transactions opt)).
Definition ballot (opt : CommonOpt) :=
  with_bencher (common_num_accounts opt) (run_ballot (num_transactions opt)).
Definition ballot_sharding (opt : CommonShardingOpt) :=
  with_bencher (sharding_num_accounts opt)
    (run_ballot_sharding (sharding_num_transactions opt) (num_shardings opt)).
Definition kitty (opt : CommonOpt) :=
  with_bencher (common_num_accounts opt) (run_kitty (num_transactions opt)).
Definition mp (opt : CommonOpt) :=
  with_bencher (common_num_accounts opt) (run_mp (num_transactions opt)).
Definition empty (opt : CommonOpt) :=
  with_bencher (common_num_accounts opt) (run_empty (num_transactions opt)).

(** ** The dispatch of [main] *)

Inductive BenchmarkCommand {SocketAddr : Type} : Type :=
| CmdParamSweep (opt : ParamSweepOpt)
| CmdExecute (opt : @ExecuteOpt SocketAddr)
| CmdReplayERC20 (opt : ReplayERC20HistoricOpt)
| CmdAirdrop (opt : CommonOpt)
| CmdBallot (opt : CommonOpt)
| CmdBallotSharding (opt : CommonShardingOpt)
| CmdKitty (opt : CommonOpt)
| CmdMillionPixel (opt : CommonOpt)
| CmdEmpty (opt : CommonOpt).

(** What the process prints before it ends. *)
Inductive Report : Type :=
| SweepReport (cells : list (Z * Z * (option Z * option Z * option Z)))
| ExecuteReport (par_tps : Z)
| ReplayReport (seq_tps par_tps : option Z)
| WorkloadReport (par_tps seq_tps : Z).

Definition workload_report (r : option (Z * Z * Similator)) : option Report :=
  '(par_tps, seq_tps, _) ← r; Some (WorkloadReport par_tps seq_tps).

Definition main {SocketAddr Error : Type}
    (blockstm_benchmark : Z * Z ->
      Z -> Z -> bool -> bool -> Z -> Z -> Z -> Z -> option (list SocketAddr) -> bool ->
      option Z -> bool -> M Outside (list Z * list Z))
    (open : string -> result Error (list (result Error (list string))))
    (command : @BenchmarkCommand SocketAddr) (o : Outside) : option Report :=
  match command with
  | CmdParamSweep opt =>
      '(cells, _) ← param_sweep blockstm_benchmark opt o; Some (SweepReport cells)
  | CmdExecute opt => '(avg, _) ← execute blockstm_benchmark opt o; Some (ExecuteReport avg)
  | CmdReplayERC20 opt =>
      '(seq_tps, par_tps, _) ← replay_erc20 open opt o; Some (ReplayReport seq_tps par_tps)
  | CmdAirdrop opt => workload_report (airdrop opt o)
  | CmdBallot opt => workload_report (ballot opt o)
  | CmdBallotSharding opt => workload_report (ballot_sharding opt o)
  | CmdKitty opt => workload_report (kitty opt o)
  | CmdMillionPixel opt => workload_report (mp opt o)
  | CmdEmpty opt => workload_report (empty opt o)
  end.

End definitions.
