(* ===== verification/BenchMainSpec.v ===== *)
(** Theorems about the commands of the benchmark: the CSV reader, the parameter
    sweep, the replay and the workloads from the command line to the report. *)
From Stdlib Require Import Ascii.
From stdpp Require Import base list option numbers strings gmap sorting.
From S2P Require Import Prelude Prog Machine CommonTransactions AccountUniverse Simulator.
From S2P Require Import SimulatorSpec BenchMain.

Open Scope Z_scope.

(** ** Decimal numbers *)

Definition is_digit (d : Z) : Prop := 0 <= d <= 9.
Definition digit_char (d : Z) : ascii := ascii_of_N (Z.to_N (d + 48)).
Fixpoint digits_string (ds : list Z) : string :=
  match ds with [] => EmptyString | d :: ds => String (digit_char d) (digits_string ds) end.
Definition horner (acc : Z) (ds : list Z) : Z := foldl (fun acc d => acc * 10 + d) acc ds.

(** The decimal digits of [n], most significant first. *)
Fixpoint decimal (fuel : nat) (n : Z) : list Z :=
  match fuel with
  | O => []
  | S fuel => if n <? 10 then [n] else decimal fuel (n / 10) ++ [n mod 10]
  end.
(** Twenty digits are enough for a [usize]. *)
Definition print_usize (n : Z) : string := digits_string (decimal 20 n).

Lemma N_ascii_small n : (n < 256)%N -> N_of_ascii (ascii_of_N n) = n.
Proof. apply N_ascii_embedding. Qed.

Lemma digit_of_char d : is_digit d -> digit_of (digit_char d) = Some d.
Proof.
  intros Hd. unfold digit_of, digit_char, is_digit in *. rewrite N_ascii_small by lia.
  rewrite Z2N.id by lia.
  destruct (Z.leb_spec 48 (d + 48)); [|lia]. destruct (Z.leb_spec (d + 48) 57); [|lia].
  cbn. f_equal. lia.
Qed.

Lemma digit_of_Some c d : digit_of c = Some d -> c = digit_char d /\ is_digit d.
Proof.
  unfold digit_of. destruct (Z.leb_spec 48 (Z.of_N (N_of_ascii c))); [|done].
  destruct (Z.leb_spec (Z.of_N (N_of_ascii c)) 57); [|done]. cbn. intros [= <-].
  unfold digit_char, is_digit. split; [|lia].
  rewrite Z.sub_add, N2Z.id. symmetry. apply ascii_N_embedding.
Qed.

Lemma horner_grows acc ds : 0 <= acc -> Forall is_digit ds -> acc <= horner acc ds.
Proof.
  intros Ha Hd. revert acc Ha. induction Hd as [|d ds Hd _ IH]; intros acc Ha; cbn; [lia|].
  unfold is_digit in Hd. etrans; [|apply IH; lia]. lia.
Qed.

Lemma parse_digits_spec acc s v :
  0 <= acc < 2 ^ 64 ->
  parse_digits acc s = Some v <->
  exists ds, s = digits_string ds /\ Forall is_digit ds /\ v = horner acc ds /\ v < 2 ^ 64.
Proof.
  revert acc. induction s as [|c s IH]; intros acc Hacc; cbn.
  { split.
    - intros [= <-]. exists []. split_and!; [done|constructor|done|lia].
    - intros ([|d ds] & Hs & _ & -> & _); done. }
  split.
  - intros (d & Hd & Hp)%bind_Some. apply digit_of_Some in Hd as [-> Hd].
    destruct (Z.ltb_spec (acc * 10 + d) (2 ^ 64)); [|done]. unfold is_digit in Hd.
    apply IH in Hp as (ds & -> & Hds & Hv & Hlt); [|lia].
    exists (d :: ds). split_and!; [done|by constructor|done|done].
  - intros ([|d ds] & Hs & Hds & Hv & Hlt); [done|]. cbn in Hs. injection Hs as -> ->.
    apply Forall_cons in Hds as [Hd Hds]. rewrite digit_of_char by done. cbn [mbind option_bind].
    cbn in Hv. unfold is_digit in Hd.
    pose proof (horner_grows (acc * 10 + d) ds ltac:(lia) Hds).
    destruct (Z.ltb_spec (acc * 10 + d) (2 ^ 64)); [|unfold horner in *; lia].
    apply IH; [lia|]. by exists ds.
Qed.

Lemma plus_not_digit d : is_digit d -> Ascii.eqb (digit_char d) "+"%char = false.
Proof.
  intros Hd. apply Ascii.eqb_neq. intros H. apply digit_of_char in Hd. rewrite H in Hd. done.
Qed.

Lemma digits_no_plus ds s :
  ds <> [] -> Forall is_digit ds -> String "+"%char s <> digits_string ds.
Proof.
  destruct ds as [|d ds]; [done|]. intros _ [Hd _]%Forall_cons Hs. cbn in Hs.
  injection Hs as Hc _. apply plus_not_digit in Hd. by rewrite <-Hc in Hd.
Qed.

(** [parse::<usize>] accepts exactly a non-empty string of decimal digits,
    after an optional plus sign, whose value is below [2^64], and returns that
    value. *)
Lemma parse_usize_spec s v :
  parse_usize s = Some v <->
  exists ds, (s = digits_string ds \/ s = String "+"%char (digits_string ds)) /\ ds <> [] /\
    Forall is_digit ds /\ v = horner 0 ds /\ v < 2 ^ 64.
Proof.
  destruct s as [|c s]; cbn.
  { split; [done|]. by intros ([|d ds] & [Hs|Hs] & ? & _). }
  destruct (Ascii.eqb c "+"%char) eqn:Hc.
  - apply Ascii.eqb_eq in Hc as ->. destruct s as [|c s].
    { split; [done|]. intros (ds & [Hs|Hs] & Hne & Hds & _).
      - by apply digits_no_plus in Hs.
      - by destruct ds. }
    rewrite parse_digits_spec by lia. split.
    + intros (ds & Hs & Hds & Hv). exists ds. split; [right; by rewrite Hs|].
      split; [|done]. by intros ->.
    + intros (ds & Hs & Hne & Hds & Hv). exists ds. split; [|done].
      destruct Hs as [Hs|Hs]; [by apply digits_no_plus in Hs|by injection Hs].
  - rewrite (parse_digits_spec 0 (String c s)) by lia. split.
    + intros (ds & Hs & Hds & Hv). exists ds. split; [by left|]. split; [|done]. by intros ->.
    + intros (ds & Hs & Hne & Hds & Hv). exists ds. split; [|done].
      destruct Hs as [Hs|Hs]; [done|]. injection Hs as -> _. done.
Qed.

Lemma horner_app acc ds es : horner acc (ds ++ es) = horner (horner acc ds) es.
Proof. apply foldl_app. Qed.

Lemma decimal_spec fuel n :
  0 <= n < 10 ^ Z.of_nat fuel ->
  Forall is_digit (decimal fuel n) /\ horner 0 (decimal fuel n) = n /\
  ((0 < fuel)%nat -> decimal fuel n <> []).
Proof.
  revert n. induction fuel as [|fuel IH]; intros n Hn.
  { cbn in Hn. split_and!; [constructor|cbn; lia|lia]. }
  cbn [decimal]. destruct (Z.ltb_spec n 10) as [Hs|Hs].
  { split_and!; [|cbn; lia|done]. repeat constructor; lia. }
  rewrite Nat2Z.inj_succ, Z.pow_succ_r in Hn by lia.
  destruct (IH (n / 10)) as (H1 & H2 & _).
  { split; [apply Z.div_pos; lia|]. apply Z.div_lt_upper_bound; lia. }
  pose proof (Z.mod_pos_bound n 10 ltac:(lia)).
  split_and!.
  - apply Forall_app. split; [done|]. repeat constructor; lia.
  - rewrite horner_app, H2. cbn. pose proof (Z.div_mod n 10 ltac:(lia)). lia.
  - intros _. by destruct (decimal fuel (n / 10)).
Qed.

Lemma parse_digits_string ds :
  ds <> [] -> Forall is_digit ds -> horner 0 ds < 2 ^ 64 ->
  parse_usize (digits_string ds) = Some (horner 0 ds).
Proof.
  intros Hne Hds Hlt. destruct ds as [|d ds]; [done|]. unfold parse_usize. cbn [digits_string].
  rewrite plus_not_digit by (by apply Forall_cons in Hds as [? _]).
  change (String (digit_char d) (digits_string ds)) with (digits_string (d :: ds)).
  apply parse_digits_spec; [lia|]. exists (d :: ds). by split_and!.
Qed.

Lemma parse_print n : 0 <= n < 2 ^ 64 -> parse_usize (print_usize n) = Some n.
Proof.
  intros Hn. destruct (decimal_spec 20 n) as (H1 & H2 & H3).
  { change (10 ^ Z.of_nat 20) with 100000000000000000000. lia. }
  unfold print_usize. rewrite parse_digits_string; [by rewrite H2|apply H3; lia|done|rewrite H2; lia].
Qed.

(** ** The CSV reader *)
Section csv.
Context {Error : Type}.
Implicit Types open : string -> result Error (list (result Error (list string))).

Lemma read_records_ok (records : list (list string)) data :
  read_records (Error := Error) (map Ok records) data =
  Ok (data ++ map (fun r => (csv_field r 0, csv_field r 1)) records).
Proof.
  revert data. induction records as [|r records IH]; intros data; cbn.
  - by rewrite app_nil_r.
  - by rewrite IH, <-app_assoc.
Qed.

Lemma read_records_err (records : list (list string)) (e : Error) rest data :
  read_records (map Ok records ++ Err e :: rest) data = Err e.
Proof. revert data. induction records as [|r records IH]; intros data; [done|]. cbn. by rewrite IH. Qed.

Lemma records_split (records : list (result Error (list string))) :
  (exists rs, records = map Ok rs) \/ (exists rs e rest, records = map Ok rs ++ Err e :: rest).
Proof.
  induction records as [|[r|e] records IH]; [by left; exists []| |by right; exists [], e, records].
  destruct IH as [[rs ->]|(rs & e & rest & ->)]; [left; by exists (r :: rs)|].
  right. by exists (r :: rs), e, rest.
Qed.

Lemma records_inj (rs rs' : list (list string)) :
  map (Ok (E := Error)) rs = map (Ok (E := Error)) rs' -> rs = rs'.
Proof.
  revert rs'. induction rs as [|r rs IH]; intros [|r' rs']; cbn; try done.
  intros [= -> H]. f_equal. by apply IH.
Qed.

Lemma records_no_error (rs rs' : list (list string)) (e : Error) rest :
  map Ok rs <> map Ok rs' ++ Err e :: rest.
Proof.
  revert rs'. induction rs as [|r rs IH]; intros [|r' rs']; cbn; try done.
  intros [= _ H]. by apply IH in H.
Qed.

Lemma records_first_error (rs rs' : list (list string)) (e e' : Error) rest rest' :
  map Ok rs ++ Err e :: rest = map Ok rs' ++ Err e' :: rest' -> e = e'.
Proof.
  revert rs'. induction rs as [|r rs IH]; intros [|r' rs']; cbn; try done.
  - by intros [= -> _].
  - intros [= _ H]. by apply IH in H.
Qed.

(** C37. A file of rows of two decimal numbers is read back as those numbers, one
    pair per row and in order, whatever further columns the rows have. *)
Theorem csv_roundtrip open path (data : list (Z * Z)) (extra : Z * Z -> list string) :
  Forall (fun e => 0 <= e.1 < 2 ^ 64 /\ 0 <= e.2 < 2 ^ 64) data ->
  open path = Ok (map (fun e => Ok (print_usize e.1 :: print_usize e.2 :: extra e)) data) ->
  read_csv_with_header open path = Ok data.
Proof.
  intros Hd Ho. unfold read_csv_with_header. rewrite Ho.
  rewrite <-(map_map (fun e => print_usize e.1 :: print_usize e.2 :: extra e) Ok).
  rewrite read_records_ok, map_map. cbn [app]. f_equal. clear Ho.
  induction Hd as [|[a b] data [Ha Hb] _ IH]; [done|]. cbn [map fst snd].
  f_equal; [|exact IH]. f_equal; (unfold csv_field; cbn [lookup list_lookup default from_option id];
    by rewrite parse_print).
Qed.

(** The reader fails exactly when the file cannot be opened or one of its
    records cannot be read, with the first such error; a missing or malformed
    field is zero and never an error. *)
Theorem csv_rows open path :
  (forall data, read_csv_with_header open path = Ok data <->
     exists records, open path = Ok (map Ok records) /\
       data = map (fun r => (csv_field r 0, csv_field r 1)) records) /\
  (forall e, read_csv_with_header open path = Err e <->
     open path = Err e \/
     exists records rest, open path = Ok (map Ok records ++ Err e :: rest)) /\
  (forall r i, match r !! i with None => True | Some s => parse_usize s = None end ->
     csv_field r i = 0).
Proof.
  unfold read_csv_with_header. split; [|split].
  - intros data. destruct (open path) as [records|e]; [|split; [done|by intros (? & ? & _)]].
    destruct (records_split records) as [[rs ->]|(rs & e & rest & ->)].
    + rewrite read_records_ok. cbn [app]. split.
      * intros [= <-]. by exists rs.
      * intros (rs' & [= H] & ->). by apply records_inj in H as ->.
    + rewrite read_records_err. split; [done|]. intros (rs' & [= H] & _).
      by apply eq_sym, records_no_error in H.
  - intros e. destruct (open path) as [records|e'].
    2: { split; [intros [= ->]; by left|]. by intros [[= ->]|(? & ? & [=])]. }
    destruct (records_split records) as [[rs ->]|(rs & e' & rest & ->)].
    + rewrite read_records_ok. split; [done|]. intros [[=]|(rs' & rest & [= H])].
      by apply records_no_error in H.
    + rewrite read_records_err. split.
      * intros [= ->]. right. by exists rs, rest.
      * intros [[=]|(rs' & rest' & [= H])]. f_equal. by apply records_first_error in H.
  - intros r i H. unfold csv_field. destruct (r !! i) as [x|]; cbn; [by rewrite H|done].
Qed.
End csv.

(** ** The parameter sweep *)
Section sweep.
Context {SENV : SimEnv} {SocketAddr : Type}.
Context (blockstm_benchmark : Z * Z ->
  Z -> Z -> bool -> bool -> Z -> Z -> Z -> Z -> option (list SocketAddr) -> bool -> option Z ->
  bool -> M Outside (list Z * list Z)).

(** The combinations of the options, in the order of the loops. *)
Definition combinations (opt : ParamSweepOpt) : list (Z * Z) :=
  flat_map (fun block_size => map (fun num_accounts => (num_accounts, block_size))
    (sweep_num_accounts opt)) (default [100000] (block_sizes opt)).

(** Every combination measured once, in order. *)
Fixpoint measure_all (opt : ParamSweepOpt) (cells : list (Z * Z))
    : M Outside (list (list Z * list Z)) :=
  match cells with
  | [] => ret []
  | (num_accounts, block_size) :: cells =>
      let% m := sweep_cell blockstm_benchmark opt block_size num_accounts in
      let% ms := measure_all opt cells in
      ret (m :: ms)
  end.

(** Every combination reported from its own measurements. *)
Fixpoint report_all (par seq : bool) (cells : list (Z * Z)) (ms : list (list Z * list Z))
    : option (list (Z * Z * (option Z * option Z * option Z))) :=
  match cells, ms with
  | (num_accounts, block_size) :: cells, (p, q) :: ms =>
      r ← report_cell par seq (Some (sort p)) (Some (sort q));
      rs ← report_all par seq cells ms;
      Some ((num_accounts, block_size, r) :: rs)
  | _, _ => Some []
  end.

(** What [param_sweep] does, without its two passes and its counter. *)
Definition param_sweep_spec (opt : ParamSweepOpt)
    : M Outside (list (Z * Z * (option Z * option Z * option Z))) :=
  let run_parallel := negb (sweep_skip_parallel opt) in
  let run_sequential := negb (sweep_skip_sequential opt) in
  let% _ := guard_ (run_sequential || run_parallel) in
  let% ms := measure_all opt (combinations opt) in
  lift (report_all run_parallel run_sequential (combinations opt) ms).

(** Nested loops are one loop over the combinations. *)
Lemma foldM_nested {S A X Y} (body : A -> X -> Y -> M S A) a xs ys s :
  foldM (fun a x => foldM (fun a y => body a x y) a ys) a xs s =
  foldM (fun a c => body a c.2 c.1) a (flat_map (fun x => map (fun y => (y, x)) ys) xs) s.
Proof.
  revert a s. induction xs as [|x xs IH]; intros a s; [done|].
  cbn [flat_map]. rewrite foldM_app. cbn [foldM].
  assert (H : forall a s, foldM (fun a y => body a x y) a ys s =
    foldM (fun a c => body a c.2 c.1) a (map (fun y => (y, x)) ys) s).
  { clear. induction ys as [|y ys IH]; intros a s; [done|]. cbn. unfold bindM.
    destruct (body a x y s) as [[a' s']|]; [|done]. apply IH. }
  unfold bindM. rewrite <-H. destruct (foldM _ a ys s) as [[a' s']|]; [|done]. apply IH.
Qed.

Lemma measurements_all opt cells acc o :
  foldM (fun '(par_measurements, seq_measurements) c =>
    let% (par_tps, seq_tps) := sweep_cell blockstm_benchmark opt c.2 c.1 in
    ret (par_measurements ++ [sort par_tps], seq_measurements ++ [sort seq_tps])) acc cells o =
  (let% ms := measure_all opt cells in
   ret (acc.1 ++ map (fun m => sort m.1) ms, acc.2 ++ map (fun m => sort m.2) ms)) o.
Proof.
  revert acc o. induction cells as [|[na bs] cells IH]; intros [p q] o; cbn.
  { unfold bindM, ret. by rewrite !app_nil_r. }
  unfold bindM. destruct (sweep_cell _ opt bs na o) as [[[tp tq] o1]|]; [|done]. cbn [ret].
  rewrite IH. unfold bindM. destruct (measure_all opt cells o1) as [[ms o2]|]; [|done].
  cbn. by rewrite <-!app_assoc.
Qed.

Lemma measure_all_length opt cells o ms o' :
  measure_all opt cells o = Some (ms, o') -> length ms = length cells.
Proof.
  revert o ms. induction cells as [|[na bs] cells IH]; intros o ms; cbn; [by intros [= <- <-]|].
  intros (m & o1 & _ & H)%bindM_Some. apply bindM_Some in H as (ms' & o2 & H & [= <- <-]).
  cbn. f_equal. by eapply IH.
Qed.

Lemma reports_all par seq cells pre ms out (o : Outside) :
  length ms = length cells ->
  foldM (fun '(i, out) c =>
    let% r := lift (report_cell par seq (map (fun m => sort m.1) (pre ++ ms) !! i)
                      (map (fun m => sort m.2) (pre ++ ms) !! i)) in
    ret (S i, out ++ [(c.1, c.2, r)])) (length pre, out) cells o =
  match report_all par seq cells ms with
  | Some rs => Some ((length (pre ++ ms), out ++ rs), o)
  | None => None
  end.
Proof.
  revert pre ms out. induction cells as [|[na bs] cells IH]; intros pre [|[p q] ms] out; try done.
  { intros _. cbn. by rewrite !app_nil_r. }
  intros [= Hlen]. cbn [foldM report_all].
  assert (Hp : forall f : list Z * list Z -> list Z,
    map f (pre ++ (p, q) :: ms) !! length pre = Some (f (p, q))).
  { intros f. change (map f) with (fmap (M := list) f). rewrite list_lookup_fmap.
    by rewrite lookup_app_r, Nat.sub_diag by lia. }
  unfold bindM at 1 2. unfold lift at 1. rewrite !Hp. cbn [fst snd].
  destruct (report_cell par seq _ _) as [r|]; [|done]. cbn [mbind option_bind]. unfold ret at 1.
  specialize (IH (pre ++ [(p, q)]) ms (out ++ [(na, bs, r)]) Hlen).
  rewrite <-app_assoc in IH. cbn [app] in IH. rewrite length_app, Nat.add_1_r in IH.
  rewrite IH. destruct (report_all par seq cells ms); [|done]. cbn. by rewrite <-!app_assoc.
Qed.

(** C28. The parameter sweep measures every combination of a block size and a
    number of accounts once, in order, and reports for each combination the
    averages of its own measurements: the counter that links the two passes is
    always at the right measurement and never out of bounds. *)
Theorem param_sweep_refines opt o :
  param_sweep blockstm_benchmark opt o = param_sweep_spec opt o.
Proof.
  unfold param_sweep, param_sweep_spec. apply bindM_ext; [done|]. intros [] o1 _.
  set (bs := default [100000] (block_sizes opt)).
  assert (Hms : sweep_measurements blockstm_benchmark opt bs o1 =
    (let% ms := measure_all opt (combinations opt) in
     ret (map (fun m => sort m.1) ms, map (fun m => sort m.2) ms)) o1).
  { etrans; [exact (foldM_nested (fun acc block_size num_accounts =>
      (fun '(par_measurements, seq_measurements) num_accounts =>
        let% (par_tps, seq_tps) := sweep_cell blockstm_benchmark opt block_size num_accounts in
        ret (par_measurements ++ [sort par_tps], seq_measurements ++ [sort seq_tps]))
      acc num_accounts) _ _ _ _)|].
    etrans; [|exact (measurements_all opt (combinations opt) ([], []) o1)].
    apply foldM_ext. by intros [? ?] [? ?]. }
  unfold bindM in Hms |- *. rewrite Hms.
  destruct (measure_all opt (combinations opt) o1) as [[ms o2]|] eqn:Hm; [|done].
  apply measure_all_length in Hm. cbn [ret]. unfold sweep_report.
  match goal with |- match ?x with _ => _ end = _ =>
    assert (Hr : x = match report_all (negb (sweep_skip_parallel opt))
        (negb (sweep_skip_sequential opt)) (combinations opt) ms with
      | Some rs => Some ((length ms, rs), o2)
      | None => None
      end) end.
  { etrans; [exact (foldM_nested (fun acc block_size num_accounts =>
      (fun '(i, out) num_accounts =>
        let% r := lift (report_cell _ _ (map (fun m => sort m.1) ms !! i)
                          (map (fun m => sort m.2) ms !! i)) in
        ret (S i, out ++ [(num_accounts, block_size, r)])) acc num_accounts) _ _ _ _)|].
    etrans; [|exact (reports_all _ _ (combinations opt) [] ms [] o2 Hm)].
    apply foldM_ext. by intros [? ?] [? ?]. }
  rewrite Hr. unfold lift. by destruct (report_all _ _ (combinations opt) ms).
Qed.
End sweep.

(** ** From the command line to the report *)
Section commands.
Context {SENV : SimEnv} {SL : SimLaws SENV}.

(** Documented behaviour of the account generator: it generates as many accounts
    as asked for, and their sequence numbers come from a small range. *)
Definition generates_accounts : Prop :=
  forall n lo hi o, lo < hi ->
  exists g o', generate_universe n lo hi Unlimited o = (Some g, o') /\
    length (gen_accounts g) = n /\
    Forall (fun d => 0 <= data_sequence_number d < 2 ^ 32) (gen_accounts g).

Lemma with_account_nums_ready N n o :
  generates_accounts -> Z.of_nat n < 2 ^ 63 ->
  exists s, with_account_nums N o = Some s /\ sim_num_accounts s = N /\ room n s.
Proof.
  intros Hg Hn. unfold with_account_nums, add, INITIAL_BALANCE.
  rewrite wrap_in by (split; lia). cbn [mbind option_bind].
  destruct (Hg N (500000 * 1000000 * 5) (500000 * 1000000 * 5 + 1) o ltac:(lia))
    as (g & o' & -> & Hlen & Hseq). cbn [mbind option_bind].
  eexists. split; [reflexivity|]. split.
  - unfold sim_num_accounts, num_accounts. cbn. by rewrite length_map.
  - unfold room. cbn. apply Forall_map. eapply Forall_impl; [exact Hseq|]. cbn. lia.
Qed.

(** The command of a workload, with the default numbers of runs. *)
Definition command_of {SocketAddr} (w : Workload) (N n : nat) : @BenchmarkCommand SocketAddr :=
  match w with
  | Airdrop => CmdAirdrop (mkCommonOpt 0 1 N n)
  | Ballot => CmdBallot (mkCommonOpt 0 1 N n)
  | BallotSharding k => CmdBallotSharding (mkCommonShardingOpt 0 1 N n k)
  | MillionPixel => CmdMillionPixel (mkCommonOpt 0 1 N n)
  | Kitty => CmdKitty (mkCommonOpt 0 1 N n)
  | Empty => CmdEmpty (mkCommonOpt 0 1 N n)
  end.

Lemma setup_count_bound w N : suits w N -> (setup_count w N <= 2 * N)%nat.
Proof. destruct w; cbn; lia. Qed.

(** C34. A workload command, whatever the executor answers: the accounts are
    generated and stored, the calls of the workload that the command names are
    generated, set up and measured on them, and what is printed are the
    throughputs of the parallel and of the sequential execution of that block;
    the command panics exactly when the executor fails, a transaction does not
    succeed or a measurement takes less than a millisecond. *)
Theorem workload_command {SocketAddr Error} blockstm_benchmark open w N n o :
  generates_accounts -> suits w N -> Z.of_nat N < 2 ^ 60 -> Z.of_nat n < 2 ^ 54 ->
  exists s r, with_account_nums N o = Some s /\ sim_num_accounts s = N /\
    workload_spec w N n s r /\
    main (SocketAddr := SocketAddr) (Error := Error) blockstm_benchmark open (command_of w N n) o =
    match r with
    | Some (par_tps, seq_tps, _) => Some (WorkloadReport par_tps seq_tps)
    | None => None
    end.
Proof using SL.
  intros Hgen Hw HN Hn. pose proof (setup_count_bound w N Hw) as Hcount.
  destruct (with_account_nums_ready N (setup_count w N + n) o Hgen ltac:(lia)) as (s & Hs & Hnum & Hr).
  exists s, (run_workload w n s). split; [done|]. split; [done|].
  split; [apply workload_exact; (done || lia)|].
  destruct w as [| |k| | |]; cbn [command_of main];
    unfold airdrop, ballot, ballot_sharding, kitty, mp, empty, with_bencher,
      common_num_accounts, num_transactions, sharding_num_accounts, sharding_num_transactions,
      num_shardings;
    rewrite Hs; cbn [mbind option_bind run_workload]; unfold workload_report;
    match goal with |- mbind _ ?x = _ => by destruct x as [[[]]|] end.
Qed.

(** *** The replay *)

Fixpoint total (l : list Z) : Z :=
  match l with [] => 0 | x :: l => x + total l end.

Lemma total_bound b l : Forall (fun x => 0 <= x <= b) l -> 0 <= total l <= Z.of_nat (length l) * b.
Proof. induction 1; cbn [total length] in *; lia. Qed.

Lemma sum_from_ok acc l :
  0 <= acc -> Forall (fun x => 0 <= x) l -> acc + total l < 2 ^ 64 ->
  sum_from acc l = Some (acc + total l).
Proof.
  intros Ha Hl. revert acc Ha. induction Hl as [|x l Hx Hl IH]; intros acc Ha Hb; cbn in *.
  - f_equal. lia.
  - assert (0 <= total l) by (clear -Hl; induction Hl; cbn [total]; lia).
    unfold add. rewrite wrap_in by (split; lia). cbn [mbind option_bind].
    rewrite IH by lia. f_equal. lia.
Qed.

Lemma average_ok b l :
  l <> [] -> Forall (fun x => 0 <= x <= b) l -> Z.of_nat (length l) * b < 2 ^ 64 ->
  average l = Some (total l / Z.of_nat (length l)).
Proof.
  intros Hne Hl Hb. pose proof (total_bound b l Hl). unfold average.
  rewrite sum_from_ok; [|lia| |lia].
  - cbn [mbind option_bind]. unfold div. destruct l; [done|]. cbn [length].
    by destruct (Z.eqb_spec (Z.of_nat (S (length l))) 0); [lia|].
  - eapply Forall_impl; [exact Hl|]. cbn. lia.
Qed.

(** [k] measurements of the same transactions, one after the other: the parallel
    and the sequential throughputs in order, and the simulator after them. *)
Fixpoint measurements (k : nat) (run_par run_seq : bool) (txns : list SignedTransaction)
    (lim : option Z) (s : Similator) : option (list Z * list Z * Similator) :=
  match k with
  | O => Some ([], [], s)
  | S k =>
      '(par_tps, seq_tps, s) ← two_measurements run_par run_seq txns num_cpus lim s;
      '(par, seq, s) ← measurements k run_par run_seq txns lim s;
      Some (par_tps :: par, seq_tps :: seq, s)
  end.

Lemma two_measurements_bounds run_par run_seq txns c lim s par seq s' :
  two_measurements run_par run_seq txns c lim s = Some (par, seq, s') ->
  0 <= par <= Z.of_nat (length txns) * 1000 /\ 0 <= seq <= Z.of_nat (length txns) * 1000 /\
  exists o, s' = set_outside o s.
Proof.
  unfold two_measurements. intros ([p s1] & H1 & H)%bind_Some.
  apply bind_Some in H as ([q s2] & H2 & [= <- <- <-]).
  apply measurement_if_bounds in H1 as [B1 [o1 ->]], H2 as [B2 [o2 ->]].
  split_and!; [lia..|]. by exists o2.
Qed.

Lemma measurements_bounds k run_par run_seq txns lim s par seq s' :
  measurements k run_par run_seq txns lim s = Some (par, seq, s') ->
  length par = k /\ length seq = k /\
  Forall (fun x => 0 <= x <= Z.of_nat (length txns) * 1000) par /\
  Forall (fun x => 0 <= x <= Z.of_nat (length txns) * 1000) seq.
Proof.
  revert s par seq s'. induction k as [|k IH]; intros s par sq s'; cbn [measurements].
  { by intros [= <- <- <-]. }
  intros ([[p q] s1] & H1 & H)%bind_Some. apply bind_Some in H as ([[ps qs] s2] & H2 & [= <- <- <-]).
  apply two_measurements_bounds in H1 as (B1 & B2 & _). apply IH in H2 as (L1 & L2 & F1 & F2).
  cbn [length]. split_and!; [lia|lia|by constructor..].
Qed.

Section replay.
Context {Error : Type} (open : string -> result Error (list (result Error (list string)))).

Lemma replay_once_exact opt data txns s :
  read_csv_with_header open (data_path opt) = Ok data ->
  gen_transaction_for_erc20 (graph_of data) s = Some (verified_block txns, s) ->
  Z.of_nat (length txns) < 2 ^ 54 ->
  replay_once open opt s =
  two_measurements (negb (skip_parallel opt)) (negb (skip_sequential opt)) txns num_cpus
    (maybe_block_gas_limit opt) s.
Proof using SL.
  intros Hcsv Hgen Hlen. unfold replay_once. rewrite Hcsv. unfold bindM. rewrite Hgen.
  by apply blockstm_exact.
Qed.

(** The transactions depend on the accounts only, which a replay keeps. *)
Lemma gen_erc20_outside graph s o block :
  gen_transaction_for_erc20 graph s = Some (block, s) ->
  gen_transaction_for_erc20 graph (set_outside o s) = Some (block, set_outside o s).
Proof.
  unfold gen_transaction_for_erc20. cbn [account_universe set_outside].
  destruct (erc20_loop _ _ _) as [[m txns]|]; [|done]. cbn. congruence.
Qed.

Lemma replay_loop_exact opt data txns k s :
  read_csv_with_header open (data_path opt) = Ok data ->
  gen_transaction_for_erc20 (graph_of data) s = Some (verified_block txns, s) ->
  Z.of_nat (length txns) < 2 ^ 54 ->
  replay_loop open opt k s =
  measurements k (negb (skip_parallel opt)) (negb (skip_sequential opt)) txns
    (maybe_block_gas_limit opt) s.
Proof using SL.
  intros Hcsv Hgen Hlen. unfold replay_loop, for_.
  assert (H : forall (l : list nat) par seq s,
    gen_transaction_for_erc20 (graph_of data) s = Some (verified_block txns, s) ->
    foldM (fun '(par_measurements, seq_measurements) _ =>
      let% (tps1, tps2) := replay_once open opt in
      ret (par_measurements ++ [tps1], seq_measurements ++ [tps2])) (par, seq) l s =
    match measurements (length l) (negb (skip_parallel opt)) (negb (skip_sequential opt)) txns
      (maybe_block_gas_limit opt) s with
    | Some (p, q, s') => Some ((par ++ p, seq ++ q), s')
    | None => None
    end).
  { clear s Hgen. induction l as [|x l IH]; intros par sq s Hgen.
    { cbn. by rewrite !app_nil_r. }
    cbn [foldM length measurements]. unfold bindM at 1 2.
    rewrite (replay_once_exact opt data txns s Hcsv Hgen Hlen).
    destruct (two_measurements _ _ txns _ _ s) as [[[t1 t2] s1]|] eqn:Ht; [|done].
    cbn [mbind option_bind ret]. apply two_measurements_bounds in Ht as (_ & _ & o & ->).
    rewrite IH by (by apply gen_erc20_outside).
    destruct (measurements (length l) _ _ txns _ _) as [[[p q] s']|]; [|done]. cbn.
    by rewrite <-!app_assoc. }
  rewrite (H (seq 0 k) [] [] s Hgen), length_seq.
  by destruct (measurements k _ _ txns _ s) as [[[]]|].
Qed.

(** C35. The replay of historical transfers, whatever the executor answers: the
    accounts are generated and the transfers of the file, one per line and in
    order, each with the next sequence number of its sender, are executed once
    for every warm-up and once for every run, on the same accounts and the same
    state view; the averages that are printed, of the parallel measurements and
    of the sequential ones, are those of all these measurements, the warm-ups
    included.  The command panics when one of the measurements does and, because
    the average divides by the number of measurements, when there is none. *)
Theorem replay_reports opt data o :
  generates_accounts ->
  let N := replay_num_accounts opt in
  let runs := num_runs opt + num_warmups opt in
  read_csv_with_header open (data_path opt) = Ok data ->
  Forall (fun e => 0 <= e.1 < Z.of_nat N /\ 0 <= e.2 < Z.of_nat N) data ->
  skip_parallel opt && skip_sequential opt = false ->
  Z.of_nat (length data) < 2 ^ 54 -> 0 <= runs -> runs < 2 ^ 64 ->
  runs * (Z.of_nat (length data) * 1000) < 2 ^ 64 ->
  exists s txns, with_account_nums N o = Some s /\ sim_num_accounts s = N /\
    sent (sim_accounts s) (graph_of data).*1 txns /\
    Forall2 (transfer_of (sim_accounts s)) (graph_of data) txns /\
    replay_erc20 open opt o =
    match measurements (Z.to_nat runs) (negb (skip_parallel opt)) (negb (skip_sequential opt))
      txns (maybe_block_gas_limit opt) s with
    | Some (par, seq, s') =>
        if runs =? 0 then None
        else Some (if skip_sequential opt then None else Some (total seq / runs),
                   if skip_parallel opt then None else Some (total par / runs), s')
    | None => None
    end.
Proof using SL.
  intros Hgen N runs Hcsv Hdata Hskip Hlen Hr0 Hr Hsum.
  assert (Hgl : length (graph_of data) = length data) by apply length_map.
  destruct (with_account_nums_ready N (length data) o Hgen ltac:(lia)) as (s & Hs & Hnum & Hroom).
  destruct (erc20_transactions_ok (graph_of data) s) as (txns & H1 & H2 & H3).
  { by rewrite Hgl. }
  { apply Forall_map. eapply Forall_impl; [exact Hdata|]. cbn. rewrite Hnum. lia. }
  assert (Hl : length txns = length data)
    by (rewrite <-Hgl; symmetry; by eapply Forall2_length).
  exists s, txns. split_and!; [done..|]. unfold replay_erc20. fold N. rewrite Hs. cbn [mbind option_bind].
  assert (Hg : negb (skip_sequential opt) || negb (skip_parallel opt) = true).
  { by destruct (skip_parallel opt), (skip_sequential opt). }
  rewrite Hg. cbn [negb]. unfold add. rewrite wrap_in by done. cbn [mbind option_bind].
  fold runs. rewrite (replay_loop_exact opt data txns) by (done || lia).
  destruct (measurements _ _ _ txns _ s) as [[[par seq] s']|] eqn:Hm; [|done].
  apply measurements_bounds in Hm as (Lp & Lq & Bp & Bq). rewrite Hl in Bp, Bq.
  cbn [mbind option_bind]. destruct (Z.eqb_spec runs 0) as [Hz|Hz].
  { rewrite Hz in Lp, Lq. destruct par, seq; try done.
    by destruct (skip_sequential opt), (skip_parallel opt). }
  assert (Ha : forall l, length l = Z.to_nat runs ->
    Forall (fun x => 0 <= x <= Z.of_nat (length data) * 1000) l ->
    average l = Some (total l / runs)).
  { intros l Hll Hb. etrans; [eapply average_ok; [|exact Hb|]|do 2 f_equal; lia].
    - intros ->. cbn in Hll. lia.
    - rewrite Hll. lia. }
  rewrite (Ha par), (Ha seq) by done.
  by destruct (skip_sequential opt), (skip_parallel opt).
Qed.
End replay.
End commands.
