(* ===== verification/SimWitnesses.v ===== *)
(** A concrete simulator: a virtual machine that checks sequence numbers, a
    counter for the random numbers and the clock; and the theorems about the
    simulator and the commands at concrete inputs. *)
From stdpp Require Import base list option numbers strings gmap sorting.
From S2P Require Import Prelude Prog Machine CommonTransactions AccountUniverse.
From S2P Require Import UniverseWitnesses Simulator SimulatorSpec BenchMain BenchMainSpec.

Open Scope Z_scope.

(** ** The environment *)

(** An output: its status and the address whose number it advances. *)
Record ToyOutput : Type := mkToyOutput {
  toy_status : @TransactionStatus toy_accounts;
  toy_write : option Z;
}.

(** The store is the next sequence number of every address. *)
Definition toy_add_write_set (w : option Z) (v : Z -> Z) : Z -> Z :=
  match w with
  | Some x => fun y => if decide (y = x) then v y + 1 else v y
  | None => v
  end.

Fixpoint toy_vm (txns : list ToyTxn) (v : Z -> Z) : list ToyOutput :=
  match txns with
  | [] => []
  | t :: txns =>
      if toy_seq t =? v (toy_sender t) then
        mkToyOutput (Keep ExecSuccess) (Some (toy_sender t)) ::
        toy_vm txns (toy_add_write_set (Some (toy_sender t)) v)
      else mkToyOutput (Discard (OtherDiscard 3)) None :: toy_vm txns v
  end.

Definition toy_gen_universe (n : nat) (lo : Z) : list (@AccountData toy_accounts) :=
  map (fun i => (Z.of_nat i, lo, Z.of_nat i * 2 mod 7)) (seq 0 n).

#[export] Instance toy_sim : SimEnv := {|
  sim_env := toy_env;
  Transaction := ToyTxn;
  UserTransaction t := t;
  VerifiedTransaction := ToyTxn;
  into_signature_verified_block l := l;
  TransactionOutput := ToyOutput;
  SimWriteSet := option Z;
  status := toy_status;
  write_set := toy_write;
  StateView := Z -> Z;
  add_write_set := toy_add_write_set;
  SimExecutor := Z -> Z;
  sim_from_head_genesis := fun _ => 0;
  sim_add_account_data d e := fun x => if decide (x = d.1.1) then d.2 else e x;
  get_state_view e := e;
  Outside := Z;
  gen_range_outside low high o := (low + o mod (high - low), o + 1);
  now_outside o := (o * 2000000, o + 1);
  vm_execute_block txns v _ _ o := (Some (toy_vm txns v), o);
  num_cpus := 8;
  generate_universe n lo _ style o := (Some (mkUniverseGen (ENV := toy_env) (toy_gen_universe n lo) style), o);
|}.

#[export] Instance toy_sim_laws : SimLaws toy_sim.
Proof.
  split.
  - exact toy_transaction_laws.
  - intros low high o Hlt. cbn. pose proof (Z.mod_pos_bound o (high - low)). lia.
  - reflexivity.
  - intros a b Hb. change (b ∈ replicate 31 0 ++ [a mod 256]) in Hb.
    rewrite elem_of_app, elem_of_replicate, list_elem_of_singleton in Hb.
    pose proof (Z.mod_pos_bound a 256). lia.
  - done.
Qed.

Lemma toy_clock block c lim s : 1 <= measured_ms (SENV := toy_sim) block c lim s < 2 ^ 64.
Proof.
  unfold measured_ms. cbn.
  replace (Z.max 0 ((outside s + 1) * 2000000 - outside s * 2000000)) with 2000000 by lia.
  by vm_compute.
Qed.

Lemma toy_genesis : generates_accounts (SENV := toy_sim).
Proof.
  intros n lo hi o _. eexists _, o. split; [reflexivity|]. cbn [gen_accounts].
  unfold toy_gen_universe. split; [by rewrite length_map, length_seq|].
  apply Forall_map. apply Forall_forall. intros i _. cbn.
  pose proof (Z.mod_pos_bound (Z.of_nat i * 2) 7). lia.
Qed.

(** ** Witnesses *)

(** A fact about every item of a concrete list. *)
Ltac each := repeat (apply Forall_cons; split; [cbn; lia|]); apply Forall_nil_2.

(** Three accounts and the store they were added to. *)
Definition toy_simulator : Similator (SENV := toy_sim) :=
  let l := toy_gen_universe 3 INITIAL_BALANCE in
  mkSimilator (SENV := toy_sim) (new_universe (ENV := toy_env) l Unlimited true)
    (get_state_view (foldl (fun e d => sim_add_account_data d e) sim_from_head_genesis l)) 0.

Lemma toy_room n : Z.of_nat n < 2 ^ 32 -> room (SENV := toy_sim) n toy_simulator.
Proof.
  intros Hn. destruct (with_account_nums_ready (SENV := toy_sim) 3 n 0 toy_genesis)
    as (s & Hs & _ & Hr); [lia|].
  assert (H : with_account_nums (SENV := toy_sim) 3 0 = Some toy_simulator) by reflexivity.
  rewrite H in Hs. injection Hs as <-. exact Hr.
Qed.

Lemma measure_result_witness :
  exists o, measure (SENV := toy_sim) [] 4 None toy_simulator = Some (([], 0), set_outside o toy_simulator).
Proof.
  destruct (measure_result (SENV := toy_sim) [] 4 None toy_simulator) as (_ & _ & H).
  - cbn. lia.
  - pose proof (toy_clock [] 4 None toy_simulator). lia.
  - exact (H [] eq_refl ltac:(reflexivity)).
Defined.

(** The run returns, with 2000 transactions per second in both measurements. *)
Lemma workload_runs_witness :
  option_map fst (run_workload (SENV := toy_sim) Kitty 4 toy_simulator) = Some (2000, 2000) /\
  workload_spec (SENV := toy_sim) Kitty 3 4 toy_simulator
    (run_workload (SENV := toy_sim) Kitty 4 toy_simulator).
Proof.
  split; [vm_compute; reflexivity|].
  apply (workload_runs (SENV := toy_sim) Kitty 3 4 toy_simulator).
  - cbn. lia.
  - lia.
  - lia.
  - reflexivity.
  - apply toy_room. cbn. lia.
Defined.

Lemma erc20_transactions_witness :
  exists txns, gen_transaction_for_erc20 (SENV := toy_sim) [(0, 1); (2, 0); (0, 2)]%nat toy_simulator =
      Some (verified_block txns, toy_simulator) /\
    sent (SENV := toy_sim) (sim_accounts toy_simulator) [0; 2; 0]%nat txns /\
    map txn_sequence_number txns = [0; 4; 1].
Proof.
  destruct (erc20_transactions (SENV := toy_sim) [(0, 1); (2, 0); (0, 2)]%nat toy_simulator)
    as (txns & H1 & H2 & _).
  - apply (toy_room 3 ltac:(lia)).
  - each.
  - exists txns. split; [exact H1|]. split; [exact H2|].
    destruct txns as [|t1 [|t2 [|t3 [|]]]]; cbn in H2; try tauto.
    destruct H2 as ((a & Ha & [_ E1 _]) & (b & Hb & [_ E2 _]) & (c & Hc & [_ E3 _]) & _).
    injection Ha as <-. injection Hb as <-. injection Hc as <-.
    change (toy_seq t1 = 0) in E1. change (toy_seq t2 = 4) in E2. change (toy_seq t3 = 1) in E3.
    change ([toy_seq t1; toy_seq t2; toy_seq t3] = [0; 4; 1]). by rewrite E1, E2, E3.
Defined.

Lemma shard_of_voter_witness :
  ballot_sharding_votes (SENV := toy_sim) 1 600 256 toy_simulator = None /\
  forall a i, forums_index (SENV := toy_sim) a 300 = Some i -> 0 <= i < 44.
Proof.
  split.
  - apply (proj2 (shard_of_voter (SENV := toy_sim) 256)). reflexivity.
  - exact (proj1 (shard_of_voter (SENV := toy_sim) 300)).
Defined.

(** A file with two transfers; the last column is not read. *)
Definition toy_open (path : string) : result unit (list (result unit (list string))) :=
  Ok [Ok [print_usize 1; print_usize 2; "x"%string]; Ok [print_usize 0; print_usize 1; "x"%string]].

Lemma csv_roundtrip_witness :
  read_csv_with_header toy_open "data.csv" = Ok [(1, 2); (0, 1)].
Proof.
  apply (csv_roundtrip toy_open "data.csv" [(1, 2); (0, 1)] (fun _ => ["x"%string])).
  - each.
  - reflexivity.
Defined.

Lemma workload_command_witness :
  main (SENV := toy_sim) (SocketAddr := unit) (fun _ _ _ _ _ _ _ _ _ _ _ _ _ => panic) toy_open
    (command_of Ballot 5 3) 0 = Some (WorkloadReport 1500 1500) /\
  exists s r, with_account_nums 5 0 = Some s /\ sim_num_accounts s = 5%nat /\
    workload_spec (SENV := toy_sim) Ballot 5 3 s r /\
    main (SENV := toy_sim) (SocketAddr := unit) (fun _ _ _ _ _ _ _ _ _ _ _ _ _ => panic) toy_open
      (command_of Ballot 5 3) 0 =
    match r with
    | Some (par_tps, seq_tps, _) => Some (WorkloadReport par_tps seq_tps)
    | None => None
    end.
Proof.
  split; [vm_compute; reflexivity|].
  apply (workload_command (SENV := toy_sim) _ _ Ballot 5 3 0).
  - exact toy_genesis.
  - cbn. lia.
  - lia.
  - lia.
Defined.

Definition toy_replay : ReplayERC20HistoricOpt := mkReplayOpt false false 1 2 None "data.csv" 3.

Lemma replay_reports_witness :
  option_map fst (replay_erc20 (SENV := toy_sim) toy_open toy_replay 0) =
    Some (Some 1000, Some 1000) /\
  exists s txns, with_account_nums 3 0 = Some s /\ sim_num_accounts s = 3%nat /\
    sent (SENV := toy_sim) (sim_accounts s) [1; 0]%nat txns /\
    Forall2 (transfer_of (sim_accounts s)) [(1, 2); (0, 1)]%nat txns /\
    replay_erc20 (SENV := toy_sim) toy_open toy_replay 0 =
    match measurements (SENV := toy_sim) 3 true true txns None s with
    | Some (par, seq, s') => Some (Some (total seq / 3), Some (total par / 3), s')
    | None => None
    end.
Proof.
  split; [vm_compute; reflexivity|].
  apply (replay_reports (SENV := toy_sim) toy_open toy_replay [(1, 2); (0, 1)] 0).
  - exact toy_genesis.
  - reflexivity.
  - each.
  - reflexivity.
  - cbn. lia.
  - cbn. lia.
  - cbn. lia.
  - cbn. lia.
Defined.
