(* ===== verification/FileSystem.v ===== *)
(** The part of the file system that the traces of the fake executor use, and
    [FakeExecutor::trace] itself.

    A path is the list of its components, the innermost first; a file system
    maps paths to directories and files.  Creating what exists already, and
    using what does not exist, are errors. *)
From stdpp Require Import base list option numbers strings gmap pretty.
From S2P Require Import Prelude Machine.

Abbreviation path := (list string).

Inductive node : Type := Dir | File (content : list Z).

#[export] Instance node_eq_dec : EqDecision node.
Proof. solve_decision. Defined.

Abbreviation FS := (gmap path node).

Definition join (d : path) (name : string) : path := name :: d.

Definition is_child (d p : path) : bool :=
  match p with [] => false | _ :: d' => bool_decide (d' = d) end.

Section operations.
Implicit Types fs : FS.

(** The paths of the entries of a directory. *)
Definition children (d : path) (fs : FS) : list path :=
  filter (fun p => is_child d p = true) (map fst (map_to_list fs)).

(** [fs::read_dir(dir)?.count()]. *)
Definition read_dir_count (d : path) (fs : FS) : option nat :=
  match fs !! d with Some Dir => Some (length (children d fs)) | _ => None end.

(** A new file with its content: [create_new(true).open(path)], then a write. *)
Definition create_new (p : path) (content : list Z) (fs : FS) : option FS :=
  match p with
  | [] => None
  | _ :: d =>
      match fs !! d, fs !! p with
      | Some Dir, None => Some (<[p := File content]> fs)
      | _, _ => None
      end
  end.

Definition create_dir (p : path) (fs : FS) : option FS :=
  match p with
  | [] => None
  | _ :: d =>
      match fs !! d, fs !! p with
      | Some Dir, None => Some (<[p := Dir]> fs)
      | _, _ => None
      end
  end.

Fixpoint create_dir_all (p : path) (fs : FS) : option FS :=
  match p with
  | [] => match fs !! [] with Some Dir => Some fs | _ => None end
  | _ :: d =>
      fs ← create_dir_all d fs;
      match fs !! p with
      | Some Dir => Some fs
      | Some (File _) => None
      | None => Some (<[p := Dir]> fs)
      end
  end.

(** A directory with everything below it. *)
Definition remove_dir_all (d : path) (fs : FS) : FS :=
  filter (fun kv => ~ (d `suffix_of` kv.1)) fs.

(** [FakeExecutor::trace]: the item becomes the next numbered file. *)
Definition trace {T} (to_bytes : T -> option (list Z)) (dir : path) (item : T) : M FS nat :=
  fun fs =>
    seq ← read_dir_count dir fs;
    bytes ← to_bytes item;
    fs ← create_new (join dir (pretty seq)) bytes fs;
    Some (seq, fs).

(** Every item of a list, in order; the numbers are pushed. *)
Definition trace_all {T} (to_bytes : T -> option (list Z)) (dir : path) (items : list T)
    : M FS (list nat) :=
  foldM (fun seqs item => let% seq := trace to_bytes dir item in ret (seqs ++ [seq])) [] items.

End operations.

(** ** Numbered directories *)
Section numbered.

(** The entries of the directory [d] are exactly the names [0 .. n-1]. *)
Definition numbered (d : path) (n : nat) (fs : FS) : Prop :=
  fs !! d = Some Dir /\
  forall name, is_Some (fs !! join d name) <-> exists i, (i < n)%nat /\ name = pretty i.

Lemma elem_of_children d p fs : p ∈ children d fs <-> is_Some (fs !! p) /\ is_child d p = true.
Proof.
  unfold children. rewrite list_elem_of_filter, elem_of_map. split.
  - intros [Hc ([k v] & -> & Hin%elem_of_map_to_list)]. split; [|done]. by exists v.
  - intros [[v Hv] Hc]. split; [done|]. exists (p, v). by rewrite elem_of_map_to_list.
Qed.

Lemma numbered_count d n fs : numbered d n fs -> read_dir_count d fs = Some n.
Proof.
  intros [Hd Hn]. unfold read_dir_count. rewrite Hd. f_equal.
  transitivity (length (map (fun i => join d (pretty i)) (seq 0 n)));
    [|by rewrite length_map, length_seq].
  apply Permutation_length, NoDup_Permutation.
  - apply NoDup_filter. apply NoDup_fst_map_to_list.
  - change (NoDup ((fun i : nat => join d (pretty i)) <$> seq 0 n)). apply NoDup_fmap_2.
    + intros i j [= H]. by apply (inj pretty) in H.
    + apply NoDup_seq.
  - intros p. rewrite elem_of_children, elem_of_map. split.
    + intros [Hs Hc]. destruct p as [|name d']; [done|]. cbn in Hc.
      apply bool_decide_eq_true in Hc as ->.
      destruct (proj1 (Hn name) Hs) as (i & Hi & ->). exists i.
      split; [done|]. apply elem_of_seq. lia.
    + intros (i & -> & Hi%elem_of_seq). split.
      * apply (Hn (pretty i)). exists i. split; [lia|done].
      * cbn. by apply bool_decide_eq_true.
Qed.

Lemma numbered_insert d n fs b :
  numbered d n fs -> numbered d (S n) (<[join d (pretty n) := File b]> fs).
Proof.
  intros [Hd Hn]. split.
  - rewrite lookup_insert_ne; [done|]. intros H. apply (f_equal length) in H. cbn in H. lia.
  - intros name. destruct (decide (name = pretty n)) as [->|Hne].
    + rewrite lookup_insert_eq. split; [|done]. intros _. exists n. split; [lia|done].
    + rewrite lookup_insert_ne by (intros [= H]; done). rewrite Hn. split.
      * intros (i & Hi & ->). exists i. split; [lia|done].
      * intros (i & Hi & ->). exists i. split; [|done].
        destruct (decide (i = n)) as [->|]; [done|lia].
Qed.

(** A directory that is not the parent of the new file keeps its entries. *)
Lemma numbered_frame d n fs p b :
  is_child d p = false -> p <> d -> numbered d n fs -> numbered d n (<[p := File b]> fs).
Proof.
  intros Hc Hp [Hd Hn]. split; [by rewrite lookup_insert_ne|]. intros name.
  rewrite lookup_insert_ne; [done|]. intros ->. cbn in Hc. by apply bool_decide_eq_false in Hc.
Qed.

Context {T : Type} (to_bytes : T -> option (list Z)).

Lemma trace_ok d n fs item b :
  numbered d n fs -> to_bytes item = Some b ->
  trace to_bytes d item fs = Some (n, <[join d (pretty n) := File b]> fs).
Proof.
  intros Hn Hb. unfold trace. rewrite (numbered_count _ _ _ Hn), Hb. cbn [mbind option_bind].
  destruct Hn as [Hd Hn]. unfold create_new, join. rewrite Hd.
  destruct (fs !! (pretty n :: d)) as [x|] eqn:Hx; [|done]. exfalso.
  destruct (proj1 (Hn (pretty n))) as (i & Hi & Heq); [by exists x|].
  apply (inj pretty) in Heq. lia.
Qed.

(** What a list of items leaves in a directory that had [n] entries. *)
Fixpoint traced (d : path) (n : nat) (items : list T) (fs : FS) : FS :=
  match items with
  | [] => fs
  | item :: items =>
      traced d (S n) items (<[join d (pretty n) := File (default [] (to_bytes item))]> fs)
  end.

Lemma trace_all_ok d n fs items :
  numbered d n fs -> Forall (fun i => is_Some (to_bytes i)) items ->
  trace_all to_bytes d items fs = Some (seq n (length items), traced d n items fs) /\
  numbered d (n + length items) (traced d n items fs).
Proof.
  intros Hn Hi. unfold trace_all.
  assert (H : forall seqs, foldM (fun seqs item =>
      let% seq := trace to_bytes d item in ret (seqs ++ [seq])) seqs items fs =
      Some (seqs ++ seq n (length items), traced d n items fs) /\
    numbered d (n + length items) (traced d n items fs)); [|apply H].
  revert n fs Hn. induction Hi as [|item items [b Hb] Hi IH]; intros n fs Hn seqs.
  { cbn. rewrite app_nil_r, Nat.add_0_r. done. }
  cbn [foldM traced length seq]. rewrite Hb. cbn [default from_option id].
  destruct (IH (S n) _ (numbered_insert d n fs b Hn) (seqs ++ [n])) as [H1 H2].
  rewrite <-app_assoc in H1. rewrite Nat.add_succ_r. split; [|done].
  unfold bindM at 1 2. rewrite (trace_ok _ _ _ _ _ Hn Hb). exact H1.
Qed.

(** The files of the items, and that nothing else changes. *)
Lemma traced_other d n items fs p :
  is_child d p = false -> traced d n items fs !! p = fs !! p.
Proof.
  intros Hc. revert n fs. induction items as [|item items IH]; intros n fs; [done|]. cbn.
  rewrite IH, lookup_insert_ne; [done|]. intros <-. cbn in Hc. by apply bool_decide_eq_false in Hc.
Qed.

Lemma traced_before d n items fs m :
  (m < n)%nat -> traced d n items fs !! join d (pretty m) = fs !! join d (pretty m).
Proof.
  revert n fs. induction items as [|item items IH]; intros n fs Hm; [done|]. cbn.
  rewrite IH by lia. rewrite lookup_insert_ne; [done|]. intros [= H].
  apply (inj pretty) in H. lia.
Qed.

Lemma traced_item d n items fs i item :
  items !! i = Some item ->
  traced d n items fs !! join d (pretty (n + i)%nat) = Some (File (default [] (to_bytes item))).
Proof.
  revert n fs i. induction items as [|it items IH]; intros n fs i Hi; [done|]. cbn.
  destruct i as [|i]; cbn in Hi.
  - injection Hi as ->. rewrite Nat.add_0_r, traced_before by lia. by rewrite lookup_insert_eq.
  - rewrite Nat.add_succ_r. change (S (n + i)) with (S n + i)%nat. by apply IH.
Qed.

End numbered.
