(* ===== verification/FakeExecutor.v ===== *)
(** The fake executor: [e2e-tests/src/executor.rs].

    [FakeExecutor] keeps a data store, the events, the block time, the mode of
    execution and where to write traces and golden files.  Its methods run over
    a world: the file system, the environment variables, the golden files and
    what is outside the repository.  The data store, the virtual machines, the
    genesis write sets and the types of transactions are interfaces. *)
From Stdlib Require Import Ascii.
From stdpp Require Import base list option numbers strings gmap pretty sorting.
From S2P Require Import Prelude Prog Machine CommonTransactions AccountUniverse FileSystem.

(** ** Interfaces *)

Record LocalConfig : Type := mkLocalConfig {
  concurrency_level : Z;
  allow_fallback : bool;
  discard_failed_blocks : bool;
}.

Class FakeEnv := {
  fake_env :: Env;
  (** [Transaction], [SignatureVerifiedTransaction], [BlockMetadata]. *)
  FTransaction : Type;
  FVerified : Type;
  BlockMetadata : Type;
  user_transaction : SignedTransaction -> FTransaction;
  block_metadata : BlockMetadata -> FTransaction;
  verify_block : list FTransaction -> list FVerified;
  (** [BlockMetadata::new(HashValue::zero(), 0, 0, proposer, bits, failed, time)]
      for a number of validators. *)
  new_block_metadata : Address -> Z -> list Z -> Z -> BlockMetadata;
  (** [WriteSet], [StateKey], [WriteOp]. *)
  FWriteSet : Type;
  StateKey : Type;
  state_key_eq :: EqDecision StateKey;
  WriteOp : Type;
  write_op_eq :: EqDecision WriteOp;
  write_set_iter : FWriteSet -> list (StateKey * WriteOp);
  write_set_get : StateKey -> FWriteSet -> option WriteOp;
  (** [ContractEvent], [TransactionOutput], [FeeStatement], [VMStatus]. *)
  ContractEvent : Type;
  FOutput : Type;
  output_eq :: EqDecision FOutput;
  FeeStatement : Type;
  fee_statement_eq :: EqDecision FeeStatement;
  default_fee_statement : FeeStatement;
  try_extract_fee_statement : FOutput -> option FeeStatement;
  fo_status : FOutput -> TransactionStatus;
  fo_write_set : FOutput -> FWriteSet;
  fo_events : FOutput -> list ContractEvent;
  fo_gas_used : FOutput -> Z;
  VMStatus : Type;
  vm_status_eq :: EqDecision VMStatus;
  (** [event.v1()], its key compared with [new_block_event_key()], and whether
      its data is a [NewBlockEvent]. *)
  event_is_v1 : ContractEvent -> bool;
  event_is_new_block : ContractEvent -> bool;
  event_data_is_new_block : ContractEvent -> bool;
  (** [FakeDataStore]. *)
  DataStore : Type;
  Bytes : Type;
  default_store : DataStore;
  store_add_write_set : FWriteSet -> DataStore -> DataStore;
  store_add_account_data : AccountData -> DataStore -> DataStore;
  store_add_coin_info : DataStore -> DataStore;
  ModuleId : Type;
  store_add_module : ModuleId -> Bytes -> DataStore -> DataStore;
  store_set : StateKey -> Bytes -> DataStore -> DataStore;
  store_get : StateKey -> DataStore -> option Bytes;
  (** Configurations read from the store: [AptosVersion], [ValidatorSet] (the
      addresses of its payload and [num_validators]). *)
  aptos_version_major : DataStore -> option Z;
  validator_set : DataStore -> option (list Address * Z);
  (** The key of a resource type at an address, and its decoding. *)
  ResourceType : Type;
  resource_typed : ResourceType -> Address -> option StateKey;
  Resource : Type;
  resource_from_bytes : ResourceType -> Bytes -> option Resource;
  (** Genesis write sets. *)
  GENESIS_CHANGE_SET_HEAD : FWriteSet;
  GENESIS_CHANGE_SET_TESTNET : FWriteSet;
  GENESIS_CHANGE_SET_MAINNET : FWriteSet;
  genesis_for_testing_with_count : Z -> FWriteSet;
  ReleaseBundle : Type;
  generate_test_genesis : ReleaseBundle -> option Z -> FWriteSet;
  head_release_modules : list (Bytes * ModuleId);
  chain_id_test : Z;
  chain_id_testnet : Z;
  chain_id_mainnet : Z;
  Features : Type;
  default_features : Features;
  (** Keys and accounts. *)
  KeyGen : Type;
  key_gen_from_seed : list Z -> KeyGen;
  account_from_seed : KeyGen -> Account * KeyGen;
  account_data_from_seed : Z -> Z -> KeyGen -> AccountData * KeyGen;
  new_genesis_account : Address -> Account;
  with_account : Account -> Z -> Z -> AccountData;
  (** What is outside: thread scheduling, the clock, random addresses. *)
  FOutside : Type;
  fake_num_cpus : Z;
  (** [BlockAptosVM::execute_block] with a local configuration and the on-chain
      one for tests, then [into_transaction_outputs_forced]; [None] when it
      panics, as it does when the parallel execution fails and falling back is
      not allowed. *)
  block_vm : list FVerified -> DataStore -> LocalConfig -> FOutside ->
    option (result VMStatus (list FOutput) * FOutside);
  (** [bcs::to_bytes] of what is traced. *)
  store_to_bytes : DataStore -> option (list Z);
  transaction_to_bytes : FTransaction -> option (list Z);
  output_to_bytes : FOutput -> option (list Z);
  mapping_to_bytes : nat * list nat * list nat -> option (list Z);
  vm_status_to_bytes : VMStatus -> list Z;
}.

Section definitions.
Context {FE : FakeEnv}.
Open Scope Z_scope.

(** ** State *)

Inductive ExecutorMode : Type := SequentialOnly | ParallelOnly | BothComparison.

#[global] Instance ExecutorMode_eq_dec : EqDecision ExecutorMode.
Proof. solve_decision. Defined.

(** A golden file: [GoldenOutputs::new(name)], [GoldenOutputs::new_at_path]. *)
Inductive GoldenOutputs : Type :=
| golden_new (file_name : string)
| golden_at (path file_name : string).

Record FakeExecutor : Type := mkFakeExecutor {
  data_store : DataStore;
  event_store : list ContractEvent;
  block_time : Z;
  executed_output : option GoldenOutputs;
  trace_dir : option path;
  rng : KeyGen;
  executor_mode : option ExecutorMode;
  features : Features;
  chain_id : Z;
  allow_block_executor_fallback : bool;
}.

(** The world: files, environment variables and what was logged to golden
    files. *)
Record World : Type := mkWorld {
  files : FS;
  env_vars : gmap string path;
  golden : list (GoldenOutputs * result VMStatus (list FOutput));
  w_outside : FOutside;
}.

Definition set_files (fs : FS) (w : World) : World := mkWorld fs (env_vars w) (golden w) (w_outside w).
Definition set_golden (l : list (GoldenOutputs * result VMStatus (list FOutput))) (w : World) : World :=
  mkWorld (files w) (env_vars w) l (w_outside w).
Definition set_w_outside (o : FOutside) (w : World) : World :=
  mkWorld (files w) (env_vars w) (golden w) o.

(** An operation on files. *)
Definition on_files {A} (p : M FS A) : M World A :=
  fun w => match p (files w) with Some (a, fs) => Some (a, set_files fs w) | None => None end.

(** Setters of the fields that methods assign. *)
Definition set_data_store (d : DataStore) (e : FakeExecutor) : FakeExecutor :=
  mkFakeExecutor d (event_store e) (block_time e) (executed_output e) (trace_dir e) (rng e)
    (executor_mode e) (features e) (chain_id e) (allow_block_executor_fallback e).
Definition set_event_store (l : list ContractEvent) (e : FakeExecutor) : FakeExecutor :=
  mkFakeExecutor (data_store e) l (block_time e) (executed_output e) (trace_dir e) (rng e)
    (executor_mode e) (features e) (chain_id e) (allow_block_executor_fallback e).
Definition set_block_time (t : Z) (e : FakeExecutor) : FakeExecutor :=
  mkFakeExecutor (data_store e) (event_store e) t (executed_output e) (trace_dir e) (rng e)
    (executor_mode e) (features e) (chain_id e) (allow_block_executor_fallback e).
Definition set_executed_output (o : option GoldenOutputs) (e : FakeExecutor) : FakeExecutor :=
  mkFakeExecutor (data_store e) (event_store e) (block_time e) o (trace_dir e) (rng e)
    (executor_mode e) (features e) (chain_id e) (allow_block_executor_fallback e).
Definition set_trace_dir (o : option path) (e : FakeExecutor) : FakeExecutor :=
  mkFakeExecutor (data_store e) (event_store e) (block_time e) (executed_output e) o (rng e)
    (executor_mode e) (features e) (chain_id e) (allow_block_executor_fallback e).
Definition set_rng (r : KeyGen) (e : FakeExecutor) : FakeExecutor :=
  mkFakeExecutor (data_store e) (event_store e) (block_time e) (executed_output e) (trace_dir e) r
    (executor_mode e) (features e) (chain_id e) (allow_block_executor_fallback e).
Definition set_executor_mode (mode : ExecutorMode) (e : FakeExecutor) : FakeExecutor :=
  mkFakeExecutor (data_store e) (event_store e) (block_time e) (executed_output e) (trace_dir e)
    (rng e) (Some mode) (features e) (chain_id e) (allow_block_executor_fallback e).
Definition disable_block_executor_fallback (e : FakeExecutor) : FakeExecutor :=
  mkFakeExecutor (data_store e) (event_store e) (block_time e) (executed_output e) (trace_dir e)
    (rng e) (executor_mode e) (features e) (chain_id e) false.

Definition set_not_parallel (e : FakeExecutor) : FakeExecutor := set_executor_mode SequentialOnly e.
Definition set_parallel (e : FakeExecutor) : FakeExecutor := set_executor_mode BothComparison e.

(** ** The data store *)

Definition apply_write_set (ws : FWriteSet) (e : FakeExecutor) : FakeExecutor :=
  set_data_store (store_add_write_set ws (data_store e)) e.
Definition append_events (events : list ContractEvent) (e : FakeExecutor) : FakeExecutor :=
  set_event_store (event_store e ++ events) e.
Definition add_account_data (d : AccountData) (e : FakeExecutor) : FakeExecutor :=
  set_data_store (store_add_account_data d (data_store e)) e.
Definition add_coin_info (e : FakeExecutor) : FakeExecutor :=
  set_data_store (store_add_coin_info (data_store e)) e.
Definition add_module (id : ModuleId) (blob : Bytes) (e : FakeExecutor) : FakeExecutor :=
  set_data_store (store_add_module id blob (data_store e)) e.

(** [None] is a panic, [Some None] a resource that cannot be decoded. *)
Definition read_resource (T : ResourceType) (addr : Address) (e : FakeExecutor)
    : option (option Resource) :=
  key ← resource_typed T addr;
  data_blob ← store_get key (data_store e);
  Some (resource_from_bytes T data_blob).

Definition read_state_value_bytes (key : StateKey) (e : FakeExecutor) : option Bytes :=
  store_get key (data_store e).
Definition write_state_value (key : StateKey) (blob : Bytes) (e : FakeExecutor) : FakeExecutor :=
  set_data_store (store_set key blob (data_store e)) e.

(** ** Construction *)

Definition RNG_SEED : list Z := replicate 32 9.

Definition no_genesis : FakeExecutor :=
  mkFakeExecutor default_store [] 0 None None (key_gen_from_seed RNG_SEED) None default_features
    chain_id_test true.

Definition from_genesis (ws : FWriteSet) (chain : Z) : FakeExecutor :=
  apply_write_set ws
    (mkFakeExecutor default_store [] 0 None None (key_gen_from_seed RNG_SEED) None
       default_features chain true).

Definition from_head_genesis : FakeExecutor := from_genesis GENESIS_CHANGE_SET_HEAD chain_id_test.
Definition from_head_genesis_with_count (count : Z) : FakeExecutor :=
  from_genesis (genesis_for_testing_with_count count) chain_id_test.
Definition from_testnet_genesis : FakeExecutor :=
  from_genesis GENESIS_CHANGE_SET_TESTNET chain_id_testnet.
Definition from_mainnet_genesis : FakeExecutor :=
  from_genesis GENESIS_CHANGE_SET_MAINNET chain_id_mainnet.
Definition stdlib_only_genesis : FakeExecutor :=
  foldl (fun e m => add_module m.2 m.1 e) no_genesis head_release_modules.
Definition custom_genesis (framework : ReleaseBundle) (validator_accounts : option Z)
    : FakeExecutor :=
  from_genesis (generate_test_genesis framework validator_accounts) chain_id_test.

(** ** Accounts *)

Definition create_raw_account (e : FakeExecutor) : Account * FakeExecutor :=
  let '(a, r) := account_from_seed (rng e) in (a, set_rng r e).
Definition create_raw_account_data (balance seq_num : Z) (e : FakeExecutor)
    : AccountData * FakeExecutor :=
  let '(d, r) := account_data_from_seed balance seq_num (rng e) in (d, set_rng r e).

Fixpoint create_accounts_loop (size : nat) (balance seq_num : Z) (accounts : list Account)
    (e : FakeExecutor) : list Account * FakeExecutor :=
  match size with
  | O => (accounts, e)
  | S size =>
      let '(d, r) := account_data_from_seed balance seq_num (rng e) in
      create_accounts_loop size balance seq_num (accounts ++ [data_account d])
        (add_account_data d (set_rng r e))
  end.
Definition create_accounts (size : nat) (balance seq_num : Z) (e : FakeExecutor)
    : list Account * FakeExecutor := create_accounts_loop size balance seq_num [] e.

Definition new_account_data_at (addr : Address) (e : FakeExecutor) : AccountData * FakeExecutor :=
  let data := with_account (new_genesis_account addr) 1000000000000000 0 in
  (data, add_account_data data e).
Definition new_account_at (addr : Address) (e : FakeExecutor) : Account * FakeExecutor :=
  let '(data, e) := new_account_data_at addr e in (data_account data, e).

(** ** Golden files and traces *)

Definition TRACE_FILE_NAME : string := "name".
Definition TRACE_FILE_ERROR : string := "error".
Definition TRACE_DIR_META : string := "meta".
Definition TRACE_DIR_DATA : string := "data".
Definition TRACE_DIR_INPUT : string := "input".
Definition TRACE_DIR_OUTPUT : string := "output".

(** [test_name.replace(':', "_")]. *)
Fixpoint replace_colons (s : string) : string :=
  match s with
  | EmptyString => EmptyString
  | String c s =>
      String (if Ascii.eqb c ":"%char then "_"%char else c) (replace_colons s)
  end.

Definition string_bytes (s : string) : list Z :=
  map (fun c => Z.of_N (Ascii.N_of_ascii c)) (String.list_ascii_of_string s).

Definition set_tracing (test_name file_name : string) (e : FakeExecutor)
    : M World FakeExecutor :=
  fun w =>
    match env_vars w !! "TRACE"%string with
    | None => Some (e, w)
    | Some env_trace_dir =>
        let aptos_version := default 0 (aptos_version_major (data_store e)) in
        let dir := join env_trace_dir file_name in
        let fs := match files w !! dir with Some _ => remove_dir_all dir (files w) | None => files w end in
        fs ← create_dir_all dir fs;
        fs ← create_new (join dir TRACE_FILE_NAME)
               (string_bytes (test_name +:+ "::" +:+ pretty aptos_version)) fs;
        fs ← create_dir (join dir TRACE_DIR_META) fs;
        fs ← create_dir (join dir TRACE_DIR_DATA) fs;
        fs ← create_dir (join dir TRACE_DIR_INPUT) fs;
        fs ← create_dir (join dir TRACE_DIR_OUTPUT) fs;
        Some (set_trace_dir (Some dir) e, set_files fs w)
    end.

Definition set_golden_file (test_name : string) (e : FakeExecutor) : M World FakeExecutor :=
  let file_name := replace_colons test_name in
  set_tracing test_name file_name (set_executed_output (Some (golden_new file_name)) e).

Definition set_golden_file_at (path test_name : string) (e : FakeExecutor)
    : M World FakeExecutor :=
  let file_name := replace_colons test_name in
  set_tracing test_name file_name (set_executed_output (Some (golden_at path file_name)) e).

(** ** Comparison of outputs *)

(** The keys that [assert_outputs_equal] visits. *)
Definition written_keys (o1 o2 : FOutput) : list StateKey :=
  map fst (write_set_iter (fo_write_set o1) ++ write_set_iter (fo_write_set o2)).

Definition differences (o1 o2 : FOutput) : list StateKey :=
  filter (fun k => write_set_get k (fo_write_set o1) <> write_set_get k (fo_write_set o2))
    (written_keys o1 o2).

Definition output_agrees (o1 o2 : FOutput) : bool :=
  bool_decide (default default_fee_statement (try_extract_fee_statement o1) =
               default default_fee_statement (try_extract_fee_statement o2)) &&
  bool_decide (differences o1 o2 = []) &&
  bool_decide (o1 = o2).

(** [None] when an assertion fails. *)
Fixpoint assert_each_equal (l1 l2 : list FOutput) : option unit :=
  match l1, l2 with
  | o1 :: l1, o2 :: l2 => if output_agrees o1 o2 then assert_each_equal l1 l2 else None
  | _, _ => Some tt
  end.
Definition assert_outputs_equal (l1 l2 : list FOutput) : option unit :=
  if negb (length l1 =? length l2)%nat then None else assert_each_equal l1 l2.

(** ** Execution of blocks *)

Definition execute_transaction_block_impl_with_state_view (e : FakeExecutor)
    (txn_block : list FVerified) (sequential : bool) (state_view : DataStore)
    : M World (result VMStatus (list FOutput)) :=
  fun w =>
    let config :=
      mkLocalConfig (if sequential then 1 else Z.min 4 fake_num_cpus)
        (allow_block_executor_fallback e) false in
    '(r, o) ← block_vm txn_block state_view config (w_outside w);
    Some (r, set_w_outside o w).

Definition mode_of (e : FakeExecutor) (w : World) : ExecutorMode :=
  match executor_mode e with
  | Some mode => mode
  | None =>
      if bool_decide (is_Some (env_vars w !! "E2E_PARALLEL_EXEC"%string)) then BothComparison
      else SequentialOnly
  end.

(** The state and the transactions, before the execution. *)
Definition trace_inputs (e : FakeExecutor) (txn_block : list FTransaction)
    : M World (nat * list nat) :=
  match trace_dir e with
  | None => ret (0%nat, [])
  | Some dir =>
      let% data_seq :=
        on_files (trace store_to_bytes (join dir TRACE_DIR_DATA) (data_store e)) in
      let% input_seqs :=
        on_files (trace_all transaction_to_bytes (join dir TRACE_DIR_INPUT) txn_block) in
      ret (data_seq, input_seqs)
  end.

(** The comparison of the two results in [BothComparison] mode. *)
Definition compare_results (r1 r2 : result VMStatus (list FOutput)) : option unit :=
  match r1, r2 with
  | Ok o1, Ok o2 => assert_outputs_equal o1 o2
  | Err e1, Err e2 => if bool_decide (e1 = e2) then Some tt else None
  | _, _ => None
  end.

(** The outputs or the error, and the mapping, after the execution. *)
Definition trace_outputs (e : FakeExecutor) (inputs : nat * list nat)
    (output : result VMStatus (list FOutput)) : M World unit :=
  match trace_dir e with
  | None => ret tt
  | Some dir =>
      let% output_seqs :=
        match output with
        | Ok results =>
            on_files (trace_all output_to_bytes (join dir TRACE_DIR_OUTPUT) results)
        | Err err =>
            let% _ := on_files (fun fs =>
              fs ← create_new (join dir TRACE_FILE_ERROR) (vm_status_to_bytes err) fs;
              Some (tt, fs)) in
            ret []
        end in
      let% _ := on_files (trace mapping_to_bytes (join dir TRACE_DIR_META)
                            (inputs.1, inputs.2, output_seqs)) in
      ret tt
  end.

Definition execute_transaction_block_with_state_view (e : FakeExecutor)
    (txn_block : list FTransaction) (state_view : DataStore)
    : M World (result VMStatus (list FOutput)) :=
  let% inputs := trace_inputs e txn_block in
  let sig_verified_block := verify_block txn_block in
  let% mode := gets (mode_of e) in
  let% sequential_output :=
    if bool_decide (mode <> ParallelOnly) then
      let% r := execute_transaction_block_impl_with_state_view e sig_verified_block true state_view in
      ret (Some r)
    else ret None in
  let% parallel_output :=
    if bool_decide (mode <> SequentialOnly) then
      let% r := execute_transaction_block_impl_with_state_view e sig_verified_block false state_view in
      ret (Some r)
    else ret None in
  let% _ :=
    if bool_decide (mode = BothComparison) then
      lift (r1 ← sequential_output; r2 ← parallel_output; compare_results r1 r2)
    else ret tt in
  let% output :=
    lift (match sequential_output with Some r => Some r | None => parallel_output end) in
  let% _ :=
    match executed_output e with
    | Some file => modify (fun w => set_golden (golden w ++ [(file, output)]) w)
    | None => ret tt
    end in
  let% _ := trace_outputs e inputs output in
  ret output.

Definition execute_transaction_block (e : FakeExecutor) (txn_block : list FTransaction)
    : M World (result VMStatus (list FOutput)) :=
  execute_transaction_block_with_state_view e txn_block (data_store e).

Definition execute_block (e : FakeExecutor) (txn_block : list SignedTransaction)
    : M World (result VMStatus (list FOutput)) :=
  execute_transaction_block e (map user_transaction txn_block).

(** [Result::unwrap]. *)
Definition unwrap {E A} (r : result E A) : option A :=
  match r with Ok a => Some a | Err _ => None end.

Definition execute_and_apply (e : FakeExecutor) (transaction : SignedTransaction)
    : M World (FOutput * FakeExecutor) :=
  let% r := execute_block e [transaction] in
  let% outputs := lift (unwrap r) in
  let% _ := guard_ (length outputs =? 1)%nat in
  let% output := lift (last outputs) in
  match fo_status output with
  | Keep status =>
      let e := apply_write_set (fo_write_set output) e in
      let% _ := guard_ (match status with ExecSuccess => true | _ => false end) in
      ret (output, e)
  | Discard _ => panic
  | Retry => panic
  end.

Definition execute_transaction (e : FakeExecutor) (txn : SignedTransaction) : M World FOutput :=
  let% r := execute_block e [txn] in
  let% outputs := lift (unwrap r) in
  lift (last outputs).

(** ** Blocks *)

Definition is_discarded (st : TransactionStatus) : bool :=
  match st with Discard _ => true | _ => false end.

(** The loop over the outputs. *)
Fixpoint apply_outputs_loop (outputs : list FOutput) (results : list (TransactionStatus * Z))
    (e : FakeExecutor) : list (TransactionStatus * Z) * FakeExecutor :=
  match outputs with
  | [] => (results, e)
  | output :: outputs =>
      let e := if negb (is_discarded (fo_status output)) then
                 apply_write_set (fo_write_set output) e else e in
      apply_outputs_loop outputs (results ++ [(fo_status output, fo_gas_used output)]) e
  end.

Definition run_block_with_metadata (proposer : Address) (failed_proposer_indices : list Z)
    (txns : list SignedTransaction) (e : FakeExecutor)
    : M World (list (TransactionStatus * Z) * FakeExecutor) :=
  let% (_, num_validators) := lift (validator_set (data_store e)) in
  let metadata :=
    new_block_metadata proposer (cast 16 num_validators) failed_proposer_indices (block_time e) in
  let txn_block := block_metadata metadata :: map user_transaction txns in
  let% r := execute_transaction_block e txn_block in
  let% outputs := lift (unwrap r) in
  let% first := lift (outputs !! 0%nat) in
  let% event := lift (fo_events first !! 1%nat) in
  let% _ := guard_ (event_is_v1 event) in
  let% _ := guard_ (event_is_new_block event) in
  let% _ := guard_ (event_data_is_new_block event) in
  ret (apply_outputs_loop outputs [] e).

Definition new_block_with_metadata (proposer : Address) (failed_proposer_indices : list Z)
    (e : FakeExecutor) : M World FakeExecutor :=
  let% (_, e) := run_block_with_metadata proposer failed_proposer_indices [] e in ret e.

Definition new_block_with_timestamp (time_microseconds : Z) (e : FakeExecutor)
    : M World FakeExecutor :=
  let e := set_block_time time_microseconds e in
  let% (payload, _) := lift (validator_set (data_store e)) in
  let% proposer := lift (payload !! 0%nat) in
  new_block_with_metadata proposer [] e.

Definition new_block (e : FakeExecutor) : M World FakeExecutor :=
  let% t := lift (add 64 (block_time e) 1) in new_block_with_timestamp t e.

Definition get_block_time (e : FakeExecutor) : Z := block_time e.
Definition get_block_time_seconds (e : FakeExecutor) : Z := block_time e / 1000000.

End definitions.
