(* ===== verification/MoveSessions.v ===== *)
(** The methods of [FakeExecutor] that call Move functions directly:
    [e2e-tests/src/executor.rs], from [exec_func_record_running_time] on.

    The Move virtual machine with its sessions is an interface. *)
From stdpp Require Import base list option numbers strings gmap sorting.
From S2P Require Import Prelude Prog Machine CommonTransactions AccountUniverse FileSystem.
From S2P Require Import FakeExecutor.

Inductive GasMeterType : Type := RegularGasMeter | UnmeteredGasMeter.

(** The gas parameters a virtual machine is built with. *)
Inductive GasParameters : Type := GasInitial | GasZeros.

(** The meter a call runs with. *)
Inductive Meter : Type :=
| Unmetered
| Standard (balance : Z)
| Calibration (balance : Z).

Class MoveVm `{FakeEnv} := {
  Identifier : Type;
  identifier_new : string -> option Identifier;
  (** [ModuleId::new(CORE_CODE_ADDRESS, name)]. *)
  core_module : Identifier -> ModuleId;
  TypeTag : Type;
  DynamicExpression : Type;
  (** [bcs::to_bytes] of an address. *)
  address_to_bytes : Address -> option (list Z);
  (** [MoveVmExt::new] over the store; [testing] overrides the timed features. *)
  Vm : Type;
  move_vm_new : GasParameters -> Z -> Features -> bool -> DataStore -> option Vm;
  Session : Type;
  new_session : Vm -> DataStore -> Session;
  VmError : Type;
  into_vm_status : VmError -> VMStatus;
  (** [execute_function_bypass_visibility]: the answer, the session after it, and
      the expressions a gas hook has seen. *)
  execute_function : ModuleId -> Identifier -> list TypeTag -> list (list Z) -> Meter -> Session ->
    result VmError unit * Session * list DynamicExpression;
  (** [session.finish(..)] and [try_into_storage_change_set().into_inner()]. *)
  finish_session : Session -> option (FWriteSet * list ContractEvent);
  (** [EntryFunction], and [try_exec_entry_with_state_view]'s helpers: the gas
      parameters of a store, loading and argument checks. *)
  EntryFunction : Type;
  entry_module : EntryFunction -> ModuleId;
  entry_name : EntryFunction -> Identifier;
  entry_ty_args : EntryFunction -> list TypeTag;
  entry_args : EntryFunction -> list (list Z);
  Function : Type;
  get_gas_parameters : Features -> DataStore -> option GasParameters;
  load_function : ModuleId -> Identifier -> list TypeTag -> Session -> result VMStatus Function;
  combine_signers : list Address -> list (list Z) -> Function -> Session ->
    result VMStatus (list (list Z));
  (** [finish], then [try_materialize_aggregator_v1_delta_set]. *)
  finish_with_deltas : DataStore -> Session ->
    option (result VMStatus (FWriteSet * list ContractEvent));
  (** The clock and [AccountAddress::random()]. *)
  read_clock : FOutside -> Z * FOutside;
  random_address : FOutside -> Address * FOutside;
}.

Section definitions.
Context {FE : FakeEnv} {MV : MoveVm}.
Open Scope Z_scope.

(** [Self::module] and [Self::name]. *)
Definition name_of (name : string) : option Identifier := identifier_new name.
Definition module_of (name : string) : option ModuleId :=
  id ← identifier_new name; Some (core_module id).

(** ** [exec_module], [exec] and [try_exec] *)

Definition exec_module (module_id : ModuleId) (function_name : string) (type_params : list TypeTag)
    (args : list (list Z)) (e : FakeExecutor) : option FakeExecutor :=
  vm ← move_vm_new GasZeros (chain_id e) (features e) true (data_store e);
  name ← name_of function_name;
  let '(r, session, _) :=
    execute_function module_id name type_params args Unmetered (new_session vm (data_store e)) in
  _ ← unwrap r;
  '(write_set, events) ← finish_session session;
  Some (append_events events (apply_write_set write_set e)).

Definition exec (module_name function_name : string) (type_params : list TypeTag)
    (args : list (list Z)) (e : FakeExecutor) : option FakeExecutor :=
  m ← module_of module_name; exec_module m function_name type_params args e.

(** [None] is a panic. *)
Definition try_exec (module_name function_name : string) (type_params : list TypeTag)
    (args : list (list Z)) (e : FakeExecutor)
    : option (result VMStatus (FWriteSet * list ContractEvent)) :=
  vm ← move_vm_new GasZeros (chain_id e) (features e) false (data_store e);
  m ← module_of module_name;
  name ← name_of function_name;
  let '(r, session, _) :=
    execute_function m name type_params args Unmetered (new_session vm (data_store e)) in
  match r with
  | Err err => Some (Err (into_vm_status err))
  | Ok _ => out ← finish_session session; Some (Ok out)
  end.

Definition try_exec_entry_with_state_view (senders : list Address) (entry_fn : EntryFunction)
    (state_view : DataStore) (fs : Features) (e : FakeExecutor)
    : option (result VMStatus (FWriteSet * list ContractEvent)) :=
  gas_params ← get_gas_parameters fs state_view;
  vm ← move_vm_new gas_params (chain_id e) fs true state_view;
  let session := new_session vm state_view in
  match load_function (entry_module entry_fn) (entry_name entry_fn) (entry_ty_args entry_fn) session with
  | Err err => Some (Err err)
  | Ok function =>
      match combine_signers senders (entry_args entry_fn) function session with
      | Err err => Some (Err err)
      | Ok args =>
          let '(r, session, _) :=
            execute_function (entry_module entry_fn) (entry_name entry_fn) (entry_ty_args entry_fn)
              args (Standard 10000000000000) session in
          match r with
          | Err err => Some (Err (into_vm_status err))
          | Ok _ => finish_with_deltas state_view session
          end
      end
  end.

(** [exec_abstract_usage]: errors of the call are ignored, events are dropped. *)
Definition exec_abstract_usage (module_id : ModuleId) (function_name : string)
    (type_params : list TypeTag) (args : list (list Z)) (e : FakeExecutor)
    : option (list DynamicExpression * FakeExecutor) :=
  vm ← move_vm_new GasZeros (chain_id e) (features e) true (data_store e);
  name ← name_of function_name;
  let '(_, session, expressions) :=
    execute_function module_id name type_params args (Calibration 10000000000000)
      (new_session vm (data_store e)) in
  '(write_set, _) ← finish_session session;
  Some (expressions, apply_write_set write_set e).

(** ** [exec_func_record_running_time] *)

Inductive ExecFuncTimerDynamicArgs : Type :=
| NoArgs
| DistinctSigners
| DistinctSignersAndFixed (signers : list Address).

(** The accounts that sign, one per iteration. *)
Fixpoint fresh_accounts (iterations : nat) (accounts : list Address) (e : FakeExecutor)
    : M World (list Address * FakeExecutor) :=
  match iterations with
  | O => ret (accounts, e)
  | S iterations =>
      let% a := (fun w => let '(a, o) := random_address (w_outside w) in
                          Some (a, set_w_outside o w)) in
      let '(account, e) := new_account_at a e in
      fresh_accounts iterations (accounts ++ [address account]) e
  end.

(** The addresses inserted in front of the arguments, the last one first. *)
Fixpoint insert_signers (signers : list Address) (arg : list (list Z)) : option (list (list Z)) :=
  match signers with
  | [] => Some arg
  | signer :: signers =>
      arg ← insert_signers signers arg;
      bytes ← address_to_bytes signer;
      Some (bytes :: arg)
  end.

(** The arguments of one call, and the accounts left. *)
Definition call_args (dynamic_args : ExecFuncTimerDynamicArgs) (extra_accounts : list Address)
    (args : list (list Z)) : option (list (list Z) * list Address) :=
  match dynamic_args with
  | DistinctSigners =>
      a ← last extra_accounts;
      bytes ← address_to_bytes a;
      Some (bytes :: args, removelast extra_accounts)
  | DistinctSignersAndFixed signers =>
      arg ← insert_signers signers args;
      a ← last extra_accounts;
      bytes ← address_to_bytes a;
      Some (bytes :: arg, removelast extra_accounts)
  | NoArgs => Some (args, extra_accounts)
  end.

Definition clock : M World Z :=
  fun w => let '(t, o) := read_clock (w_outside w) in Some (t, set_w_outside o w).

(** The measuring loop; the sessions are dropped. *)
Fixpoint timing_loop (iterations : nat) (module_id : ModuleId) (function_name : string)
    (type_params : list TypeTag) (args : list (list Z)) (dynamic_args : ExecFuncTimerDynamicArgs)
    (meter : Meter) (vm : Vm) (store : DataStore) (extra_accounts : list Address)
    (times : list Z) : M World (list Z) :=
  match iterations with
  | O => ret times
  | S iterations =>
      let session := new_session vm store in
      let% name := lift (name_of function_name) in
      let% (arg, extra_accounts) := lift (call_args dynamic_args extra_accounts args) in
      let% start := clock in
      let _ := execute_function module_id name type_params arg meter session in
      let% stop := clock in
      timing_loop iterations module_id function_name type_params args dynamic_args meter vm store
        extra_accounts (times ++ [Z.max 0 (stop - start) / 1000])
  end.

(** The median of the sorted measurements. *)
Definition sorted_median (times : list Z) : option Z :=
  let length := length times in
  let mid := (length / 2)%nat in
  running_time ← times !! mid;
  if (length mod 2 =? 0)%nat then
    a ← times !! (mid - 1)%nat;
    b ← times !! mid;
    sum ← add 128 a b;
    Some (sum / 2)
  else Some running_time.

Definition median (times : list Z) : option Z := sorted_median (merge_sort Z.le times).

Definition exec_func_record_running_time (module_id : ModuleId) (function_name : string)
    (type_params : list TypeTag) (args : list (list Z)) (iterations : nat)
    (dynamic_args : ExecFuncTimerDynamicArgs) (gas_meter_type : GasMeterType) (e : FakeExecutor)
    : M World (Z * FakeExecutor) :=
  let% (extra_accounts, e) :=
    match dynamic_args with
    | NoArgs => ret ([], e)
    | _ => fresh_accounts iterations [] e
    end in
  let '(gas_params, meter) :=
    match gas_meter_type with
    | RegularGasMeter => (GasInitial, Standard 1000000000000000)
    | UnmeteredGasMeter => (GasZeros, Unmetered)
    end in
  let% vm := lift (move_vm_new gas_params (chain_id e) (features e) true (data_store e)) in
  let% times := timing_loop iterations module_id function_name type_params args dynamic_args meter
                  vm (data_store e) extra_accounts [] in
  let% running_time := lift (median times) in
  ret (running_time, e).

End definitions.
