(* ===== verification/FakeQueries.v ===== *)
(** The methods of [FakeExecutor] that read the state or call the virtual machine
    without changing it: [e2e-tests/src/executor.rs].

    View functions, the validation of transactions and the profiled execution are
    calls of the virtual machine, an interface. *)
From stdpp Require Import base list option numbers strings gmap.
From S2P Require Import Prelude Prog Machine CommonTransactions AccountUniverse FileSystem FakeExecutor MoveSessions.
Open Scope Z_scope.

(** [MemberId] and [ViewFunctionOutput]. *)
Record MemberId `{MoveVm} : Type := mkMemberId {
  module_id : ModuleId;
  member_id : Identifier;
}.

Record ViewFunctionOutput (E : Type) : Type := mkViewFunctionOutput {
  values : result E (list (list Z));
  view_gas_used : Z;
}.
Arguments values {E} _.
Arguments mkViewFunctionOutput {E} _ _.

Inductive TransactionPayload `{MoveVm} : Type :=
| Script
| EntryFunctionPayload (entry_func : EntryFunction)
| Multisig
| ModuleBundle.

Class QueryVm `{MV : MoveVm} := {
  StateValue : Type;
  store_get_value : StateKey -> DataStore -> option StateValue;
  (** [str::parse] and [TypeTag::from_str]. *)
  parse_member_id : string -> option MemberId;
  parse_type_tag : string -> option TypeTag;
  ViewError : Type;
  view_vm : DataStore -> ModuleId -> Identifier -> list TypeTag -> list (list Z) -> Z ->
    ViewFunctionOutput ViewError;
  (** [bcs::from_bytes::<Option<u128>>]. *)
  optional_u128_from_bytes : list Z -> option (option Z);
  (** [AptosVM::new] over a resolver of the store, and its validation. *)
  VMValidatorResult : Type;
  vm_validate_transaction : DataStore -> SignedTransaction -> DataStore -> VMValidatorResult;
  (** [check_signature]. *)
  SignatureCheckedTransaction : Type;
  check_signature : SignedTransaction -> option SignatureCheckedTransaction;
  payload : SignatureCheckedTransaction -> TransactionPayload;
  (** The version, parameters and balance a gas meter is made of, the metered
      algebra with memory tracking over them, and its profiler. *)
  GasSetup : Type;
  StandardMeter : Type;
  memory_tracked_meter : GasSetup -> StandardMeter;
  GasProfiler : Type;
  profiler_new_script : StandardMeter -> GasProfiler;
  profiler_new_function : StandardMeter -> ModuleId -> Identifier -> list TypeTag -> GasProfiler;
  TransactionGasLog : Type;
  profiler_finish : GasProfiler -> TransactionGasLog;
  (** [execute_user_transaction_with_custom_gas_meter]: the closure that makes the
      meter may panic, and then the call does. *)
  VMOutput : Type;
  execute_with_custom_gas_meter : DataStore -> SignatureCheckedTransaction ->
    (GasSetup -> option GasProfiler) -> option (result VMStatus (VMStatus * VMOutput * GasProfiler));
  MaterializeError : Type;
  try_materialize : DataStore -> VMOutput -> result MaterializeError FOutput;
}.

Section queries.
Context {FE : FakeEnv} {MV : MoveVm} {QV : QueryVm}.

(** ** Reads *)

Definition get_events (e : FakeExecutor) : list ContractEvent := event_store e.

Definition get_state_view (e : FakeExecutor) : DataStore := data_store e.

Definition read_state_value (key : StateKey) (e : FakeExecutor) : option StateValue :=
  store_get_value key (data_store e).

(** The change through a mutable reference to the store. *)
Definition data_store_mut (f : DataStore -> DataStore) (e : FakeExecutor) : FakeExecutor :=
  set_data_store (f (data_store e)) e.

(** The resources of an account and of the coin; the types are those of the resources. *)
Definition read_account_resource_at_address (AccountResource : ResourceType) (addr : Address)
    (e : FakeExecutor) : option (option Resource) := read_resource AccountResource addr e.

Definition read_account_resource (AccountResource : ResourceType) (account : Account)
    (e : FakeExecutor) : option (option Resource) :=
  read_account_resource_at_address AccountResource (address account) e.

Definition read_coin_store_resource_at_address (CoinStoreResource : ResourceType) (addr : Address)
    (e : FakeExecutor) : option (option Resource) := read_resource CoinStoreResource addr e.

Definition read_coin_store_resource (CoinStoreResource : ResourceType) (account : Account)
    (e : FakeExecutor) : option (option Resource) :=
  read_coin_store_resource_at_address CoinStoreResource (address account) e.

Definition read_coin_info_resource (CoinInfoResource : ResourceType) (one : Address)
    (e : FakeExecutor) : option (option Resource) := read_resource CoinInfoResource one e.

(** ** Calls of the virtual machine *)

Definition execute_view_function (fn : MemberId) (type_args : list TypeTag)
    (arguments : list (list Z)) (e : FakeExecutor) : ViewFunctionOutput ViewError :=
  view_vm (get_state_view e) (module_id fn) (member_id fn) type_args arguments (2 ^ 64 - 1).

(** [None] is a panic. *)
Definition read_coin_supply (e : FakeExecutor) : option (option Z) :=
  fn ← parse_member_id "0x1::coin::supply";
  tag ← parse_type_tag "0x1::aptos_coin::AptosCoin";
  values ← unwrap (values (execute_view_function fn [tag] [] e));
  bytes ← last values;
  optional_u128_from_bytes bytes.

Definition validate_transaction (txn : SignedTransaction) (e : FakeExecutor) : VMValidatorResult :=
  vm_validate_transaction (get_state_view e) txn (data_store e).

(** The closure that makes the profiler. *)
Definition make_gas_profiler (p : TransactionPayload) (setup : GasSetup) : option GasProfiler :=
  let gas_meter := memory_tracked_meter setup in
  match p with
  | Script => Some (profiler_new_script gas_meter)
  | EntryFunctionPayload entry_func =>
      Some (profiler_new_function gas_meter (entry_module entry_func) (entry_name entry_func)
              (entry_ty_args entry_func))
  | Multisig | ModuleBundle => None
  end.

Definition execute_transaction_with_gas_profiler (txn : SignedTransaction) (e : FakeExecutor)
    : option (result (VMStatus + MaterializeError) (FOutput * TransactionGasLog)) :=
  txn ← check_signature txn;
  r ← execute_with_custom_gas_meter (data_store e) txn (make_gas_profiler (payload txn));
  match r with
  | Err err => Some (Err (inl err))
  | Ok (_, output, gas_profiler) =>
      match try_materialize (data_store e) output with
      | Err err => Some (Err (inr err))
      | Ok output => Some (Ok (output, profiler_finish gas_profiler))
      end
  end.

End queries.
