(* ===== verification/FakeExecutorSpec.v ===== *)
(** Theorems about the fake executor: the modes of execution and their
    comparison, the traces, the application of blocks and the running times. *)
From stdpp Require Import base list option numbers strings gmap pretty sorting.
From S2P Require Import Prelude Prog Machine CommonTransactions AccountUniverse FileSystem.
From S2P Require Import FakeExecutor MoveSessions.

Open Scope Z_scope.

(** ** Modes and their comparison *)
Section modes.
Context {FE : FakeEnv}.

Lemma output_agrees_eq o1 o2 : output_agrees o1 o2 = true <-> o1 = o2.
Proof.
  unfold output_agrees. rewrite !andb_true_iff, !bool_decide_eq_true. split; [by intros [_ ?]|].
  intros ->. split_and!; [done| |done]. unfold differences.
  induction (written_keys o2 o2) as [|k l IH]; [done|]. rewrite filter_cons, decide_False; [done|]. tauto.
Qed.

Lemma assert_each_equal_eq l1 l2 :
  length l1 = length l2 -> assert_each_equal l1 l2 = Some tt <-> l1 = l2.
Proof.
  revert l2. induction l1 as [|o1 l1 IH]; intros [|o2 l2] Hl; try done. cbn.
  destruct (output_agrees o1 o2) eqn:Ho.
  - apply output_agrees_eq in Ho as ->. injection Hl as Hl. rewrite (IH l2 Hl). split; congruence.
  - split; [done|]. intros [= -> ->]. by rewrite (proj2 (output_agrees_eq o2 o2) eq_refl) in Ho.
Qed.

Lemma assert_outputs_equal_eq l1 l2 : assert_outputs_equal l1 l2 = Some tt <-> l1 = l2.
Proof.
  unfold assert_outputs_equal. destruct (Nat.eqb_spec (length l1) (length l2)) as [H|H]; cbn.
  - by apply assert_each_equal_eq.
  - split; [done|]. by intros ->.
Qed.

Lemma compare_results_eq r1 r2 : compare_results r1 r2 = Some tt <-> r1 = r2.
Proof.
  destruct r1 as [o1|e1], r2 as [o2|e2]; cbn; try done.
  - rewrite assert_outputs_equal_eq. split; congruence.
  - case_bool_decide; split; congruence.
Qed.

Lemma compare_results_decide r1 r2 :
  compare_results r1 r2 = Some tt /\ r1 = r2 \/ compare_results r1 r2 = None /\ r1 <> r2.
Proof.
  pose proof (compare_results_eq r1 r2) as H. destruct (compare_results r1 r2) as [[]|].
  - left. split; [done|]. by apply H.
  - right. split; [done|]. intros He. by apply H in He.
Qed.

(** One execution of a block with a concurrency level, from a world. *)
Definition vm_run (e : FakeExecutor) (txns : list FTransaction) (view : DataStore)
    (sequential : bool) (w : World) : option (result VMStatus (list FOutput) * World) :=
  prod_map id (fun o => set_w_outside o w) <$>
  block_vm (verify_block txns) view
    (mkLocalConfig (if sequential then 1 else Z.min 4 fake_num_cpus)
      (allow_block_executor_fallback e) false) (w_outside w).

(** The golden file gets the output. *)
Definition logged (e : FakeExecutor) (r : result VMStatus (list FOutput)) (w : World) : World :=
  match executed_output e with
  | Some file => set_golden (golden w ++ [(file, r)]) w
  | None => w
  end.

(** What an execution without traces does, by mode. *)
Inductive executes (e : FakeExecutor) (txns : list FTransaction) (view : DataStore) (w : World)
    : option (result VMStatus (list FOutput) * World) -> Prop :=
| ExecSequential r w1 :
    mode_of e w = SequentialOnly -> vm_run e txns view true w = Some (r, w1) ->
    executes e txns view w (Some (r, logged e r w1))
| ExecParallel r w1 :
    mode_of e w = ParallelOnly -> vm_run e txns view false w = Some (r, w1) ->
    executes e txns view w (Some (r, logged e r w1))
| ExecBoth r w1 w2 :
    mode_of e w = BothComparison -> vm_run e txns view true w = Some (r, w1) ->
    vm_run e txns view false w1 = Some (r, w2) ->
    executes e txns view w (Some (r, logged e r w2))
| ExecMismatch r1 r2 w1 w2 :
    mode_of e w = BothComparison -> vm_run e txns view true w = Some (r1, w1) ->
    vm_run e txns view false w1 = Some (r2, w2) -> r1 <> r2 ->
    executes e txns view w None
| ExecSequentialPanics :
    mode_of e w <> ParallelOnly -> vm_run e txns view true w = None ->
    executes e txns view w None
| ExecParallelPanics :
    mode_of e w = ParallelOnly -> vm_run e txns view false w = None ->
    executes e txns view w None
| ExecBothPanics r w1 :
    mode_of e w = BothComparison -> vm_run e txns view true w = Some (r, w1) ->
    vm_run e txns view false w1 = None ->
    executes e txns view w None.

(** The part of an execution between the two traces. *)
Definition execute_core (e : FakeExecutor) (txns : list FTransaction) (view : DataStore)
    : M World (result VMStatus (list FOutput)) :=
  execute_transaction_block_with_state_view (set_trace_dir None e) txns view.

Lemma impl_run e txns view sequential w :
  execute_transaction_block_impl_with_state_view e (verify_block txns) sequential view w =
  vm_run e txns view sequential w.
Proof.
  unfold execute_transaction_block_impl_with_state_view, vm_run.
  by destruct (block_vm _ _ _ _) as [[r o]|].
Qed.

(** Evaluates the tests on a known mode. *)
Ltac known_mode :=
  repeat match goal with
  | |- context [bool_decide ?P] =>
      let b := eval vm_compute in (bool_decide P) in change (bool_decide P) with b
  end; cbn.

Lemma execute_core_spec e txns view w : executes e txns view w (execute_core e txns view w).
Proof.
  unfold execute_core, execute_transaction_block_with_state_view, trace_inputs, trace_outputs,
    bindM, gets, ret.
  cbn [trace_dir set_trace_dir executed_output].
  change (mode_of (set_trace_dir None e) w) with (mode_of e w).
  assert (Hlog : forall r w1, match executed_output e with
      | Some file => modify (fun w => set_golden (golden w ++ [(file, r)]) w)
      | None => fun s => Some (tt, s)
      end w1 = Some (tt, logged e r w1)) by (intros; unfold logged; by destruct (executed_output e)).
  destruct (mode_of e w) eqn:Hm.
  - known_mode. rewrite (impl_run (set_trace_dir None e)).
    change (vm_run (set_trace_dir None e)) with (vm_run e).
    destruct (vm_run e txns view true w) as [[r w1]|] eqn:H1.
    + cbn. rewrite Hlog. by eapply ExecSequential.
    + apply ExecSequentialPanics; [by rewrite Hm|done].
  - known_mode. rewrite (impl_run (set_trace_dir None e)).
    change (vm_run (set_trace_dir None e)) with (vm_run e).
    destruct (vm_run e txns view false w) as [[r w1]|] eqn:H1.
    + cbn. rewrite Hlog. by eapply ExecParallel.
    + by apply ExecParallelPanics.
  - known_mode. rewrite (impl_run (set_trace_dir None e)).
    change (vm_run (set_trace_dir None e)) with (vm_run e).
    destruct (vm_run e txns view true w) as [[r1 w1]|] eqn:H1.
    2: { apply ExecSequentialPanics; [by rewrite Hm|done]. }
    rewrite (impl_run (set_trace_dir None e)).
    change (vm_run (set_trace_dir None e)) with (vm_run e).
    destruct (vm_run e txns view false w1) as [[r2 w2]|] eqn:H2.
    2: { by eapply ExecBothPanics. }
    cbn.
    destruct (compare_results_decide r1 r2) as [[-> ->]|[-> Hne]]; cbn.
    + rewrite Hlog. by eapply ExecBoth.
    + by eapply ExecMismatch.
Qed.

(** C39. The modes of execution of a block, when it is not traced: the sequential
    mode returns the result of the sequential run and the parallel mode that of
    the parallel run; the comparison mode runs both, returns their result when
    they agree and panics when they differ; besides, it panics exactly when a run
    of the virtual machine that the mode asks for does; the result goes to the
    golden file.  Without a mode the environment variable decides between the
    first and the last. *)
Theorem modes_of_execution e txns view w :
  trace_dir e = None ->
  executes e txns view w (execute_transaction_block_with_state_view e txns view w) /\
  (executor_mode e = None -> mode_of e w =
    if decide (is_Some (env_vars w !! "E2E_PARALLEL_EXEC"%string)) then BothComparison
    else SequentialOnly) /\
  mode_of (set_parallel e) w = BothComparison /\ mode_of (set_not_parallel e) w = SequentialOnly.
Proof.
  intros Ht. split_and!; [|intros Hn; unfold mode_of; rewrite Hn; by case_bool_decide; case_decide|done|done].
  pose proof (execute_core_spec e txns view w) as H. unfold execute_core in H.
  assert (set_trace_dir None e = e) as He by (rewrite <-Ht; by destruct e).
  by rewrite He in H.
Qed.

(** ** Single transactions and blocks *)

(** [execute_and_apply] returns exactly when the block of the one transaction
    gives one kept and successful output: it returns that output and the
    executor with its writes applied; in every other case it panics. *)
Lemma execute_and_apply_returns e txn w out e' w' :
  execute_and_apply e txn w = Some ((out, e'), w') <->
  execute_block e [txn] w = Some (Ok [out], w') /\ fo_status out = Keep ExecSuccess /\
  e' = apply_write_set (fo_write_set out) e.
Proof.
  unfold execute_and_apply, bindM, lift.
  destruct (execute_block e [txn] w) as [[[outs|err] w1]|]; cbn.
  2-3: split; [done|by intros (? & _)].
  destruct outs as [|o [|o' outs]]; cbn.
  1, 3: split; [done|by intros (? & _)].
  destruct (fo_status o) as [[|]| |] eqn:Hs; cbn.
  - split.
    + intros [= <- <- <-]. done.
    + intros ([= -> ->] & _ & ->). done.
  - split; [done|]. intros ([= -> ->] & Hs' & _). congruence.
  - split; [done|]. intros ([= -> ->] & Hs' & _). congruence.
  - split; [done|]. intros ([= -> ->] & Hs' & _). congruence.
Qed.

Definition kept_outputs (outs : list FOutput) : list FOutput :=
  filter (fun o => is_discarded (fo_status o) = false) outs.

Lemma apply_outputs_loop_spec outs results e :
  apply_outputs_loop outs results e =
  (results ++ map (fun o => (fo_status o, fo_gas_used o)) outs,
   foldl (fun e o => apply_write_set (fo_write_set o) e) e (kept_outputs outs)).
Proof.
  revert results e. induction outs as [|o outs IH]; intros results e.
  - cbn. by rewrite app_nil_r.
  - cbn [apply_outputs_loop map]. rewrite IH, <-app_assoc. unfold kept_outputs. rewrite filter_cons.
    destruct (is_discarded (fo_status o)); [by rewrite decide_False|by rewrite decide_True].
Qed.

(** The first output carries the event of a new block. *)
Definition announces_block (outs : list FOutput) : Prop :=
  exists o ev, outs !! 0%nat = Some o /\ fo_events o !! 1%nat = Some ev /\
    event_is_v1 ev = true /\ event_is_new_block ev = true /\ event_data_is_new_block ev = true.

(** A block with metadata: the metadata transaction comes first, with the
    block time and the number of validators; the run returns exactly when the
    block executes and its first output announces the new block, with the status
    and gas of every output in order, and applies the writes of the outputs that
    are not discarded, in order. *)
Lemma run_block_returns proposer failed txns e w results e' w' :
  run_block_with_metadata proposer failed txns e w = Some ((results, e'), w') <->
  exists validators n outs, validator_set (data_store e) = Some (validators, n) /\
    execute_transaction_block e
      (block_metadata (new_block_metadata proposer (cast 16 n) failed (block_time e)) ::
       map user_transaction txns) w = Some (Ok outs, w') /\
    announces_block outs /\
    results = map (fun o => (fo_status o, fo_gas_used o)) outs /\
    e' = foldl (fun e o => apply_write_set (fo_write_set o) e) e (kept_outputs outs).
Proof.
  unfold run_block_with_metadata. rewrite bindM_Some. split.
  - intros ([vs n] & w1 & [Hv ->]%lift_Some & H). apply bindM_Some in H as (r & w2 & Hr & H).
    apply bindM_Some in H as (outs & w3 & [Ho ->]%lift_Some & H).
    destruct r as [outs'|err]; [|done]. injection Ho as ->.
    apply bindM_Some in H as (o & w4 & [H0 ->]%lift_Some & H).
    apply bindM_Some in H as (ev & w5 & [H1 ->]%lift_Some & H).
    destruct (event_is_v1 ev) eqn:E1; [|done]. destruct (event_is_new_block ev) eqn:E2; [|done].
    destruct (event_data_is_new_block ev) eqn:E3; [|done]. cbn in H.
    rewrite apply_outputs_loop_spec in H. injection H as <- <- <-.
    exists vs, n, outs. split_and!; try done. by exists o, ev.
  - intros (vs & n & outs & Hv & Hr & (o & ev & H0 & H1 & E1 & E2 & E3) & -> & ->).
    exists (vs, n), w. rewrite Hv. split; [done|]. unfold bindM. rewrite Hr. cbn.
    rewrite H0. cbn. rewrite H1. cbn. rewrite E1. cbn. rewrite E2. cbn. rewrite E3. cbn.
    by rewrite apply_outputs_loop_spec.
Qed.

End modes.

(** ** Traces *)
Section traces.
Context {FE : FakeEnv}.

(** An execution is its middle part between the two traces. *)
Lemma split_execution e txns view w :
  execute_transaction_block_with_state_view e txns view w =
  (let% inputs := trace_inputs e txns in
   let% r := execute_core e txns view in
   let% _ := trace_outputs e inputs r in
   ret r) w.
Proof.
  unfold execute_core, execute_transaction_block_with_state_view.
  apply bindM_ext; [done|]. intros inputs w1 _. cbn [trace_inputs trace_dir set_trace_dir].
  unfold trace_inputs. cbn [trace_dir set_trace_dir].
  change (bindM (ret (0%nat, @nil nat)) ?k) with (k (0%nat, @nil nat)). cbv beta.
  change (mode_of (set_trace_dir None e)) with (mode_of e).
  rewrite bindM_assoc. apply bindM_ext; [done|]. intros mode w2 _.
  rewrite bindM_assoc. apply bindM_ext; [done|]. intros seq_out w3 _.
  rewrite bindM_assoc. apply bindM_ext; [done|]. intros par_out w4 _.
  rewrite bindM_assoc. apply bindM_ext; [done|]. intros [] w5 _.
  rewrite bindM_assoc. apply bindM_ext; [done|]. intros out w6 _.
  rewrite bindM_assoc. apply bindM_ext; [done|]. intros [] w7 _. done.
Qed.

Lemma vm_run_files e txns view sequential fs w :
  vm_run e txns view sequential (set_files fs w) =
  prod_map id (set_files fs) <$> vm_run e txns view sequential w.
Proof. unfold vm_run. cbn. by destruct (block_vm _ _ _ _) as [[]|]. Qed.

Lemma vm_run_keeps e txns view sequential w r w1 :
  vm_run e txns view sequential w = Some (r, w1) -> files w1 = files w.
Proof. unfold vm_run. destruct (block_vm _ _ _ _) as [[]|]; [|done]. by intros [= <- <-]. Qed.

Lemma logged_files e r fs w : logged e r (set_files fs w) = set_files fs (logged e r w).
Proof. unfold logged. by destruct (executed_output e). Qed.

Lemma logged_keeps e r w : files (logged e r w) = files w.
Proof. unfold logged. by destruct (executed_output e). Qed.

Lemma executes_det e txns view w x y : executes e txns view w x -> executes e txns view w y -> x = y.
Proof. intros Hx Hy. destruct Hx, Hy; congruence. Qed.

(** The middle part neither reads nor writes files. *)
Lemma execute_core_files e txns view fs w r w1 :
  execute_core e txns view w = Some (r, w1) ->
  execute_core e txns view (set_files fs w) = Some (r, set_files fs w1) /\ files w1 = files w.
Proof.
  intros H. pose proof (execute_core_spec e txns view w) as Hx. rewrite H in Hx.
  assert (Hy : executes e txns view (set_files fs w) (Some (r, set_files fs w1)) /\ files w1 = files w).
  { inversion Hx as [r' w2 Hm H1|r' w2 Hm H1|r' w2 w3 Hm H1 H2| | | |]; subst.
    - rewrite <-logged_files, logged_keeps. split; [|by eapply vm_run_keeps].
      eapply ExecSequential; [done|]. by rewrite vm_run_files, H1.
    - rewrite <-logged_files, logged_keeps. split; [|by eapply vm_run_keeps].
      eapply ExecParallel; [done|]. by rewrite vm_run_files, H1.
    - rewrite <-logged_files, logged_keeps. split.
      + eapply ExecBoth; [done|by rewrite vm_run_files, H1|]. cbn. by rewrite vm_run_files, H2.
      + apply vm_run_keeps in H1, H2. congruence. }
  destruct Hy as [Hy Hf]. split; [|done].
  by eapply executes_det; [apply execute_core_spec|].
Qed.

(** The directories of a trace, with the number of files in each. *)
Record trace_dirs (dir : path) (data input output meta : nat) (fs : FS) : Prop := {
  td_data : numbered (join dir TRACE_DIR_DATA) data fs;
  td_input : numbered (join dir TRACE_DIR_INPUT) input fs;
  td_output : numbered (join dir TRACE_DIR_OUTPUT) output fs;
  td_meta : numbered (join dir TRACE_DIR_META) meta fs;
}.

Lemma numbered_traced {T} (to_bytes : T -> option (list Z)) dir a b n m items fs :
  a <> b -> numbered (join dir a) n fs ->
  numbered (join dir a) n (traced to_bytes (join dir b) m items fs).
Proof.
  intros Hab [Hd Hn]. split.
  - rewrite traced_other; [done|]. cbn. apply bool_decide_eq_false. intros H.
    apply (f_equal length) in H. cbn in H. lia.
  - intros name. rewrite traced_other; [done|]. cbn. apply bool_decide_eq_false.
    intros [= H]. done.
Qed.

Lemma on_files_Some {A} (p : M FS A) w a fs :
  p (files w) = Some (a, fs) -> on_files p w = Some (a, set_files fs w).
Proof. unfold on_files. by intros ->. Qed.

(** The files that a traced block leaves behind. *)
Definition traced_block (dir : path) (data input output meta : nat) (store : DataStore)
    (txns : list FTransaction) (outs : list FOutput) (fs : FS) : FS :=
  let fs := traced store_to_bytes (join dir TRACE_DIR_DATA) data [store] fs in
  let fs := traced transaction_to_bytes (join dir TRACE_DIR_INPUT) input txns fs in
  let fs := traced output_to_bytes (join dir TRACE_DIR_OUTPUT) output outs fs in
  traced mapping_to_bytes (join dir TRACE_DIR_META) meta
    [(data, seq input (length txns), seq output (length outs))] fs.

Lemma trace_one {T} (to_bytes : T -> option (list Z)) d n item fs :
  numbered d n fs -> is_Some (to_bytes item) ->
  trace to_bytes d item fs = Some (n, traced to_bytes d n [item] fs).
Proof. intros Hn [b Hb]. rewrite (trace_ok to_bytes d n fs item b Hn Hb). cbn. by rewrite Hb. Qed.

Lemma traced_dirs dir d i o m store txns outs fs :
  trace_dirs dir d i o m fs -> is_Some (store_to_bytes store) ->
  Forall (fun t => is_Some (transaction_to_bytes t)) txns ->
  Forall (fun x => is_Some (output_to_bytes x)) outs ->
  is_Some (mapping_to_bytes (d, seq i (length txns), seq o (length outs))) ->
  trace_dirs dir (d + 1) (i + length txns) (o + length outs) (m + 1)
    (traced_block dir d i o m store txns outs fs).
Proof.
  intros [Hd Hi Ho Hm] Hs Ht Hx Hmap. unfold traced_block.
  pose proof (trace_all_ok store_to_bytes _ _ _ [store] Hd ltac:(by repeat constructor)) as [_ Hd1].
  assert (Hi1 := numbered_traced store_to_bytes dir TRACE_DIR_INPUT TRACE_DIR_DATA _ d [store] fs
    ltac:(done) Hi).
  pose proof (trace_all_ok transaction_to_bytes _ _ _ txns Hi1 Ht) as [_ Hi2].
  assert (Ho2 : numbered (join dir TRACE_DIR_OUTPUT) o (traced transaction_to_bytes
    (join dir TRACE_DIR_INPUT) i txns (traced store_to_bytes (join dir TRACE_DIR_DATA) d [store] fs)))
    by (by repeat apply numbered_traced).
  pose proof (trace_all_ok output_to_bytes _ _ _ outs Ho2 Hx) as [_ Ho3].
  assert (Hm3 : numbered (join dir TRACE_DIR_META) m (traced output_to_bytes
    (join dir TRACE_DIR_OUTPUT) o outs (traced transaction_to_bytes (join dir TRACE_DIR_INPUT) i txns
      (traced store_to_bytes (join dir TRACE_DIR_DATA) d [store] fs))))
    by (by repeat apply numbered_traced).
  pose proof (trace_all_ok mapping_to_bytes _ _ _ [_] Hm3 ltac:(by repeat constructor)) as [_ Hm4].
  split; [do 3 (apply numbered_traced; [done|])|do 2 (apply numbered_traced; [done|])
    |apply numbered_traced; [done|]|]; assumption.
Qed.

Lemma trace_inputs_ok e dir d i o m txns w :
  trace_dir e = Some dir -> trace_dirs dir d i o m (files w) ->
  is_Some (store_to_bytes (data_store e)) ->
  Forall (fun t => is_Some (transaction_to_bytes t)) txns ->
  trace_inputs e txns w = Some ((d, seq i (length txns)),
    set_files (traced transaction_to_bytes (join dir TRACE_DIR_INPUT) i txns
      (traced store_to_bytes (join dir TRACE_DIR_DATA) d [data_store e] (files w))) w).
Proof.
  intros He [Hd Hi Ho Hm] Hs Ht. unfold trace_inputs. rewrite He. unfold bindM.
  rewrite (on_files_Some _ _ _ _ (trace_one _ _ _ _ _ Hd Hs)).
  assert (Hi1 := numbered_traced store_to_bytes dir TRACE_DIR_INPUT TRACE_DIR_DATA _ d
    [data_store e] (files w) ltac:(done) Hi).
  pose proof (trace_all_ok transaction_to_bytes _ _ _ txns Hi1 Ht) as [H _].
  by rewrite (on_files_Some _ (set_files _ w) _ _ H).
Qed.

Lemma trace_outputs_ok e dir d i o m txns outs fs w :
  trace_dir e = Some dir ->
  numbered (join dir TRACE_DIR_OUTPUT) o (files w) -> numbered (join dir TRACE_DIR_META) m (files w) ->
  Forall (fun x => is_Some (output_to_bytes x)) outs ->
  is_Some (mapping_to_bytes (d, seq i (length txns), seq o (length outs))) ->
  files w = traced transaction_to_bytes (join dir TRACE_DIR_INPUT) i txns
      (traced store_to_bytes (join dir TRACE_DIR_DATA) d [data_store e] fs) ->
  trace_outputs e (d, seq i (length txns)) (Ok outs) w =
    Some (tt, set_files (traced_block dir d i o m (data_store e) txns outs fs) w).
Proof.
  intros He Ho Hm Hx Hmap Hfs. unfold trace_outputs. rewrite He. unfold bindM.
  pose proof (trace_all_ok output_to_bytes _ _ _ outs Ho Hx) as [H1 _].
  rewrite (on_files_Some _ _ _ _ H1). cbn [fst snd].
  assert (Hm3 := numbered_traced output_to_bytes dir TRACE_DIR_META TRACE_DIR_OUTPUT _ o outs
    (files w) ltac:(done) Hm).
  rewrite (on_files_Some _ (set_files _ w) _ _ (trace_one _ _ _ _ _ Hm3 Hmap)).
  unfold traced_block. cbn [ret files set_files]. by rewrite Hfs.
Qed.

(** C29. A traced block: when the block executes, tracing changes neither its
    result nor the executor; the state, every transaction and every output are
    written to the next numbers of their directories, the mapping that links
    these numbers to the next number of its own, nothing else is written, and
    the directories stay numbered without gaps, so that the next block can be
    traced in turn. *)
Theorem traced_execution e dir d i o m txns outs w w1 :
  trace_dir e = Some dir -> trace_dirs dir d i o m (files w) ->
  execute_transaction_block (set_trace_dir None e) txns w = Some (Ok outs, w1) ->
  is_Some (store_to_bytes (data_store e)) ->
  Forall (fun t => is_Some (transaction_to_bytes t)) txns ->
  Forall (fun x => is_Some (output_to_bytes x)) outs ->
  is_Some (mapping_to_bytes (d, seq i (length txns), seq o (length outs))) ->
  let fs' := traced_block dir d i o m (data_store e) txns outs (files w) in
  execute_transaction_block e txns w = Some (Ok outs, set_files fs' w1) /\
  trace_dirs dir (d + 1) (i + length txns) (o + length outs) (m + 1) fs' /\
  (forall k t, txns !! k = Some t ->
     fs' !! join (join dir TRACE_DIR_INPUT) (pretty (i + k)%nat) =
     Some (File (default [] (transaction_to_bytes t)))) /\
  (forall k x, outs !! k = Some x ->
     fs' !! join (join dir TRACE_DIR_OUTPUT) (pretty (o + k)%nat) =
     Some (File (default [] (output_to_bytes x)))).
Proof.
  intros He Hdirs Hx Hs Ht Ho Hm fs'.
  change (execute_core e txns (data_store e) w = Some (Ok outs, w1)) in Hx.
  split; [|split; [by apply traced_dirs|split]].
  - unfold execute_transaction_block. rewrite split_execution. unfold bindM.
    rewrite (trace_inputs_ok e dir d i o m txns w He Hdirs Hs Ht).
    destruct Hdirs as [Hd Hi Hout Hmeta].
    match goal with |- context [set_files ?fs w] =>
      destruct (execute_core_files e txns (data_store e) fs w _ _ Hx) as [-> Hf] end.
    erewrite (trace_outputs_ok e dir d i o m txns outs (files w)); [done|done|..];
      cbn [files set_files]; [..|done|done|done]; by repeat apply numbered_traced.
  - intros k t Hk. subst fs'. unfold traced_block.
    rewrite !traced_other by (cbn; apply bool_decide_eq_false; discriminate). by apply traced_item.
  - intros k x Hk. subst fs'. unfold traced_block.
    rewrite traced_other by (cbn; apply bool_decide_eq_false; discriminate). by apply traced_item.
Qed.

End traces.

(** ** Running times *)
Section running_times.

Definition count_if (P : Z -> Prop) `{!forall x, Decision (P x)} (l : list Z) : nat :=
  length (filter P l).

Lemma count_if_perm (P : Z -> Prop) `{!forall x, Decision (P x)} l l' :
  Permutation l l' -> count_if P l = count_if P l'.
Proof. intros Hp. unfold count_if. by rewrite Hp. Qed.

Lemma count_if_all (P : Z -> Prop) `{!forall x, Decision (P x)} l :
  Forall P l -> count_if P l = length l.
Proof.
  unfold count_if. induction 1 as [|x l Hx _ IH]; [done|].
  rewrite filter_cons, decide_True by done. cbn. by rewrite IH.
Qed.

Lemma count_if_app (P : Z -> Prop) `{!forall x, Decision (P x)} l1 l2 :
  count_if P (l1 ++ l2) = (count_if P l1 + count_if P l2)%nat.
Proof. unfold count_if. by rewrite filter_app, length_app. Qed.

(** In a sorted list what comes before an item is at most it, and what comes
    after it is at least it. *)
Lemma sorted_split l i x :
  StronglySorted Z.le l -> l !! i = Some x ->
  Forall (fun y => y <= x) (take (S i) l) /\ Forall (fun y => x <= y) (drop i l).
Proof.
  intros Hs Hi. pose proof (take_drop_middle l i x Hi) as Hl. rewrite <-Hl in Hs.
  assert (Hlen : length (take i l) = i)
    by (rewrite length_take_le; [done|]; apply lookup_lt_Some in Hi; lia).
  apply StronglySorted_app in Hs as (H1 & _ & H3). apply StronglySorted_cons in H3 as [H3 _].
  split.
  - rewrite (take_S_r l i x Hi). apply Forall_app. split; [|repeat constructor; lia].
    apply Forall_forall. intros y Hy. apply H1; [done|]. by left.
  - rewrite (drop_S l x i Hi). constructor; [lia|done].
Qed.

(** At least half of the measurements are at most [m], and at least half are at
    least [m]. *)
Definition is_median (l : list Z) (m : Z) : Prop :=
  (length l <= 2 * count_if (fun y => (y <= m)%Z) l)%nat /\
  (length l <= 2 * count_if (fun y => (m <= y)%Z) l)%nat.

Lemma is_median_sorted l i j a b m :
  StronglySorted Z.le l -> l !! i = Some a -> l !! j = Some b -> a <= m <= b ->
  (length l <= 2 * S i)%nat -> (length l <= 2 * (length l - j))%nat -> is_median l m.
Proof.
  intros Hs Hi Hj Hm H1 H2. destruct (sorted_split l i a Hs Hi) as [Ha _].
  destruct (sorted_split l j b Hs Hj) as [_ Hb]. split.
  - rewrite <-(take_drop (S i) l) at 2. rewrite count_if_app, count_if_all.
    + rewrite length_take. apply lookup_lt_Some in Hi. lia.
    + eapply Forall_impl; [exact Ha|]. cbn. lia.
  - rewrite <-(take_drop j l) at 2. rewrite count_if_app, (count_if_all _ (drop j l)).
    + rewrite length_drop. lia.
    + eapply Forall_impl; [exact Hb|]. cbn. lia.
Qed.

(** The middle of the sorted measurements: the one in the middle, or half the sum
    of the two, rounded down. *)
Definition middle_value (l : list Z) (m : Z) : Prop :=
  exists s, Permutation s l /\ StronglySorted Z.le s /\
    if decide (length l mod 2 = 0)%nat
    then exists a b, s !! (length l / 2 - 1)%nat = Some a /\ s !! (length l / 2)%nat = Some b /\
           m = (a + b) / 2
    else s !! (length l / 2)%nat = Some m.

Context {FE : FakeEnv}.

Lemma sorted_median_spec s :
  StronglySorted Z.le s -> Forall (fun t => 0 <= t < 2 ^ 100) s -> s <> [] ->
  exists m, sorted_median s = Some m /\ middle_value s m /\ is_median s m.
Proof.
  intros Hs Hr Hne. unfold sorted_median, middle_value.
  assert (Hlen : (0 < length s)%nat) by (destruct s; cbn; [done|lia]).
  pose proof (Nat.div_lt (length s) 2 ltac:(lia) ltac:(lia)).
  pose proof (Nat.mod_upper_bound (length s) 2 ltac:(lia)).
  assert (Hdiv := Nat.div_mod_eq (length s) 2).
  destruct (lookup_lt_is_Some_2 s (length s / 2)) as [b Hb]; [lia|]. rewrite Hb.
  cbn [mbind option_bind]. destruct (Nat.eqb_spec (length s mod 2) 0) as [He|He].
  2: { exists b. split_and!; [done|exists s; by rewrite decide_False|].
    apply (is_median_sorted s _ _ b b _ Hs Hb Hb); lia. }
  destruct (lookup_lt_is_Some_2 s (length s / 2 - 1)) as [a Ha]; [lia|]. rewrite Ha.
  cbn [mbind option_bind].
  assert (Hab : a <= b).
  { destruct (sorted_split s _ _ Hs Ha) as [_ Hd]. rewrite Forall_forall in Hd. apply Hd.
    apply (list_elem_of_lookup_2 _ 1). rewrite lookup_drop, <-Hb. f_equal. lia. }
  pose proof (Forall_lookup_1 _ _ _ _ Hr Ha) as Hra. pose proof (Forall_lookup_1 _ _ _ _ Hr Hb) as Hrb.
  cbn beta in Hra, Hrb. unfold add. rewrite wrap_in by (split; lia). cbn [mbind option_bind].
  eexists. split_and!; [done|exists s; rewrite decide_True by done; by eauto 10|].
  apply (is_median_sorted s _ _ a b _ Hs Ha Hb); [|lia|lia].
  split; [apply Z.div_le_lower_bound; lia|apply Z.div_le_upper_bound; lia].
Qed.

Lemma sorted_times l : StronglySorted Z.le (merge_sort Z.le l).
Proof. apply (StronglySorted_merge_sort Z.le); intros x y; lia. Qed.

Lemma median_spec l :
  Forall (fun t => 0 <= t < 2 ^ 100) l ->
  match median l with
  | Some m => l <> [] /\ middle_value l m /\ is_median l m
  | None => l = []
  end.
Proof.
  intros Hl. pose proof (merge_sort_Permutation Z.le l) as Hp. unfold median.
  destruct (decide (l = [])) as [->|Hne]; [done|].
  destruct (sorted_median_spec (merge_sort Z.le l)) as (m & -> & Hm & Hi).
  - apply sorted_times.
  - by rewrite Hp.
  - intros Hn. rewrite Hn in Hp. by apply Permutation_nil_l in Hp.
  - split_and!; [done| |].
    + destruct Hm as (s & H1 & H2 & H3). exists s. rewrite <-(Permutation_length Hp).
      split_and!; [by rewrite H1|done..].
    + unfold is_median in *. by rewrite !(count_if_perm _ _ l Hp), (Permutation_length Hp) in Hi.
Qed.

Context `{!MoveVm}.

(** The durations, in microseconds, between each two successive readings of the
    clock. *)
Fixpoint clock_times (n : nat) (o : FOutside) : list Z * FOutside :=
  match n with
  | O => ([], o)
  | S n =>
      let '(start, o) := read_clock o in
      let '(stop, o) := read_clock o in
      let '(times, o) := clock_times n o in
      (Z.max 0 (stop - start) / 1000 :: times, o)
  end.

Lemma clock_times_length n o : length (clock_times n o).1 = n.
Proof.
  revert o. induction n as [|n IH]; intros o; cbn; [done|].
  destruct (read_clock o) as [start o1], (read_clock o1) as [stop o2].
  specialize (IH o2). destruct (clock_times n o2). cbn in *. by rewrite IH.
Qed.

Lemma clock_times_range n o :
  (forall o, 0 <= (read_clock o).1 < 2 ^ 100) ->
  Forall (fun t => 0 <= t < 2 ^ 100) (clock_times n o).1.
Proof.
  intros Hc. revert o. induction n as [|n IH]; intros o; cbn; [constructor|].
  pose proof (Hc o) as H1. destruct (read_clock o) as [start o1]. pose proof (Hc o1) as H2.
  destruct (read_clock o1) as [stop o2]. cbn [fst] in H1, H2. specialize (IH o2).
  destruct (clock_times n o2). constructor; [|exact IH]. cbn [fst].
  assert (0 <= Z.max 0 (stop - start) < 2 ^ 100) by lia.
  split; [apply Z.div_pos; lia|]. apply Z.div_lt_upper_bound; lia.
Qed.

Lemma set_outside_twice o o' w : set_w_outside o' (set_w_outside o w) = set_w_outside o' w.
Proof. done. Qed.

(** The loop takes one measurement per iteration and changes nothing else. *)
Lemma timing_loop_times n mid f tps args dyn meter vm store accounts times w r w' :
  timing_loop n mid f tps args dyn meter vm store accounts times w = Some (r, w') ->
  r = times ++ (clock_times n (w_outside w)).1 /\
  w' = set_w_outside (clock_times n (w_outside w)).2 w.
Proof.
  revert accounts times w. induction n as [|n IH]; intros accounts times w; cbn [timing_loop clock_times].
  { intros [= <- <-]. rewrite app_nil_r. by destruct w. }
  unfold bindM, lift, clock. destruct (name_of f); [|done].
  destruct (call_args dyn accounts args) as [[arg accounts']|]; [|done].
  destruct (read_clock (w_outside w)) as [start o1] eqn:E1. cbn [w_outside set_w_outside].
  destruct (read_clock o1) as [stop o2] eqn:E2. intros Hl. apply IH in Hl as [-> ->].
  cbn [w_outside set_w_outside]. destruct (clock_times n o2) as [ts o3]. cbn [fst snd].
  by rewrite <-app_assoc.
Qed.

Lemma timing_loop_returns n mid f tps args meter vm store times w :
  is_Some (name_of f) ->
  is_Some (timing_loop n mid f tps args NoArgs meter vm store [] times w).
Proof.
  intros [name Hn]. revert times w. induction n as [|n IH]; intros times w; cbn [timing_loop]; [by eexists|].
  unfold bindM, lift, clock. rewrite Hn. cbn.
  destruct (read_clock (w_outside w)) as [start o1]. cbn. destruct (read_clock o1) as [stop o2].
  apply IH.
Qed.

(** The accounts that sign the calls. *)
Definition signing_accounts (dyn : ExecFuncTimerDynamicArgs) (n : nat) (e : FakeExecutor)
    : M World (list Address * FakeExecutor) :=
  match dyn with NoArgs => ret ([], e) | _ => fresh_accounts n [] e end.

Definition timing_gas_params (gmt : GasMeterType) : GasParameters :=
  match gmt with RegularGasMeter => GasInitial | UnmeteredGasMeter => GasZeros end.

Lemma record_running_time_unfold mid f tps args n dyn gmt e w :
  exists meter,
  exec_func_record_running_time mid f tps args n dyn gmt e w =
  (let% (accounts, e) := signing_accounts dyn n e in
   let% vm := lift (move_vm_new (timing_gas_params gmt) (chain_id e) (features e) true (data_store e)) in
   let% times := timing_loop n mid f tps args dyn meter vm (data_store e) accounts [] in
   let% running_time := lift (median times) in
   ret (running_time, e)) w.
Proof. destruct gmt; eexists; reflexivity. Qed.


End running_times.
