(* ===== verification/FakeStateSpec.v ===== *)
(** The state of the fake executor as a map: every operation that changes it adds
    changes to a history, and a read finds the last change of its key. *)
From stdpp Require Import base list option numbers strings gmap.
From S2P Require Import Prelude Prog Machine CommonTransactions AccountUniverse FileSystem FakeExecutor MoveSessions FakeQueries FakeExecutorSpec.
Open Scope Z_scope.

(** ** Histories *)

Section history.
Context {FE : FakeEnv}.

Inductive Change : Type :=
| SetValue (key : StateKey) (blob : Bytes)
| AddWrites (ws : FWriteSet).

(** What is documented of [FakeDataStore]: a value is set at its key, and a write set
    is applied key by key; [write_op_bytes] is the value an operation leaves. *)
Class StoreLaws : Type := {
  write_op_bytes : WriteOp -> option Bytes;
  get_set k k' b d : store_get k (store_set k' b d) = if decide (k' = k) then Some b else store_get k d;
  get_write_set k ws d : store_get k (store_add_write_set ws d) =
    match write_set_get k ws with Some op => write_op_bytes op | None => store_get k d end;
}.

Context {SL : StoreLaws}.

(** What a change leaves at a key, if it concerns it; [Some None] is a deletion. *)
Definition change_at (k : StateKey) (c : Change) : option (option Bytes) :=
  match c with
  | SetValue k' b => if decide (k' = k) then Some (Some b) else None
  | AddWrites ws => option_map write_op_bytes (write_set_get k ws)
  end.

(** The value at a key after a history. *)
Definition value_after (k : StateKey) (before : option Bytes) (history : list Change) : option Bytes :=
  default before (last (omap (change_at k) history)).

Lemma value_after_app k v h1 h2 : value_after k v (h1 ++ h2) = value_after k (value_after k v h1) h2.
Proof.
  unfold value_after. rewrite omap_app, last_app. by destruct (last (omap (change_at k) h2)).
Qed.

(** What an operation adds to the state: changes of the store and events. *)
Record adds (h : list Change) (events : list ContractEvent) (e e' : FakeExecutor) : Prop := {
  add_values k : read_state_value_bytes k e' = value_after k (read_state_value_bytes k e) h;
  add_events : event_store e' = event_store e ++ events;
}.

Lemma adds_nil e : adds [] [] e e.
Proof. split; [done|by rewrite app_nil_r]. Qed.

Lemma adds_app h1 h2 ev1 ev2 e1 e2 e3 :
  adds h1 ev1 e1 e2 -> adds h2 ev2 e2 e3 -> adds (h1 ++ h2) (ev1 ++ ev2) e1 e3.
Proof.
  intros [V1 E1] [V2 E2]. split; [intros k; by rewrite V2, V1, value_after_app|].
  by rewrite E2, E1, app_assoc.
Qed.

Lemma adds_value k b e : adds [SetValue k b] [] e (write_state_value k b e).
Proof.
  split; [|cbn; by rewrite app_nil_r]. intros k'. unfold read_state_value_bytes, write_state_value. cbn.
  rewrite get_set. unfold value_after. cbn. by destruct (decide (k = k')).
Qed.

Lemma adds_writes ws e : adds [AddWrites ws] [] e (apply_write_set ws e).
Proof.
  split; [|cbn; by rewrite app_nil_r]. intros k. unfold read_state_value_bytes, apply_write_set. cbn.
  rewrite get_write_set. unfold value_after. cbn. by destruct (write_set_get k ws).
Qed.

Lemma adds_outputs outs e :
  adds (map (fun o => AddWrites (fo_write_set o)) outs) []
    e (foldl (fun e o => apply_write_set (fo_write_set o) e) e outs).
Proof.
  revert e. induction outs as [|o outs IH]; intros e; [apply adds_nil|].
  apply (adds_app [AddWrites _] _ [] []) with (apply_write_set (fo_write_set o) e); [apply adds_writes|apply IH].
Qed.

Lemma adds_appended events e : adds [] events e (append_events events e).
Proof. done. Qed.

Lemma adds_time t e : adds [] [] e (set_block_time t e).
Proof. split; [done|by rewrite app_nil_r]. Qed.

End history.

(** ** Operations *)

Section operations.
Context {FE : FakeEnv} {MV : MoveVm} {SL : StoreLaws}.

(** The operations that change the state of an executor. *)
Inductive Operation : Type :=
| WriteStateValue (key : StateKey) (blob : Bytes)
| ApplyWriteSet (ws : FWriteSet)
| AppendEvents (events : list ContractEvent)
| ExecuteAndApply (txn : SignedTransaction)
| RunBlock (proposer : Address) (failed : list Z) (txns : list SignedTransaction)
| NewBlock
| ExecModule (m : ModuleId) (function_name : string) (type_params : list TypeTag) (args : list (list Z)).

Definition run_operation (op : Operation) (e : FakeExecutor) : M World FakeExecutor :=
  match op with
  | WriteStateValue key blob => ret (write_state_value key blob e)
  | ApplyWriteSet ws => ret (apply_write_set ws e)
  | AppendEvents events => ret (append_events events e)
  | ExecuteAndApply txn => let% (_, e) := execute_and_apply e txn in ret e
  | RunBlock proposer failed txns => let% (_, e) := run_block_with_metadata proposer failed txns e in ret e
  | NewBlock => new_block e
  | ExecModule m function_name type_params args => lift (exec_module m function_name type_params args e)
  end.

Fixpoint run_operations (ops : list Operation) (e : FakeExecutor) : M World FakeExecutor :=
  match ops with
  | [] => ret e
  | op :: ops => let% e := run_operation op e in run_operations ops e
  end.

(** The block that [run_block_with_metadata] executes. *)
Definition block_of (proposer : Address) (failed : list Z) (txns : list SignedTransaction)
    (n : Z) (e : FakeExecutor) : list FTransaction :=
  block_metadata (new_block_metadata proposer (cast 16 n) failed (block_time e)) :: map user_transaction txns.

Definition writes_of (outs : list FOutput) : list Change :=
  map (fun o => AddWrites (fo_write_set o)) (kept_outputs outs).

(** The changes and events of each operation, from what the virtual machine answers. *)
Inductive changes_of (w : World) (e : FakeExecutor) : Operation -> list Change -> list ContractEvent -> Prop :=
| changes_write k b : changes_of w e (WriteStateValue k b) [SetValue k b] []
| changes_apply ws : changes_of w e (ApplyWriteSet ws) [AddWrites ws] []
| changes_events events : changes_of w e (AppendEvents events) [] events
| changes_execute txn out w' :
    execute_block e [txn] w = Some (Ok [out], w') -> fo_status out = Keep ExecSuccess ->
    changes_of w e (ExecuteAndApply txn) [AddWrites (fo_write_set out)] []
| changes_block proposer failed txns validators n outs w' :
    validator_set (data_store e) = Some (validators, n) ->
    execute_transaction_block e (block_of proposer failed txns n e) w = Some (Ok outs, w') ->
    changes_of w e (RunBlock proposer failed txns) (writes_of outs) []
| changes_new_block t proposer validators n outs w' :
    let later := set_block_time t e in
    add 64 (block_time e) 1 = Some t ->
    validator_set (data_store e) = Some (proposer :: validators, n) ->
    execute_transaction_block later (block_of proposer [] [] n later) w = Some (Ok outs, w') ->
    changes_of w e NewBlock (writes_of outs) []
| changes_exec m f tys args vm name session exprs ws events :
    move_vm_new GasZeros (chain_id e) (features e) true (data_store e) = Some vm ->
    name_of f = Some name ->
    execute_function m name tys args Unmetered (new_session vm (data_store e)) = (Ok tt, session, exprs) ->
    finish_session session = Some (ws, events) ->
    changes_of w e (ExecModule m f tys args) [AddWrites ws] events.

Lemma run_block_changes proposer failed txns e w results e' w' :
  run_block_with_metadata proposer failed txns e w = Some ((results, e'), w') ->
  exists validators n outs, validator_set (data_store e) = Some (validators, n) /\
    execute_transaction_block e (block_of proposer failed txns n e) w = Some (Ok outs, w') /\
    adds (writes_of outs) [] e e'.
Proof.
  intros (vs & n & outs & Hv & Hx & _ & _ & ->)%run_block_returns. exists vs, n, outs.
  do 2 (split; [done|]). apply adds_outputs.
Qed.

Lemma operation_changes op e w e' w' :
  run_operation op e w = Some (e', w') ->
  exists h events, changes_of w e op h events /\ adds h events e e'.
Proof.
  destruct op as [k b|ws|events|txn|p f txns| |m f tys args]; cbn [run_operation].
  - intros [= <- <-]. do 2 eexists. split; [constructor|apply adds_value].
  - intros [= <- <-]. do 2 eexists. split; [constructor|apply adds_writes].
  - intros [= <- <-]. do 2 eexists. split; [constructor|apply adds_appended].
  - intros ([out e1] & w1 & Hx & [= <- <-])%bindM_Some.
    apply execute_and_apply_returns in Hx as (Hb & Hs & ->).
    do 2 eexists. split; [by econstructor|apply adds_writes].
  - intros ([rs e1] & w1 & Hx & [= <- <-])%bindM_Some.
    apply run_block_changes in Hx as (vs & n & outs & Hv & Hb & Ha).
    do 2 eexists. split; [by econstructor|done].
  - unfold new_block. intros (t & w1 & [Ht ->]%lift_Some & H)%bindM_Some.
    unfold new_block_with_timestamp in H. apply bindM_Some in H as ([vs n] & w2 & [Hv ->]%lift_Some & H).
    apply bindM_Some in H as (p & w3 & [Hp ->]%lift_Some & H).
    apply bindM_Some in H as ([rs e1] & w4 & Hx & [= <- <-]).
    apply run_block_changes in Hx as (vs' & n' & outs & Hv' & Hb & Ha).
    cbn in Hv, Hv'. rewrite Hv in Hv'. injection Hv' as <- <-. destruct vs as [|p' vs]; [done|].
    injection Hp as ->. do 2 eexists. split; [by econstructor|].
    apply (adds_app [] _ [] []) with (set_block_time t e); [apply adds_time|done].
  - intros [Hx ->]%lift_Some. unfold exec_module in Hx.
    apply bind_Some in Hx as (vm & Hvm & Hx). apply bind_Some in Hx as (name & Hname & Hx).
    destruct (execute_function _ _ _ _ _ _) as [[r session] exprs] eqn:Hf.
    apply bind_Some in Hx as ([] & Hr & Hx). apply bind_Some in Hx as ([ws events] & Hfin & [= <-]).
    destruct r as [[]|]; [|done]. do 2 eexists. split; [by econstructor|].
    apply (adds_app [_] [] [] _) with (apply_write_set ws e); [apply adds_writes|apply adds_appended].
Qed.

(** The changes and events of a sequence of operations, each in the state it runs in. *)
Inductive history_of : World -> FakeExecutor -> list Operation -> list Change -> list ContractEvent -> Prop :=
| history_nil w e : history_of w e [] [] []
| history_cons w e w1 e1 op ops h1 h2 ev1 ev2 :
    run_operation op e w = Some (e1, w1) -> changes_of w e op h1 ev1 -> history_of w1 e1 ops h2 ev2 ->
    history_of w e (op :: ops) (h1 ++ h2) (ev1 ++ ev2).

(** C25. The state of the fake executor is the history of its operations: after any
    sequence of writes, applied transactions, blocks, new blocks and direct calls that
    returns, reading a key gives the value that the last change of the key left, and
    what was there before without any; the changes are the values written and the
    write sets of kept outputs, in order.  The events are those of the direct calls
    and the appended ones only, in order: transactions and blocks add none. *)
Theorem state_is_history ops e w e' w' :
  run_operations ops e w = Some (e', w') ->
  exists h events, history_of w e ops h events /\
    (forall k, read_state_value_bytes k e' = value_after k (read_state_value_bytes k e) h) /\
    get_events e' = get_events e ++ events.
Proof.
  intros H. enough (exists h events, history_of w e ops h events /\ adds h events e e') as (h & ev & Hh & [Hv He])
    by (by exists h, ev).
  revert e w H. induction ops as [|op ops IH]; intros e w H.
  - injection H as <- <-. exists [], []. split; [constructor|apply adds_nil].
  - apply bindM_Some in H as (e1 & w1 & H1 & H2). destruct (operation_changes _ _ _ _ _ H1) as (h1 & ev1 & Hc & Ha1).
    destruct (IH _ _ H2) as (h2 & ev2 & Hh & Ha2). exists (h1 ++ h2), (ev1 ++ ev2).
    split; [by econstructor|by eapply adds_app].
Qed.

End operations.

(** ** Profiled execution *)

Section profiler.
Context {FE : FakeEnv} {MV : MoveVm} {QV : QueryVm}.

(** A profiler that the virtual machine returns is one the closure has made. *)
Hypothesis meter_made : forall d txn make st out g,
  execute_with_custom_gas_meter d txn make = Some (Ok (st, out, g)) -> exists setup g0, make setup = Some g0.

(** Scripts and entry functions are the only payloads that can be profiled. *)
Lemma profiled_payloads txn e out log :
  execute_transaction_with_gas_profiler txn e = Some (Ok (out, log)) ->
  exists checked, check_signature txn = Some checked /\
    (payload checked = Script \/ exists f, payload checked = EntryFunctionPayload f).
Proof.
  unfold execute_transaction_with_gas_profiler. intros (c & Hc & H)%bind_Some. exists c. split; [done|].
  apply bind_Some in H as (r & Hr & H). destruct r as [[[st o] g]|]; [|done].
  destruct (meter_made _ _ _ _ _ _ Hr) as (setup & g0 & Hm). destruct (payload c); eauto; done.
Qed.

End profiler.
