(* ===== verification/FakeOracle.v ===== *)
(** The fake executor behind the interfaces of its clients: the oracle of the
    account universe ([AccountUniverse.Executor]) and the simulator
    ([Simulator.SimEnv]). *)
From stdpp Require Import base list option numbers strings gmap.
From S2P Require Import Prelude Prog Machine CommonTransactions AccountUniverse.
From S2P Require Import AccountUniverseSpec Simulator FileSystem FakeExecutor FakeExecutorSpec.

Section oracle.
Context {FE : FakeEnv}.
(** The two resource types that are read, and the fields of their values. *)
Context (AccountResourceType CoinStoreType : ResourceType).
Context (resource_auth_key : Resource -> list Z) (resource_seq resource_coin : Resource -> Z).
(** [transaction_status_eq] of [aptos_types]. *)
Context (status_eq : TransactionStatus -> TransactionStatus -> bool).

(** A block from the world [w]: the oracle unwraps the result, so that a panic
    and an error are the same to it. *)
Definition fake_exec_block (w : World) (txns : list SignedTransaction) (e : FakeExecutor)
    : result (option VMStatus) (list FOutput) :=
  match execute_block e txns w with
  | Some (Ok outs, _) => Ok outs
  | Some (Err err, _) => Err (Some err)
  | None => Err None
  end.

#[local] Instance fake_oracle (w : World) : Executor FakeExecutor := {|
  ExecError := option VMStatus;
  TxnOutput := FOutput;
  WriteSet := FWriteSet;
  AccountResource := Resource;
  CoinStoreResource := Resource;
  AccountUniverse.from_head_genesis := from_head_genesis;
  AccountUniverse.add_account_data := add_account_data;
  exec_block := fake_exec_block w;
  AccountUniverse.apply_write_set := apply_write_set;
  read_account_resource a e := mjoin (read_resource AccountResourceType (address a) e);
  read_coin_store_resource a e := mjoin (read_resource CoinStoreType (address a) e);
  output_status := fo_status;
  output_gas_used := fo_gas_used;
  output_write_set := fo_write_set;
  authentication_key := resource_auth_key;
  resource_sequence_number := resource_seq;
  coin := resource_coin;
  transaction_status_eq := status_eq;
|}.

(** The executor the test starts from. *)
Definition with_accounts (l : list AccountData) : FakeExecutor :=
  foldl (fun e d => add_account_data d e) from_head_genesis l.

Lemma with_accounts_config l :
  trace_dir (with_accounts l) = None /\ executor_mode (with_accounts l) = None /\
  executed_output (with_accounts l) = None.
Proof.
  unfold with_accounts. induction l as [|d l IH] using rev_ind; [done|]. by rewrite foldl_app.
Qed.

(** Without the environment variable a block of the test is one sequential run
    of the virtual machine on the store. *)
Lemma fake_exec_sequential w l txns outs :
  env_vars w !! "E2E_PARALLEL_EXEC"%string = None ->
  fake_exec_block w txns (with_accounts l) = Ok outs <->
  exists w1, vm_run (with_accounts l) (map user_transaction txns) (data_store (with_accounts l)) true w
    = Some (Ok outs, w1).
Proof.
  intros Hw. destruct (with_accounts_config l) as (Ht & Hm & Hg).
  pose proof (execute_core_spec (with_accounts l) (map user_transaction txns)
    (data_store (with_accounts l)) w) as Hx.
  assert (Hmode : mode_of (with_accounts l) w = SequentialOnly).
  { unfold mode_of. rewrite Hm, Hw. by rewrite bool_decide_eq_false_2 by (by intros [? ?]). }
  assert (He : execute_block (with_accounts l) txns w =
    execute_core (with_accounts l) (map user_transaction txns) (data_store (with_accounts l)) w).
  { unfold execute_block, execute_transaction_block, execute_core.
    assert (set_trace_dir None (with_accounts l) = with_accounts l) as ->; [|done].
    rewrite <-Ht. by destruct (with_accounts l). }
  unfold fake_exec_block. rewrite He.
  inversion Hx as [r w1 Hm' Hr Heq| | | |Hm' Hr Heq| |]; try congruence; rewrite Hr.
  - destruct r; split; intros; naive_solver.
  - split; [done|]. by intros [? ?].
Qed.

(** C24. The end-to-end test of an account universe on the fake executor passes
    exactly when every transaction can be applied to the universe, one
    sequential run of the virtual machine on the genesis store with the accounts
    answers the block, each output has the status the universe predicts, and the
    store with all write sets applied holds the key, the balance and the
    sequence number that the universe predicts for every account. *)
Theorem universe_test_on_fake_executor {G} {GEN : AUTransactionGen G} w
    (gen : AccountUniverseGen) (gens : list G) :
  env_vars w !! "E2E_PARALLEL_EXEC"%string = None ->
  let e := with_accounts (gen_accounts gen) in
  run_and_assert_universe (E := FakeExecutor) (Executor0 := fake_oracle w) gen gens = Some (Ok tt) <->
  exists applied u outs w1,
    apply_all gens (new_universe (gen_accounts gen) (gen_pick_style gen) false) =
      Some (applied, u) /\
    vm_run e (map user_transaction applied.*1) (data_store e) true w = Some (Ok outs, w1) /\
    Forall2 (fun o x => status_eq (fo_status o) x.2.1 = true) outs applied /\
    Forall (account_agrees (EX := fake_oracle w)
      (foldl (fun e o => apply_write_set (fo_write_set o) e) e outs)) (accounts u).
Proof.
  intros Hw e. rewrite (universe_test_passes (EX := fake_oracle w) gen gens). split.
  - intros (applied & u & outs & H1 & H2 & H3 & H4).
    apply (fake_exec_sequential w _ _ _ Hw) in H2 as [w1 H2]. by exists applied, u, outs, w1.
  - intros (applied & u & outs & w1 & H1 & H2 & H3 & H4).
    exists applied, u, outs. split; [done|]. split; [|done].
    apply (fake_exec_sequential w _ _ _ Hw). by exists w1.
Qed.
End oracle.

(** ** The simulator's environment *)
Section simulator.
Context {FE : FakeEnv}.
(** [BlockExecutorConfig::new_maybe_block_limit] with the executor it configures,
    and the simulator's own random numbers, clock and generator. *)
Context (limited_vm : list FVerified -> DataStore -> Z -> option Z -> FOutside ->
  option (list FOutput) * FOutside).
Context (sim_gen_range : Z -> Z -> FOutside -> Z * FOutside) (sim_now : FOutside -> Z * FOutside).
Context (sim_generate : nat -> Z -> Z -> AccountPickStyle -> FOutside ->
  option AccountUniverseGen * FOutside).

(** The simulator starts from a fake executor and works on its data store. *)
Definition sim_of_fake : SimEnv := {|
  sim_env := fake_env;
  Transaction := FTransaction;
  UserTransaction := user_transaction;
  VerifiedTransaction := FVerified;
  into_signature_verified_block := verify_block;
  TransactionOutput := FOutput;
  SimWriteSet := FWriteSet;
  status := fo_status;
  write_set := fo_write_set;
  StateView := DataStore;
  add_write_set := store_add_write_set;
  SimExecutor := FakeExecutor;
  sim_from_head_genesis := from_head_genesis;
  sim_add_account_data := add_account_data;
  get_state_view := data_store;
  Outside := FOutside;
  gen_range_outside := sim_gen_range;
  now_outside := sim_now;
  vm_execute_block := limited_vm;
  num_cpus := fake_num_cpus;
  generate_universe := sim_generate;
|}.
End simulator.
