(* ===== verification/FakeWitnesses.v ===== *)
(** A concrete environment for the fake executor and its theorems at concrete
    inputs. *)
From stdpp Require Import base list option numbers strings gmap pretty.
From S2P Require Import Prelude Prog Machine CommonTransactions AccountUniverse AccountUniverseSpec.
From S2P Require Import UniverseWitnesses FileSystem FakeExecutor MoveSessions FakeQueries FakeExecutorSpec FakeStateSpec.
From S2P Require Import FakeOracle.

Open Scope Z_scope.

(** ** The environment *)

(** A transaction of a user, or the metadata of a block. *)
Abbreviation ToyBlockTxn := (ToyTxn + Z)%type.

(** An output: success, writes, events and gas. *)
Abbreviation ToyFakeOutput := (bool * list (Z * Z) * list Z * Z)%type.

(** The store holds, for the account [a] (a number below 1000), its key and
    sequence number as [100 a + n] at the key [a], and its balance at the key
    [1000 + a].  What a coin transfer writes to the balances, its fee included. *)
Definition toy_payment (store : gmap Z Z) (t : ToyTxn) : list (Z * Z) :=
  match toy_payload t with
  | CoinTransfer a amount =>
      [(1000 + toy_sender t,
        default 0 (store !! (1000 + toy_sender t)) - amount - 6 * toy_price t);
       (1000 + a, default 0 (store !! (1000 + a)) + amount)]
  | _ => []
  end.

(** A user transaction with the sequence number of the store succeeds, pays and
    writes the next one; the metadata announces the block. *)
Definition toy_fake_run (store : gmap Z Z) (t : ToyBlockTxn) : ToyFakeOutput :=
  match t with
  | inl t =>
      if decide (store !! toy_sender t = Some (100 * toy_sender t + toy_seq t)) then
        (true, (toy_sender t, 100 * toy_sender t + toy_seq t + 1) :: toy_payment store t, [], 6)
      else (false, [], [], 0)
  | inr time => (true, [(-1, time)], [0; 1], 0)
  end.

(** A block, each transaction on the store that the ones before it leave. *)
Fixpoint toy_fake_block (store : gmap Z Z) (txns : list ToyBlockTxn) : list ToyFakeOutput :=
  match txns with
  | [] => []
  | t :: txns =>
      let o := toy_fake_run store t in
      o :: toy_fake_block (list_to_map o.1.1.2 ∪ store) txns
  end.

#[export] Instance toy_fake : FakeEnv := {|
  fake_env := toy_env;
  FTransaction := ToyBlockTxn;
  FVerified := ToyBlockTxn;
  BlockMetadata := Z;
  user_transaction := inl;
  block_metadata := inr;
  verify_block l := l;
  new_block_metadata _ _ _ time := time;
  FWriteSet := gmap Z Z;
  StateKey := Z;
  WriteOp := Z;
  write_set_iter ws := map_to_list ws;
  write_set_get k ws := ws !! k;
  ContractEvent := Z;
  FOutput := ToyFakeOutput;
  FeeStatement := Z;
  default_fee_statement := 0;
  try_extract_fee_statement o := Some o.2;
  fo_status o := if (o.1.1.1 : bool) then Keep ExecSuccess else Discard (OtherDiscard 3);
  fo_write_set o := list_to_map o.1.1.2;
  fo_events o := o.1.2;
  fo_gas_used o := o.2;
  VMStatus := Z;
  event_is_v1 _ := true;
  event_is_new_block ev := ev =? 1;
  event_data_is_new_block _ := true;
  DataStore := gmap Z Z;
  Bytes := Z;
  default_store := ∅;
  store_add_write_set ws s := ws ∪ s;
  store_add_account_data d s := let '(a, b, n) := (d : Z * Z * Z) in
    <[a := 100 * a + n]> (<[1000 + a := b]> s);
  store_add_coin_info s := s;
  ModuleId := Z;
  store_add_module id blob s := <[id := blob]> s;
  store_set k b s := <[k := b]> s;
  store_get k s := s !! k;
  aptos_version_major _ := None;
  validator_set _ := Some ([7], 1);
  (** The coins, or the account itself. *)
  ResourceType := bool;
  resource_typed (coins : bool) a := Some (if coins then 1000 + a else a);
  Resource := Z;
  resource_from_bytes _ b := Some b;
  GENESIS_CHANGE_SET_HEAD := ∅;
  GENESIS_CHANGE_SET_TESTNET := ∅;
  GENESIS_CHANGE_SET_MAINNET := ∅;
  genesis_for_testing_with_count _ := ∅;
  ReleaseBundle := unit;
  generate_test_genesis _ _ := ∅;
  head_release_modules := [];
  chain_id_test := 4;
  chain_id_testnet := 2;
  chain_id_mainnet := 1;
  Features := unit;
  default_features := tt;
  KeyGen := Z;
  key_gen_from_seed _ := 0;
  account_from_seed r := (r, r + 1);
  account_data_from_seed b n r := ((r, b, n), r + 1);
  new_genesis_account a := a;
  with_account a b n := (a, b, n);
  FOutside := Z;
  fake_num_cpus := 8;
  block_vm txns store _ o := Some (Ok (toy_fake_block store txns), o);
  store_to_bytes _ := Some [];
  transaction_to_bytes t := Some [match t with inl t => toy_sender t | inr _ => 0 end];
  output_to_bytes o := Some [o.2];
  mapping_to_bytes m := Some (Z.of_nat m.1.1 :: map Z.of_nat (m.1.2 ++ m.2));
  vm_status_to_bytes v := [v];
|}.

(** ** Witnesses *)

Definition toy_fake_world (fs : FS) : World := mkWorld (FE := toy_fake) fs ∅ [] 0.

(** An executor with one account, at the sequence number 5. *)
Definition toy_fake_executor : FakeExecutor :=
  add_account_data (FE := toy_fake) (11, 1000, 5) from_head_genesis.

Definition toy_fake_txn (n : Z) : ToyTxn := mkToyTxn 11 EmptyCall n 0 100.

Lemma modes_of_execution_witness :
  executes (FE := toy_fake) (set_parallel toy_fake_executor) [inl (toy_fake_txn 5)]
    (data_store toy_fake_executor) (toy_fake_world ∅)
    (execute_transaction_block_with_state_view (set_parallel toy_fake_executor)
      [inl (toy_fake_txn 5)] (data_store toy_fake_executor) (toy_fake_world ∅)).
Proof.
  exact (proj1 (modes_of_execution (FE := toy_fake) (set_parallel toy_fake_executor)
    [inl (toy_fake_txn 5)] (data_store toy_fake_executor) (toy_fake_world ∅) eq_refl)).
Defined.

(** The directories of a fresh trace at ["t"]. *)
Definition toy_trace_fs : FS :=
  <[["data"; "t"] := Dir]> (<[["input"; "t"] := Dir]> (<[["output"; "t"] := Dir]>
    (<[["meta"; "t"] := Dir]> (<[["t"] := Dir]> ∅))))%string.

Lemma toy_trace_dirs : trace_dirs ["t"%string] 0 0 0 0 toy_trace_fs.
Proof.
  assert (Hnone : forall d name, d ∈ [["data"; "t"]; ["input"; "t"]; ["output"; "t"]; ["meta"; "t"]]%string ->
    toy_trace_fs !! join d name = None).
  { intros d name Hd. unfold toy_trace_fs.
    rewrite !lookup_insert_ne, lookup_empty; [done|..]; intros Heq; subst;
      repeat (apply elem_of_cons in Hd as [Hd|Hd]; [discriminate Hd || (subst; discriminate Heq)|]);
      by apply not_elem_of_nil in Hd. }
  assert (Hn : forall d, d ∈ [["data"; "t"]; ["input"; "t"]; ["output"; "t"]; ["meta"; "t"]]%string ->
    toy_trace_fs !! d = Some Dir -> numbered d 0 toy_trace_fs).
  { intros d Hd Hdir. split; [done|]. intros name. rewrite (Hnone d name Hd). split.
    - by intros [? ?].
    - intros (i & Hi & _). lia. }
  split; apply Hn; first [reflexivity|set_solver].
Qed.

Lemma traced_execution_witness :
  exists fs',
    execute_transaction_block (FE := toy_fake) (set_trace_dir (Some ["t"%string]) toy_fake_executor)
      [inl (toy_fake_txn 5)] (toy_fake_world toy_trace_fs) =
      Some (Ok [(true, [(11, 1106)], [], 6)], toy_fake_world fs') /\
    trace_dirs ["t"%string] 1 1 1 1 fs' /\
    fs' !! ["0"; "input"; "t"]%string = Some (File [11]).
Proof.
  destruct (traced_execution (FE := toy_fake) (set_trace_dir (Some ["t"%string]) toy_fake_executor)
    ["t"%string] 0 0 0 0 [inl (toy_fake_txn 5)] [(true, [(11, 1106)], [], 6)]
    (toy_fake_world toy_trace_fs) (toy_fake_world toy_trace_fs))
    as (H1 & H2 & H3 & _).
  - reflexivity.
  - exact toy_trace_dirs.
  - reflexivity.
  - by eexists.
  - repeat constructor. by eexists.
  - repeat constructor. by eexists.
  - by eexists.
  - eexists. split; [exact H1|]. split; [exact H2|]. exact (H3 0%nat _ eq_refl).
Defined.

Definition toy_status_eq (s t : @TransactionStatus (@env_accounts (@fake_env toy_fake))) : bool :=
  match s, t with Keep ExecSuccess, Keep ExecSuccess => true | _, _ => false end.

#[local] Instance toy_fake_gen : AUTransactionGen P2PTransferGen := p2p_gen (ENV := toy_env) 1.

(** Three accounts and three transfers between the first two of them, one of them
    back: the test passes. *)
Definition toy_gens : list P2PTransferGen :=
  [toy_transfer 500 false; toy_transfer 100 true; toy_transfer 70 false].

Definition toy_gen_universe : AccountUniverseGen :=
  mkUniverseGen (ENV := toy_env) (toy_data 5000 1000 7) Unlimited.

Abbreviation toy_oracle := (fake_oracle (FE := toy_fake) false true (fun r => [r / 100])
  (fun r => r mod 100) (fun r => r) toy_status_eq (toy_fake_world ∅)).

Lemma toy_test_passes :
  run_and_assert_universe (ENV := toy_env) (G := P2PTransferGen) (E := FakeExecutor)
    (Executor0 := toy_oracle) toy_gen_universe toy_gens = Some (Ok tt).
Proof. vm_compute. reflexivity. Qed.

Lemma universe_test_on_fake_executor_witness :
  let e := with_accounts (FE := toy_fake) (gen_accounts toy_gen_universe) in
  exists applied u outs w1,
    apply_all (ENV := toy_env) toy_gens
      (new_universe (gen_accounts toy_gen_universe) Unlimited false) = Some (applied, u) /\
    vm_run e (map user_transaction applied.*1) (data_store e) true (toy_fake_world ∅) =
      Some (Ok outs, w1) /\
    Forall2 (fun o x => toy_status_eq (fo_status o) x.2.1 = true) outs applied /\
    Forall (account_agrees (EX := toy_oracle)
      (foldl (fun e o => apply_write_set (fo_write_set o) e) e outs)) (accounts u).
Proof.
  exact (proj1 (universe_test_on_fake_executor (FE := toy_fake) false true (fun r => [r / 100])
    (fun r => r mod 100) (fun r => r) toy_status_eq (toy_fake_world ∅) toy_gen_universe toy_gens
    eq_refl) toy_test_passes).
Defined.

(** ** Histories *)

#[export] Instance toy_store_laws : StoreLaws (FE := toy_fake).
Proof.
  refine {| write_op_bytes := (fun op => Some op) : @WriteOp toy_fake -> option (@Bytes toy_fake) |}.
  - intros k k' b d. apply (lookup_insert (M := gmap Z) (A := Z)).
  - intros k ws d. refine (eq_trans (lookup_union (M := gmap Z) (A := Z) ws d k) _). cbn.
    by destruct (@lookup Z Z (gmap Z Z) _ k ws), (@lookup Z Z (gmap Z Z) _ k d).
Defined.

(** A virtual machine whose functions write their arguments at the address of the
    module and emit the number of arguments. *)
#[export] Instance toy_move : MoveVm (H := toy_fake) := {|
  Identifier := string;
  identifier_new s := Some s;
  core_module _ := 1;
  TypeTag := unit;
  DynamicExpression := unit;
  address_to_bytes a := Some [a];
  Vm := unit;
  move_vm_new _ _ _ _ _ := Some tt;
  Session := gmap Z Z * list Z;
  new_session _ _ := (∅, []);
  VmError := unit;
  into_vm_status _ := 0;
  execute_function m _ _ args _ s :=
    (Ok tt, (<[m := Z.of_nat (length args)]> s.1, s.2 ++ [Z.of_nat (length args)]), []);
  finish_session s := Some s;
  EntryFunction := unit;
  entry_module _ := 1;
  entry_name _ := ""%string;
  entry_ty_args _ := [];
  entry_args _ := [];
  Function := unit;
  get_gas_parameters _ _ := Some GasInitial;
  load_function _ _ _ _ := Ok tt;
  combine_signers _ args _ _ := Ok args;
  finish_with_deltas _ s := Some (Ok s);
  (** The steps of the clock grow. *)
  read_clock o := ((o * o * 1000) mod 2 ^ 64, o + 1);
  random_address o := (0, o);
|}.

Lemma toy_clock_range o : 0 <= (read_clock (MoveVm := toy_move) o).1 < 2 ^ 100.
Proof.
  pose proof (Z.mod_pos_bound (o * o * 1000) (2 ^ 64) ltac:(lia)) as H.
  change ((read_clock o).1) with ((o * o * 1000) mod 2 ^ 64). lia.
Qed.


Definition toy_operations : list Operation :=
  [ExecuteAndApply (toy_fake_txn 5); WriteStateValue 3 8; NewBlock; ExecModule 3 "f" [] [[1]; [2]];
   RunBlock 7 [] [toy_fake_txn 6; toy_fake_txn 9]].

(** The account ends at the sequence number 7, and the key 3 holds what the call wrote. *)
Lemma state_is_history_witness :
  exists e' w', run_operations toy_operations toy_fake_executor (toy_fake_world ∅) = Some (e', w') /\
    read_state_value_bytes (11 : @StateKey toy_fake) e' = Some 1107 /\ read_state_value_bytes (3 : @StateKey toy_fake) e' = Some 2 /\
    exists h events, history_of (toy_fake_world ∅) toy_fake_executor toy_operations h events /\
      (forall k, read_state_value_bytes k e' = value_after k (read_state_value_bytes k toy_fake_executor) h) /\
      get_events e' = [] ++ events.
Proof.
  assert (option_map (fun r => (read_state_value_bytes (11 : @StateKey toy_fake) r.1,
      read_state_value_bytes (3 : @StateKey toy_fake) r.1))
    (run_operations toy_operations toy_fake_executor (toy_fake_world ∅)) = Some (Some 1107, Some 2)) as Hobs
    by (vm_compute; reflexivity).
  destruct (run_operations toy_operations toy_fake_executor (toy_fake_world ∅)) as [[e' w']|] eqn:Hrun; [|done].
  injection Hobs as H11 H3. exists e', w'. split; [done|]. split; [done|]. split; [done|].
  apply (state_is_history toy_operations toy_fake_executor (toy_fake_world ∅) e' w' Hrun).
Defined.
