(* ===== verification/SuiTypes.v ===== *)
(** The data of the Sui single-node benchmark and its asynchronous tasks.

    Objects, addresses and their stores are types of [sui_types], which is not
    part of the repository: they are the members of [SuiData].  A set of spawned
    tasks runs in an order that a schedule chooses. *)
From stdpp Require Import base list option numbers strings gmap sorting.
From S2P Require Import Prelude Machine.

(** ** [sui_types] *)

Class SuiData := {
  sui_build :: Build;
  ObjectID : Type;
  object_id_eq :: EqDecision ObjectID;
  object_id_countable :: Countable ObjectID;
  (** [ObjectID::from_bytes], [ObjectID::ZERO]. *)
  object_id_from_bytes : list Z -> option ObjectID;
  OBJECT_ID_ZERO : ObjectID;
  SuiAddress : Type;
  address_eq :: EqDecision SuiAddress;
  address_countable :: Countable SuiAddress;
  (** The order of the keys of a [BTreeMap<SuiAddress, _>]. *)
  address_le : SuiAddress -> SuiAddress -> bool;
  address_of_object : ObjectID -> SuiAddress;
  ObjectDigest : Type;
  (** [Owner]: [is_shared], [is_immutable], [get_address_owner_address],
      [Owner::ObjectOwner]. *)
  Owner : Type;
  owner_eq :: EqDecision Owner;
  is_shared : Owner -> bool;
  is_immutable : Owner -> bool;
  get_address_owner_address : Owner -> option SuiAddress;
  ObjectOwner : SuiAddress -> Owner;
  Object : Type;
  object_id : Object -> ObjectID;
  object_version : Object -> Z;
  object_owner : Object -> Owner;
  object_digest : Object -> ObjectDigest;
  with_id_owner_for_testing : ObjectID -> SuiAddress -> Object;
  PackageObject : Type;
  object_of_package : PackageObject -> Object;
  SuiError : Type;
  TransactionKey : Type;
}.

(** [ObjectRef], a triple. *)
Definition ObjectRef `{SuiData} : Type := ObjectID * Z * ObjectDigest.
Definition ref_id `{SuiData} (r : ObjectRef) : ObjectID := r.1.1.
Definition ref_version `{SuiData} (r : ObjectRef) : Z := r.1.2.

Definition compute_object_reference `{SuiData} (o : Object) : ObjectRef :=
  (object_id o, object_version o, object_digest o).

Inductive InputObjectKind `{SuiData} : Type :=
| MovePackage (id : ObjectID)
| ImmOrOwnedMoveObject (objref : ObjectRef)
| SharedMoveObject (id : ObjectID) (initial_shared_version : Z) (mutable : bool).

Arguments MovePackage {_} id.
Arguments ImmOrOwnedMoveObject {_} objref.
Arguments SharedMoveObject {_} id initial_shared_version mutable.

(** ** Ordered maps

    A [BTreeMap] is a map whose entries are visited in the order of the keys. *)
Section btree.
Context `{SuiData} {V : Type}.

Definition entry_le (a b : SuiAddress * V) : Prop := address_le a.1 b.1 = true.
#[export] Instance entry_le_dec : RelDecision entry_le.
Proof. intros a b. unfold entry_le. apply _. Defined.

Definition btree_entries (m : gmap SuiAddress V) : list (SuiAddress * V) :=
  merge_sort entry_le (map_to_list m).

Definition btree_values (m : gmap SuiAddress V) : list V := (btree_entries m).*2.

(** [pop_last]: the entry of the largest key, and the map without it. *)
Definition pop_last (m : gmap SuiAddress V) : option (SuiAddress * V * gmap SuiAddress V) :=
  match last (btree_entries m) with
  | Some (k, v) => Some (k, v, delete k m)
  | None => None
  end.

Lemma btree_entries_perm (m : gmap SuiAddress V) : btree_entries m ≡ₚ map_to_list m.
Proof. apply merge_sort_Permutation. Qed.

Lemma btree_entries_lookup (m : gmap SuiAddress V) k v :
  (k, v) ∈ btree_entries m <-> m !! k = Some v.
Proof. by rewrite btree_entries_perm, elem_of_map_to_list. Qed.

Lemma btree_entries_keys (m : gmap SuiAddress V) : NoDup (btree_entries m).*1.
Proof. rewrite btree_entries_perm. apply NoDup_fst_map_to_list. Qed.

Lemma btree_values_elem (m : gmap SuiAddress V) v :
  v ∈ btree_values m <-> exists k, m !! k = Some v.
Proof.
  unfold btree_values. rewrite list_elem_of_fmap. setoid_rewrite <-btree_entries_lookup.
  split; [intros ([k v'] & -> & ?)|intros [k ?]]; [by exists k|by exists (k, v)].
Qed.

Lemma btree_values_length (m : gmap SuiAddress V) : length (btree_values m) = size m.
Proof.
  unfold btree_values. rewrite length_fmap, btree_entries_perm. apply length_map_to_list.
Qed.

Lemma pop_last_some (m : gmap SuiAddress V) :
  m <> ∅ -> exists k v, pop_last m = Some (k, v, delete k m) /\ m !! k = Some v.
Proof.
  intros Hm. unfold pop_last. destruct (last (btree_entries m)) as [[k v]|] eqn:E.
  - exists k, v. split; [done|]. apply btree_entries_lookup. by apply last_Some_elem_of.
  - apply last_None in E. destruct Hm. apply map_to_list_empty_iff, Permutation_nil_r.
    by rewrite <-(btree_entries_perm m), E.
Qed.

End btree.

(** ** Tasks

    [tasks.collect().await] on a [FuturesUnordered] returns the results in the
    order of completion.  [arrange cs l] is the order of the items of [l] that the
    choices [cs] describe: the first item takes the place [c] among the others. *)
Definition put_at {A} (n : nat) (x : A) (l : list A) : list A := take n l ++ x :: drop n l.

Fixpoint arrange {A} (cs : list nat) (l : list A) : list A :=
  match l with
  | [] => []
  | x :: l => put_at (hd 0 cs) x (arrange (tl cs) l)
  end.

Lemma put_at_perm {A} n (x : A) l : put_at n x l ≡ₚ x :: l.
Proof.
  unfold put_at. rewrite <-Permutation_middle. by rewrite take_drop.
Qed.

Lemma arrange_perm {A} cs (l : list A) : arrange cs l ≡ₚ l.
Proof.
  revert cs. induction l as [|x l IH]; intros cs; [done|]. cbn. by rewrite put_at_perm, IH.
Qed.

(** The choices reach every order. *)
Lemma arrange_complete {A} (l l' : list A) : l' ≡ₚ l -> exists cs, arrange cs l = l'.
Proof.
  revert l'. induction l as [|x l IH]; intros l' Hp.
  - apply Permutation_nil_r in Hp as ->. by exists [].
  - assert (Hx : x ∈ l') by (rewrite Hp; left).
    apply list_elem_of_split in Hx as (l1 & l2 & ->).
    rewrite <-Permutation_middle in Hp. apply Permutation_cons_inv in Hp.
    destruct (IH _ Hp) as [cs Hcs]. exists (length l1 :: cs). cbn. rewrite Hcs. unfold put_at.
    by rewrite take_app_length, drop_app_length.
Qed.

Lemma arrange_map {A B} (f : A -> B) cs l : arrange cs (map f l) = map f (arrange cs l).
Proof.
  revert cs. induction l as [|x l IH]; intros cs; [done|]. cbn. rewrite IH. unfold put_at.
  by rewrite map_app, firstn_map, skipn_map.
Qed.

(** Computations one after the other. *)
Fixpoint seqM {S A} (ts : list (M S A)) : M S (list A) :=
  match ts with
  | [] => ret []
  | t :: ts => let% a := t in let% l := seqM ts in ret (a :: l)
  end.

