(* ===== verification/SuiStore.v ===== *)
(** The in-memory object store: [sui-single-node-benchmark/src/mock_storage.rs].

    The store keeps the live objects, a cache of packages and a count of the
    reads.  The executor of transactions is given the store through its traits
    only: it is a program over the calls of these traits. *)
From stdpp Require Import base list option numbers strings gmap.
From S2P Require Import Prelude Machine SuiTypes.

(** ** What the store calls *)

(** A program that reads objects through [ObjectStore]. *)
Inductive ObjReads `{SuiData} (A : Type) : Type :=
| ODone (a : A)
| OGetObject (id : ObjectID) (k : option Object -> ObjReads A).
Arguments ODone {_ _} a.
Arguments OGetObject {_ _} id k.

Class SuiStoreEnv := {
  store_data :: SuiData;
  (** [InputObjectKind::object_not_found_error]. *)
  object_not_found_error : InputObjectKind -> SuiError;
  (** [PackageObjectCache], whose lookups may read the store. *)
  PackageObjectCache : Type;
  package_cache_new : PackageObjectCache;
  package_cache_get : ObjectID -> PackageObjectCache ->
    ObjReads (result SuiError (option PackageObject) * PackageObjectCache);
}.

(** The calls of the traits [ObjectStore], [BackingPackageStore],
    [ChildObjectResolver] and [ParentSync] that the executor can make. *)
Inductive StoreCalls `{SuiStoreEnv} (A : Type) : Type :=
| Done (a : A)
| GetObject (id : ObjectID) (k : option Object -> StoreCalls A)
| GetObjectByKey (id : ObjectID) (version : Z) (k : option Object -> StoreCalls A)
| GetPackageObject (id : ObjectID) (k : result SuiError (option PackageObject) -> StoreCalls A)
| ReadChildObject (parent child : ObjectID) (upper_bound : Z) (k : option Object -> StoreCalls A)
| GetObjectReceivedAtVersion (owner receiving : ObjectID) (version epoch : Z)
| GetLatestParentEntryRefDeprecated (id : ObjectID).
Arguments Done {_ _} a.
Arguments GetObject {_ _} id k.
Arguments GetObjectByKey {_ _} id version k.
Arguments GetPackageObject {_ _} id k.
Arguments ReadChildObject {_ _} parent child upper_bound k.
Arguments GetObjectReceivedAtVersion {_ _} owner receiving version epoch.
Arguments GetLatestParentEntryRefDeprecated {_ _} id.

(** What the execution of a transaction hands to the store. *)
Record InnerTemporaryStore `{SuiData} : Type := mkInnerTemporaryStore {
  mutable_inputs : gset ObjectID;
  written : gmap ObjectID Object;
}.
Arguments mkInnerTemporaryStore {_} mutable_inputs written.
Arguments mutable_inputs {_} i.
Arguments written {_} i.

(** ** The store *)

Record InMemoryObjectStore `{SuiStoreEnv} : Type := mkInMemoryObjectStore {
  objects : gmap ObjectID Object;
  package_cache : PackageObjectCache;
  num_object_reads : Z;
}.
Arguments mkInMemoryObjectStore {_} objects package_cache num_object_reads.
Arguments objects {_} i.
Arguments package_cache {_} i.
Arguments num_object_reads {_} i.

Section store.
Context `{SuiStoreEnv}.
Implicit Types s : InMemoryObjectStore.

Definition store_new (objs : gmap ObjectID Object) : InMemoryObjectStore :=
  mkInMemoryObjectStore objs package_cache_new 0.

Definition get_num_object_reads : M InMemoryObjectStore Z := gets num_object_reads.

(** The atomic counter wraps around. *)
Definition get_object (id : ObjectID) : M InMemoryObjectStore (option Object) :=
  fun s => Some (objects s !! id,
    mkInMemoryObjectStore (objects s) (package_cache s) (cast 64 (num_object_reads s + 1))).

Definition get_object_by_key (id : ObjectID) (version : Z) : M InMemoryObjectStore (option Object) :=
  let% o := get_object id in
  ret (match o with
       | Some o => if (object_version o =? version)%Z then Some o else None
       | None => None
       end).

Fixpoint run_obj_reads {A} (p : ObjReads A) : M InMemoryObjectStore A :=
  match p with
  | ODone a => ret a
  | OGetObject id k => let% o := get_object id in run_obj_reads (k o)
  end.

Definition set_package_cache (c : PackageObjectCache) : M InMemoryObjectStore unit :=
  modify (fun s => mkInMemoryObjectStore (objects s) c (num_object_reads s)).

Definition get_package_object (id : ObjectID)
    : M InMemoryObjectStore (result SuiError (option PackageObject)) :=
  let% c := gets package_cache in
  let% r := run_obj_reads (package_cache_get id c) in
  let% _ := set_package_cache r.2 in
  ret r.1.

Definition read_child_object (parent child : ObjectID) (upper_bound : Z)
    : M InMemoryObjectStore (option Object) :=
  let% o := get_object child in
  ret (match o with
       | Some o =>
           if (object_version o <=? upper_bound)%Z
              && bool_decide (object_owner o = ObjectOwner (address_of_object parent))
           then Some o else None
       | None => None
       end).

(** [unimplemented!()] and [unreachable!()]. *)
Definition get_object_received_at_version (owner receiving : ObjectID) (version epoch : Z)
    : M InMemoryObjectStore (option Object) := panic.
Definition get_latest_parent_entry_ref_deprecated (id : ObjectID)
    : M InMemoryObjectStore (option ObjectRef) := panic.
Definition store_get_shared_locks (key : TransactionKey)
    : M InMemoryObjectStore (result SuiError (list (ObjectID * Z))) := panic.

Fixpoint run_store_calls {A} (p : StoreCalls A) : M InMemoryObjectStore A :=
  match p with
  | Done a => ret a
  | GetObject id k => let% o := get_object id in run_store_calls (k o)
  | GetObjectByKey id version k => let% o := get_object_by_key id version in run_store_calls (k o)
  | GetPackageObject id k => let% r := get_package_object id in run_store_calls (k r)
  | ReadChildObject parent child upper k =>
      let% o := read_child_object parent child upper in run_store_calls (k o)
  | GetObjectReceivedAtVersion owner receiving version epoch =>
      let% _ := get_object_received_at_version owner receiving version epoch in panic
  | GetLatestParentEntryRefDeprecated id =>
      let% _ := get_latest_parent_entry_ref_deprecated id in panic
  end.

(** ** [read_objects_for_execution] *)

Section read_objects.
(** [shared_locks.get_shared_locks(tx_key)]. *)
Context (locks : result SuiError (list (ObjectID * Z))).

(** [shared_locks_cell.get_or_try_init(..)]. *)
Definition get_or_try_init (cell : option (gmap ObjectID Z))
    : result SuiError (gmap ObjectID Z) :=
  match cell with
  | Some m => Ok m
  | None => match locks with Ok l => Ok (collect_map l) | Err e => Err e end
  end.

(** The object of one input kind, with the cell after the read. *)
Definition read_kind (cell : option (gmap ObjectID Z)) (kind : InputObjectKind)
    : M InMemoryObjectStore (result SuiError (option Object) * option (gmap ObjectID Z)) :=
  match kind with
  | MovePackage id =>
      let% r := get_package_object id in
      ret (match r with Ok o => Ok (option_map object_of_package o) | Err e => Err e end, cell)
  | ImmOrOwnedMoveObject objref =>
      let% o := get_object_by_key (ref_id objref) (ref_version objref) in
      ret (Ok o, cell)
  | SharedMoveObject id _ _ =>
      match get_or_try_init cell with
      | Err e => ret (Err e, cell)
      | Ok shared_locks =>
          let% version := lift (shared_locks !! id) in
          let% o := get_object_by_key id version in
          ret (Ok o, Some shared_locks)
      end
  end.

Fixpoint read_kinds (cell : option (gmap ObjectID Z)) (kinds : list InputObjectKind)
    (input_objects : list (InputObjectKind * Object))
    : M InMemoryObjectStore (result SuiError (list (InputObjectKind * Object))) :=
  match kinds with
  | [] => ret (Ok input_objects)
  | kind :: kinds =>
      let% r := read_kind cell kind in
      match r.1 with
      | Err e => ret (Err e)
      | Ok None => ret (Err (object_not_found_error kind))
      | Ok (Some obj) => read_kinds r.2 kinds (input_objects ++ [(kind, obj)])
      end
  end.

Definition read_objects_for_execution (kinds : list InputObjectKind)
    : M InMemoryObjectStore (result SuiError (list (InputObjectKind * Object))) :=
  read_kinds None kinds [].

End read_objects.

(** ** [commit_objects] *)

Definition remove_input (w : gmap ObjectID Object) (objs : gmap ObjectID Object) (id : ObjectID)
    : gmap ObjectID Object :=
  match w !! id with Some _ => objs | None => delete id objs end.

Definition commit_objects (t : InnerTemporaryStore) : M InMemoryObjectStore unit :=
  modify (fun s =>
    let objs := foldl (remove_input (written t)) (objects s) (elements (mutable_inputs t)) in
    let objs := foldl (fun m e => <[e.1 := e.2]> m) objs (map_to_list (written t)) in
    mkInMemoryObjectStore objs (package_cache s) (num_object_reads s)).

End store.
