(* ===== verification/SuiWorld.v ===== *)
(** What the Sui single-node benchmark runs against.

    Transactions and their builders, the authority state of the validator, its
    executor, its checkpoint store, key pairs, random numbers, the clock and the
    files are outside the repository: they are the members of [SuiEnv].  The
    state of the program is a [World]. *)
From stdpp Require Import base list option numbers strings gmap.
From S2P Require Import Prelude Machine FileSystem SuiTypes SuiStore.

(** ** Arguments of transactions *)

Inductive ObjectArg `{SuiData} : Type :=
| ImmOrOwnedObject (objref : ObjectRef)
| SharedObject (id : ObjectID) (initial_shared_version : Z) (mutable : bool).
Arguments ImmOrOwnedObject {_} objref.
Arguments SharedObject {_} id initial_shared_version mutable.

Inductive CallArg `{SuiData} : Type :=
| Pure (bytes : list Z)
| ObjectCallArg (arg : ObjectArg).
Arguments Pure {_} bytes.
Arguments ObjectCallArg {_} arg.

Inductive PublishData (CompiledPackage : Type) : Type :=
| Source (p : path) (with_unpublished_deps : bool)
| ModuleBytes (modules : list (list Z))
| Compiled (package : CompiledPackage).
Arguments Source {_} p with_unpublished_deps.
Arguments ModuleBytes {_} modules.
Arguments Compiled {_} package.

(** The manifest of the package publishing workload. *)
Record Package : Type := mkPackage {
  package_name : string;
  package_path : path;
  is_source_code : bool;
}.

Record PackageDependencyManifest : Type := mkManifest {
  dependencies : list Package;
  root_package : Package;
}.

Inductive LiveObject (Object : Type) : Type :=
| Normal (o : Object)
| Wrapped.
Arguments Normal {_} o.
Arguments Wrapped {_}.

(** A transaction sent to consensus. *)
Inductive ConsensusTransaction (Cert : Type) : Type :=
| UserTransaction (cert : Cert)
| OtherConsensusTransaction.
Arguments UserTransaction {_} cert.
Arguments OtherConsensusTransaction {_}.

(** ** The environment *)

Class SuiEnv := {
  env_store :: SuiStoreEnv;
  AccountKeyPair : Type;
  (** [rand] and the key pairs drawn from it. *)
  Entropy : Type;
  get_account_key_pair : Entropy -> SuiAddress * AccountKeyPair * Entropy;
  gen : Z -> Entropy -> Z * Entropy;
  (** [bcs::to_bytes] of an unsigned integer of some width and of an address. *)
  bcs_uint : Z -> Z -> option (list Z);
  bcs_address : SuiAddress -> option (list Z);
  Identifier : Type;
  identifier_new : string -> option Identifier;
  TypeTag : Type;
  (** [ProgrammableTransactionBuilder]. *)
  PTB : Type;
  Argument : Type;
  ProgrammableTransaction : Type;
  ptb_new : PTB;
  transfer_object : SuiAddress -> ObjectRef -> PTB -> option PTB;
  move_call : ObjectID -> Identifier -> Identifier -> list TypeTag -> list CallArg -> PTB ->
    option PTB;
  ptb_obj : ObjectArg -> PTB -> option (Argument * PTB);
  ptb_pure_u64 : Z -> PTB -> option (Argument * PTB);
  programmable_move_call : ObjectID -> Identifier -> Identifier -> list TypeTag ->
    list Argument -> PTB -> PTB;
  ptb_finish : PTB -> ProgrammableTransaction;
  (** [TestTransactionBuilder]. *)
  CompiledPackage : Type;
  TestTransactionBuilder : Type;
  Transaction : Type;
  DEFAULT_VALIDATOR_GAS_PRICE : Z;
  ttb_new : SuiAddress -> ObjectRef -> Z -> TestTransactionBuilder;
  ttb_move_call : ObjectID -> string -> string -> list CallArg -> TestTransactionBuilder ->
    TestTransactionBuilder;
  ttb_programmable : ProgrammableTransaction -> TestTransactionBuilder -> TestTransactionBuilder;
  ttb_publish_with_data : PublishData CompiledPackage -> TestTransactionBuilder ->
    TestTransactionBuilder;
  build_and_sign : AccountKeyPair -> TestTransactionBuilder -> Transaction;
  (** [BuildConfig::new_for_testing_replace_addresses(..).build(..)],
      [get_package_bytes], [parse_move_manifest_from_file] and [serde_json]. *)
  build_package : gmap string ObjectID -> path -> option CompiledPackage;
  get_package_bytes : CompiledPackage -> list (list Z);
  move_manifest_name : path -> option string;
  parse_manifest : list Z -> option PackageDependencyManifest;
  (** Certificates. *)
  CertifiedTransaction : Type;
  VerifiedExecutableTransaction : Type;
  AuthSignature : Type;
  Digest : Type;
  digest_eq :: EqDecision Digest;
  digest_countable :: Countable Digest;
  cert_new : Transaction -> list AuthSignature -> option CertifiedTransaction;
  cert_into_unsigned : CertifiedTransaction -> Transaction;
  cert_digest : CertifiedTransaction -> Digest;
  cert_key : CertifiedTransaction -> TransactionKey;
  cert_input_objects : CertifiedTransaction -> option (list InputObjectKind);
  contains_shared_object : CertifiedTransaction -> bool;
  new_from_quorum_execution : Transaction -> Z -> VerifiedExecutableTransaction;
  new_from_certificate : CertifiedTransaction -> VerifiedExecutableTransaction;
  (** [TransactionEffects]. *)
  TransactionEffects : Type;
  status_is_ok : TransactionEffects -> bool;
  created : TransactionEffects -> list (ObjectRef * Owner);
  mutated : TransactionEffects -> list (ObjectRef * Owner);
  all_changed_objects : TransactionEffects -> list (ObjectRef * Owner);
  gas_object : TransactionEffects -> ObjectRef;
  effects_digest : TransactionEffects -> Digest;
  executed_epoch : TransactionEffects -> Z;
  (** [AuthorityState], the epoch store and the caches: every call is a step. *)
  AuthorityState : Type;
  authority_build : list Object -> AuthorityState;
  epoch : AuthorityState -> Z;
  try_execute_immediately : VerifiedExecutableTransaction -> AuthorityState ->
    result SuiError TransactionEffects * AuthorityState;
  enqueue_certificates_for_execution : list CertifiedTransaction -> AuthorityState ->
    AuthorityState;
  state_execute_certificate : CertifiedTransaction -> AuthorityState ->
    result SuiError TransactionEffects * AuthorityState;
  sign_with_secret : Z -> Transaction -> AuthorityState -> AuthSignature;
  (** [handle_transaction(..).status.into_signed_for_testing()]. *)
  state_handle_transaction : Transaction -> AuthorityState ->
    result SuiError AuthSignature * AuthorityState;
  HandleTransactionResponse : Type;
  (** [ValidatorService]; the first argument is the consensus client's step. *)
  handle_transaction_for_testing : Transaction -> AuthorityState ->
    result SuiError HandleTransactionResponse * AuthorityState;
  execute_certificate_for_testing :
    (ConsensusTransaction CertifiedTransaction -> AuthorityState -> option AuthorityState) ->
    CertifiedTransaction -> AuthorityState ->
    option (result SuiError TransactionEffects * AuthorityState);
  process_consensus_transactions_for_tests :
    ConsensusTransaction CertifiedTransaction -> AuthorityState ->
    result SuiError unit * AuthorityState;
  commit_transaction_outputs : Z -> Digest -> AuthorityState ->
    result SuiError unit * AuthorityState;
  AssignedVersions : Type;
  assign_versions_from_consensus : list VerifiedExecutableTransaction -> AuthorityState ->
    result SuiError AssignedVersions;
  set_assigned_shared_object_versions : AssignedVersions -> AuthorityState -> AuthorityState;
  get_shared_locks : TransactionKey -> AuthorityState -> result SuiError (list (ObjectID * Z));
  iter_live_object_set : AuthorityState -> list (LiveObject Object);
  (** [sui_transaction_checks::check_certificate_input], the executor. *)
  GasStatus : Type;
  CheckedInputObjects : Type;
  check_certificate_input : AuthorityState -> VerifiedExecutableTransaction ->
    list (InputObjectKind * Object) -> result SuiError (GasStatus * CheckedInputObjects);
  execute_transaction_to_effects : AuthorityState -> VerifiedExecutableTransaction ->
    CheckedInputObjects -> GasStatus -> StoreCalls (InnerTemporaryStore * TransactionEffects);
  (** [MockCheckpointBuilder] and the checkpoint executor. *)
  VerifiedCheckpoint : Type;
  VerifiedCheckpointContents : Type;
  sequence_number : VerifiedCheckpoint -> Z;
  get_latest_certified_checkpoint : AuthorityState -> option VerifiedCheckpoint;
  MockCheckpointBuilder : Type;
  checkpoint_builder_new : VerifiedCheckpoint -> MockCheckpointBuilder;
  push_transaction : Transaction -> TransactionEffects -> MockCheckpointBuilder ->
    MockCheckpointBuilder;
  builder_size : MockCheckpointBuilder -> nat;
  builder_build : AuthorityState -> Z -> MockCheckpointBuilder ->
    VerifiedCheckpoint * VerifiedCheckpointContents * MockCheckpointBuilder;
  insert_verified_checkpoint : VerifiedCheckpoint -> AuthorityState ->
    result SuiError unit * AuthorityState;
  multi_insert_transaction_and_effects : VerifiedCheckpointContents -> AuthorityState ->
    result SuiError unit * AuthorityState;
  insert_verified_checkpoint_contents : VerifiedCheckpoint -> VerifiedCheckpointContents ->
    AuthorityState -> result SuiError unit * AuthorityState;
  update_highest_synced_checkpoint : VerifiedCheckpoint -> AuthorityState ->
    result SuiError unit * AuthorityState;
  (** [run_epoch] on the checkpoints received so far, up to a sequence number. *)
  run_epoch : list VerifiedCheckpoint -> Z -> AuthorityState -> AuthorityState;
  (** The milliseconds of the clock and the choices of the runtime, by step. *)
  instant : nat -> Z;
  schedule : nat -> list nat;
  (** Files, and [csv] over them: [None] is a file that cannot be opened, and a
      record that cannot be read. *)
  files : FS;
  directory_order : path -> list nat;
  csv_records : string -> option (list (option (list string)));
  CARGO_MANIFEST_DIR : path;
}.

(** ** The state of the program *)

(** The time and throughput a run prints: the elapsed milliseconds, the number of
    transactions and the milliseconds it is divided by. *)
Inductive Report : Type :=
| Throughput (label : string) (elapsed : Z) (tx_count : nat) (divisor : Z)
| ReadsPerTransaction (reads : Z) (tx_count : nat).

Record World `{SuiEnv} : Type := mkWorld {
  state : AuthorityState;
  entropy : Entropy;
  steps : nat;
  reports : list Report;
}.
Arguments mkWorld {_} state entropy steps reports.
Arguments state {_} w.
Arguments entropy {_} w.
Arguments steps {_} w.
Arguments reports {_} w.

Section world.
Context `{SuiEnv}.

Definition next : M World nat :=
  fun w => Some (steps w, mkWorld (state w) (entropy w) (S (steps w)) (reports w)).

(** [Instant::now()]. *)
Definition now : M World Z := let% k := next in ret (instant k).

(** [start.elapsed().as_millis()]. *)
Definition elapsed_ms (start : Z) : M World Z := let% t := now in ret (t - start)%Z.

Definition report (r : Report) : M World unit :=
  modify (fun w => mkWorld (state w) (entropy w) (steps w) (reports w ++ [r])).

Definition random {A} (f : Entropy -> A * Entropy) : M World A :=
  fun w => let '(a, e) := f (entropy w) in Some (a, mkWorld (state w) e (steps w) (reports w)).

Definition on_state {A} (f : AuthorityState -> A * AuthorityState) : M World A :=
  fun w => let '(a, s) := f (state w) in
    Some (a, mkWorld s (entropy w) (steps w) (reports w)).

Definition set_state (s : AuthorityState) : M World unit :=
  modify (fun w => mkWorld s (entropy w) (steps w) (reports w)).

(** [r.unwrap()]. *)
Definition unwrap {S E A} (r : result E A) : M S A :=
  match r with Ok a => ret a | Err _ => panic end.

(** Spawned tasks, collected: each is one step, in the order of the schedule. *)
Definition collect_tasks {A} (tasks : list (M World A)) : M World (list A) :=
  let% k := next in seqM (arrange (schedule k) tasks).

(** [get_records_from_file]: what cannot be opened or read is skipped. *)
Definition get_records_from_file (p : string) : list (list string) :=
  match csv_records p with
  | Some rs => omap id rs
  | None => []
  end.

End world.
