(* ===== verification/SuiAccounts.v ===== *)
(** Accounts and workloads of the Sui single-node benchmark: [mock_account.rs],
    the data of [command.rs] and the queries of [workload.rs].

    Every account owns gas objects whose identifiers are made from a running
    index, and remembers the references of these objects. *)
From stdpp Require Import base list option numbers strings gmap.
From S2P Require Import Prelude Machine FileSystem BenchMain SuiTypes SuiStore SuiWorld.
Open Scope Z_scope.

(** ** [command.rs] *)

Inductive Component : Type :=
| ExecutionOnly
| Baseline
| WithTxManager
| ValidatorWithoutConsensus
| ValidatorWithFakeConsensus
| TxnSigning
| CheckpointExecutor.

#[export] Instance component_eq_dec : EqDecision Component.
Proof. solve_decision. Defined.

(** The options of [PTB]. *)
Record PTBOptions : Type := mkPTBOptions {
  num_transfers : Z;
  use_native_transfer : bool;
  num_dynamic_fields : Z;
  computation : Z;
  num_shared_objects : Z;
  erc20_transfer : bool;
  test_kitty : bool;
  num_land_objects : Z;
}.

Inductive WorkloadKind : Type :=
| KindPTB (o : PTBOptions)
| KindPublish (manifest_file : path).

(** ** Accounts *)

Record Account `{SuiEnv} : Type := mkAccount {
  sender : SuiAddress;
  keypair : AccountKeyPair;
  gas_objects : list ObjectRef;
}.
Arguments mkAccount {_} sender keypair gas_objects.
Arguments sender {_} a.
Arguments keypair {_} a.
Arguments gas_objects {_} a.

(** ** [workload.rs] *)

Record Workload : Type := mkWorkload {
  tx_count : Z;
  workload_kind : WorkloadKind;
}.

Section accounts.
Context `{SuiEnv}.

Definition kind_gas_object_num_per_account (k : WorkloadKind) : option Z :=
  match k with
  | KindPTB o => add 64 (num_transfers o) 1
  | KindPublish _ => Some 1
  end.

Definition kind_is_test_kitty (k : WorkloadKind) : bool :=
  match k with KindPTB o => test_kitty o | KindPublish _ => false end.

Definition num_accounts (w : Workload) : Z := tx_count w.
Definition gas_object_num_per_account (w : Workload) : option Z :=
  kind_gas_object_num_per_account (workload_kind w).
Definition is_test_kitty (w : Workload) : bool := kind_is_test_kitty (workload_kind w).

(** ** [mock_account.rs] *)

(** [idx.to_le_bytes()]. *)
Fixpoint to_le_bytes (n : nat) (idx : Z) : list Z :=
  match n with O => [] | S n => idx mod 256 :: to_le_bytes n (idx / 256) end.

Definition SUI_ADDRESS_LENGTH : nat := 32.

Definition gas_object_id_bytes (idx : Z) : list Z :=
  255 :: to_le_bytes 8 idx ++ replicate (SUI_ADDRESS_LENGTH - 9) 0.

Definition new_gas_object (idx : Z) (owner : SuiAddress) : option Object :=
  object_id ← object_id_from_bytes (gas_object_id_bytes idx);
  Some (with_id_owner_for_testing object_id owner).

(** [0..num]. *)
Definition upto (num : Z) : list Z := map Z.of_nat (seq 0 (Z.to_nat num)).

Definition create_gas_objects (sender : SuiAddress) (num starting_id : Z) : option (list Object) :=
  mapM (fun i => idx ← add 64 starting_id i; new_gas_object idx sender) (upto num).

(** The body of a task that creates an account with [num] objects. *)
Definition create_account (num starting_id : Z) : M World (SuiAddress * AccountKeyPair * list Object) :=
  let% kp := random get_account_key_pair in
  let% objs := lift (create_gas_objects kp.1 num starting_id) in
  ret (kp, objs).

Definition account_of (created : SuiAddress * AccountKeyPair * list Object) : Account :=
  let '(sender, keypair, objs) := created in
  mkAccount sender keypair (map compute_object_reference objs).

(** One step of the loop over the finished tasks. *)
Definition add_account (acc : gmap SuiAddress Account * list Object)
    (created : SuiAddress * AccountKeyPair * list Object) : gmap SuiAddress Account * list Object :=
  (<[created.1.1 := account_of created]> acc.1, acc.2 ++ created.2).

Definition batch_create_account_and_gas (num_accounts gas_object_num_per_account : Z)
    : M World (gmap SuiAddress Account * list Object) :=
  let% starts := lift (mapM (fun idx => mul 64 idx gas_object_num_per_account) (upto num_accounts)) in
  let% tasks := collect_tasks (map (create_account gas_object_num_per_account) starts) in
  ret (foldl add_account (∅, []) tasks).

(** [record[i].parse::<u64>().unwrap()]. *)
Definition record_u64 (record : list string) (i : nat) : option Z :=
  field ← record !! i; parse_usize field.

(** The tasks of the records: the index of the account, the number of its objects
    and the first identifier, which is after the objects of the earlier records. *)
Fixpoint record_tasks (starting_id : Z) (records : list (list string)) : option (list (Z * Z * Z)) :=
  match records with
  | [] => Some []
  | record :: records =>
      addr_index ← record_u64 record 0;
      obj_num ← record_u64 record 1;
      obj_num ← mul 64 obj_num 2;
      starting_id' ← add 64 starting_id obj_num;
      rest ← record_tasks starting_id' records;
      Some ((addr_index, obj_num, starting_id) :: rest)
  end.

Definition create_indexed_account (t : Z * Z * Z)
    : M World (Z * (SuiAddress * AccountKeyPair * list Object)) :=
  let '(addr_index, obj_num, starting_id) := t in
  let% a := create_account obj_num starting_id in
  ret (addr_index, a).

Record IndexedAccounts : Type := mkIndexedAccounts {
  ia_accounts : gmap SuiAddress Account;
  ia_objects : list Object;
  ia_indexes : gmap Z SuiAddress;
}.

Definition add_indexed_account (acc : IndexedAccounts)
    (t : Z * (SuiAddress * AccountKeyPair * list Object)) : IndexedAccounts :=
  let '(accounts, objs) := add_account (ia_accounts acc, ia_objects acc) t.2 in
  mkIndexedAccounts accounts objs (<[t.1 := t.2.1.1]> (ia_indexes acc)).

Definition batch_create_account_and_gas_by_index (records : list (list string))
    : M World (IndexedAccounts * Account) :=
  let% ts := lift (record_tasks 1 records) in
  let% tasks := collect_tasks (map create_indexed_account ts) in
  let acc := foldl add_indexed_account (mkIndexedAccounts ∅ [] ∅) tasks in
  let% admin := create_account 1 10000000000000000 in
  ret (mkIndexedAccounts (ia_accounts acc) (ia_objects acc ++ admin.2) (ia_indexes acc),
       account_of admin).

End accounts.
