(* ===== verification/SuiGenerators.v ===== *)
(** The transaction generators of the Sui single-node benchmark: the trait of
    [tx_generator.rs], the generators that create objects and the generator of
    the measured transactions, [move_tx_generator.rs]. *)
From stdpp Require Import base list option numbers strings gmap.
From S2P Require Import Prelude Machine SuiTypes SuiStore SuiWorld SuiAccounts.
Open Scope Z_scope.

(** ** The trait *)

Record TxGenerator `{SuiEnv} : Type := mkTxGenerator {
  generate_tx : Account -> SuiAddress -> gmap string Z -> list ObjectRef -> M World Transaction;
  generator_name : string;
  shared_obj_num : Z;
}.
Arguments mkTxGenerator {_} generate_tx generator_name shared_obj_num.
Arguments generate_tx {_} t.
Arguments generator_name {_} t.
Arguments shared_obj_num {_} t.

Section generators.
Context `{SuiEnv}.

(** [v[i]] with an index of machine width. *)
Definition at_index {A} (v : list A) (i : Z) : option A := v !! Z.to_nat i.

(** A signed transaction that calls one Move function and pays with a gas object. *)
Definition signed_move_call (account : Account) (move_package : ObjectID)
    (module_ function : string) (args : list CallArg) : M World Transaction :=
  let% gas := lift (at_index (gas_objects account) 0) in
  ret (build_and_sign (keypair account)
         (ttb_move_call move_package module_ function args
            (ttb_new (sender account) gas DEFAULT_VALIDATOR_GAS_PRICE))).

(** ** Generators that create objects *)

Definition RootObjectCreateTxGenerator (move_package : ObjectID) (child_per_root : Z) : TxGenerator :=
  mkTxGenerator
    (fun account _ _ _ =>
       let% bytes := lift (bcs_uint 64 child_per_root) in
       signed_move_call account move_package "benchmark" "generate_dynamic_fields" [Pure bytes])
    "Root Object Creation Transaction Generator" 0.

Definition SharedObjectCreateTxGenerator (move_package : ObjectID) : TxGenerator :=
  mkTxGenerator
    (fun account _ _ _ => signed_move_call account move_package "benchmark" "create_shared_counter" [])
    "Shared Object Creation Transaction Generator" 0.

Definition KittyObjectCreateTxGenerator (move_package : ObjectID) : TxGenerator :=
  mkTxGenerator
    (fun account _ _ _ =>
       let% gene_id := random (gen 128) in
       let% bytes := lift (bcs_uint 128 gene_id) in
       signed_move_call account move_package "KittyBreeding" "mint" [Pure bytes])
    "Kitty Object Creation Transaction Generator" 0.

Definition LandObjectCreateTxGenerator (move_package : ObjectID) : TxGenerator :=
  mkTxGenerator
    (fun account _ _ _ =>
       signed_move_call account move_package "MillionPixel" "create_land_records" [])
    "Kitty Object Creation Transaction Generator" 0.

(** ** [MoveTxGenerator] *)

Record MoveTxGenerator : Type := mkMoveTxGenerator {
  move_package : ObjectID;
  mg_num_transfers : Z;
  mg_use_native_transfer : bool;
  mg_computation : Z;
  root_objects : gmap SuiAddress ObjectRef;
  shared_objects : list (ObjectID * Z);
  mg_erc20_transfer : bool;
  kitty_objects : gmap SuiAddress ObjectRef;
  land_objects : gmap Z (ObjectID * Z);
}.

(** [args.get(name).copied().unwrap_or(0)]. *)
Definition arg (args : gmap string Z) (name : string) : Z := default 0 (args !! name).

(** [builder.move_call(package, module, function, vec![], args).unwrap()]. *)
Definition call_ (package : ObjectID) (module_ function : string) (args : list CallArg) (b : PTB)
    : option PTB :=
  m ← identifier_new module_;
  f ← identifier_new function;
  move_call package m f [] args b.

(** [builder.programmable_move_call(package, module, function, vec![], args)]. *)
Definition programmable_call (package : ObjectID) (module_ function : string)
    (args : list Argument) (b : PTB) : option PTB :=
  m ← identifier_new module_;
  f ← identifier_new function;
  Some (programmable_move_call package m f [] args b).

Section move_tx.
Context (g : MoveTxGenerator) (account : Account) (to : SuiAddress).
Context (args : gmap string Z) (objects : list ObjectRef).

(** Step 1: transfer an object; the objects from the second on are transferred. *)
Definition transfer_one (b : PTB) (i : Z) : option PTB :=
  object ← at_index (gas_objects account) i;
  if mg_use_native_transfer g then transfer_object (sender account) object b
  else call_ (move_package g) "benchmark" "transfer_coin"
         [ObjectCallArg (ImmOrOwnedObject object)] b.

Fixpoint transfer_all (b : PTB) (idxs : list Z) : option PTB :=
  match idxs with
  | [] => Some b
  | i :: idxs => b ← transfer_one b i; transfer_all b idxs
  end.

Definition increment_shared (b : PTB) : option PTB :=
  match shared_objects g with
  | [] => Some b
  | _ =>
      so ← at_index (shared_objects g) (arg args "shared_obj_index");
      call_ (move_package g) "benchmark" "increment_shared_counter"
        [ObjectCallArg (SharedObject so.1 so.2 true)] b
  end.

Definition read_dynamic_fields (b : PTB) : option PTB :=
  if decide (root_objects g = ∅) then Some b
  else
    root ← root_objects g !! sender account;
    ab ← ptb_obj (ImmOrOwnedObject root) b;
    programmable_call (move_package g) "benchmark" "read_dynamic_fields" [ab.1] ab.2.

Definition run_computation (b : PTB) : option PTB :=
  if mg_computation g >? 0 then
    ab ← (n ← mul 64 (mg_computation g) 100; ptb_pure_u64 n b);
    programmable_call (move_package g) "benchmark" "run_computation" [ab.1] ab.2
  else Some b.

Definition erc20_step (b : PTB) : option PTB :=
  if mg_erc20_transfer g then
    let gas_num := Z.of_nat (length (gas_objects account)) in
    i ← add 64 (gas_num / 2) (arg args "obj_index");
    object ← at_index (gas_objects account) i;
    call_ (move_package g) "benchmark" "transfer_coin"
      [ObjectCallArg (ImmOrOwnedObject object)] b
  else Some b.

Definition kitty_step (b : PTB) : option PTB :=
  if (0 <? size (kitty_objects g))%nat then
    kitty ← kitty_objects g !! sender account;
    if arg args "kitty_fn" =? 1 then
      bytes ← bcs_address to;
      call_ (move_package g) "KittyBreeding" "provide_gene"
        [ObjectCallArg (ImmOrOwnedObject kitty); Pure bytes] b
    else
      gene_object ← objects !! 0%nat;
      new_kitty_object ← objects !! 1%nat;
      call_ (move_package g) "KittyBreeding" "breed"
        [ObjectCallArg (ImmOrOwnedObject gene_object);
         ObjectCallArg (ImmOrOwnedObject new_kitty_object)] b
  else Some b.

(** The index of the land record of a pixel. *)
Definition land_index (x y len : Z) : option Z :=
  key ← (kx ← mul 32 x 65536; add 32 kx y);
  index ← rem key len;
  Some (cast 16 index).

Definition land_step (b : PTB) : M World PTB :=
  if (0 <? size (land_objects g))%nat then
    let len := cast 16 (Z.of_nat (size (land_objects g))) in
    let% x := random (gen 16) in
    let% y := random (gen 16) in
    let% index := lift (land_index x y len) in
    let% land := lift (land_objects g !! index) in
    let% bx := lift (bcs_uint 16 x) in
    let% by' := lift (bcs_uint 16 y) in
    lift (call_ (move_package g) "MillionPixel" "occupy"
            [ObjectCallArg (SharedObject land.1 land.2 true); Pure bx; Pure by'] b)
  else ret b.

(** [1..=num_transfers]. *)
Definition transfer_range : list Z :=
  map Z.of_nat (seq 1 (Z.to_nat (mg_num_transfers g))).

Definition move_generate_tx : M World Transaction :=
  let% b := lift (b ← transfer_all ptb_new transfer_range;
                  b ← increment_shared b;
                  b ← read_dynamic_fields b;
                  b ← run_computation b;
                  b ← erc20_step b;
                  kitty_step b) in
  let% b := land_step b in
  let pt := ptb_finish b in
  let obj_index := arg args "obj_index" in
  let% gas := lift (at_index (gas_objects account) obj_index) in
  ret (build_and_sign (keypair account)
         (ttb_programmable pt (ttb_new (sender account) gas DEFAULT_VALIDATOR_GAS_PRICE))).

End move_tx.

Definition move_tx_generator (g : MoveTxGenerator) : TxGenerator :=
  mkTxGenerator (move_generate_tx g) "Programmable Move Transaction Generator"
    (Z.of_nat (length (shared_objects g))).

End generators.
