(* ===== verification/SuiNode.v ===== *)
(** The validator of the Sui single-node benchmark: [single_node.rs], with the
    consensus client of [mock_consensus.rs]. *)
From stdpp Require Import base list option numbers strings gmap.
From S2P Require Import Prelude Machine SuiTypes SuiStore SuiWorld SuiAccounts.
Open Scope Z_scope.

(** ** [mock_consensus.rs] *)

Inductive ConsensusMode : Type := Noop | DirectSequencing.

Section node.
Context `{SuiEnv}.

(** The body of the loop over the received transactions: whether it ends without a
    panic, and the state of the authority it leaves. *)
Definition consensus_body (mode : ConsensusMode) (tx : ConsensusTransaction CertifiedTransaction)
    (s : AuthorityState) : bool * AuthorityState :=
  let '(sequenced, s) :=
    match mode with
    | Noop => (true, s)
    | DirectSequencing =>
        match process_consensus_transactions_for_tests tx s with
        | (Ok _, s) => (true, s)
        | (Err _, s) => (false, s)
        end
    end in
  if sequenced then
    match tx with
    | UserTransaction cert =>
        (true, if contains_shared_object cert then enqueue_certificates_for_execution [cert] s else s)
    | OtherConsensusTransaction => (false, s)
    end
  else (false, s).

Definition consensus_step (mode : ConsensusMode) (tx : ConsensusTransaction CertifiedTransaction)
    (s : AuthorityState) : option AuthorityState :=
  let '(ended, s) := consensus_body mode tx s in if ended then Some s else None.

(** The loop, over the transactions received until the channel closes. *)
Fixpoint consensus_run_impl (mode : ConsensusMode)
    (received : list (ConsensusTransaction CertifiedTransaction)) (s : AuthorityState)
    : option AuthorityState :=
  match received with
  | [] => Some s
  | tx :: received => s ← consensus_step mode tx s; consensus_run_impl mode received s
  end.

(** ** [SingleValidator] *)

(** The handle of the validator: its state is in the [World]. *)
Record SingleValidator : Type := mkSingleValidator { consensus_mode : ConsensusMode }.

Definition mode_of (component : Component) : ConsensusMode :=
  match component with ValidatorWithFakeConsensus => DirectSequencing | _ => Noop end.

Definition validator_new (genesis_objects : list Object) (component : Component)
    : M World SingleValidator :=
  let% _ := set_state (authority_build genesis_objects) in
  ret (mkSingleValidator (mode_of component)).

(** [assert!(effects.status().is_ok()); effects]. *)
Definition assert_ok {S} (effects : TransactionEffects) : M S TransactionEffects :=
  let% _ := guard_ (status_is_ok effects) in ret effects.

Definition execute_raw_transaction (transaction : Transaction) : M World TransactionEffects :=
  let% r := on_state (try_execute_immediately (new_from_quorum_execution transaction 0)) in
  let% effects := unwrap r in
  assert_ok effects.

(** The first object whose owner satisfies a condition. *)
Definition first_such {A} (f : ObjectRef * Owner -> option A) (l : list (ObjectRef * Owner))
    : option A := head (omap f l).

Definition publish_package_with (publish_data : PublishData CompiledPackage) (sender : SuiAddress)
    (keypair : AccountKeyPair) (gas : ObjectRef) : M World (ObjectRef * ObjectRef) :=
  let transaction := build_and_sign keypair
    (ttb_publish_with_data publish_data (ttb_new sender gas DEFAULT_VALIDATOR_GAS_PRICE)) in
  let% effects := execute_raw_transaction transaction in
  let% package := lift (first_such (fun ro => if is_immutable ro.2 then Some ro.1 else None)
                          (all_changed_objects effects)) in
  ret (package, gas_object effects).

Definition execute_certificate (v : SingleValidator) (cert : CertifiedTransaction)
    (component : Component) : M World TransactionEffects :=
  let% effects :=
    match component with
    | Baseline =>
        let% r := on_state (try_execute_immediately (new_from_certificate cert)) in unwrap r
    | WithTxManager =>
        let% _ := (if contains_shared_object cert then
                     on_state (fun s => (tt, enqueue_certificates_for_execution [cert] s))
                   else ret tt) in
        let% r := on_state (state_execute_certificate cert) in unwrap r
    | ValidatorWithoutConsensus | ValidatorWithFakeConsensus =>
        let% s := gets state in
        let% rs := lift (execute_certificate_for_testing (consensus_step (consensus_mode v)) cert s) in
        let% _ := set_state rs.2 in
        unwrap rs.1
    | TxnSigning | CheckpointExecutor | ExecutionOnly => panic
    end in
  assert_ok effects.

Definition execute_transaction_in_memory (s : AuthorityState) (transaction : CertifiedTransaction)
    : M InMemoryObjectStore TransactionEffects :=
  let% input_objects := lift (cert_input_objects transaction) in
  let% r := read_objects_for_execution (get_shared_locks (cert_key transaction) s) input_objects in
  let% objects := unwrap r in
  let executable := new_from_certificate transaction in
  let% gi := unwrap (check_certificate_input s executable objects) in
  let% out := run_store_calls (execute_transaction_to_effects s executable gi.2 gi.1) in
  let% effects := assert_ok out.2 in
  let% _ := commit_objects out.1 in
  ret effects.

Definition sign_transaction (transaction : Transaction) : M World HandleTransactionResponse :=
  let% r := on_state (handle_transaction_for_testing transaction) in unwrap r.

(** ** Checkpoints *)

Section checkpoints.
Context (s : AuthorityState) (checkpoint_size : nat).

Record CheckpointState : Type := mkCheckpointState {
  cs_builder : MockCheckpointBuilder;
  cs_effects : gmap Digest TransactionEffects;
  cs_checkpoints : list (VerifiedCheckpoint * VerifiedCheckpointContents);
}.

(** [builder.build(self, 0)], pushed on the checkpoints. *)
Definition build_one (c : CheckpointState) : CheckpointState :=
  let '(checkpoint, full_contents, b) := builder_build s 0 (cs_builder c) in
  mkCheckpointState b (cs_effects c) (cs_checkpoints c ++ [(checkpoint, full_contents)]).

(** The body of the loop over the transactions. *)
Definition checkpoint_transaction (c : CheckpointState) (transaction : CertifiedTransaction)
    : option CheckpointState :=
  effects ← cs_effects c !! cert_digest transaction;
  let c := mkCheckpointState
    (push_transaction (cert_into_unsigned transaction) effects (cs_builder c))
    (delete (cert_digest transaction) (cs_effects c)) (cs_checkpoints c) in
  Some (if (builder_size (cs_builder c) =? checkpoint_size)%nat then build_one c else c).

Fixpoint checkpoint_transactions (c : CheckpointState) (transactions : list CertifiedTransaction)
    : option CheckpointState :=
  match transactions with
  | [] => Some c
  | transaction :: transactions =>
      c ← checkpoint_transaction c transaction; checkpoint_transactions c transactions
  end.

Definition build_checkpoints (transactions : list CertifiedTransaction)
    (all_effects : gmap Digest TransactionEffects)
    : option (list (VerifiedCheckpoint * VerifiedCheckpointContents)) :=
  latest ← get_latest_certified_checkpoint s;
  c ← checkpoint_transactions
        (mkCheckpointState (checkpoint_builder_new latest) all_effects []) transactions;
  let c := if (0 <? builder_size (cs_builder c))%nat then build_one c else c in
  Some (cs_checkpoints c).

End checkpoints.

(** ** [ValidatorKeypairProvider], which the builder of checkpoints signs with *)

Section keypairs.
Context {AuthorityName Signer Committee : Type} `{!EqDecision AuthorityName}.
Context (name : AuthorityState -> AuthorityName) (secret : AuthorityState -> Signer)
  (committee : AuthorityState -> Committee).

Definition get_validator_key (authority : AuthorityName) : M World Signer :=
  let% s := gets state in
  let% _ := guard_ (bool_decide (authority = name s)) in
  ret (secret s).

Definition get_committee : M World Committee := let% s := gets state in ret (committee s).

End keypairs.

(** ** Stores *)

Definition create_in_memory_store (s : AuthorityState) : option InMemoryObjectStore :=
  objs ← mapM (fun o => match o with
                        | Normal object => Some (object_id object, object)
                        | Wrapped => None
                        end) (iter_live_object_set s);
  Some (store_new (collect_map objs)).

Definition assigned_shared_object_versions (transactions : list CertifiedTransaction)
    : M World unit :=
  let% s := gets state in
  let% versions := unwrap (assign_versions_from_consensus (map new_from_certificate transactions) s) in
  set_state (set_assigned_shared_object_versions versions s).

End node.
