(* ===== verification/SuiConsensus.v ===== *)
(** The consensus client of [mock_consensus.rs] as a concurrent system: the channel
    between [submit_to_consensus] and the task that [run] spawns, under every
    interleaving of the two with the other tasks of the validator.  The channel of the
    runtime is an interface.

    The functions of the client are executable, with the ways in which they wait;
    a step relation interleaves them.  The specification is a log that submissions
    extend and the task consumes in order: the client refines it. *)
From stdpp Require Import base list option numbers relations.
From S2P Require Import Prelude Machine SuiTypes SuiStore SuiWorld SuiAccounts SuiNode.
Open Scope Z_scope.

(** ** A bounded channel ([tokio::sync::mpsc]) *)

(** What a call that may wait does when it is polled. *)
Inductive Poll (A : Type) : Type := Ready (a : A) | Pending.
Arguments Ready {A} a.
Arguments Pending {A}.

Class Mpsc := {
  Channel : Type -> Type;
  mpsc_channel : forall {T}, Z -> Channel T;
  (** [Sender::send] and [Receiver::recv], and the end of the two halves. *)
  send : forall {T}, T -> Channel T -> Poll (result unit (Channel T));
  recv : forall {T}, Channel T -> Poll (option (T * Channel T));
  drop_receiver : forall {T}, Channel T -> Channel T;
  drop_sender : forall {T}, Channel T -> Channel T;
}.

(** ** The client *)

(** The task that [run] spawns, behind [_consensus_handle]. *)
Inductive Task : Type := Running | Finished | Panicked.

Section client.
Context `{SuiEnv} `{Mpsc}.

Abbreviation Sequenced := (ConsensusTransaction CertifiedTransaction).

(** The client, with the authority that its task shares with the validator. *)
Record MockConsensusClient : Type := mkClient {
  tx_channel : Channel Sequenced;
  consensus_handle : Task;
  shared_validator : AuthorityState;
  held : bool;  (* the client has not been dropped *)
}.

Definition client_new (s : AuthorityState) : MockConsensusClient :=
  mkClient (mpsc_channel 1000000) Running s true.

(** One turn of the loop of [run_impl]; the receiver is dropped when the task ends. *)
Definition run_turn (mode : ConsensusMode) (c : MockConsensusClient) : Poll MockConsensusClient :=
  match consensus_handle c with
  | Running =>
      match recv (tx_channel c) with
      | Pending => Pending
      | Ready None => Ready (mkClient (drop_receiver (tx_channel c)) Finished (shared_validator c) (held c))
      | Ready (Some (tx, ch)) =>
          let '(ended, s) := consensus_body mode tx (shared_validator c) in
          Ready (if ended then mkClient ch Running s (held c)
                 else mkClient (drop_receiver ch) Panicked s (held c))
      end
  | _ => Pending
  end.

(** [submit_to_consensus]: an error is the panic of [unwrap]. *)
Definition submit_to_consensus (tx : Sequenced) (c : MockConsensusClient)
    : Poll (option MockConsensusClient) :=
  match send tx (tx_channel c) with
  | Pending => Pending
  | Ready (Err _) => Ready None
  | Ready (Ok ch) => Ready (Some (mkClient ch (consensus_handle c) (shared_validator c) (held c)))
  end.

(** The client is dropped with the adapter that holds it. *)
Definition client_drop (c : MockConsensusClient) : MockConsensusClient :=
  mkClient (drop_sender (tx_channel c)) (consensus_handle c) (shared_validator c) false.

(** ** Interleavings *)

(** What the tasks of the validator do with the client. *)
Inductive Event : Type :=
| Submitted (tx : Sequenced)
| Refused (tx : Sequenced)      (* the caller of [submit_to_consensus] panics *)
| Turned                        (* a turn of the spawned task *)
| Dropped
| Changed (s : AuthorityState). (* another task changes the authority *)

(** A submission that waits takes no step, nor does a task that waits. *)
Inductive client_step (mode : ConsensusMode) : Event -> MockConsensusClient -> MockConsensusClient -> Prop :=
| step_submitted tx c c' :
    held c = true -> submit_to_consensus tx c = Ready (Some c') -> client_step mode (Submitted tx) c c'
| step_refused tx c :
    held c = true -> submit_to_consensus tx c = Ready None -> client_step mode (Refused tx) c c
| step_turned c c' : run_turn mode c = Ready c' -> client_step mode Turned c c'
| step_dropped c : client_step mode Dropped c (client_drop c)
| step_changed s c :
    client_step mode (Changed s) c (mkClient (tx_channel c) (consensus_handle c) s (held c)).

(** The steps of a trace, one after the other. *)
Inductive traces {A} (step : Event -> A -> A -> Prop) : list Event -> A -> A -> Prop :=
| trace_nil a : traces step [] a a
| trace_cons e tr a b c : step e a b -> traces step tr b c -> traces step (e :: tr) a c.

End client.
