(* ===== verification/SuiContext.v ===== *)
(** The benchmark context of the Sui single-node benchmark:
    [benchmark_context.rs].

    The context holds the accounts and the references of their gas objects,
    prepares the objects of a workload, generates and certifies transactions, and
    measures their execution. *)
From stdpp Require Import base list option numbers strings gmap.
From S2P Require Import Prelude Machine SuiTypes SuiStore SuiWorld SuiAccounts SuiGenerators SuiNode.
Open Scope Z_scope.

Record BenchmarkContext `{SuiEnv} : Type := mkBenchmarkContext {
  validator : SingleValidator;
  user_accounts : gmap SuiAddress Account;
  admin_account : Account;
  benchmark_component : Component;
  account_indexes : gmap Z SuiAddress;
}.
Arguments mkBenchmarkContext {_} validator user_accounts admin_account benchmark_component account_indexes.
Arguments validator {_} b.
Arguments user_accounts {_} b.
Arguments admin_account {_} b.
Arguments benchmark_component {_} b.
Arguments account_indexes {_} b.

Section context.
Context `{SuiEnv}.
Implicit Types ctx : BenchmarkContext.

Definition set_user_accounts (m : gmap SuiAddress Account) ctx : BenchmarkContext :=
  mkBenchmarkContext (validator ctx) m (admin_account ctx) (benchmark_component ctx)
    (account_indexes ctx).
Definition set_admin_account (a : Account) ctx : BenchmarkContext :=
  mkBenchmarkContext (validator ctx) (user_accounts ctx) a (benchmark_component ctx)
    (account_indexes ctx).
Definition set_gas_objects (l : list ObjectRef) (a : Account) : Account :=
  mkAccount (sender a) (keypair a) l.

(** ** Construction *)

(** One account is reserved for publishing, another for a sample transaction. *)
Definition reserved_accounts (workload : Workload) (print_sample_tx : bool) : option Z :=
  n ← add 64 (num_accounts workload) 1;
  if print_sample_tx then add 64 n 1 else Some n.

Definition new_from_workload (workload : Workload) (component : Component) (print_sample_tx : bool)
    : M World BenchmarkContext :=
  let% num_accounts := lift (reserved_accounts workload print_sample_tx) in
  let% per_account := lift (gas_object_num_per_account workload) in
  let% total := lift (mul 64 num_accounts per_account) in
  let% r := batch_create_account_and_gas num_accounts per_account in
  let% _ := guard_ (cast 64 (Z.of_nat (length r.2)) =? total) in
  let% p := lift (pop_last r.1) in
  let% v := validator_new r.2 component in
  ret (mkBenchmarkContext v p.2 p.1.2 component ∅).

Definition new_from_file (component : Component) (account_path : string) : M World BenchmarkContext :=
  let records := get_records_from_file account_path in
  let% start_time := now in
  let% r := batch_create_account_and_gas_by_index records in
  let% _ := now in
  let% _ := elapsed_ms start_time in
  let% v := validator_new (ia_objects r.1) component in
  ret (mkBenchmarkContext v (ia_accounts r.1) r.2 component (ia_indexes r.1)).

Definition context_new (workload : Workload) (component : Component) (print_sample_tx : bool)
    (account_path : string) : M World BenchmarkContext :=
  if decide (account_path = EmptyString) then new_from_workload workload component print_sample_tx
  else new_from_file component account_path.

(** ** Gas objects *)

(** The new reference of a gas object, taken out of the map. *)
Definition refresh_ref (new : gmap ObjectID ObjectRef) (oref : ObjectRef)
    : ObjectRef * gmap ObjectID ObjectRef :=
  match new !! ref_id oref with
  | Some new_oref => (new_oref, delete (ref_id oref) new)
  | None => (oref, new)
  end.

Fixpoint refresh_refs (new : gmap ObjectID ObjectRef) (orefs : list ObjectRef)
    : list ObjectRef * gmap ObjectID ObjectRef :=
  match orefs with
  | [] => ([], new)
  | oref :: orefs =>
      let '(r, new) := refresh_ref new oref in
      let '(rs, new) := refresh_refs new orefs in
      (r :: rs, new)
  end.

(** [for account in self.user_accounts.values_mut()]. *)
Fixpoint refresh_accounts (new : gmap ObjectID ObjectRef) (entries : list (SuiAddress * Account))
    (accounts : gmap SuiAddress Account) : gmap SuiAddress Account :=
  match entries with
  | [] => accounts
  | (k, a) :: entries =>
      let '(rs, new) := refresh_refs new (gas_objects a) in
      refresh_accounts new entries (<[k := set_gas_objects rs a]> accounts)
  end.

Definition refresh_gas_objects (new_gas_objects : gmap ObjectID ObjectRef) ctx : BenchmarkContext :=
  set_user_accounts
    (refresh_accounts new_gas_objects (btree_entries (user_accounts ctx)) (user_accounts ctx)) ctx.

Definition publish_package (publish_data : PublishData CompiledPackage) ctx
    : M World (ObjectRef * BenchmarkContext) :=
  let admin := admin_account ctx in
  let% gas := lift (gas_objects admin !! 0%nat) in
  let% pg := publish_package_with publish_data (sender admin) (keypair admin) gas in
  let% gas_objects' := lift (alter_at (fun _ => pg.2) 0 (gas_objects admin)) in
  ret (pg.1, set_admin_account (set_gas_objects gas_objects' admin) ctx).

(** ** Execution of raw transactions *)

Definition execute_raw_transactions (transactions : list Transaction)
    : M World (list TransactionEffects) :=
  collect_tasks (map execute_raw_transaction transactions).

Definition commit_outputs (epoch_id : Z) (effects : TransactionEffects) : M World unit :=
  let% r := on_state (commit_transaction_outputs epoch_id (effects_digest effects)) in
  unwrap r.

(** The address that owns an object, if it is an address, with the object. *)
Definition address_owned (ro : ObjectRef * Owner) : option (SuiAddress * ObjectRef) :=
  match get_address_owner_address ro.2 with Some a => Some (a, ro.1) | None => None end.

Definition shared_id (ro : ObjectRef * Owner) : option (ObjectID * Z) :=
  if is_shared ro.2 then Some (ref_id ro.1, ref_version ro.1) else None.

(** [new_gas_objects.insert(gas_object.0, gas_object)]. *)
Definition note_gas (effects : TransactionEffects) (new : gmap ObjectID ObjectRef)
    : gmap ObjectID ObjectRef :=
  <[ref_id (gas_object effects) := gas_object effects]> new.

(** ** Generation of transactions *)

Fixpoint numbered_from (i : Z) (accounts : list Account) : option (list (Z * Account)) :=
  match accounts with
  | [] => Some []
  | a :: accounts => i ← add 64 i 1; rest ← numbered_from i accounts; Some ((i, a) :: rest)
  end.

(** The task of the account of a number: the number chooses the shared object. *)
Definition generate_numbered (g : TxGenerator) (ia : Z * Account) : M World Transaction :=
  let% index := (if shared_obj_num g =? 0 then ret 0 else lift (rem ia.1 (shared_obj_num g))) in
  generate_tx g ia.2 (sender ia.2) {[ "shared_obj_index"%string := index ]} [].

Definition generate_transactions (tx_generator : TxGenerator) ctx : M World (list Transaction) :=
  let% numbered := lift (numbered_from 0 (btree_values (user_accounts ctx))) in
  collect_tasks (map (generate_numbered tx_generator) numbered).

Definition generate_kitty_provide_gene_transactions (tx_generator : TxGenerator) ctx
    : M World (list Transaction) :=
  collect_tasks (map (fun account =>
    generate_tx tx_generator account (sender account) {[ "kitty_fn"%string := 1 ]} [])
    (btree_values (user_accounts ctx))).

Definition generate_kitty_breed_transactions (tx_generator : TxGenerator)
    (gene_objects new_kitty_objects : gmap SuiAddress ObjectRef) ctx : M World (list Transaction) :=
  let% tasks := lift (mapM (fun account =>
    gene_object ← gene_objects !! sender account;
    new_kitty_object ← new_kitty_objects !! sender account;
    Some (generate_tx tx_generator account (sender account) {[ "kitty_fn"%string := 2 ]}
            [gene_object; new_kitty_object])) (btree_values (user_accounts ctx))) in
  collect_tasks tasks.

(** One record of the transfers: the sender's account, the receiver, and which of
    the sender's transfers it is. *)
Definition erc20_record ctx (obj_index_map : gmap Z Z) (record : list string)
    : option (Account * SuiAddress * Z * gmap Z Z) :=
  from_index ← record_u64 record 0;
  to_index ← record_u64 record 1;
  from_addr ← account_indexes ctx !! from_index;
  from ← user_accounts ctx !! from_addr;
  to ← account_indexes ctx !! to_index;
  let obj_index := default 0 (obj_index_map !! from_index) in
  obj_index' ← add 64 obj_index 1;
  Some (from, to, obj_index, <[from_index := obj_index']> obj_index_map).

Fixpoint erc20_records ctx (obj_index_map : gmap Z Z) (records : list (list string))
    : option (list (Account * SuiAddress * Z)) :=
  match records with
  | [] => Some []
  | record :: records =>
      r ← erc20_record ctx obj_index_map record;
      rest ← erc20_records ctx r.2 records;
      Some (r.1 :: rest)
  end.

Definition generate_erc20_tx_from_csv (tx_generator : TxGenerator) (erc20_tx_path : string) ctx
    : M World (list Transaction) :=
  let records := get_records_from_file erc20_tx_path in
  let% ts := lift (erc20_records ctx ∅ records) in
  collect_tasks (map (fun '(from, to, obj_index) =>
    generate_tx tx_generator from to {[ "obj_index"%string := obj_index ]} []) ts).

(** ** Preparation of the objects of a workload *)

Definition prepared_dynamic_field (acc : gmap SuiAddress ObjectRef * gmap ObjectID ObjectRef)
    (effects : TransactionEffects) : M World (gmap SuiAddress ObjectRef * gmap ObjectID ObjectRef) :=
  let% _ := commit_outputs (executed_epoch effects) effects in
  let% o := lift (first_such address_owned (created effects)) in
  ret (<[o.1 := o.2]> acc.1, note_gas effects acc.2).

Definition preparing_dynamic_fields (move_package : ObjectID) (num_dynamic_fields : Z) ctx
    : M World (gmap SuiAddress ObjectRef * BenchmarkContext) :=
  if num_dynamic_fields =? 0 then ret (∅, ctx)
  else
    let% txs := generate_transactions
                  (RootObjectCreateTxGenerator move_package num_dynamic_fields) ctx in
    let% results := execute_raw_transactions txs in
    let% r := foldM prepared_dynamic_field (∅, ∅) results in
    ret (r.1, refresh_gas_objects r.2 ctx).

(** The transactions of a generator for some accounts, one after the other. *)
Definition generate_for (g : TxGenerator) (accounts : list Account) : M World (list Transaction) :=
  seqM (map (fun account => generate_tx g account (sender account) ∅ []) accounts).

Definition prepared_shared (epoch_id : Z) (acc : list (ObjectID * Z) * gmap ObjectID ObjectRef)
    (effects : TransactionEffects) : M World (list (ObjectID * Z) * gmap ObjectID ObjectRef) :=
  let% o := lift (first_such shared_id (created effects)) in
  let new := note_gas effects acc.2 in
  let% _ := commit_outputs epoch_id effects in
  ret (acc.1 ++ [o], new).

Definition prepare_shared_objects (move_package : ObjectID) (num_shared_objects : Z) ctx
    : M World (list (ObjectID * Z) * BenchmarkContext) :=
  if num_shared_objects =? 0 then ret ([], ctx)
  else
    let% _ := guard_ (num_shared_objects <=? Z.of_nat (size (user_accounts ctx))) in
    let% txs := generate_for (SharedObjectCreateTxGenerator move_package)
                  (take (Z.to_nat num_shared_objects) (btree_values (user_accounts ctx))) in
    let% results := execute_raw_transactions txs in
    let% s := gets state in
    let% r := foldM (prepared_shared (epoch s)) ([], ∅) results in
    ret (r.1, refresh_gas_objects r.2 ctx).

Definition prepared_kitty (epoch_id : Z) (acc : gmap SuiAddress ObjectRef * gmap ObjectID ObjectRef)
    (effects : TransactionEffects) : M World (gmap SuiAddress ObjectRef * gmap ObjectID ObjectRef) :=
  let% o := lift (first_such address_owned (created effects)) in
  let new := note_gas effects acc.2 in
  let% _ := commit_outputs epoch_id effects in
  ret (<[o.1 := o.2]> acc.1, new).

Definition prepare_kitty_objects (move_package : ObjectID) (test_kitty : bool) ctx
    : M World (gmap SuiAddress ObjectRef * BenchmarkContext) :=
  if negb test_kitty then ret (∅, ctx)
  else
    let% txs := generate_for (KittyObjectCreateTxGenerator move_package)
                  (btree_values (user_accounts ctx)) in
    let% results := execute_raw_transactions txs in
    let% s := gets state in
    let% r := foldM (prepared_kitty (epoch s)) (∅, ∅) results in
    ret (r.1, refresh_gas_objects r.2 ctx).

(** The lands are numbered by a 16-bit counter. *)
Definition prepared_land (epoch_id : Z) (acc : gmap Z (ObjectID * Z) * Z * gmap ObjectID ObjectRef)
    (effects : TransactionEffects) : M World (gmap Z (ObjectID * Z) * Z * gmap ObjectID ObjectRef) :=
  let% o := lift (first_such shared_id (created effects)) in
  let lands := <[acc.1.2 := o]> acc.1.1 in
  let% i := lift (add 16 acc.1.2 1) in
  let new := note_gas effects acc.2 in
  let% _ := commit_outputs epoch_id effects in
  ret (lands, i, new).

Definition prepare_land_objects (move_package : ObjectID) (num_land_objects : Z) ctx
    : M World (gmap Z (ObjectID * Z) * BenchmarkContext) :=
  if num_land_objects =? 0 then ret (∅, ctx)
  else
    let% txs := generate_for (LandObjectCreateTxGenerator move_package)
                  (take (Z.to_nat num_land_objects) (btree_values (user_accounts ctx))) in
    let% results := execute_raw_transactions txs in
    let% s := gets state in
    let% r := foldM (prepared_land (epoch s)) (∅, 0, ∅) results in
    ret (r.1.1, refresh_gas_objects r.2 ctx).

(** ** Certification and signing *)

Definition certify_one (skip_signing : bool) (tx : Transaction) : M World CertifiedTransaction :=
  let% sig :=
    (if skip_signing then let% s := gets state in ret (sign_with_secret 0 tx s)
     else let% r := on_state (state_handle_transaction tx) in unwrap r) in
  lift (cert_new tx [sig]).

Definition certify_transactions (transactions : list Transaction) (skip_signing : bool)
    : M World (list CertifiedTransaction) :=
  collect_tasks (map (certify_one skip_signing) transactions).

Definition validator_sign_transactions (transactions : list Transaction)
    : M World (list HandleTransactionResponse) :=
  collect_tasks (map sign_transaction transactions).

(** ** Measurements *)

(** [v.remove(0)]. *)
Definition remove_first {A} (v : list A) : option (A * list A) :=
  match v with [] => None | a :: v => Some (a, v) end.

Definition execute_sample_transaction (sample : CertifiedTransaction) : M World unit :=
  let% effects := execute_raw_transaction (cert_into_unsigned sample) in
  guard_ (status_is_ok effects).

(** The sample transaction, if one is asked for, is taken off and executed. *)
Definition take_sample (print_sample_tx : bool) (transactions : list CertifiedTransaction)
    : M World (list CertifiedTransaction) :=
  if print_sample_tx then
    let% r := lift (remove_first transactions) in
    let% _ := execute_sample_transaction r.1 in
    ret r.2
  else ret transactions.

Definition execute_all ctx (transactions : list CertifiedTransaction)
    : M World (list TransactionEffects) :=
  collect_tasks (map (fun tx => execute_certificate (validator ctx) tx (benchmark_component ctx))
                   transactions).

Definition benchmark_transaction_execution (transactions : list CertifiedTransaction)
    (print_sample_tx : bool) ctx : M World unit :=
  let% transactions := take_sample print_sample_tx transactions in
  let tx_count := length transactions in
  let% start_time := now in
  let% _ := execute_all ctx transactions in
  let% _ := now in
  let% elapsed := elapsed_ms start_time in
  report (Throughput "Execution" elapsed tx_count elapsed).

(** In order when a transaction has a shared object, as tasks otherwise. *)
Definition execute_transactions_in_memory (store : InMemoryObjectStore)
    (transactions : list CertifiedTransaction)
    : M World (list TransactionEffects * InMemoryObjectStore) :=
  let% s := gets state in
  let tasks := map (execute_transaction_in_memory s) transactions in
  if existsb contains_shared_object transactions then lift (seqM tasks store)
  else let% k := next in lift (seqM (arrange (schedule k) tasks) store).

Definition benchmark_transaction_execution_in_memory (transactions : list CertifiedTransaction)
    (print_sample_tx : bool) ctx : M World unit :=
  let% transactions := take_sample print_sample_tx transactions in
  let tx_count := length transactions in
  let% s := gets state in
  let% store := lift (create_in_memory_store s) in
  let% start_time := now in
  let% r := execute_transactions_in_memory store transactions in
  let% elapsed := elapsed_ms start_time in
  let% _ := report (Throughput "Execution" elapsed tx_count elapsed) in
  report (ReadsPerTransaction (num_object_reads r.2) tx_count).

Definition benchmark_transaction_signing (transactions : list Transaction) (print_sample_tx : bool)
    : M World unit :=
  let% _ := (if print_sample_tx then let% _ := lift (transactions !! 0%nat) in ret tt else ret tt) in
  let tx_count := length transactions in
  let% start_time := now in
  let% _ := validator_sign_transactions transactions in
  let% elapsed := elapsed_ms start_time in
  report (Throughput "Transaction signing" elapsed tx_count elapsed).

(** A checkpoint is inserted in the stores and sent to the executor. *)
Definition insert_checkpoint (sent : list VerifiedCheckpoint)
    (cc : VerifiedCheckpoint * VerifiedCheckpointContents) : M World (list VerifiedCheckpoint) :=
  let% r := on_state (insert_verified_checkpoint cc.1) in
  let% _ := unwrap r in
  let% r := on_state (multi_insert_transaction_and_effects cc.2) in
  let% _ := unwrap r in
  let% r := on_state (insert_verified_checkpoint_contents cc.1 cc.2) in
  let% _ := unwrap r in
  let% r := on_state (update_highest_synced_checkpoint cc.1) in
  let% _ := unwrap r in
  ret (sent ++ [cc.1]).

Definition benchmark_checkpoint_executor (transactions : list CertifiedTransaction)
    (checkpoint_size : Z) ctx : M World unit :=
  let% transactions := take_sample true transactions in
  let tx_count := length transactions in
  let% s := gets state in
  let% store := lift (create_in_memory_store s) in
  let% r := execute_transactions_in_memory store transactions in
  let effects := collect_map (map (fun e => (effects_digest e, e)) r.1) in
  let% checkpoints := lift (build_checkpoints s (Z.to_nat checkpoint_size) transactions effects) in
  let% last_checkpoint := lift (last checkpoints) in
  let% sent := foldM insert_checkpoint [] checkpoints in
  let% start_time := now in
  let% _ := on_state (fun s => (tt, run_epoch sent (sequence_number last_checkpoint.1) s)) in
  let% elapsed := elapsed_ms start_time in
  report (Throughput "Checkpoint execution" elapsed tx_count elapsed).

End context.
