(* ===== verification/SuiBench.v ===== *)
(** The runs of the Sui single-node benchmark: [create_tx_generator] of
    [workload.rs], the generator of [package_publish_tx_generator.rs], and
    [run_benchmark] and [run_kitty_test] of [lib.rs]. *)
From Stdlib Require Import Ascii.
From stdpp Require Import base list option numbers strings gmap.
From S2P Require Import Prelude Machine FileSystem SuiTypes SuiStore SuiWorld SuiAccounts SuiGenerators SuiNode SuiContext.
Open Scope Z_scope.

(** [path.extension()] of a file name: what follows the last dot, if the dot is
    not the first character. *)
Fixpoint last_dot (before after : string) (found : option (string * string)) (s : string)
    : option (string * string) :=
  match s with
  | EmptyString => match found with Some (b, _) => Some (b, after) | None => None end
  | String c s =>
      if Ascii.eqb c "."%char
      then last_dot (before +:+ String c EmptyString) EmptyString (Some (before, EmptyString)) s
      else last_dot (before +:+ String c EmptyString) (after +:+ String c EmptyString) found s
  end.

Definition extension (name : string) : option string :=
  match last_dot EmptyString EmptyString None name with
  | Some (EmptyString, _) => None
  | Some (_, ext) => Some ext
  | None => None
  end.

Section bench.
Context `{SuiEnv}.
Implicit Types ctx : BenchmarkContext.

(** ** Package publishing *)

Definition read_file (p : path) : option (list Z) :=
  match files !! p with Some (File content) => Some content | _ => None end.

Definition load_manifest_json (file_path : path) : option PackageDependencyManifest :=
  data ← read_file file_path; parse_manifest data.

(** [fs::read_dir(dir).unwrap()]. *)
Definition read_dir (d : path) : option (list path) :=
  match files !! d with
  | Some Dir => Some (arrange (directory_order d) (children d files))
  | _ => None
  end.

Definition is_module_file (p : path) : bool :=
  match p with
  | name :: _ => bool_decide (extension name = Some "mv"%string)
  | [] => false
  end.

Definition load_modules (target_path : path) : option (list (list Z)) :=
  package_name ← move_manifest_name (join target_path "Move.toml");
  let module_dir := join (join (join target_path "build") package_name) "bytecode_modules" in
  entries ← read_dir module_dir;
  mapM read_file (base.filter (fun p => is_module_file p = true) entries).

Definition dependency_bytes (dir : path) (dependency : Package) : option (list (list Z)) :=
  let target_path := package_path dependency ++ dir in
  if is_source_code dependency then
    compiled ← build_package {[ package_name dependency := OBJECT_ID_ZERO ]} target_path;
    Some (get_package_bytes compiled)
  else load_modules target_path.

(** A dependency is published and its package remembered. *)
Definition publish_dependency (dir : path)
    (acc : gmap string ObjectID * BenchmarkContext) (dependency : Package)
    : M World (gmap string ObjectID * BenchmarkContext) :=
  let% module_bytes := lift (dependency_bytes dir dependency) in
  let% r := publish_package (ModuleBytes module_bytes) acc.2 in
  ret (<[package_name dependency := ref_id r.1]> acc.1, r.2).

Definition package_publish_new (manifest_path : path) ctx
    : M World (CompiledPackage * BenchmarkContext) :=
  let% manifest := lift (load_manifest_json manifest_path) in
  let% dir := lift (match manifest_path with _ :: dir => Some dir | [] => None end) in
  let% acc := foldM (publish_dependency dir) (∅, ctx) (dependencies manifest) in
  let root := root_package manifest in
  let% _ := guard_ (is_source_code root) in
  let target_path := package_path root ++ dir in
  let% compiled := lift (build_package (<[package_name root := OBJECT_ID_ZERO]> acc.1) target_path) in
  ret (compiled, acc.2).

Definition PackagePublishTxGenerator (compiled_package : CompiledPackage) : TxGenerator :=
  mkTxGenerator
    (fun account _ _ _ =>
       let% gas := lift (at_index (gas_objects account) 0) in
       ret (build_and_sign (keypair account)
              (ttb_publish_with_data (Compiled compiled_package)
                 (ttb_new (sender account) gas DEFAULT_VALIDATOR_GAS_PRICE))))
    "PackagePublishTxGenerator" 0.

(** ** [create_tx_generator] *)

(** The measured generator of a PTB workload, with the context it leaves. *)
Definition create_move_tx_generator (o : PTBOptions) ctx
    : M World (MoveTxGenerator * BenchmarkContext) :=
  let% r := publish_package (Source (join CARGO_MANIFEST_DIR "move_package") false) ctx in
  let package := ref_id r.1 in
  let% roots := preparing_dynamic_fields package (num_dynamic_fields o) r.2 in
  let% shared := prepare_shared_objects package (num_shared_objects o) roots.2 in
  let% kitties := prepare_kitty_objects package (test_kitty o) shared.2 in
  let% lands := prepare_land_objects package (num_land_objects o) kitties.2 in
  ret (mkMoveTxGenerator package (num_transfers o) (use_native_transfer o) (computation o)
         roots.1 shared.1 (erc20_transfer o) kitties.1 lands.1, lands.2).

Definition create_tx_generator (w : Workload) ctx : M World (TxGenerator * BenchmarkContext) :=
  match workload_kind w with
  | KindPTB o =>
      let% r := create_move_tx_generator o ctx in
      ret (move_tx_generator r.1, r.2)
  | KindPublish manifest_path =>
      let% r := package_publish_new manifest_path ctx in
      ret (PackagePublishTxGenerator r.1, r.2)
  end.

(** ** [run_benchmark] *)

Definition run_benchmark (workload : Workload) (component : Component) (checkpoint_size : Z)
    (print_sample_tx skip_signing : bool) (erc20_tx_path account_path : string) : M World unit :=
  let% ctx := context_new workload component print_sample_tx account_path in
  let% r := create_tx_generator workload ctx in
  let '(tx_generator, ctx) := r in
  let% transactions :=
    (if decide (erc20_tx_path = EmptyString) then generate_transactions tx_generator ctx
     else generate_erc20_tx_from_csv tx_generator erc20_tx_path ctx) in
  match component with
  | TxnSigning => benchmark_transaction_signing transactions print_sample_tx
  | _ =>
      let% transactions := certify_transactions transactions skip_signing in
      let% _ := assigned_shared_object_versions transactions in
      match component with
      | CheckpointExecutor => benchmark_checkpoint_executor transactions checkpoint_size ctx
      | ExecutionOnly => benchmark_transaction_execution_in_memory transactions print_sample_tx ctx
      | _ => benchmark_transaction_execution transactions print_sample_tx ctx
      end
  end.

(** ** [run_kitty_test] *)

Record Genes : Type := mkGenes {
  genes_gas : gmap ObjectID ObjectRef;
  genes_kitties : gmap SuiAddress ObjectRef;
  genes_objects : gmap SuiAddress ObjectRef;
}.

(** The objects of the effects of [provide_gene]: the gene it creates and the
    kitty it changes, which is not the gas object. *)
Definition note_gene (epoch_id : Z) (acc : Genes) (effects : TransactionEffects) : M World Genes :=
  let% gene := lift (first_such address_owned (created effects)) in
  let gas := gas_object effects in
  let% kitty := lift (first_such
    (fun ro => if decide (ref_id ro.1 = ref_id gas) then None else address_owned ro)
    (mutated effects)) in
  let acc := mkGenes (note_gas effects (genes_gas acc))
    (<[kitty.1 := kitty.2]> (genes_kitties acc)) (<[gene.1 := gene.2]> (genes_objects acc)) in
  let% _ := commit_outputs epoch_id effects in
  ret acc.

(** One phase: certify, assign versions, execute and measure. *)
Definition kitty_phase (label : string) (divisor : option Z) (transactions : list Transaction)
    (skip_signing : bool) ctx : M World (list TransactionEffects * nat * Z) :=
  let% transactions := certify_transactions transactions skip_signing in
  let% _ := assigned_shared_object_versions transactions in
  let tx_count := length transactions in
  let% start_time := now in
  let% results := execute_all ctx transactions in
  let% _ := now in
  let% elapsed := elapsed_ms start_time in
  let% _ := report (Throughput label elapsed tx_count (default elapsed divisor)) in
  ret (results, tx_count, elapsed).

Definition run_kitty_test (workload : Workload) (component : Component)
    (print_sample_tx skip_signing : bool) (account_path : string) : M World unit :=
  let% ctx := context_new workload component print_sample_tx account_path in
  let% r := create_tx_generator workload ctx in
  let '(tx_generator, ctx) := r in
  let% transactions := generate_kitty_provide_gene_transactions tx_generator ctx in
  if decide (component = TxnSigning) then benchmark_transaction_signing transactions print_sample_tx
  else
    let% p1 := kitty_phase "Execution provide_gene" None transactions skip_signing ctx in
    let '(results, _, elapsed1) := p1 in
    let% s := gets state in
    let% genes := foldM (note_gene (epoch s)) (mkGenes ∅ ∅ ∅) results in
    let ctx := refresh_gas_objects (genes_gas genes) ctx in
    let% transactions :=
      generate_kitty_breed_transactions tx_generator (genes_objects genes) (genes_kitties genes) ctx in
    if decide (component = TxnSigning) then benchmark_transaction_signing transactions print_sample_tx
    else
      let% p2 := kitty_phase "Execution breed" (Some elapsed1) transactions skip_signing ctx in
      let '(_, tx_count, elapsed2) := p2 in
      report (Throughput "Execution kitty all" (elapsed1 + elapsed2) tx_count (elapsed1 + elapsed2)).

(** ** [main] *)

Record Command : Type := mkCommand {
  cmd_tx_count : Z;
  cmd_checkpoint_size : Z;
  cmd_print_sample_tx : bool;
  cmd_skip_signing : bool;
  cmd_component : Component;
  cmd_workload : WorkloadKind;
  cmd_erc20_tx_path : string;
  cmd_account_path : string;
}.

(** [Workload::new] and the choice of the run. *)
Definition sui_main (args : Command) : M World unit :=
  let wl := mkWorkload (cmd_tx_count args) (cmd_workload args) in
  if is_test_kitty wl then
    run_kitty_test wl (cmd_component args) (cmd_print_sample_tx args) (cmd_skip_signing args)
      (cmd_account_path args)
  else
    run_benchmark wl (cmd_component args) (cmd_checkpoint_size args) (cmd_print_sample_tx args)
      (cmd_skip_signing args) (cmd_erc20_tx_path args) (cmd_account_path args).

End bench.
