(* ===== verification/SuiCheckpointSpec.v ===== *)
(** Checkpoints of the Sui single-node benchmark: [build_checkpoints] cuts the
    transactions, in order, into checkpoints of the requested size. *)
From stdpp Require Import base list option numbers strings gmap.
From S2P Require Import Prelude Machine SuiTypes SuiStore SuiWorld SuiNode.
Open Scope Z_scope.

(** What [MockCheckpointBuilder] promises: it accumulates transactions, a build
    takes them all, and the checkpoints are numbered after the one it starts
    from. *)
Class CheckpointLaws `{SuiEnv} := {
  pending : MockCheckpointBuilder -> list (Transaction * TransactionEffects);
  last_sequence : MockCheckpointBuilder -> Z;
  checkpoint_transactions_of : VerifiedCheckpointContents -> list (Transaction * TransactionEffects);
  pending_new cp : pending (checkpoint_builder_new cp) = [];
  last_sequence_new cp : last_sequence (checkpoint_builder_new cp) = sequence_number cp;
  pending_push t e b : pending (push_transaction t e b) = pending b ++ [(t, e)];
  last_sequence_push t e b : last_sequence (push_transaction t e b) = last_sequence b;
  size_pending b : builder_size b = length (pending b);
  build_contents s n b : checkpoint_transactions_of (builder_build s n b).1.2 = pending b;
  build_sequence s n b : sequence_number (builder_build s n b).1.1 = last_sequence b + 1;
  build_pending s n b : pending (builder_build s n b).2 = [];
  build_last_sequence s n b : last_sequence (builder_build s n b).2 = last_sequence b + 1;
}.

Section checkpoints.
Context `{SuiEnv} `{!CheckpointLaws}.
Context (s : AuthorityState) (checkpoint_size : nat).
Implicit Types (c : CheckpointState) (txs : list CertifiedTransaction).

Abbreviation contents_of c := (map (fun cc => checkpoint_transactions_of cc.2) (cs_checkpoints c)).

(** The transactions of a checkpointing state: those of its checkpoints, then
    those that wait in the builder. *)
Definition covered c : list (Transaction * TransactionEffects) :=
  concat (contents_of c) ++ pending (cs_builder c).

(** [seen] transactions are covered; every checkpoint is full and numbered in
    order from [start]; less than a checkpoint is pending. *)
Record cut_ok (start : Z) c : Prop := {
  cut_full : Forall (fun l => l <> [] /\ length l = checkpoint_size) (contents_of c);
  cut_pending : checkpoint_size = 0%nat \/ (length (pending (cs_builder c)) < checkpoint_size)%nat;
  cut_last : last_sequence (cs_builder c) = start + Z.of_nat (length (cs_checkpoints c));
  cut_numbered : forall i cc, cs_checkpoints c !! i = Some cc ->
    sequence_number cc.1 = start + 1 + Z.of_nat i;
}.

Lemma build_one_covered c : covered (build_one s c) = covered c.
Proof.
  unfold build_one, covered. pose proof (build_contents s 0 (cs_builder c)) as H1.
  pose proof (build_pending s 0 (cs_builder c)) as H2.
  destruct (builder_build _ _ _) as [[cp contents] b]. cbn in *.
  by rewrite map_app, concat_app, H2; cbn; rewrite H1, !app_nil_r.
Qed.

Lemma build_one_contents c :
  contents_of (build_one s c) = contents_of c ++ [pending (cs_builder c)] /\
  pending (cs_builder (build_one s c)) = [].
Proof.
  unfold build_one. pose proof (build_contents s 0 (cs_builder c)) as H1.
  pose proof (build_pending s 0 (cs_builder c)) as H2.
  destruct (builder_build _ _ _) as [[cp contents] b]. cbn in *.
  by rewrite map_app; cbn; rewrite H1.
Qed.

Lemma build_one_effects c : cs_effects (build_one s c) = cs_effects c.
Proof. unfold build_one. by destruct (builder_build _ _ _) as [[cp contents] b]. Qed.

Lemma build_one_numbered start c :
  last_sequence (cs_builder c) = start + Z.of_nat (length (cs_checkpoints c)) ->
  (forall i cc, cs_checkpoints c !! i = Some cc -> sequence_number cc.1 = start + 1 + Z.of_nat i) ->
  last_sequence (cs_builder (build_one s c)) =
    start + Z.of_nat (length (cs_checkpoints (build_one s c))) /\
  forall i cc, cs_checkpoints (build_one s c) !! i = Some cc ->
    sequence_number cc.1 = start + 1 + Z.of_nat i.
Proof.
  intros Hl Hn. unfold build_one. pose proof (build_sequence s 0 (cs_builder c)) as H1.
  pose proof (build_last_sequence s 0 (cs_builder c)) as H2.
  destruct (builder_build _ _ _) as [[cp contents] b]. cbn in *. split.
  - rewrite length_app. cbn. lia.
  - intros i cc [Hi|[Hi Hc]]%lookup_app_Some; [by apply Hn|].
    apply list_lookup_singleton_Some in Hc as [Hi' <-]. cbn. lia.
Qed.

(** One transaction of the loop. *)
Lemma checkpoint_transaction_ok start c tx e :
  cut_ok start c -> cs_effects c !! cert_digest tx = Some e ->
  exists c', checkpoint_transaction s checkpoint_size c tx = Some c' /\ cut_ok start c' /\
    covered c' = covered c ++ [(cert_into_unsigned tx, e)] /\
    cs_effects c' = delete (cert_digest tx) (cs_effects c).
Proof.
  intros [Hf Hp Hl Hn] He. unfold checkpoint_transaction. rewrite He. cbn.
  set (c1 := mkCheckpointState _ _ (cs_checkpoints c)).
  assert (Hp1 : pending (cs_builder c1) = pending (cs_builder c) ++ [(cert_into_unsigned tx, e)])
    by apply pending_push.
  assert (Hl1 : last_sequence (cs_builder c1) = last_sequence (cs_builder c))
    by apply last_sequence_push.
  assert (Hcov : covered c1 = covered c ++ [(cert_into_unsigned tx, e)]).
  { unfold covered. rewrite Hp1. apply app_assoc. }
  change (push_transaction _ _ _) with (cs_builder c1).
  rewrite size_pending, Hp1, length_app. cbn [length].
  eexists. split; [done|]. case_match eqn:E.
  - apply Nat.eqb_eq in E.
    destruct (build_one_contents c1) as [Hc1 Hp2].
    destruct (build_one_numbered start c1) as [Hl2 Hn2]; [by rewrite Hl1|done|].
    split; [|by rewrite build_one_covered, build_one_effects]. constructor; try done.
    + rewrite Hc1, Hp1. apply Forall_app. split; [done|]. apply Forall_singleton.
      split; [by destruct (pending (cs_builder c))|]. by rewrite length_app.
    + rewrite Hp2. cbn. lia.
  - apply Nat.eqb_neq in E. split; [|done]. constructor; try done.
    + rewrite Hp1, length_app. cbn. lia.
    + by rewrite Hl1.
Qed.

Lemma checkpoint_transactions_ok start c txs es :
  cut_ok start c -> NoDup (map cert_digest txs) ->
  Forall2 (fun tx e => cs_effects c !! cert_digest tx = Some e) txs es ->
  exists c', checkpoint_transactions s checkpoint_size c txs = Some c' /\ cut_ok start c' /\
    covered c' = covered c ++ zip (map cert_into_unsigned txs) es.
Proof.
  intros Hc Hnd Hes. revert c Hc Hes Hnd. revert es.
  induction txs as [|tx txs IH]; intros es c Hc Hes Hnd.
  - apply Forall2_nil_inv_l in Hes as ->. exists c. cbn. by rewrite app_nil_r.
  - apply Forall2_cons_inv_l in Hes as (e & es' & He & Hes & ->). cbn in Hnd.
    apply NoDup_cons in Hnd as [Hin Hnd].
    destruct (checkpoint_transaction_ok start c tx e Hc He) as (c1 & H1 & Hc1 & Hcov & Heff).
    destruct (IH es' c1) as (c2 & H2 & Hc2 & Hcov2); [done| |done|].
    + apply Forall2_same_length_lookup in Hes as [Hlen Hes].
      apply Forall2_same_length_lookup. split; [done|]. intros i tx' e' Htx' He'.
      rewrite Heff, lookup_delete_ne; [by eapply Hes|].
      intros Heq. apply Hin. rewrite Heq. apply elem_of_map_1. by eapply list_elem_of_lookup_2.
    + exists c2. cbn. rewrite H1. cbn. split; [done|]. split; [done|].
      rewrite Hcov2, Hcov, <-app_assoc. done.
Qed.

(** How a list of transactions is cut: nothing is lost and the order is kept; no
    checkpoint is empty, none exceeds the size and all but the last have it. *)
Definition cut_into (start : Z) (all : list (Transaction * TransactionEffects))
    (checkpoints : list (VerifiedCheckpoint * VerifiedCheckpointContents)) : Prop :=
  concat (map (fun cc => checkpoint_transactions_of cc.2) checkpoints) = all /\
  forall i cc, checkpoints !! i = Some cc ->
    sequence_number cc.1 = start + 1 + Z.of_nat i /\
    checkpoint_transactions_of cc.2 <> [] /\
    (checkpoint_size <> 0%nat -> (length (checkpoint_transactions_of cc.2) <= checkpoint_size)%nat) /\
    ((S i < length checkpoints)%nat -> length (checkpoint_transactions_of cc.2) = checkpoint_size).

(** There are checkpoints exactly when there are transactions. *)
Lemma cut_into_nil start all checkpoints : cut_into start all checkpoints -> checkpoints = [] <-> all = [].
Proof.
  intros [<- Hne]. destruct checkpoints as [|cc cps]; [done|]. split; [done|].
  destruct (Hne 0%nat cc eq_refl) as (_ & Hn & _). cbn. by intros [? _]%app_eq_nil.
Qed.

Lemma contents_lookup (cps : list (VerifiedCheckpoint * VerifiedCheckpointContents)) i cc :
  cps !! i = Some cc ->
  map (fun cc => checkpoint_transactions_of cc.2) cps !! i = Some (checkpoint_transactions_of cc.2).
Proof. apply (map_lookup_Some (fun cc => checkpoint_transactions_of cc.2)). Qed.

(** The end of the loop: what is still pending becomes the last checkpoint. *)
Lemma last_checkpoint_cut start c :
  cut_ok start c ->
  cut_into start (covered c)
    (cs_checkpoints (if (0 <? builder_size (cs_builder c))%nat then build_one s c else c)).
Proof.
  intros [Hf Hp Hl Hn]. rewrite size_pending. case_match eqn:E.
  - apply Nat.ltb_lt in E.
    destruct (build_one_contents c) as [Hc1 Hp1].
    destruct (build_one_numbered start c) as [_ Hn1]; [done|done|].
    split.
    + rewrite <-(build_one_covered c). unfold covered. by rewrite Hp1, app_nil_r.
    + intros i cc Hi. split; [by apply Hn1|]. pose proof (contents_lookup _ i cc Hi) as Hi'.
      assert (Hlen : length (cs_checkpoints (build_one s c)) = S (length (cs_checkpoints c))).
      { apply (f_equal length) in Hc1. rewrite length_app, !length_map in Hc1. cbn in Hc1. lia. }
      rewrite Hc1 in Hi'. apply lookup_app_Some in Hi' as [Hi'|[Hge Hi']].
      * apply (proj1 (Forall_lookup _ _) Hf) in Hi' as [? ->]. done.
      * apply list_lookup_singleton_Some in Hi' as [Hi0 <-]. rewrite length_map in Hge.
        split; [by destruct (pending (cs_builder c)); cbn in *; [lia|]|].
        split; [lia|]. lia.
  - apply Nat.ltb_ge in E. destruct (pending (cs_builder c)) eqn:Hpend; [|cbn in E; lia].
    split; [unfold covered; by rewrite Hpend, app_nil_r|].
    intros i cc Hi. split; [by apply Hn|]. pose proof (contents_lookup _ i cc Hi) as Hi'.
    apply (proj1 (Forall_lookup _ _) Hf) in Hi' as [? ->]. done.
Qed.

(** [build_checkpoints] cuts the transactions, each with its own effects and
    in order, into consecutive checkpoints that follow the latest one: all but the
    last have the requested size, and a size of zero makes a single checkpoint. *)
Lemma checkpoints_cut (latest : VerifiedCheckpoint) txs (es : list TransactionEffects)
    (all_effects : gmap Digest TransactionEffects) :
  get_latest_certified_checkpoint s = Some latest ->
  NoDup (map cert_digest txs) ->
  Forall2 (fun tx e => all_effects !! cert_digest tx = Some e) txs es ->
  exists checkpoints,
    build_checkpoints s checkpoint_size txs all_effects = Some checkpoints /\
    cut_into (sequence_number latest) (zip (map cert_into_unsigned txs) es) checkpoints.
Proof.
  intros Hlatest Hnd Hes. unfold build_checkpoints. rewrite Hlatest. cbn.
  destruct (checkpoint_transactions_ok (sequence_number latest)
    (mkCheckpointState (checkpoint_builder_new latest) all_effects []) txs es)
    as (c & Hc & Hok & Hcov); [|done|done|].
  - constructor; cbn; [by constructor| |rewrite last_sequence_new; lia|done].
    rewrite pending_new. cbn. lia.
  - rewrite Hc. cbn. eexists. split; [done|]. unfold covered at 2 in Hcov. cbn in Hcov.
    rewrite pending_new in Hcov. cbn in Hcov. rewrite <-Hcov. by apply last_checkpoint_cut.
Qed.

End checkpoints.
