(* ===== verification/SuiAccountsSpec.v ===== *)
(** The accounts of the Sui single-node benchmark: no two gas objects have the
    same identifier, and every account has as many as were asked for. *)
From stdpp Require Import base list option numbers strings gmap.
From S2P Require Import Prelude Machine FileSystem BenchMain SuiTypes SuiStore SuiWorld SuiAccounts.
Open Scope Z_scope.

(** What [sui_types] promises of identifiers and test objects. *)
Class ObjectLaws `{SuiEnv} : Prop := {
  from_bytes_some bs : length bs = 32%nat -> is_Some (object_id_from_bytes bs);
  from_bytes_inj bs bs' id :
    object_id_from_bytes bs = Some id -> object_id_from_bytes bs' = Some id -> bs = bs';
  with_id_object_id id a : object_id (with_id_owner_for_testing id a) = id;
}.

(** ** Identifiers *)

Section identifiers.
Context `{SuiEnv} `{!ObjectLaws}.

Lemma to_le_bytes_inj n z z' :
  0 <= z < 256 ^ Z.of_nat n -> 0 <= z' < 256 ^ Z.of_nat n ->
  to_le_bytes n z = to_le_bytes n z' -> z = z'.
Proof.
  revert z z'. induction n as [|n IH]; intros z z' Hz Hz'; [cbn in *; lia|].
  rewrite Nat2Z.inj_succ, Z.pow_succ_r in Hz, Hz' by lia. cbn. intros [= Hm Hd].
  assert (z / 256 = z' / 256).
  { apply IH; [split; [apply Z.div_pos; lia|apply Z.div_lt_upper_bound; lia]..|done]. }
  rewrite (Z.div_mod z 256), (Z.div_mod z' 256) by lia. lia.
Qed.

(** The identifier of the gas object of an index. *)
Definition gas_id (idx : Z) : option ObjectID := object_id_from_bytes (gas_object_id_bytes idx).

Lemma gas_id_some idx : is_Some (gas_id idx).
Proof. by apply from_bytes_some. Qed.

Lemma gas_id_inj idx idx' id :
  in_range 64 idx -> in_range 64 idx' -> gas_id idx = Some id -> gas_id idx' = Some id -> idx = idx'.
Proof.
  unfold in_range. intros Hi Hi' H1 H2. pose proof (from_bytes_inj _ _ _ H1 H2) as [= Heq].
  apply (to_le_bytes_inj 8); [change (256 ^ Z.of_nat 8) with (2 ^ 64); lia..|].
  unfold to_le_bytes. congruence.
Qed.

(** The identifiers of the objects of consecutive indexes. *)
Definition ids_from (start num : Z) (ids : list ObjectID) : Prop :=
  Forall2 (fun idx id => gas_id idx = Some id) (seqZ start num) ids.

Lemma upto_seqZ start num : map (fun i => start + i) (upto num) = seqZ start num.
Proof.
  unfold upto, seqZ. rewrite map_map. apply map_ext. intros. lia.
Qed.

Lemma new_gas_object_ok idx a :
  exists o, new_gas_object idx a = Some o /\ gas_id idx = Some (object_id o).
Proof.
  destruct (gas_id_some idx) as [id Hid]. exists (with_id_owner_for_testing id a).
  unfold gas_id, new_gas_object in *. rewrite Hid. by rewrite with_id_object_id.
Qed.

Lemma create_gas_objects_ok a num start :
  0 <= start -> start + Z.max 0 num <= 2 ^ 64 ->
  exists objs, create_gas_objects a num start = Some objs /\ ids_from start num (map object_id objs).
Proof.
  intros Hs Hm. unfold create_gas_objects, ids_from. rewrite <-upto_seqZ.
  assert (Hr : Forall (fun i => in_range 64 (start + i)) (upto num)).
  { apply Forall_forall. intros i. unfold upto. rewrite elem_of_map. intros (k & -> & Hk).
    apply elem_of_seq in Hk. unfold in_range. lia. }
  clear Hs Hm. induction Hr as [|i l Hi Hl (objs & Hobjs & Hids)]; [by exists []|].
  destruct (new_gas_object_ok (start + i) a) as (o & Ho & Hid).
  exists (o :: objs). split; [|by constructor].
  apply mapM_Some in Hobjs. apply mapM_Some. constructor; [|done].
  unfold add. by rewrite wrap_in.
Qed.

End identifiers.

(** ** Tasks that draw a key pair each *)

Section draws.
Context `{SuiEnv}.

(** The key pairs that are drawn next, and what remains of the entropy. *)
Fixpoint draw_keys (n : nat) (e : Entropy) : list (SuiAddress * AccountKeyPair) :=
  match n with
  | O => []
  | S n => let '(kp, e) := get_account_key_pair e in kp :: draw_keys n e
  end.

Fixpoint draw_rest (n : nat) (e : Entropy) : Entropy :=
  match n with O => e | S n => draw_rest n (get_account_key_pair e).2 end.

Definition drawn (n : nat) (w : World) : World :=
  mkWorld (state w) (draw_rest n (entropy w)) (steps w) (reports w).

Lemma seqM_draws {X A} (f : X -> M World A) (key : A -> SuiAddress * AccountKeyPair)
    (R : X -> A -> Prop) (xs : list X) w :
  (forall x w, x ∈ xs -> exists a, f x w = Some (a, drawn 1 w) /\
     key a = (get_account_key_pair (entropy w)).1 /\ R x a) ->
  exists l, seqM (map f xs) w = Some (l, drawn (length xs) w) /\
    map key l = draw_keys (length xs) (entropy w) /\ Forall2 R xs l.
Proof.
  revert w. induction xs as [|x xs IH]; intros w Hf.
  - exists []. by destruct w.
  - destruct (Hf x w ltac:(left)) as (a & Ha & Hk & HR).
    destruct (IH (drawn 1 w)) as (l & Hl & Hks & HRs); [intros; apply Hf; by right|].
    exists (a :: l). cbn. unfold bindM at 1. rewrite Ha. unfold bindM. rewrite Hl. cbn.
    rewrite Hk, Hks. cbn.
    destruct (get_account_key_pair (entropy w)) as [kp e]. eauto using Forall2_cons.
Qed.

End draws.

(** ** Accounts *)

Section accounts.
Context `{SuiEnv}.

(** The identifiers of the gas objects of the accounts of a map. *)
Definition account_ids (a : Account) : list ObjectID := map ref_id (gas_objects a).
Definition gas_ids (accounts : gmap SuiAddress Account) : list ObjectID :=
  map_to_list accounts ≫= (fun ka => account_ids ka.2).

(** The invariant of the accounts: they are filed under their own addresses and
    no two of their gas objects have the same identifier. *)
Record accounts_ok (accounts : gmap SuiAddress Account) : Prop := {
  ao_keyed : forall k a, accounts !! k = Some a -> sender a = k;
  ao_distinct : NoDup (gas_ids accounts);
}.

Lemma accounts_elem accounts k a id :
  accounts !! k = Some a -> id ∈ account_ids a -> id ∈ gas_ids accounts.
Proof.
  intros Ha Hid. apply list_elem_of_bind. exists (k, a). by rewrite elem_of_map_to_list.
Qed.

(** An account owns its identifiers alone. *)
Lemma accounts_ok_owner accounts k k' a a' id :
  accounts_ok accounts -> accounts !! k = Some a -> accounts !! k' = Some a' ->
  id ∈ account_ids a -> id ∈ account_ids a' -> k = k'.
Proof.
  intros [_ Hd] Ha Ha' Hi Hi'. destruct (decide (k = k')) as [|Hne]; [done|exfalso].
  unfold gas_ids in Hd.
  rewrite <-(insert_delete_id _ _ _ Ha), map_to_list_insert, bind_cons in Hd
    by apply lookup_delete_eq.
  apply NoDup_app in Hd as (_ & Hd & _). apply (Hd id Hi).
  apply (accounts_elem _ k' a'); [|done]. by rewrite lookup_delete_ne.
Qed.

Lemma accounts_ok_account accounts k a :
  accounts_ok accounts -> accounts !! k = Some a -> NoDup (account_ids a).
Proof.
  intros [_ Hd] Ha. unfold gas_ids in Hd.
  rewrite <-(insert_delete_id _ _ _ Ha), map_to_list_insert, bind_cons in Hd
    by apply lookup_delete_eq.
  by apply NoDup_app in Hd as (? & _ & _).
Qed.

(** The loop over the created accounts. *)
Abbreviation filed cs := (map (fun c => (c.1.1, account_of c)) cs).

Lemma add_accounts_eq acc (cs : list (SuiAddress * AccountKeyPair * list Object)) :
  foldl add_account acc cs = (ins_all acc.1 (filed cs), acc.2 ++ (cs ≫= snd)).
Proof.
  revert acc. induction cs as [|c cs IH]; intros [m objs].
  - cbn. by rewrite app_nil_r.
  - cbn. rewrite IH. cbn. by rewrite app_assoc.
Qed.

Lemma account_of_ids (c : SuiAddress * AccountKeyPair * list Object) :
  account_ids (account_of c) = map object_id c.2.
Proof. destruct c as [[a kp] objs]. unfold account_ids. cbn. by rewrite map_map. Qed.

Lemma filed_ids (cs : list (SuiAddress * AccountKeyPair * list Object)) :
  NoDup (map (fun c => c.1.1) cs) ->
  gas_ids (collect_map (filed cs)) ≡ₚ map object_id (cs ≫= snd).
Proof.
  intros Hnd. unfold gas_ids. rewrite collect_map_to_list; [|by rewrite map_fst_map].
  clear Hnd. induction cs as [|c cs IH]; [done|]. cbn. rewrite IH, account_of_ids.
  by rewrite map_app.
Qed.

Lemma filed_ok (cs : list (SuiAddress * AccountKeyPair * list Object)) :
  NoDup (map (fun c => c.1.1) cs) -> NoDup (map object_id (cs ≫= snd)) ->
  accounts_ok (collect_map (filed cs)).
Proof.
  intros Hk Hd. constructor.
  - intros k a Ha%collect_map_lookup. apply elem_of_map in Ha as ([[a' kp] objs] & [= -> ->] & _).
    done.
  - by rewrite filed_ids.
Qed.

Lemma filed_size (cs : list (SuiAddress * AccountKeyPair * list Object)) :
  NoDup (map (fun c => c.1.1) cs) -> size (collect_map (filed cs)) = length cs.
Proof.
  intros Hk. rewrite <-length_map_to_list, collect_map_to_list; [by rewrite length_map|].
  by rewrite map_fst_map.
Qed.

End accounts.

(** ** Creation of accounts *)

Section creation.
Context `{SuiEnv} `{!ObjectLaws}.

(** A task of [num] objects from the index [start] on stays in range. *)
Definition task_fits (ns : Z * Z) : Prop := 0 <= ns.1 /\ 0 <= ns.2 /\ ns.2 + ns.1 <= 2 ^ 64.

Lemma create_account_ok num start w :
  task_fits (num, start) ->
  exists c, create_account num start w = Some (c, drawn 1 w) /\
    c.1 = (get_account_key_pair (entropy w)).1 /\ ids_from start num (map object_id c.2).
Proof.
  intros (Hn & Hs & Hr). cbn in *. unfold create_account, random, bindM.
  destruct (get_account_key_pair (entropy w)) as [kp e] eqn:E.
  destruct (create_gas_objects_ok kp.1 num start) as (objs & Ho & Hids); [done|lia|].
  unfold lift. rewrite Ho. exists (kp, objs). unfold drawn. cbn. by rewrite E.
Qed.

(** The indexes of the objects of several tasks. *)
Definition indexes (ts : list (Z * Z)) : list Z := ts ≫= (fun ns => seqZ ns.2 ns.1).

Lemma created_ids (ts : list (Z * Z)) (cs : list (SuiAddress * AccountKeyPair * list Object)) :
  Forall2 (fun ns c => ids_from ns.2 ns.1 (map object_id c.2)) ts cs ->
  Forall2 (fun idx id => gas_id idx = Some id) (indexes ts) (map object_id (cs ≫= snd)).
Proof.
  induction 1 as [|ns c ts cs Hc Hcs IH]; [constructor|]. cbn. rewrite map_app.
  by apply Forall2_app.
Qed.

(** Tasks in any order have the same indexes. *)
Lemma indexes_perm ts ts' : ts ≡ₚ ts' -> indexes ts ≡ₚ indexes ts'.
Proof. intros Hp. unfold indexes. by rewrite Hp. Qed.

Lemma upto_succ n : upto (Z.of_nat (S n)) = upto (Z.of_nat n) ++ [Z.of_nat n].
Proof. unfold upto. rewrite !Nat2Z.id, seq_S, map_app. done. Qed.

Lemma batch_indexes n per :
  0 <= per ->
  indexes (map (fun i => (per, i * per)) (upto (Z.of_nat n))) = seqZ 0 (Z.of_nat n * per).
Proof.
  intros Hper. induction n as [|n IH]; [done|]. rewrite upto_succ, map_app.
  unfold indexes in *. rewrite bind_app, IH. cbn. rewrite app_nil_r.
  rewrite Nat2Z.inj_succ, Z.mul_succ_l, seqZ_app by nia. f_equal.
Qed.

(** What tasks that create accounts leave, whatever their order. *)
Lemma creation_ok (ts : list (Z * Z)) (cs : list (SuiAddress * AccountKeyPair * list Object)) start total :
  Forall2 (fun ns c => ids_from ns.2 ns.1 (map object_id c.2)) ts cs ->
  indexes ts ≡ₚ seqZ start total -> 0 <= start -> 0 <= total -> start + total <= 2 ^ 64 ->
  NoDup (map object_id (cs ≫= snd)) /\ Z.of_nat (length (cs ≫= snd)) = total /\
  Forall (fun id => exists idx, start <= idx < start + total /\ gas_id idx = Some id)
    (map object_id (cs ≫= snd)).
Proof.
  intros Hcs%created_ids Hp Hs Ht Hr.
  assert (Hin : forall idx, idx ∈ indexes ts -> start <= idx < start + total).
  { intros idx. rewrite Hp. apply elem_of_seqZ. }
  split; [|split].
  - eapply NoDup_Forall2; [|exact Hcs|rewrite Hp; apply NoDup_seqZ].
    intros x x' y Hx%Hin Hx'%Hin. apply gas_id_inj; unfold in_range; lia.
  - apply Forall2_length in Hcs. rewrite length_map in Hcs. rewrite <-Hcs, Hp, length_seqZ. lia.
  - apply Forall_forall. intros id [i Hi]%list_elem_of_lookup_1.
    destruct (Forall2_lookup_r _ _ _ _ _ Hcs Hi) as (idx & Hidx & Hg).
    exists idx. split; [|done]. apply Hin. by eapply list_elem_of_lookup_2.
Qed.

(** The world after [n] tasks that draw a key pair each. *)
Definition after_draws (n : nat) (w : World) : World :=
  mkWorld (state w) (draw_rest n (entropy w)) (S (steps w)) (reports w).

Lemma collect_draws {X A} (f : X -> M World A) (key : A -> SuiAddress * AccountKeyPair)
    (R : X -> A -> Prop) (xs : list X) w :
  (forall x w, x ∈ xs -> exists a, f x w = Some (a, drawn 1 w) /\
     key a = (get_account_key_pair (entropy w)).1 /\ R x a) ->
  exists l xs', xs' ≡ₚ xs /\ collect_tasks (map f xs) w = Some (l, after_draws (length xs) w) /\
    map key l = draw_keys (length xs) (entropy w) /\ Forall2 R xs' l.
Proof.
  intros Hf. set (w1 := mkWorld (state w) (entropy w) (S (steps w)) (reports w)).
  pose proof (arrange_perm (schedule (steps w)) xs) as Hp.
  destruct (seqM_draws f key R (arrange (schedule (steps w)) xs) w1) as (l & Hl & Hk & HR).
  { intros x w' Hx. apply Hf. by rewrite Hp in Hx. }
  rewrite (Permutation_length Hp) in Hl, Hk.
  exists l, (arrange (schedule (steps w)) xs). split; [done|]. split; [|done].
  unfold collect_tasks, next, bindM. rewrite arrange_map. exact Hl.
Qed.

(** What every task gives, all tasks give. *)
Lemma seqM_all {S A} (P : A -> Prop) (ts : list (M S A)) s l s' :
  (forall t s a s', t ∈ ts -> t s = Some (a, s') -> P a) -> seqM ts s = Some (l, s') -> Forall P l.
Proof.
  revert s l. induction ts as [|t ts IH]; intros s l HP; [by intros [= <- <-]|]. cbn.
  intros (a & s1 & Ha & (l1 & s2 & Hl & [= <- <-])%bindM_Some)%bindM_Some.
  constructor; [eapply HP; [left|exact Ha]|]. eapply IH; [|exact Hl]. intros. eapply HP; [by right|done].
Qed.

Lemma collect_all {A} (P : A -> Prop) (ts : list (M World A)) w l w' :
  (forall t w a w', t ∈ ts -> t w = Some (a, w') -> P a) -> collect_tasks ts w = Some (l, w') -> Forall P l.
Proof. intros HP. cbn. apply seqM_all. intros t s a s'. rewrite arrange_perm. apply HP. Qed.

(** The objects of an account are made for its address. *)
Definition made_for (c : SuiAddress * AccountKeyPair * list Object) : Prop :=
  Forall (fun o => exists id, o = with_id_owner_for_testing id c.1.1) c.2.

Lemma create_account_made num start w c w' : create_account num start w = Some (c, w') -> made_for c.
Proof.
  unfold create_account. intros (kp & w1 & _ & (objs & w2 & [Ho ->]%lift_Some & [= <- _])%bindM_Some)%bindM_Some.
  unfold made_for. cbn. unfold create_gas_objects in Ho. apply mapM_Some in Ho.
  apply Forall_forall. intros o [i Hi]%list_elem_of_lookup_1.
  destruct (Forall2_lookup_r _ _ _ _ _ Ho Hi) as (j & _ & Hj). apply bind_Some in Hj as (idx & _ & Hn).
  unfold new_gas_object in Hn. apply bind_Some in Hn as (id & _ & [= <-]). eauto.
Qed.

Lemma ids_from_length start num ids :
  0 <= num -> ids_from start num ids -> Z.of_nat (length ids) = num.
Proof. intros Hn Hids%Forall2_length. rewrite length_seqZ in Hids. lia. Qed.

Lemma batch_create_ok n per w :
  0 <= per -> Z.of_nat n * per < 2 ^ 64 -> NoDup (draw_keys n (entropy w)).*1 ->
  exists cs, batch_create_account_and_gas (Z.of_nat n) per w =
      Some ((collect_map (map (fun c => (c.1.1, account_of c)) cs), cs ≫= snd), after_draws n w) /\
    length cs = n /\ NoDup (map (fun c => c.1.1) cs) /\ NoDup (map object_id (cs ≫= snd)) /\
    Z.of_nat (length (cs ≫= snd)) = Z.of_nat n * per /\
    Forall (fun c => Z.of_nat (length c.2) = per) cs /\ Forall made_for cs.
Proof.
  intros Hper Hn Hnd. set (starts := map (fun i => i * per) (upto (Z.of_nat n))).
  assert (Hstarts : mapM (fun idx => mul 64 idx per) (upto (Z.of_nat n)) = Some starts).
  { apply mapM_Some. unfold starts. apply Forall2_fmap_r, Forall_Forall2_diag, Forall_forall.
    intros i. unfold upto. rewrite elem_of_map. intros (k & -> & Hk%elem_of_seq).
    unfold mul. apply wrap_in. unfold in_range. nia. }
  assert (Hlen : length starts = n).
  { unfold starts, upto. by rewrite !length_map, length_seq, Nat2Z.id. }
  destruct (collect_draws (create_account per) fst
    (fun start c => ids_from start per (map object_id c.2)) starts w) as (cs & starts' & Hp & Hrun & Hk & Hids).
  { intros start w' Hs. apply create_account_ok. unfold starts in Hs. apply elem_of_map in Hs as (i & -> & Hi).
    unfold upto in Hi. apply elem_of_map in Hi as (k & -> & Hk%elem_of_seq).
    unfold task_fits. cbn. nia. }
  rewrite Hlen in *. exists cs.
  assert (Hcs : length cs = n).
  { apply Forall2_length in Hids. rewrite <-Hids. by rewrite Hp. }
  destruct (creation_ok (map (fun s => (per, s)) starts') cs 0 (Z.of_nat n * per)) as (Hd & Hl & _).
  { by apply Forall2_fmap_l. }
  { rewrite (indexes_perm _ (map (fun s => (per, s)) starts)) by by apply Permutation_map.
    unfold starts. rewrite map_map. by rewrite batch_indexes. }
  1-3: nia.
  split; [|split; [done|split; [|split; [done|split; [done|split]]]]].
  - unfold batch_create_account_and_gas, bindM, lift. rewrite Hstarts. rewrite Hrun.
    cbn. by rewrite add_accounts_eq.
  - rewrite <-Hk in Hnd. by rewrite map_fst_map in Hnd.
  - apply Forall_forall. intros c [i Hi]%list_elem_of_lookup_1.
    destruct (Forall2_lookup_r _ _ _ _ _ Hids Hi) as (start & _ & Hc).
    apply ids_from_length in Hc; [|done]. by rewrite length_map in Hc.
  - eapply collect_all; [|exact Hrun]. intros t w1 c w2 (start & -> & _)%elem_of_map. apply create_account_made.
Qed.

(** ** Accounts of a file *)

(** A record of the file: the index of an account and a number of objects. *)
Definition record_row (record : list string) (row : Z * Z) : Prop :=
  record_u64 record 0 = Some row.1 /\ record_u64 record 1 = Some row.2 /\ 0 <= row.2.

Fixpoint total_objects (rows : list (Z * Z)) : Z :=
  match rows with [] => 0 | row :: rows => row.2 * 2 + total_objects rows end.

(** The tasks of the rows when no sum overflows. *)
Fixpoint tasks_of (start : Z) (rows : list (Z * Z)) : list (Z * Z * Z) :=
  match rows with
  | [] => []
  | row :: rows => (row.1, row.2 * 2, start) :: tasks_of (start + row.2 * 2) rows
  end.

Lemma total_objects_nonneg records rows :
  Forall2 record_row records rows -> 0 <= total_objects rows.
Proof. induction 1 as [|? row ? ? (? & ? & ?)]; cbn; lia. Qed.

Lemma record_tasks_ok start records rows :
  Forall2 record_row records rows -> 0 <= start -> start + total_objects rows < 2 ^ 64 ->
  record_tasks start records = Some (tasks_of start rows).
Proof.
  intros Hrows. revert start. induction Hrows as [|record row records rows Hrow Hrows IH];
    intros start Hs Ht; [done|].
  destruct Hrow as (Hi & Hn & Hpos0). apply total_objects_nonneg in Hrows as Hpos.
  cbn [total_objects] in Ht. cbn. rewrite Hi. cbn. rewrite Hn. cbn -[record_tasks]. unfold mul, add.
  rewrite (wrap_in 64 (row.2 * 2)) by (unfold in_range; lia). cbn -[record_tasks].
  rewrite wrap_in by (unfold in_range; lia). cbn -[record_tasks].
  rewrite IH by lia. done.
Qed.

(** The number of objects and the first index of a task. *)
Definition task_range (t : Z * Z * Z) : Z * Z := (t.1.2, t.2).

Lemma tasks_of_indexes start records rows :
  Forall2 record_row records rows ->
  indexes (map task_range (tasks_of start rows)) = seqZ start (total_objects rows).
Proof.
  intros Hrows. revert start. induction Hrows as [|record row records rows Hrow Hrows IH];
    intros start; [done|].
  destruct Hrow as (_ & _ & Hrow). apply total_objects_nonneg in Hrows as Hpos.
  cbn. unfold indexes in IH. rewrite IH. rewrite seqZ_app by lia. done.
Qed.

Lemma tasks_of_fits start records rows :
  Forall2 record_row records rows -> 0 <= start -> start + total_objects rows <= 2 ^ 64 ->
  Forall (fun t => task_fits (task_range t)) (tasks_of start rows).
Proof.
  intros Hrows. revert start. induction Hrows as [|record row records rows Hrow Hrows IH];
    intros start Hs Ht; [constructor|].
  destruct Hrow as (_ & _ & Hrow). apply total_objects_nonneg in Hrows as Hpos.
  cbn [total_objects] in Ht. constructor; [unfold task_fits; cbn; lia|]. apply IH; lia.
Qed.

Lemma tasks_of_rows start rows :
  map (fun t => (t.1.1, t.1.2)) (tasks_of start rows) = map (fun row => (row.1, row.2 * 2)) rows.
Proof. revert start. induction rows as [|row rows IH]; intros start; [done|]. cbn. by rewrite IH. Qed.

Lemma tasks_of_length start rows : length (tasks_of start rows) = length rows.
Proof. revert start. induction rows as [|row rows IH]; intros start; [done|]. cbn. by rewrite IH. Qed.

Lemma add_indexed_eq acc ts :
  foldl add_indexed_account acc ts =
  mkIndexedAccounts (ins_all (ia_accounts acc) (map (fun c => (c.1.1, account_of c)) (map snd ts)))
    (ia_objects acc ++ (map snd ts ≫= snd))
    (ins_all (ia_indexes acc) (map (fun t => (t.1, t.2.1.1)) ts)).
Proof.
  revert acc. induction ts as [|t ts IH]; intros [m objs idx].
  - cbn. by rewrite app_nil_r.
  - cbn. rewrite IH. cbn. by rewrite app_assoc.
Qed.

Lemma draw_keys_succ n e :
  draw_keys (S n) e = draw_keys n e ++ [(get_account_key_pair (draw_rest n e)).1].
Proof.
  revert e. induction n as [|n IH]; intros e.
  - cbn. by destruct (get_account_key_pair e).
  - cbn [draw_keys draw_rest] in *. destruct (get_account_key_pair e) as [kp e'] eqn:E. cbn.
    f_equal. exact (IH e').
Qed.

(** Every reference of an account is the reference of one of some objects. *)
Definition refs_from (objs : list Object) (accounts : gmap SuiAddress Account) : Prop :=
  forall k a r, accounts !! k = Some a -> r ∈ gas_objects a -> r ∈ map compute_object_reference objs.

Lemma filed_refs (cs : list (SuiAddress * AccountKeyPair * list Object)) :
  refs_from (cs ≫= snd) (collect_map (map (fun c => (c.1.1, account_of c)) cs)).
Proof.
  intros k a r Ha%collect_map_lookup. apply elem_of_map in Ha as ([[a' kp] objs] & [= -> ->] & Hc).
  cbn. intros (o & -> & Ho)%elem_of_map. apply elem_of_map_1. apply list_elem_of_bind.
  exists (a', kp, objs). done.
Qed.

(** The references of an account are those of objects made for its address. *)
Definition coins_from (objs : list Object) (accounts : gmap SuiAddress Account) : Prop :=
  forall k a r, accounts !! k = Some a -> r ∈ gas_objects a -> exists id,
    with_id_owner_for_testing id k ∈ objs /\ r = compute_object_reference (with_id_owner_for_testing id k).

Lemma filed_coins (cs : list (SuiAddress * AccountKeyPair * list Object)) :
  Forall made_for cs -> coins_from (cs ≫= snd) (collect_map (map (fun c => (c.1.1, account_of c)) cs)).
Proof.
  intros Hm k a r Ha%collect_map_lookup. apply elem_of_map in Ha as ([[a' kp] objs] & [= -> ->] & Hc).
  cbn. intros (o & -> & Ho)%elem_of_map. rewrite Forall_forall in Hm. specialize (Hm _ Hc).
  unfold made_for in Hm. cbn in Hm. rewrite Forall_forall in Hm. destruct (Hm _ Ho) as [id ->].
  exists id. split; [|done]. apply list_elem_of_bind. by exists (a', kp, objs).
Qed.

Lemma collect_map_insert_snoc (cs : list (SuiAddress * AccountKeyPair * list Object)) c :
  <[c.1.1 := account_of c]> (collect_map (map (fun c => (c.1.1, account_of c)) cs)) =
  collect_map (map (fun c => (c.1.1, account_of c)) (cs ++ [c])).
Proof. rewrite map_app. cbn [map]. by rewrite collect_map_snoc. Qed.

Lemma by_index_run records rows w :
  Forall2 record_row records rows -> 1 + total_objects rows <= 10000000000000000 ->
  exists ts admin, let cs := map snd ts in
    batch_create_account_and_gas_by_index records w =
      Some ((mkIndexedAccounts (collect_map (map (fun c => (c.1.1, account_of c)) cs))
               ((cs ≫= snd) ++ admin.2) (collect_map (map (fun t => (t.1, t.2.1.1)) ts)),
             account_of admin), drawn 1 (after_draws (length rows) w)) /\
    map fst (cs ++ [admin]) = draw_keys (S (length rows)) (entropy w) /\
    map (fun t => (t.1, Z.of_nat (length t.2.2))) ts ≡ₚ map (fun row => (row.1, row.2 * 2)) rows /\
    NoDup (map object_id ((cs ++ [admin]) ≫= snd)) /\ length admin.2 = 1%nat /\ Forall made_for (cs ++ [admin]).
Proof.
  intros Hrows Ht. pose proof (total_objects_nonneg _ _ Hrows) as Hpos.
  pose proof (tasks_of_fits 1 _ _ Hrows ltac:(lia) ltac:(lia)) as Hfits.
  destruct (collect_draws create_indexed_account (fun t => t.2.1)
    (fun t r => t.1.1 = r.1 /\ ids_from t.2 t.1.2 (map object_id r.2.2)) (tasks_of 1 rows) w)
    as (ts & tasks & Hp & Hrun & Hk & Hids).
  { intros [[i num] start] w' Hin. rewrite Forall_forall in Hfits. specialize (Hfits _ Hin).
    destruct (create_account_ok num start w') as (c & Hc & Hkey & Hid); [exact Hfits|].
    exists (i, c). unfold create_indexed_account, bindM. rewrite Hc. done. }
  rewrite tasks_of_length in Hrun, Hk.
  destruct (create_account_ok 1 10000000000000000 (after_draws (length rows) w))
    as (admin & Hadmin & Hakey & Haids); [unfold task_fits; cbn; lia|].
  exists ts, admin. cbn zeta.
  assert (Hids' : Forall2 (fun ns c => ids_from ns.2 ns.1 (map object_id c.2))
                    (map task_range tasks) (map snd ts)).
  { apply Forall2_fmap. eapply Forall2_impl; [exact Hids|]. by intros t r [_ Hid]. }
  destruct (creation_ok _ _ 1 (total_objects rows) Hids') as (Hd & _ & Hrange); [|lia..|].
  { rewrite <-(tasks_of_indexes 1 _ _ Hrows). apply indexes_perm. by apply Permutation_map. }
  split; [|split; [|split; [|split; [|split]]]].
  - unfold batch_create_account_and_gas_by_index, bindM, lift.
    rewrite (record_tasks_ok 1 _ _ Hrows) by lia. rewrite Hrun, Hadmin. cbn.
    by rewrite add_indexed_eq.
  - rewrite draw_keys_succ, map_app, map_map, Hk. cbn. by rewrite Hakey.
  - rewrite <-Hp in Hfits. rewrite <-(tasks_of_rows 1), <-Hp. apply Permutation_refl'.
    clear -Hids Hfits. induction Hids as [|t r tasks ts [Hi Hid] Hids IH]; [done|].
    apply Forall_cons in Hfits as [[Hf _] Hfits]. cbn. f_equal; [|by apply IH].
    apply ids_from_length in Hid; [|done]. rewrite length_map in Hid. by rewrite Hi, Hid.
  - rewrite bind_app, map_app. cbn. rewrite app_nil_r. apply NoDup_app. split; [done|].
    assert (Ha : forall id, id ∈ map object_id admin.2 -> gas_id 10000000000000000 = Some id).
    { inversion Haids as [|? id ? ids Hid Hnil Heq1 Heq2]; subst.
      apply Forall2_nil_inv_l in Hnil as ->. intros id' Hin. by apply list_elem_of_singleton in Hin as ->. }
    split.
    + intros id Hid Hin%Ha. rewrite Forall_forall in Hrange.
      destruct (Hrange _ Hid) as (idx & Hidx & Hg).
      assert (idx = 10000000000000000); [|lia].
      apply (gas_id_inj _ _ id); [unfold in_range; lia..|done|done].
    + apply ids_from_length in Haids; [|done]. destruct (map object_id admin.2) as [|? [|]];
        cbn in Haids; [lia| |lia]. apply NoDup_singleton.
  - apply ids_from_length in Haids; [|done]. rewrite length_map in Haids. lia.
  - apply Forall_app. split; [|apply Forall_singleton; by eapply create_account_made].
    apply Forall_map. eapply collect_all; [|exact Hrun].
    intros t w1 r w2 ([[i num] start] & -> & _)%elem_of_map. unfold create_indexed_account.
    intros (c & w3 & Hc & [= <- _])%bindM_Some. by eapply create_account_made.
Qed.

End creation.
