(* ===== verification/SuiContextSpec.v ===== *)
(** The context of the Sui single-node benchmark: its invariant, its creation and
    the refresh of its gas objects. *)
From stdpp Require Import base list option numbers strings gmap sorting.
From S2P Require Import Prelude Machine FileSystem BenchMain SuiTypes SuiStore SuiWorld SuiAccounts SuiAccountsSpec SuiGenerators SuiNode SuiContext.
Open Scope Z_scope.

Section context_spec.
Context `{SuiEnv}.
Implicit Types (ctx : BenchmarkContext) (accounts : gmap SuiAddress Account).

(** ** The invariant *)

(** The accounts of the users and of the administrator. *)
Definition all_accounts ctx : gmap SuiAddress Account :=
  <[sender (admin_account ctx) := admin_account ctx]> (user_accounts ctx).

(** The accounts are filed under their addresses, the administrator is not a user,
    and no object belongs to two accounts or twice to one. *)
Record context_ok ctx : Prop := {
  co_accounts : accounts_ok (all_accounts ctx);
  co_admin : user_accounts ctx !! sender (admin_account ctx) = None;
}.

(** What does not change about an account: its address, its key pair and the
    identifiers of its objects. *)
Definition shape (a : Account) : SuiAddress * AccountKeyPair * list ObjectID :=
  (sender a, keypair a, account_ids a).

Lemma gas_ids_shape accounts accounts' :
  shape <$> accounts' = shape <$> accounts -> gas_ids accounts' = gas_ids accounts.
Proof.
  intros Heq. unfold gas_ids.
  assert (Hs : forall m : gmap SuiAddress Account,
            (map_to_list m ≫= (fun ka => account_ids ka.2)) =
            (map_to_list (shape <$> m) ≫= (fun ks => ks.2.2))).
  { intros m. rewrite map_to_list_fmap. induction (map_to_list m) as [|[k a] l IH]; [done|].
    cbn. by rewrite IH. }
  by rewrite !Hs, Heq.
Qed.

Lemma accounts_ok_shape accounts accounts' :
  shape <$> accounts' = shape <$> accounts -> accounts_ok accounts -> accounts_ok accounts'.
Proof.
  intros Heq [Hk Hd]. constructor.
  - intros k a' Ha'. pose proof (f_equal (lookup k) Heq) as Hl.
    rewrite !lookup_fmap, Ha' in Hl. destruct (accounts !! k) as [a|] eqn:Ha; [|done].
    injection Hl as Hs _ _. rewrite Hs. by apply Hk.
  - by rewrite (gas_ids_shape _ _ Heq).
Qed.

Definition same_shape ctx ctx' : Prop :=
  shape <$> user_accounts ctx' = shape <$> user_accounts ctx /\
  shape (admin_account ctx') = shape (admin_account ctx).

Lemma context_ok_shape ctx ctx' : same_shape ctx ctx' -> context_ok ctx -> context_ok ctx'.
Proof.
  intros [Hu Ha] [Hok Hadmin]. injection Ha as Hs Hk Hi.
  constructor.
  - eapply accounts_ok_shape; [|exact Hok]. unfold all_accounts. rewrite !fmap_insert, Hu, Hs.
    unfold shape. by rewrite Hs, Hk, Hi.
  - pose proof (f_equal (lookup (sender (admin_account ctx))) Hu) as Hl.
    rewrite !lookup_fmap, Hadmin in Hl. rewrite Hs.
    by destruct (user_accounts ctx' !! sender (admin_account ctx)).
Qed.

Lemma same_shape_trans ctx1 ctx2 ctx3 :
  same_shape ctx1 ctx2 -> same_shape ctx2 ctx3 -> same_shape ctx1 ctx3.
Proof. intros [H1 H2] [H3 H4]. split; congruence. Qed.

(** The invariant restricted to the users. *)
Lemma context_ok_users ctx : context_ok ctx -> accounts_ok (user_accounts ctx).
Proof.
  intros [[Hk Hd] Ha]. constructor.
  - intros k a Hl. apply Hk. unfold all_accounts. rewrite lookup_insert_ne; [done|].
    intros <-. congruence.
  - unfold gas_ids, all_accounts in *. rewrite map_to_list_insert in Hd by done.
    rewrite bind_cons in Hd. by apply NoDup_app in Hd as (_ & _ & ?).
Qed.

(** ** Refreshing gas objects *)

(** The reference of an object after an update. *)
Definition updated (new : gmap ObjectID ObjectRef) (r : ObjectRef) : ObjectRef :=
  default r (new !! ref_id r).

Definition update_account (new : gmap ObjectID ObjectRef) (a : Account) : Account :=
  set_gas_objects (map (updated new) (gas_objects a)) a.

Lemma refresh_refs_eq new (l : list ObjectRef) :
  NoDup (map ref_id l) ->
  refresh_refs new l = (map (updated new) l, foldl (fun m r => delete (ref_id r) m) new l).
Proof.
  revert new. induction l as [|r l IH]; intros new Hnd; [done|].
  cbn in Hnd. apply NoDup_cons in Hnd as [Hr Hl]. cbn.
  assert (Hext : forall m, m = delete (ref_id r) new ->
            map (updated m) l = map (updated new) l).
  { intros m ->. apply map_ext_in. intros r' Hr'. unfold updated. rewrite lookup_delete_ne; [done|].
    intros Heq. apply Hr. rewrite Heq. apply elem_of_map_1. by apply list_elem_of_In. }
  unfold refresh_ref, updated at 1. destruct (new !! ref_id r) as [r'|] eqn:Hn.
  - rewrite IH by done. by rewrite (Hext _ eq_refl).
  - rewrite IH by done. f_equal. by rewrite delete_id.
Qed.

Lemma updated_ext new new' (l : list ObjectRef) :
  (forall r, r ∈ l -> new' !! ref_id r = new !! ref_id r) ->
  map (updated new') l = map (updated new) l.
Proof.
  intros Hext. apply map_ext_in. intros r Hr. unfold updated.
  rewrite Hext; [done|by apply list_elem_of_In].
Qed.

Lemma refresh_accounts_lookup new (entries : list (SuiAddress * Account)) accounts k :
  NoDup entries.*1 -> NoDup (entries ≫= (fun ka => account_ids ka.2)) ->
  (forall k' a, (k', a) ∈ entries -> accounts !! k' = Some a) ->
  refresh_accounts new entries accounts !! k =
  if decide (k ∈ entries.*1) then update_account new <$> accounts !! k else accounts !! k.
Proof.
  revert new accounts. induction entries as [|[k0 a0] entries IH]; intros new accounts Hk Hi Ha.
  { rewrite decide_False; [done|apply not_elem_of_nil]. }
  cbn in Hk, Hi. apply NoDup_cons in Hk as [Hk0 Hk]. apply NoDup_app in Hi as (Hi0 & Hdisj & Hi).
  cbn [refresh_accounts]. rewrite refresh_refs_eq by done.
  assert (Hrest : forall k' a, (k', a) ∈ entries -> <[k0 := set_gas_objects
      (map (updated new) (gas_objects a0)) a0]> accounts !! k' = Some a).
  { intros k' a Hin. rewrite lookup_insert_ne; [apply Ha; by right|]. intros ->. apply Hk0.
    apply list_elem_of_fmap. by exists (k', a). }
  rewrite IH by done. cbn [fmap list_fmap fst].
  destruct (decide (k = k0)) as [->|Hne].
  - rewrite decide_False by done. rewrite decide_True by (left).
    rewrite lookup_insert_eq, (Ha k0 a0) by left. done.
  - rewrite lookup_insert_ne by done.
    destruct (decide (k ∈ entries.*1)) as [Hin|Hnin].
    + rewrite decide_True by by right. apply list_elem_of_fmap in Hin as ([k' a] & -> & Hin).
      cbn in *. rewrite (Ha k' a) by by right. cbn. f_equal. unfold update_account. f_equal.
      apply updated_ext. intros r Hr. rewrite foldl_delete_lookup, decide_False; [done|].
      intros Hin'. apply (Hdisj (ref_id r)); [exact Hin'|]. apply list_elem_of_bind.
      exists (k', a). split; [apply elem_of_map_1; exact Hr|done].
    + rewrite decide_False; [done|]. intros [?|?]%elem_of_cons; done.
Qed.

(** Refreshing replaces, in every account, exactly the references of the objects
    that have a new one. *)
Lemma refresh_gas_objects_eq new ctx :
  accounts_ok (user_accounts ctx) ->
  refresh_gas_objects new ctx = set_user_accounts (update_account new <$> user_accounts ctx) ctx.
Proof.
  intros [_ Hd]. unfold refresh_gas_objects. f_equal. apply map_eq. intros k.
  rewrite refresh_accounts_lookup; [|apply btree_entries_keys| |].
  - rewrite lookup_fmap. destruct (decide _) as [|Hnin]; [done|].
    destruct (user_accounts ctx !! k) as [a|] eqn:Ha; [|done]. destruct Hnin.
    apply list_elem_of_fmap. exists (k, a). by rewrite btree_entries_lookup.
  - by rewrite btree_entries_perm.
  - intros k' a. apply btree_entries_lookup.
Qed.

(** The new references name the objects they replace. *)
Definition new_refs_ok (new : gmap ObjectID ObjectRef) : Prop :=
  forall id r, new !! id = Some r -> ref_id r = id.

Lemma updated_id new r : new_refs_ok new -> ref_id (updated new r) = ref_id r.
Proof.
  intros Hn. unfold updated. destruct (new !! ref_id r) as [r'|] eqn:E; [|done]. by apply Hn.
Qed.

Lemma refresh_shape new ctx :
  accounts_ok (user_accounts ctx) -> new_refs_ok new ->
  same_shape ctx (refresh_gas_objects new ctx).
Proof.
  intros Hok Hn. rewrite refresh_gas_objects_eq by done. split; [|done]. cbn.
  rewrite <-map_fmap_compose. apply map_fmap_ext. intros k a _. cbn. unfold shape, account_ids. cbn.
  f_equal. rewrite map_map. apply map_ext. intros r. by apply updated_id.
Qed.

End context_spec.

(** ** Creation *)

Section creation.
Context `{SuiEnv} `{!ObjectLaws}.
Implicit Types (ctx : BenchmarkContext) (workload : Workload).

(** The world after the accounts are drawn and the validator is built. *)
Definition built (objs : list Object) (w w' : World) : Prop :=
  state w' = authority_build objs /\ NoDup (map object_id objs) /\ reports w' = reports w.

Lemma built_intro objs v (w w' : World) :
  NoDup (map object_id objs) -> reports w' = reports w ->
  exists w'', validator_new objs v w' = Some (mkSingleValidator (mode_of v), w'') /\ built objs w w''.
Proof. intros. eexists. split; [done|]. done. Qed.

Lemma accounts_shape_insert_delete (m : gmap SuiAddress Account) k a :
  m !! k = Some a -> accounts_ok m -> <[sender a := a]> (delete k m) = m.
Proof. intros Ha [Hk _]. rewrite (Hk _ _ Ha). by apply insert_delete_id. Qed.

(** The number of accounts reserved for a run. *)
Definition reserved (workload : Workload) (print_sample_tx : bool) : nat :=
  Z.to_nat (tx_count workload + 1 + (if print_sample_tx then 1 else 0)).

Lemma reserved_accounts_ok workload print_sample_tx :
  0 <= tx_count workload -> Z.of_nat (reserved workload print_sample_tx) < 2 ^ 64 ->
  reserved_accounts workload print_sample_tx = Some (Z.of_nat (reserved workload print_sample_tx)).
Proof.
  intros Hc. unfold reserved, reserved_accounts, add, num_accounts. intros Hr.
  rewrite wrap_in by (unfold in_range; destruct print_sample_tx; lia). cbn -[wrap].
  destruct print_sample_tx; [rewrite wrap_in by (unfold in_range; lia)|]; apply (f_equal Some); lia.
Qed.

(** With key pairs that differ and a number of gas objects that fits in 64 bits,
    one user account per transaction is created (and one for the sample), with
    the gas objects its workload needs. *)
Lemma context_from_workload workload component print_sample_tx per (w : World) :
  let n := reserved workload print_sample_tx in
  0 <= tx_count workload -> gas_object_num_per_account workload = Some per -> 1 <= per ->
  Z.of_nat n * per < 2 ^ 64 -> NoDup (draw_keys n (entropy w)).*1 ->
  exists ctx objs w',
    context_new workload component print_sample_tx EmptyString w = Some (ctx, w') /\
    context_ok ctx /\ built objs w w' /\ refs_from objs (all_accounts ctx) /\
    coins_from objs (all_accounts ctx) /\ Z.of_nat (length objs) = Z.of_nat n * per /\
    S (size (user_accounts ctx)) = n /\ benchmark_component ctx = component /\
    forall k a, all_accounts ctx !! k = Some a -> Z.of_nat (length (gas_objects a)) = per.
Proof.
  intros n Hc Hper Hper1 Hn Hkeys.
  destruct (batch_create_ok n per w) as (cs & Hrun & Hlen & Hnd & Hids & Htot & Hall & Hmade); [lia..|done|].
  set (m := collect_map (map (fun c => (c.1.1, account_of c)) cs)) in *.
  pose proof (filed_ok cs Hnd Hids) as Hok. fold m in Hok.
  pose proof (filed_size cs Hnd) as Hsize. fold m in Hsize. rewrite Hlen in Hsize.
  destruct (pop_last_some m) as (k & admin & Hpop & Hadmin).
  { intros Hm. rewrite Hm, map_size_empty in Hsize. unfold n, reserved in Hsize.
    destruct print_sample_tx; lia. }
  destruct (built_intro (cs ≫= snd) component w (after_draws n w)) as (w' & Hv & Hb); [done|done|].
  exists (mkBenchmarkContext (mkSingleValidator (mode_of component)) (delete k m) admin component ∅),
    (cs ≫= snd), w'.
  assert (Hall' : all_accounts (mkBenchmarkContext (mkSingleValidator (mode_of component))
            (delete k m) admin component ∅) = m)
    by by apply accounts_shape_insert_delete.
  split; [|split; [|split; [done|split; [|split; [|split; [done|split; [|split; [done|]]]]]]]].
  - unfold context_new, new_from_workload, bindM, lift.
    rewrite decide_True by done. rewrite reserved_accounts_ok; [|done|fold n; nia].
    rewrite Hper. fold n. unfold mul. rewrite wrap_in by (unfold in_range; nia).
    rewrite Hrun. cbn [snd fst]. rewrite Htot. unfold guard_.
    rewrite cast_in by (unfold in_range; nia). rewrite Z.eqb_refl. cbn [ret].
    unfold ret. rewrite Hpop. cbn [fst snd]. rewrite Hv. done.
  - constructor; [by rewrite Hall'|]. cbn. destruct Hok as [Hk _].
    rewrite (Hk _ _ Hadmin). apply lookup_delete_eq.
  - rewrite Hall'. apply filed_refs.
  - rewrite Hall'. by apply filed_coins.
  - cbn. rewrite map_size_delete_Some by eauto. rewrite Hsize.
    unfold n, reserved. destruct print_sample_tx; lia.
  - rewrite Hall'. intros k' a Ha%collect_map_lookup.
    apply elem_of_map in Ha as ([[a' kp] objs] & [= -> ->] & Hin). cbn. rewrite length_map.
    rewrite Forall_forall in Hall. by apply (Hall _ Hin).
Qed.

(** ** Creation from a file *)

(** The accounts of the rows of a file: the account of an index has twice the
    number of objects of its row, and no two indexes have the same account. *)
Record indexed_ok (rows : list (Z * Z)) ctx : Prop := {
  io_rows : forall i n, (i, n) ∈ rows -> exists addr a,
    account_indexes ctx !! i = Some addr /\ user_accounts ctx !! addr = Some a /\
    Z.of_nat (length (gas_objects a)) = n * 2;
  io_inj : forall i j addr, account_indexes ctx !! i = Some addr ->
    account_indexes ctx !! j = Some addr -> i = j;
}.

Lemma indexed_intro (rows : list (Z * Z)) ctx
    (ts : list (Z * (SuiAddress * AccountKeyPair * list Object))) :
  user_accounts ctx = collect_map (map (fun c => (c.1.1, account_of c)) (map snd ts)) ->
  account_indexes ctx = collect_map (map (fun t => (t.1, t.2.1.1)) ts) ->
  NoDup rows.*1 -> NoDup (map (fun t => t.2.1.1) ts) ->
  map (fun t => (t.1, Z.of_nat (length t.2.2))) ts ≡ₚ map (fun row => (row.1, row.2 * 2)) rows ->
  indexed_ok rows ctx.
Proof.
  intros Hu Hi Hrows Hts Hp.
  assert (Hidx : NoDup (map fst ts)).
  { pose proof (Permutation_map fst Hp) as Hp1. rewrite !map_map in Hp1. cbn in Hp1.
    rewrite Hp1. exact Hrows. }
  constructor.
  - intros i n Hin.
    assert (Hin' : (i, n * 2) ∈ map (fun t : Z * (SuiAddress * AccountKeyPair * list Object) =>
              (t.1, Z.of_nat (length t.2.2))) ts).
    { rewrite Hp. apply elem_of_map. by exists (i, n). }
    apply elem_of_map in Hin' as ([i' [[addr kp] objs]] & [= -> Hn] & Ht). cbn in Hn.
    exists addr, (account_of (addr, kp, objs)). split; [|split].
    + rewrite Hi. apply collect_map_elem; [by rewrite map_fst_map|]. apply elem_of_map.
      by exists (i', (addr, kp, objs)).
    + rewrite Hu, map_map. apply collect_map_elem; [by rewrite map_fst_map|]. apply elem_of_map.
      by exists (i', (addr, kp, objs)).
    + cbn. rewrite length_map. lia.
  - rewrite Hi. intros i j addr Hli%collect_map_lookup Hlj%collect_map_lookup.
    apply elem_of_map in Hli as (t & [= -> Ht] & Hin), Hlj as (t' & [= -> Ht'] & Hin').
    apply list_elem_of_lookup_1 in Hin as [x Hx], Hin' as [y Hy].
    assert (x = y) as ->; [|congruence].
    eapply NoDup_lookup; [exact Hts|by apply map_lookup_Some|].
    rewrite (map_lookup_Some _ _ _ _ Hy). congruence.
Qed.

Lemma context_from_file component path_ rows (w : World) :
  path_ <> EmptyString -> Forall2 record_row (get_records_from_file path_) rows ->
  1 + total_objects rows <= 10000000000000000 -> NoDup rows.*1 ->
  NoDup (draw_keys (S (length rows)) (entropy w)).*1 ->
  forall workload print_sample_tx, exists ctx objs w',
    context_new workload component print_sample_tx path_ w = Some (ctx, w') /\
    context_ok ctx /\ indexed_ok rows ctx /\ built objs w w' /\ refs_from objs (all_accounts ctx) /\
    coins_from objs (all_accounts ctx) /\ size (user_accounts ctx) = length rows /\ benchmark_component ctx = component /\
    length (gas_objects (admin_account ctx)) = 1%nat.
Proof.
  intros Hpath Hrows Ht Hnd Hkeys workload print_sample_tx.
  set (w0 := mkWorld (state w) (entropy w) (S (steps w)) (reports w)).
  destruct (by_index_run _ _ w0 Hrows Ht) as (ts & admin & Hrun & Hk & Hp & Hids & Hadm & Hmade).
  cbn zeta in Hrun.
  set (cs := map snd ts) in *.
  assert (Hcs : NoDup (map (fun c => c.1.1) (cs ++ [admin]))).
  { change (entropy w) with (entropy w0) in Hkeys. rewrite <-Hk in Hkeys.
    by rewrite map_fst_map in Hkeys. }
  pose proof (filed_ok _ Hcs Hids) as Hok. rewrite <-collect_map_insert_snoc in Hok.
  assert (Hcs1 : NoDup (map (fun c => c.1.1) cs) /\
                 admin.1.1 ∉ map (fun c : SuiAddress * AccountKeyPair * list Object => c.1.1) cs).
  { rewrite map_app in Hcs. apply NoDup_app in Hcs as (H1 & H2 & _). split; [done|].
    intros Hin. apply (H2 _ Hin). by left. }
  destruct Hcs1 as [Hcs1 Hnew].
  set (wt := let w1 := drawn 1 (after_draws (length rows) w0) in
             mkWorld (state w1) (entropy w1) (S (S (steps w1))) (reports w1)).
  rewrite bind_app in Hids. cbn in Hids. rewrite app_nil_r in Hids.
  destruct (built_intro ((cs ≫= snd) ++ admin.2) component w wt) as (w' & Hv & Hb); [done|done|].
  eexists _, ((cs ≫= snd) ++ admin.2), w'. split; [|split; [|split; [|split; [done|]]]].
  - unfold context_new. rewrite decide_False by done.
    unfold new_from_file, elapsed_ms, now, next, bindM, ret. cbn [steps].
    fold w0. rewrite Hrun. cbn [fst snd ia_objects].
    match goal with |- context [validator_new _ _ ?x] => change x with wt end. by rewrite Hv.
  - destruct admin as [[aa akp] aobjs]. constructor; [exact Hok|].
    cbn. apply eq_None_not_Some. rewrite collect_map_is_Some, map_fst_map. exact Hnew.
  - apply (indexed_intro _ _ ts); [done..| |exact Hp].
    unfold cs in Hcs1. by rewrite map_map in Hcs1.
  - cbn. split; [|split; [|split; [|split; [done|]]]].
    + pose proof (filed_refs (cs ++ [admin])) as Hr. rewrite bind_app in Hr. cbn in Hr.
      rewrite app_nil_r, <-collect_map_insert_snoc in Hr. by destruct admin as [[aa akp] aobjs].
    + pose proof (filed_coins (cs ++ [admin]) Hmade) as Hr. rewrite bind_app in Hr. cbn in Hr.
      rewrite app_nil_r, <-collect_map_insert_snoc in Hr. by destruct admin as [[aa akp] aobjs].
    + rewrite filed_size by done. unfold cs. rewrite length_map.
      apply Permutation_length in Hp. by rewrite !length_map in Hp.
    + destruct admin as [[aa akp] aobjs]. cbn in *. by rewrite length_map.
Qed.

End creation.
