(* ===== verification/SuiJobsSpec.v ===== *)
(** What the validator of the Sui benchmark promises, and the calls of the
    preparations under these promises: calls of distinct live gas objects are
    executed whatever their order, make new objects, and leave everything else as
    it was. *)
From stdpp Require Import base list option numbers strings gmap sorting.
From S2P Require Import Prelude Machine FileSystem BenchMain SuiTypes SuiStore SuiWorld SuiAccounts SuiAccountsSpec SuiGenerators SuiNode SuiContext SuiContextSpec SuiBench.
Open Scope Z_scope.

(** ** What the validator promises *)

(** The calls of the preparations, on the Move package of the benchmark. *)
Inductive PrepCall : Type :=
| CallRoot (bytes : list Z)
| CallShared
| CallMint (bytes : list Z)
| CallLand.

(** The objects of the benchmark's package that an address owns: coins, roots of
    dynamic fields, kitties and genes. *)
Inductive ObjectKind : Type := Coin | Root | Kitty | Gene.

Section calls.
Context `{SuiEnv}.

Definition call_target (c : PrepCall) : string * string :=
  match c with
  | CallRoot _ => ("benchmark", "generate_dynamic_fields")
  | CallShared => ("benchmark", "create_shared_counter")
  | CallMint _ => ("KittyBreeding", "mint")
  | CallLand => ("MillionPixel", "create_land_records")
  end%string.

Definition call_args (c : PrepCall) : list CallArg :=
  match c with CallRoot bytes | CallMint bytes => [Pure bytes] | _ => [] end.

Definition call_tx (package : ObjectID) (c : PrepCall) (a : Account) (gas : ObjectRef) : Transaction :=
  build_and_sign (keypair a)
    (ttb_move_call package (call_target c).1 (call_target c).2 (call_args c)
       (ttb_new (sender a) gas DEFAULT_VALIDATOR_GAS_PRICE)).

(** What a call creates: an object of the sender, or a shared object. *)
Definition creates (c : PrepCall) (a : SuiAddress) (e : TransactionEffects) : Prop :=
  match c with
  | CallRoot _ | CallMint _ => exists r, first_such address_owned (created e) = Some (a, r)
  | CallShared | CallLand => is_Some (first_such shared_id (created e))
  end.

(** The kind of the object that a call makes for its sender. *)
Definition call_kind (c : PrepCall) : option ObjectKind :=
  match c with CallRoot _ => Some Root | CallMint _ => Some Kitty | _ => None end.

(** The arguments of a call are those its function takes. *)
Definition call_valid (max_fields : Z) (c : PrepCall) : Prop :=
  match c with
  | CallRoot bytes => exists n, 0 <= n <= max_fields /\ bcs_uint 64 n = Some bytes
  | CallMint bytes => exists n, bcs_uint 128 n = Some bytes
  | CallShared | CallLand => True
  end.

End calls.

Class ValidatorLaws `{SuiEnv} := {
  (** The reference of a live object, the packages that are published, the
      transactions whose outputs can be committed, the versions of objects that a
      signed transaction has locked, and the kind and owner of an object. *)
  live : AuthorityState -> ObjectID -> option ObjectRef;
  published : AuthorityState -> ObjectID -> Prop;
  executed : AuthorityState -> Digest -> Prop;
  locked : AuthorityState -> ObjectRef -> Prop;
  owned_as : AuthorityState -> ObjectID -> option (ObjectKind * SuiAddress);
  (** The dynamic fields that one transaction can create. *)
  max_dynamic_fields : Z;
  bcs_uint_some width n : is_Some (bcs_uint width n);
  live_genesis objs o : NoDup (map object_id objs) -> o ∈ objs ->
    live (authority_build objs) (object_id o) = Some (compute_object_reference o);
  unlocked_genesis objs r : ~ locked (authority_build objs) r;
  owned_genesis objs id a : NoDup (map object_id objs) -> with_id_owner_for_testing id a ∈ objs ->
    owned_as (authority_build objs) id = Some (Coin, a);
  (** A call of the benchmark's package whose gas is a live coin of its sender is
      executed: it
      changes the gas object only, creates its object under an identifier that no
      object has, and is executed for good. *)
  execute_call s package c a gas :
    published s package -> live s (ref_id gas) = Some gas ->
    owned_as s (ref_id gas) = Some (Coin, sender a) -> call_valid max_dynamic_fields c ->
    exists e s',
      try_execute_immediately (new_from_quorum_execution (call_tx package c a gas) 0) s = (Ok e, s') /\
      status_is_ok e = true /\ ref_id (gas_object e) = ref_id gas /\
      live s' (ref_id gas) = Some (gas_object e) /\ creates c (sender a) e /\
      NoDup (map ref_id (created e).*1) /\
      (forall r, r ∈ (created e).*1 -> live s (ref_id r) = None /\ live s' (ref_id r) = Some r) /\
      (forall k r, call_kind c = Some k -> first_such address_owned (created e) = Some (sender a, r) ->
         owned_as s' (ref_id r) = Some (k, sender a)) /\
      executed s' (effects_digest e) /\
      (forall id r, id <> ref_id gas -> live s id = Some r -> live s' id = Some r) /\
      (forall p, published s p -> published s' p) /\ (forall d, executed s d -> executed s' d) /\
      (forall r, locked s' r -> locked s r) /\
      (forall id x, owned_as s id = Some x -> owned_as s' id = Some x);
  execute_publish s a gas :
    live s (ref_id gas) = Some gas -> owned_as s (ref_id gas) = Some (Coin, sender a) ->
    exists e s' package,
      try_execute_immediately (new_from_quorum_execution
        (build_and_sign (keypair a) (ttb_publish_with_data
           (Source (join CARGO_MANIFEST_DIR "move_package") false) (ttb_new (sender a) gas DEFAULT_VALIDATOR_GAS_PRICE))) 0) s = (Ok e, s') /\
      status_is_ok e = true /\ ref_id (gas_object e) = ref_id gas /\
      live s' (ref_id gas) = Some (gas_object e) /\
      first_such (fun ro => if is_immutable ro.2 then Some ro.1 else None) (all_changed_objects e)
        = Some package /\ published s' (ref_id package) /\
      (forall id r, id <> ref_id gas -> live s id = Some r -> live s' id = Some r) /\
      (forall r, locked s' r -> locked s r) /\
      (forall id x, owned_as s id = Some x -> owned_as s' id = Some x);
  commit_executed s epoch_id d :
    executed s d ->
    exists s', commit_transaction_outputs epoch_id d s = (Ok tt, s') /\
      (forall id r, live s id = Some r -> live s' id = Some r) /\
      (forall p, published s p -> published s' p) /\ (forall d', executed s d' -> executed s' d') /\
      (forall r, locked s' r -> locked s r) /\
      (forall id x, owned_as s id = Some x -> owned_as s' id = Some x);
}.

Section jobs.
Context `{SuiEnv} `{!ValidatorLaws}.
Implicit Types (ctx : BenchmarkContext) (w : World) (s : AuthorityState).

(** ** Steps that lose nothing *)

(** The objects stay live, those outside [ids] with their references, and packages,
    executions and owners stay; no object is locked. *)
Record keeps (ids : list ObjectID) w w' : Prop := {
  keeps_live : forall id r, id ∉ ids -> live (state w) id = Some r -> live (state w') id = Some r;
  keeps_dom : forall id, is_Some (live (state w) id) -> is_Some (live (state w') id);
  keeps_published : forall p, published (state w) p -> published (state w') p;
  keeps_executed : forall d, executed (state w) d -> executed (state w') d;
  keeps_locked : forall r, locked (state w') r -> locked (state w) r;
  keeps_owned : forall id x, owned_as (state w) id = Some x -> owned_as (state w') id = Some x;
}.

Lemma keeps_refl ids w : keeps ids w w.
Proof. by constructor. Qed.

Lemma keeps_trans ids ids' w1 w2 w3 :
  keeps ids w1 w2 -> keeps ids' w2 w3 -> keeps (ids ++ ids') w1 w3.
Proof.
  intros [H1 H2 H3 H4 H5 H6] [K1 K2 K3 K4 K5 K6]. constructor; auto.
  intros id r Hid Hl. rewrite not_elem_of_app in Hid. destruct Hid. auto.
Qed.

Lemma keeps_weaken ids ids' w w' : keeps ids w w' -> (forall id, id ∈ ids -> id ∈ ids') -> keeps ids' w w'.
Proof. intros [H1 H2 H3 H4 H5 H6] Hi. constructor; auto. Qed.

Lemma keeps_state ids w1 w2 w : state w2 = state w1 -> keeps ids w2 w -> keeps ids w1 w.
Proof. intros Hs [H1 H2 H3 H4 H5 H6]. rewrite Hs in *. by constructor. Qed.

(** ** New objects *)

Definition created_refs (es : list TransactionEffects) : list ObjectRef := es ≫= (fun e => (created e).*1).

(** The objects that executions make: distinct, and new. *)
Record made (es : list TransactionEffects) w w' : Prop := {
  made_distinct : NoDup (map ref_id (created_refs es));
  made_new : forall r, r ∈ created_refs es -> live (state w) (ref_id r) = None;
  made_live : forall r, r ∈ created_refs es -> live (state w') (ref_id r) = Some r;
}.

Lemma made_state es w1 w2 w : state w2 = state w1 -> made es w2 w -> made es w1 w.
Proof. intros Hs [H1 H2 H3]. rewrite Hs in *. by constructor. Qed.

Lemma made_keeps es ids w w1 w2 :
  keeps ids w1 w2 -> (forall r, r ∈ created_refs es -> ref_id r ∉ ids) -> made es w w1 -> made es w w2.
Proof. intros Hk Hi [H1 H2 H3]. constructor; [done|done|]. intros r Hr. apply (keeps_live _ _ _ Hk); auto. Qed.

(** Executions one after the other. *)
Lemma made_cons e es ids w w1 w2 :
  made [e] w w1 -> made es w1 w2 -> keeps ids w1 w2 ->
  (forall id, is_Some (live (state w) id) -> is_Some (live (state w1) id)) ->
  (forall id, id ∈ ids -> is_Some (live (state w) id)) -> made (e :: es) w w2.
Proof.
  intros He [H1 H2 H3] Hk Hdom Hids.
  assert (Hnew : forall r, r ∈ created_refs [e] -> ref_id r ∉ ids).
  { intros r Hr Hin. apply Hids in Hin. rewrite (made_new _ _ _ He) in Hin by done. by destruct Hin. }
  pose proof (made_keeps _ _ _ _ _ Hk Hnew He) as He2.
  change (created_refs (e :: es)) with ((created e).*1 ++ created_refs es).
  assert (He1 : created_refs [e] = (created e).*1) by apply app_nil_r.
  destruct He as [K1 K2 K3], He2 as [_ _ K4]. rewrite He1 in *.
  constructor; change (created_refs (e :: es)) with ((created e).*1 ++ created_refs es).
  - rewrite map_app. apply NoDup_app. split; [done|]. split; [|done].
    intros id (r & -> & Hr)%elem_of_map (r' & Hid & Hr')%elem_of_map.
    specialize (H2 _ Hr'). rewrite <-Hid in H2. rewrite K3 in H2 by done. done.
  - intros r [Hr|Hr]%elem_of_app; [by apply K2|]. apply eq_None_not_Some. intros Hl%Hdom.
    rewrite H2 in Hl by done. by destruct Hl.
  - intros r [Hr|Hr]%elem_of_app; auto.
Qed.

(** A transaction of a call and its effects, in the world after them. *)
Record settled (c : PrepCall) (a : Account) (gas : ObjectRef) (e : TransactionEffects) w : Prop := {
  settled_id : ref_id (gas_object e) = ref_id gas;
  settled_live : live (state w) (ref_id gas) = Some (gas_object e);
  settled_creates : creates c (sender a) e;
  settled_owned : forall k r, call_kind c = Some k ->
    first_such address_owned (created e) = Some (sender a, r) ->
    owned_as (state w) (ref_id r) = Some (k, sender a);
  settled_executed : executed (state w) (effects_digest e);
}.

Lemma settled_keeps c a gas e ids w w' :
  keeps ids w w' -> ref_id gas ∉ ids -> settled c a gas e w -> settled c a gas e w'.
Proof. intros [H1 H2 H3 H4 H5 H6] Hid [K1 K2 K3 K4 K5]. constructor; auto. Qed.

Lemma execute_raw_call package c a gas w :
  published (state w) package -> live (state w) (ref_id gas) = Some gas ->
  owned_as (state w) (ref_id gas) = Some (Coin, sender a) -> call_valid max_dynamic_fields c ->
  exists e w', execute_raw_transaction (call_tx package c a gas) w = Some (e, w') /\
    settled c a gas e w' /\ keeps [ref_id gas] w w' /\ made [e] w w'.
Proof.
  intros Hp Hl Hco Hv. destruct (execute_call _ _ c a _ Hp Hl Hco Hv)
    as (e & s' & He & Hok & Hid & Hl' & Hc & Hnd & Hnew & Hkind & Hex & Hkl & Hkp & Hke & Hlk & Hown).
  exists e. eexists. split; [|split; [|split]].
  - unfold execute_raw_transaction, on_state, assert_ok, bindM. rewrite He. cbn. rewrite Hok. done.
  - by constructor.
  - constructor; cbn; [| |done|done|done|done].
    + intros id r Hne. apply Hkl. set_solver.
    + intros id [r Hr]. destruct (decide (id = ref_id gas)) as [->|Hne]; eauto.
  - constructor; unfold created_refs; cbn; rewrite app_nil_r; [done| |]; intros r Hr; by apply Hnew.
Qed.

(** A call of an account, with its gas object. *)
Definition Job : Type := PrepCall * Account * ObjectRef.
Definition job_gas (j : Job) : ObjectID := ref_id j.2.
Definition job_tx (package : ObjectID) (j : Job) : Transaction := call_tx package j.1.1 j.1.2 j.2.

(** Calls of distinct gas objects, one after the other. *)
Lemma execute_jobs package (jobs : list Job) w :
  published (state w) package -> NoDup (map job_gas jobs) ->
  (forall j, j ∈ jobs -> live (state w) (job_gas j) = Some j.2 /\
     owned_as (state w) (job_gas j) = Some (Coin, sender j.1.2) /\ call_valid max_dynamic_fields j.1.1) ->
  exists es w', seqM (map (fun j => execute_raw_transaction (job_tx package j)) jobs) w = Some (es, w') /\
    Forall2 (fun j e => settled j.1.1 j.1.2 j.2 e w') jobs es /\ keeps (map job_gas jobs) w w' /\ made es w w'.
Proof.
  revert w. induction jobs as [|[[c a] gas] jobs IH]; intros w Hp Hnd Hl.
  - exists [], w. split; [done|]. split; [constructor|]. split; [apply keeps_refl|].
    constructor; [constructor|..]; by intros r ?%elem_of_nil.
  - cbn in Hnd. apply NoDup_cons in Hnd as [Hnew Hnd].
    destruct (execute_raw_call package c a gas w) as (e & w1 & He & Hset & Hk & Hm); [done| | | |].
    1-3: apply (Hl (c, a, gas)); left.
    destruct (IH w1) as (es & w2 & Hes & Hsets & Hks & Hms); [by apply (keeps_published _ _ _ Hk)|done| |].
    { intros j Hj. split; [|split; [apply (keeps_owned _ _ _ Hk)|]; apply Hl; by right].
      apply (keeps_live _ _ _ Hk); [|apply Hl; by right].
      rewrite list_elem_of_singleton. intros Heq. apply Hnew. cbn in Heq.
      change (job_gas (c, a, gas)) with (ref_id gas). rewrite <-Heq. by apply elem_of_map_1. }
    exists (e :: es), w2. split; [|split; [|split]].
    + cbn. unfold bindM. unfold job_tx at 1. cbn. rewrite He, Hes. done.
    + constructor; [|done]. by apply (settled_keeps _ _ _ _ _ w1 w2 Hks).
    + exact (keeps_trans [ref_id gas] _ _ _ _ Hk Hks).
    + eapply made_cons; [exact Hm|exact Hms|exact Hks|apply (keeps_dom _ _ _ Hk)|].
      intros id (j & -> & Hj)%elem_of_map. exists j.2. apply Hl. by right.
Qed.

(** ** Committing the outputs *)

Lemma foldM_commits {A} (body : A -> TransactionEffects -> M World A)
    (step : A -> TransactionEffects -> A) (I : A -> list TransactionEffects -> Prop)
    (es : list TransactionEffects) acc w :
  (forall acc e rest w, e ∈ es -> I acc (e :: rest) -> executed (state w) (effects_digest e) ->
     I (step acc e) rest /\ exists w', body acc e w = Some (step acc e, w') /\ keeps [] w w') ->
  I acc es -> (forall e, e ∈ es -> executed (state w) (effects_digest e)) ->
  exists w', foldM body acc es w = Some (foldl step acc es, w') /\ keeps [] w w'.
Proof.
  revert acc w. induction es as [|e es IH]; intros acc w Hb HI He.
  - exists w. split; [done|apply keeps_refl].
  - destruct (Hb acc e es w) as (HI1 & w1 & Hw1 & Hk1); [left|done|apply He; left|].
    destruct (IH (step acc e) w1) as (w2 & Hw2 & Hk2).
    + intros. eapply Hb; [by right|done|done].
    + done.
    + intros e' He'. apply (keeps_executed _ _ _ Hk1), He. by right.
    + exists w2. split; [|exact (keeps_trans [] [] _ _ _ Hk1 Hk2)].
      cbn. unfold bindM. by rewrite Hw1.
Qed.

Lemma commit_outputs_ok epoch_id e w :
  executed (state w) (effects_digest e) ->
  exists w', commit_outputs epoch_id e w = Some (tt, w') /\ keeps [] w w'.
Proof.
  intros He. destruct (commit_executed _ epoch_id _ He) as (s' & Hs & Hl & Hp & Hx & Hlk & Hown).
  eexists. unfold commit_outputs, on_state, bindM. rewrite Hs. cbn. split; [done|].
  constructor; cbn; auto. intros id [r Hr]. eauto.
Qed.

(** ** References of the context *)

(** Every gas object of every account is live under the reference it has there, and a
    coin of the account. *)
Definition refs_live w ctx : Prop :=
  forall k a r, all_accounts ctx !! k = Some a -> r ∈ gas_objects a ->
    live (state w) (ref_id r) = Some r /\ owned_as (state w) (ref_id r) = Some (Coin, sender a).

(** A job of a kind for an account, which pays with its first gas object. *)
Definition job_of (K : PrepCall -> Prop) (a : Account) (j : Job) : Prop :=
  j.1.2 = a /\ gas_objects a !! 0%nat = Some j.2 /\ K j.1.1.

Lemma user_account_all ctx k a :
  context_ok ctx -> user_accounts ctx !! k = Some a -> all_accounts ctx !! k = Some a.
Proof.
  intros [_ Hadmin] Ha. unfold all_accounts. rewrite lookup_insert_ne; [done|].
  intros Heq. congruence.
Qed.

(** The new references of gas objects that some effects have. *)
Definition new_gas (es : list TransactionEffects) : gmap ObjectID ObjectRef :=
  collect_map (map (fun e => (ref_id (gas_object e), gas_object e)) es).

Lemma note_gas_all es (m : gmap ObjectID ObjectRef) :
  foldl (fun m e => note_gas e m) m es =
  ins_all m (map (fun e => (ref_id (gas_object e), gas_object e)) es).
Proof. revert m. induction es as [|e es IH]; intros m; [done|]. cbn. by rewrite IH. Qed.

Lemma new_gas_ok es : new_refs_ok (new_gas es).
Proof. intros id r Hr%collect_map_lookup. by apply elem_of_map in Hr as (e & [= -> ->] & _). Qed.

(** The gas of distinct users' accounts is distinct. *)
Lemma jobs_gas_distinct K ctx (accounts : list Account) (jobs : list Job) :
  context_ok ctx -> NoDup (map sender accounts) ->
  (forall a, a ∈ accounts -> exists k, user_accounts ctx !! k = Some a) ->
  Forall2 (job_of K) accounts jobs -> NoDup (map job_gas jobs).
Proof.
  intros Hok Hnd Hin Hjobs. pose proof (context_ok_users _ Hok) as Husers.
  eapply (NoDup_Forall2 (fun sa id => exists a, a ∈ accounts /\ sa = sender a /\ id ∈ account_ids a));
    [| |exact Hnd].
  - intros x x' id _ _ (a & Ha & -> & Hid) (a' & Ha' & -> & Hid').
    destruct (Hin _ Ha) as [k Hk], (Hin _ Ha') as [k' Hk'].
    assert (sender a = k) as -> by (by apply Husers).
    assert (sender a' = k') as -> by (by apply Husers).
    by apply (accounts_ok_owner (user_accounts ctx) k k' a a' id).
  - apply Forall2_fmap. apply Forall2_same_length_lookup in Hjobs as [Hlen Hjobs].
    apply Forall2_same_length_lookup. split; [done|]. intros i a j Ha Hj.
    destruct (Hjobs i a j Ha Hj) as (_ & Hgas & _). exists a. split; [by eapply list_elem_of_lookup_2|].
    split; [done|]. apply (elem_of_map_1 ref_id). by eapply list_elem_of_lookup_2.
Qed.

(** Refreshing the context with the gas of effects makes its references live. *)
Lemma refresh_refs_live ctx es w w' :
  context_ok ctx -> refs_live w ctx ->
  (forall e, e ∈ es -> live (state w') (ref_id (gas_object e)) = Some (gas_object e) /\
     exists k a, user_accounts ctx !! k = Some a /\ ref_id (gas_object e) ∈ account_ids a) ->
  (forall k a r, all_accounts ctx !! k = Some a -> r ∈ gas_objects a ->
     ref_id r ∉ map (fun e => ref_id (gas_object e)) es ->
     live (state w) (ref_id r) = Some r -> live (state w') (ref_id r) = Some r) ->
  (forall id x, owned_as (state w) id = Some x -> owned_as (state w') id = Some x) ->
  refs_live w' (refresh_gas_objects (new_gas es) ctx).
Proof.
  intros Hok Hlive Hes Hkeep Hown. pose proof (context_ok_users _ Hok) as Husers.
  assert (Hnew : forall k a r, all_accounts ctx !! k = Some a -> r ∈ gas_objects a ->
            live (state w') (ref_id (updated (new_gas es) r)) = Some (updated (new_gas es) r) /\
            owned_as (state w') (ref_id (updated (new_gas es) r)) = Some (Coin, sender a)).
  { intros k a r Ha Hr. rewrite updated_id by apply new_gas_ok. split; [|by eapply Hown, Hlive]. unfold updated.
    destruct (new_gas es !! ref_id r) as [r'|] eqn:E; cbn.
    - apply collect_map_lookup, elem_of_map in E as (e & [= -> ->] & He). by apply Hes.
    - eapply Hkeep; [done|done| |by eapply Hlive]. intros Hin. apply eq_None_not_Some in E. apply E.
      apply collect_map_is_Some. by rewrite map_fst_map. }
  intros k a r. rewrite refresh_gas_objects_eq by done. unfold all_accounts. cbn.
  rewrite lookup_insert. case_decide as Hka.
  - intros [= <-] Hr. split; [|eapply Hown, Hlive; [apply lookup_insert_eq|done]].
    eapply Hkeep; [apply lookup_insert_eq|done| |].
    + intros (e & Hid & He)%elem_of_map. destruct (Hes e He) as (_ & k' & a' & Hk' & Hin).
      assert (sender (admin_account ctx) = k'); [|destruct Hok as [_ Hadm]; congruence].
      eapply (accounts_ok_owner (all_accounts ctx) _ _ (admin_account ctx) a' (ref_id r)).
      * apply Hok.
      * apply lookup_insert_eq.
      * by apply user_account_all.
      * by apply (elem_of_map_1 ref_id).
      * by rewrite Hid.
    + eapply Hlive; [apply lookup_insert_eq|done].
  - rewrite lookup_fmap. destruct (user_accounts ctx !! k) as [a0|] eqn:Ha0; [|done].
    intros [= <-]. cbn. intros (r0 & -> & Hr0)%elem_of_map.
    exact (Hnew k a0 r0 (user_account_all _ _ _ Hok Ha0) Hr0).
Qed.

(** After the jobs, refreshing the context makes its references live again. *)
Lemma refresh_live ctx (jobs : list Job) es w w' :
  context_ok ctx -> refs_live w ctx ->
  (forall j, j ∈ jobs -> exists k, user_accounts ctx !! k = Some j.1.2 /\ j.2 ∈ gas_objects j.1.2) ->
  Forall2 (fun j e => settled j.1.1 j.1.2 j.2 e w') jobs es -> keeps (map job_gas jobs) w w' ->
  refs_live w' (refresh_gas_objects (new_gas es) ctx).
Proof.
  intros Hok Hlive Hjobs Hset Hk. apply (refresh_refs_live ctx es w); [done|done| | |apply (keeps_owned _ _ _ Hk)].
  - intros e [i Hi]%list_elem_of_lookup_1. destruct (Forall2_lookup_r _ _ _ _ _ Hset Hi) as (j & Hj & Hs).
    rewrite (settled_id _ _ _ _ _ Hs). split; [apply (settled_live _ _ _ _ _ Hs)|].
    destruct (Hjobs j) as (k & Ha & Hin); [by eapply list_elem_of_lookup_2|].
    exists k, j.1.2. split; [done|]. by apply (elem_of_map_1 ref_id).
  - intros k a r _ _ Hid. apply (keeps_live _ _ _ Hk). intros (j & Heq & [i Hi]%list_elem_of_lookup_1)%elem_of_map.
    destruct (Forall2_lookup_l _ _ _ _ _ Hset Hi) as (e & He & Hs). apply Hid, elem_of_map. exists e.
    split; [|by eapply list_elem_of_lookup_2]. by rewrite (settled_id _ _ _ _ _ Hs).
Qed.

(** ** Generation of the calls *)

(** The jobs of some accounts, in some order. *)
Definition jobs_for (K : PrepCall -> Prop) (accounts : list Account) (jobs : list Job) : Prop :=
  exists accounts', accounts' ≡ₚ accounts /\ Forall2 (job_of K) accounts' jobs.

Lemma seqM_jobs {X} package K (f : X -> M World Transaction) (account : X -> Account) (xs : list X) w :
  (forall x w, x ∈ xs -> exists j w', f x w = Some (job_tx package j, w') /\ state w' = state w /\
     job_of K (account x) j) ->
  exists jobs w', seqM (map f xs) w = Some (map (job_tx package) jobs, w') /\ state w' = state w /\
    Forall2 (job_of K) (map account xs) jobs.
Proof.
  revert w. induction xs as [|x xs IH]; intros w Hf.
  - exists [], w. split; [done|]. split; [done|constructor].
  - destruct (Hf x w) as (j & w1 & Hj & Hs & HK); [left|].
    destruct (IH w1) as (jobs & w2 & Hjobs & Hs2 & HKs); [intros; apply Hf; by right|].
    exists (j :: jobs), w2. split; [|split; [congruence|by constructor]].
    cbn. unfold bindM. by rewrite Hj, Hjobs.
Qed.

Lemma collect_jobs {X} package K (f : X -> M World Transaction) (account : X -> Account) (xs : list X) w :
  (forall x w, x ∈ xs -> exists j w', f x w = Some (job_tx package j, w') /\ state w' = state w /\
     job_of K (account x) j) ->
  exists jobs w', collect_tasks (map f xs) w = Some (map (job_tx package) jobs, w') /\
    state w' = state w /\ jobs_for K (map account xs) jobs.
Proof.
  intros Hf. pose proof (arrange_perm (schedule (steps w)) xs) as Hp.
  destruct (seqM_jobs package K f account (arrange (schedule (steps w)) xs)
    (mkWorld (state w) (entropy w) (S (steps w)) (reports w))) as (jobs & w' & Hrun & Hs & Hj).
  { intros x w1 Hx. apply Hf. by rewrite Hp in Hx. }
  exists jobs, w'. split; [|split; [done|]].
  - unfold collect_tasks, next, bindM. by rewrite arrange_map.
  - exists (map account (arrange (schedule (steps w)) xs)). split; [|done]. by rewrite Hp.
Qed.

Lemma signed_call_job package c K a w :
  gas_objects a <> [] -> K c ->
  exists j, signed_move_call a package (call_target c).1 (call_target c).2 (call_args c) w =
      Some (job_tx package j, w) /\ job_of K a j.
Proof.
  intros Hg HK. destruct (gas_objects a) as [|gas rest] eqn:Eg; [done|].
  exists (c, a, gas). unfold signed_move_call, at_index, bindM, lift, job_of. cbn. by rewrite Eg.
Qed.

(** The kinds of the four preparations. *)
Definition root_call (n : Z) (c : PrepCall) : Prop :=
  match c with CallRoot bytes => bcs_uint 64 n = Some bytes | _ => False end.
Definition mint_call (c : PrepCall) : Prop :=
  match c with CallMint bytes => exists n, bcs_uint 128 n = Some bytes | _ => False end.

(** Accounts with the numbers after [i]. *)
Fixpoint numbered (i : Z) (accounts : list Account) : list (Z * Account) :=
  match accounts with [] => [] | a :: accounts => (i + 1, a) :: numbered (i + 1) accounts end.

Lemma numbered_from_ok i (accounts : list Account) :
  0 <= i -> i + Z.of_nat (length accounts) < 2 ^ 64 ->
  numbered_from i accounts = Some (numbered i accounts).
Proof.
  revert i. induction accounts as [|a accounts IH]; intros i Hi Hl; [done|].
  cbn [length numbered_from numbered] in *. unfold add. rewrite wrap_in by (unfold in_range; lia). cbn.
  by rewrite IH by lia.
Qed.

Lemma numbered_snd i (accounts : list Account) : map snd (numbered i accounts) = accounts.
Proof. revert i. induction accounts as [|a accounts IH]; intros i; [done|]. cbn. by rewrite IH. Qed.

Lemma generate_roots package n ctx w :
  Z.of_nat (size (user_accounts ctx)) < 2 ^ 64 ->
  (forall k a, user_accounts ctx !! k = Some a -> gas_objects a <> []) ->
  exists jobs w', generate_transactions (RootObjectCreateTxGenerator package n) ctx w =
      Some (map (job_tx package) jobs, w') /\ state w' = state w /\
    jobs_for (root_call n) (btree_values (user_accounts ctx)) jobs.
Proof.
  intros Hsize Hgas. pose proof (numbered_from_ok 0 (btree_values (user_accounts ctx))) as Hl.
  pose proof (numbered_snd 0 (btree_values (user_accounts ctx))) as Hm.
  rewrite btree_values_length in Hl. set (l := numbered _ _) in *.
  destruct (collect_jobs package (root_call n)
    (generate_numbered (RootObjectCreateTxGenerator package n)) snd l w) as (jobs & w' & Hrun & Hs & Hj).
  { intros [i a] w0 Hin. destruct (bcs_uint_some 64 n) as [bytes Hb].
    destruct (signed_call_job package (CallRoot bytes) (root_call n) a w0) as (j & Hj & HK); [|done|].
    { assert (Ha : a ∈ btree_values (user_accounts ctx)).
      { rewrite <-Hm. by apply (elem_of_map_1 snd l (i, a)). }
      apply btree_values_elem in Ha as [k Ha]. by eapply Hgas. }
    exists j, w0. split; [|done]. unfold generate_numbered, bindM. cbn. unfold bindM, lift. rewrite Hb.
    exact Hj. }
  rewrite Hm in Hj. exists jobs, w'. split; [|done].
  unfold generate_transactions, bindM, lift. by rewrite Hl by lia.
Qed.

(** The generators of the other preparations make one call per account. *)
Definition makes (package : ObjectID) (K : PrepCall -> Prop) (g : TxGenerator) : Prop :=
  forall a w, gas_objects a <> [] -> exists j w',
    generate_tx g a (sender a) ∅ [] w = Some (job_tx package j, w') /\ state w' = state w /\
    job_of K a j.

Lemma shared_makes package : makes package (eq CallShared) (SharedObjectCreateTxGenerator package).
Proof.
  intros a w Hg. destruct (signed_call_job package CallShared (eq CallShared) a w Hg eq_refl) as (j & ? & ?).
  by exists j, w.
Qed.

Lemma land_makes package : makes package (eq CallLand) (LandObjectCreateTxGenerator package).
Proof.
  intros a w Hg. destruct (signed_call_job package CallLand (eq CallLand) a w Hg eq_refl) as (j & ? & ?).
  by exists j, w.
Qed.

Lemma kitty_makes package : makes package mint_call (KittyObjectCreateTxGenerator package).
Proof.
  intros a w Hg. destruct (gen 128 (entropy w)) as [n e] eqn:Eg.
  destruct (bcs_uint_some 128 n) as [bytes Hb].
  destruct (signed_call_job package (CallMint bytes) mint_call a
    (mkWorld (state w) e (steps w) (reports w)) Hg) as (j & Hj & HK); [by exists n|].
  exists j, (mkWorld (state w) e (steps w) (reports w)). split; [|done].
  cbn. unfold random, bindM, lift. rewrite Eg, Hb. exact Hj.
Qed.

Lemma generate_for_ok package K g (accounts : list Account) w :
  makes package K g -> (forall a, a ∈ accounts -> gas_objects a <> []) ->
  exists jobs w', generate_for g accounts w = Some (map (job_tx package) jobs, w') /\
    state w' = state w /\ jobs_for K accounts jobs.
Proof.
  intros Hm Hg. destruct (seqM_jobs package K
    (fun account => generate_tx g account (sender account) ∅ []) id accounts w)
    as (jobs & w' & Hrun & Hs & Hj); [intros; by apply Hm, Hg|].
  exists jobs, w'. split; [done|]. split; [done|]. exists accounts. by rewrite map_id in Hj.
Qed.

(** ** Running the calls *)

(** Some of the users, each once. *)
Definition users_of ctx (accounts : list Account) : Prop :=
  NoDup (map sender accounts) /\
  forall a, a ∈ accounts -> exists k, user_accounts ctx !! k = Some a.

Lemma values_users ctx n : context_ok ctx -> users_of ctx (take n (btree_values (user_accounts ctx))).
Proof.
  intros Hok%context_ok_users. split.
  - assert (Hk : map sender (btree_values (user_accounts ctx)) = (btree_entries (user_accounts ctx)).*1).
    { unfold btree_values. rewrite map_map. apply map_ext_in. intros [k a] Hin.
      cbn. apply Hok. by apply btree_entries_lookup, list_elem_of_In. }
    rewrite <-firstn_map, Hk. eapply sublist_NoDup; [apply (btree_entries_keys (user_accounts ctx))|apply sublist_take].
  - intros a (i & Hi & _)%elem_of_take. apply btree_values_elem. by eapply list_elem_of_lookup_2.
Qed.

(** What the execution of jobs leaves, until their outputs are committed. *)
Record executed_jobs package (K : PrepCall -> Prop) ctx (accounts : list Account)
    (es : list TransactionEffects) w0 w : Prop := {
  ej_jobs : exists jobs, jobs_for K accounts jobs /\
    Forall2 (fun j e => settled j.1.1 j.1.2 j.2 e w) jobs es;
  ej_live : refs_live w (refresh_gas_objects (new_gas es) ctx);
  ej_published : published (state w) package;
  ej_keeps : keeps (gas_ids (user_accounts ctx)) w0 w;
  ej_made : made es w0 w;
}.

Lemma refs_live_keeps w w' ctx : keeps [] w w' -> refs_live w ctx -> refs_live w' ctx.
Proof.
  intros Hk Hl k a r Ha Hr. destruct (Hl k a r Ha Hr) as [? ?].
  split; [by apply (keeps_live _ _ _ Hk); [apply not_elem_of_nil|]|by apply (keeps_owned _ _ _ Hk)].
Qed.

Lemma executed_jobs_keeps package K ctx accounts es w0 w w' :
  keeps [] w w' -> executed_jobs package K ctx accounts es w0 w ->
  executed_jobs package K ctx accounts es w0 w'.
Proof.
  intros Hk [(jobs & Hj & Hset) Hl Hp Hkeep Hmade]. constructor.
  - exists jobs. split; [done|]. eapply Forall2_impl; [exact Hset|]. intros j e.
    apply settled_keeps with (ids := []); [done|apply not_elem_of_nil].
  - by eapply refs_live_keeps.
  - by apply (keeps_published _ _ _ Hk).
  - rewrite <-(app_nil_r (gas_ids _)). by eapply keeps_trans.
  - eapply made_keeps; [exact Hk| |done]. intros. apply not_elem_of_nil.
Qed.

(** The identifiers of the gas of jobs are among those of the users. *)
Lemma user_gas_id ctx k a (r : ObjectRef) :
  user_accounts ctx !! k = Some a -> r ∈ gas_objects a -> ref_id r ∈ gas_ids (user_accounts ctx).
Proof.
  intros Ha Hr. apply (accounts_elem (user_accounts ctx) k a); [done|]. by apply (elem_of_map_1 ref_id).
Qed.

Lemma run_jobs package K ctx (accounts : list Account) (jobs : list Job) w :
  context_ok ctx -> refs_live w ctx -> published (state w) package ->
  (forall c, K c -> call_valid max_dynamic_fields c) ->
  users_of ctx accounts -> jobs_for K accounts jobs ->
  exists es w', execute_raw_transactions (map (job_tx package) jobs) w = Some (es, w') /\
    executed_jobs package K ctx accounts es w w'.
Proof.
  intros Hok Hlive Hpub HK [Hnd Hin] (accounts1 & Hp & Hjobs).
  set (jobs' := arrange (schedule (steps w)) jobs).
  assert (Hp' : jobs' ≡ₚ jobs) by apply arrange_perm.
  assert (Hj : forall j, j ∈ jobs -> exists k, user_accounts ctx !! k = Some j.1.2 /\
                 j.2 ∈ gas_objects j.1.2 /\ K j.1.1).
  { intros j [i Hi]%list_elem_of_lookup_1.
    destruct (Forall2_lookup_r _ _ _ _ _ Hjobs Hi) as (a & Ha & <- & Hgas & HKj).
    apply list_elem_of_lookup_2 in Ha. rewrite Hp in Ha. destruct (Hin _ Ha) as [k Hk].
    exists k. split; [done|]. split; [by eapply list_elem_of_lookup_2|done]. }
  set (w0 := mkWorld (state w) (entropy w) (S (steps w)) (reports w)).
  destruct (execute_jobs package jobs' w0) as (es & w' & Hrun & Hset & Hk & Hmade); [done| | |].
  { rewrite Hp'. eapply (jobs_gas_distinct K ctx accounts1); [done|by rewrite Hp| |done].
    intros a Ha. apply Hin. by rewrite <-Hp. }
  { intros j Hjin. rewrite Hp' in Hjin. destruct (Hj j Hjin) as (k & Hk & Hgas & HKj).
    destruct (Hlive k j.1.2 j.2) as [? ?]; [by apply user_account_all|done|].
    split; [done|]. split; [done|by apply HK]. }
  exists es, w'. split; [|constructor].
  - unfold execute_raw_transactions, collect_tasks, next, bindM. rewrite map_map.
    rewrite (arrange_map (fun j => execute_raw_transaction (job_tx package j))). exact Hrun.
  - exists jobs'. split; [|done].
    destruct (Permutation_Forall2 (Permutation_sym Hp') (proj2 (Forall2_flip _ _ _) Hjobs))
      as (accounts2 & Hp2 & HF).
    exists accounts2. split; [by rewrite <-Hp2|]. by apply Forall2_flip in HF.
  - eapply refresh_live; [done| | |exact Hset|exact Hk]; [done|].
    intros j Hjin. rewrite Hp' in Hjin. destruct (Hj j Hjin) as (k & Hk' & Hgas & _). eauto.
  - by apply (keeps_published _ _ _ Hk).
  - eapply (keeps_state _ w w0), keeps_weaken; [done|exact Hk|].
    intros id (j & -> & Hjin)%elem_of_map. rewrite Hp' in Hjin. destruct (Hj j Hjin) as (k & Hk' & Hgas & _).
    by eapply user_gas_id.
  - by apply (made_state _ w w0).
Qed.

End jobs.
