(* ===== verification/SuiPrepareSpec.v ===== *)
(** Preparation of the objects of a workload: with a validator that executes
    transactions whose gas object is live, every preparation succeeds, makes the
    objects the measured transactions use, and leaves in the context only
    references of live objects. *)
From stdpp Require Import base list option numbers strings gmap sorting.
From S2P Require Import Prelude Machine FileSystem BenchMain SuiTypes SuiStore SuiWorld SuiAccounts SuiAccountsSpec SuiGenerators SuiNode SuiContext SuiContextSpec SuiBench SuiJobsSpec.
Open Scope Z_scope.

Section prepare.
Context `{SuiEnv} `{!ValidatorLaws}.
Implicit Types (ctx : BenchmarkContext) (w : World) (s : AuthorityState).

(** ** The objects of the effects *)

(** Steps of the loops over the effects. *)
Definition step_owned (m : gmap SuiAddress ObjectRef) (e : TransactionEffects) : gmap SuiAddress ObjectRef :=
  match first_such address_owned (created e) with Some o => <[o.1 := o.2]> m | None => m end.
Definition step_shared (l : list (ObjectID * Z)) (e : TransactionEffects) : list (ObjectID * Z) :=
  match first_such shared_id (created e) with Some o => l ++ [o] | None => l end.
Definition step_land (mi : gmap Z (ObjectID * Z) * Z) (e : TransactionEffects) : gmap Z (ObjectID * Z) * Z :=
  match first_such shared_id (created e) with Some o => (<[mi.2 := o]> mi.1, mi.2 + 1) | None => mi end.
Definition with_gas {A} (f : A -> TransactionEffects -> A) (acc : A * gmap ObjectID ObjectRef)
    (e : TransactionEffects) : A * gmap ObjectID ObjectRef := (f acc.1 e, note_gas e acc.2).

Lemma with_gas_all {A} (f : A -> TransactionEffects -> A) es a :
  foldl (with_gas f) (a, ∅) es = (foldl f a es, new_gas es).
Proof.
  assert (Hg : forall m, foldl (with_gas f) (a, m) es = (foldl f a es, foldl (fun m e => note_gas e m) m es)).
  { revert a. induction es as [|e es IH]; intros a m; [done|]. cbn. apply IH. }
  rewrite Hg. f_equal. apply note_gas_all.
Qed.

Lemma step_owned_all (accounts : list Account) es m :
  Forall2 (fun a e => exists r, first_such address_owned (created e) = Some (sender a, r)) accounts es ->
  forall k, is_Some (foldl step_owned m es !! k) <-> is_Some (m !! k) \/ k ∈ map sender accounts.
Proof.
  intros HF. revert m. induction HF as [|a e accounts es (r & Hr) HF IH]; intros m k.
  - cbn. rewrite elem_of_nil. tauto.
  - cbn [foldl map]. rewrite IH, elem_of_cons. unfold step_owned. rewrite Hr. cbn.
    rewrite lookup_insert_is_Some. split; [|destruct (decide (sender a = k)); intuition congruence].
    intros [[?|[? ?]]|?]; auto.
Qed.

Lemma step_shared_all es l :
  Forall (fun e => is_Some (first_such shared_id (created e))) es ->
  length (foldl step_shared l es) = (length l + length es)%nat.
Proof.
  intros HF. revert l. induction HF as [|e es [o Ho] HF IH]; intros l; [cbn; lia|].
  cbn [foldl]. rewrite IH. unfold step_shared. rewrite Ho, length_app. cbn. lia.
Qed.

Lemma step_land_all es (m : gmap Z (ObjectID * Z)) i :
  Forall (fun e => is_Some (first_such shared_id (created e))) es ->
  (forall k, is_Some (m !! k) <-> 0 <= k < i) -> 0 <= i ->
  forall k, is_Some ((foldl step_land (m, i) es).1 !! k) <-> 0 <= k < i + Z.of_nat (length es).
Proof.
  intros HF. revert m i. induction HF as [|e es [o Ho] HF IH]; intros m i Hm Hi k.
  - cbn. rewrite Hm. lia.
  - cbn [foldl length]. unfold step_land at 2. rewrite Ho. cbn [fst snd].
    rewrite IH; [lia| |lia]. intros k'. rewrite lookup_insert_is_Some, Hm. lia.
Qed.

Lemma job_effect K accounts es w (jobs : list Job) e :
  jobs_for K accounts jobs -> Forall2 (fun j e => settled j.1.1 j.1.2 j.2 e w) jobs es -> e ∈ es ->
  exists c a, K c /\ creates c a e.
Proof.
  intros (accounts' & Hp & Hj) Hset [i He]%list_elem_of_lookup_1.
  destruct (Forall2_lookup_r _ _ _ _ _ Hset He) as (j & Hjl & [_ _ Hc _ _]).
  destruct (Forall2_lookup_r _ _ _ _ _ Hj Hjl) as (a & _ & _ & _ & HKj). eauto.
Qed.

(** What the kinds of calls create, and how the jobs give it. *)
Lemma jobs_owned K accounts es w (jobs : list Job) :
  (forall c a e, K c -> creates c a e -> exists r, first_such address_owned (created e) = Some (a, r)) ->
  jobs_for K accounts jobs -> Forall2 (fun j e => settled j.1.1 j.1.2 j.2 e w) jobs es ->
  forall k, is_Some (foldl step_owned ∅ es !! k) <-> k ∈ map sender accounts.
Proof.
  intros HK (accounts' & Hp & Hj) Hset k. rewrite (step_owned_all accounts').
  - rewrite Hp, lookup_empty. split; [intros [[? [=]]|?]; done|by right].
  - apply Forall2_same_length_lookup in Hj as [Hlen Hj], Hset as [Hlen' Hset].
    apply Forall2_same_length_lookup. split; [exact (eq_trans Hlen Hlen')|]. intros i a e Ha He.
    destruct (lookup_lt_is_Some_2 jobs i) as [j Hjl].
    { apply lookup_lt_Some in He. unfold Job in *. lia. }
    destruct (Hj _ _ _ Ha Hjl) as (<- & _ & HKj). destruct (Hset _ _ _ Hjl He) as [_ _ Hc _ _]. eauto.
Qed.

Lemma jobs_shared K accounts es w (jobs : list Job) :
  (forall c a e, K c -> creates c a e -> is_Some (first_such shared_id (created e))) ->
  jobs_for K accounts jobs -> Forall2 (fun j e => settled j.1.1 j.1.2 j.2 e w) jobs es ->
  Forall (fun e => is_Some (first_such shared_id (created e))) es /\ length es = length accounts.
Proof.
  intros HK Hj Hset. split.
  - apply Forall_forall. intros e He. destruct (job_effect _ _ _ _ _ _ Hj Hset He) as (c & a & ? & ?). eauto.
  - destruct Hj as (accounts' & Hp & Hj). apply Forall2_length in Hj, Hset. apply Permutation_length in Hp. unfold Job in *. lia.
Qed.

(** ** The objects are new *)

(** The first such object of every effect. *)
Definition picks {A} (f : ObjectRef * Owner -> option A) (es : list TransactionEffects) : list A :=
  omap (fun e => first_such f (created e)) es.

Lemma step_owned_picks es m : foldl step_owned m es = ins_all m (picks address_owned es).
Proof.
  revert m. induction es as [|e es IH]; intros m; [done|]. cbn. rewrite IH. unfold step_owned.
  by destruct (first_such address_owned (created e)).
Qed.

Lemma step_shared_picks es l : foldl step_shared l es = l ++ picks shared_id es.
Proof.
  revert l. induction es as [|e es IH]; intros l; [by rewrite app_nil_r|]. cbn. rewrite IH. unfold step_shared.
  destruct (first_such shared_id (created e)); [by rewrite <-app_assoc|done].
Qed.

Lemma step_land_picks es m i :
  (foldl step_land (m, i) es).1 =
  ins_all m (zip (seqZ i (Z.of_nat (length (picks shared_id es)))) (picks shared_id es)).
Proof.
  revert m i. induction es as [|e es IH]; intros m i; [done|]. cbn. unfold step_land at 2.
  destruct (first_such shared_id (created e)) as [o|]; [|apply IH]. cbn. rewrite IH.
  rewrite (seqZ_cons i) by lia. cbn. by replace (Z.pred (Z.of_nat (S _))) with (Z.of_nat (length (picks shared_id es))) by (unfold picks; lia).
Qed.

Lemma first_such_elem {A} (f : ObjectRef * Owner -> option A) l a :
  first_such f l = Some a -> exists ro, ro ∈ l /\ f ro = Some a.
Proof.
  unfold first_such. induction l as [|ro l IH]; [done|]. cbn. destruct (f ro) as [b|] eqn:E.
  - intros [= ->]. exists ro. split; [left|done].
  - intros Ha. destruct (IH Ha) as (ro' & Hin & Hf). exists ro'. split; [by right|done].
Qed.

Section picks.
Context {A} (f : ObjectRef * Owner -> option A) (id_of : A -> ObjectID).
Hypothesis f_id : forall ro a, f ro = Some a -> id_of a = ref_id ro.1.

Lemma picks_elem es a : a ∈ picks f es -> exists r o, r ∈ created_refs es /\ f (r, o) = Some a.
Proof.
  unfold picks. rewrite list_elem_of_omap. intros (e & He & ([r o] & Hro & Hf)%first_such_elem).
  exists r, o. split; [|done]. apply list_elem_of_bind. exists e. split; [|done].
  apply list_elem_of_fmap. by exists (r, o).
Qed.

Lemma picks_distinct es : NoDup (map ref_id (created_refs es)) -> NoDup (map id_of (picks f es)).
Proof.
  induction es as [|e es IH]; [constructor|].
  change (created_refs (e :: es)) with ((created e).*1 ++ created_refs es).
  rewrite map_app. intros (He & Hd & Hes)%NoDup_app. unfold picks in *. cbn.
  destruct (first_such f (created e)) as [a|] eqn:Ea; [|by apply IH]. cbn. constructor; [|by apply IH].
  intros (a' & Hid & (r' & o' & Hr' & Hf')%picks_elem)%elem_of_map.
  apply first_such_elem in Ea as ([r o] & Hro & Hf). apply f_id in Hf, Hf'. cbn in *.
  apply (Hd (ref_id r)).
  - apply (elem_of_map_1 ref_id). apply list_elem_of_fmap. by exists (r, o).
  - rewrite <-Hf, Hid, Hf'. by apply (elem_of_map_1 ref_id).
Qed.

(** New objects with distinct identifiers. *)
Definition new_objects (ids : list ObjectID) w w' : Prop :=
  NoDup ids /\ forall id, id ∈ ids -> live (state w) id = None /\ is_Some (live (state w') id).

Lemma picks_new es w w' : made es w w' -> new_objects (map id_of (picks f es)) w w'.
Proof.
  intros [Hd Hn Hl]. split; [by apply picks_distinct|].
  intros id (a & -> & (r & o & Hr & Hf)%picks_elem)%elem_of_map. rewrite (f_id _ _ Hf). cbn.
  split; [by apply Hn|]. exists r. by apply Hl.
Qed.

End picks.

Lemma address_owned_id ro a : address_owned ro = Some a -> ref_id a.2 = ref_id ro.1.
Proof. unfold address_owned. destruct (get_address_owner_address ro.2); [|done]. by intros [= <-]. Qed.
Lemma shared_id_id ro a : shared_id ro = Some a -> a.1 = ref_id ro.1.
Proof. unfold shared_id. destruct (is_shared ro.2); [|done]. by intros [= <-]. Qed.

(** The kind of the objects of some calls. *)
Lemma jobs_kind K kd accounts es w (jobs : list Job) :
  (forall c, K c -> call_kind c = Some kd) ->
  (forall c a e, K c -> creates c a e -> exists r, first_such address_owned (created e) = Some (a, r)) ->
  jobs_for K accounts jobs -> Forall2 (fun j e => settled j.1.1 j.1.2 j.2 e w) jobs es ->
  forall k r, foldl step_owned ∅ es !! k = Some r -> owned_as (state w) (ref_id r) = Some (kd, k).
Proof.
  intros HK Hc (accounts' & _ & Hj) Hset k r. rewrite step_owned_picks.
  intros Hkr%collect_map_lookup. apply list_elem_of_omap in Hkr as (e & [i Hi]%list_elem_of_lookup_1 & Hf).
  destruct (Forall2_lookup_r _ _ _ _ _ Hset Hi) as (j & Hjl & [_ _ Hcr Hown _]).
  destruct (Forall2_lookup_r _ _ _ _ _ Hj Hjl) as (a & _ & _ & _ & HKj).
  destruct (Hc _ _ _ HKj Hcr) as [r' Hr']. rewrite Hr' in Hf. injection Hf as <- <-. by apply Hown; [apply HK|].
Qed.

(** The identifiers of the objects of a map. *)
Definition ref_ids (m : gmap SuiAddress ObjectRef) : list ObjectID := map (fun kr => ref_id kr.2) (map_to_list m).
Definition land_ids (m : gmap Z (ObjectID * Z)) : list ObjectID := map (fun kv => kv.2.1) (map_to_list m).

Lemma new_objects_subset ids ids' w w' :
  new_objects ids w w' -> NoDup ids' -> (forall id, id ∈ ids' -> id ∈ ids) -> new_objects ids' w w'.
Proof. intros [_ Hn] Hd Hs. split; auto. Qed.

Lemma no_objects w w' : new_objects [] w w'.
Proof. split; [constructor|by intros id ?%elem_of_nil]. Qed.

(** References of live objects of a kind, each owned by its key. *)
Definition kept (kd : ObjectKind) (m : gmap SuiAddress ObjectRef) w : Prop :=
  forall k r, m !! k = Some r -> live (state w) (ref_id r) = Some r /\ owned_as (state w) (ref_id r) = Some (kd, k).

Lemma owned_new package K kd ctx accounts es w w' :
  (forall c, K c -> call_kind c = Some kd) ->
  (forall c a e, K c -> creates c a e -> exists r, first_such address_owned (created e) = Some (a, r)) ->
  executed_jobs package K ctx accounts es w w' ->
  new_objects (ref_ids (foldl step_owned ∅ es)) w w' /\ kept kd (foldl step_owned ∅ es) w'.
Proof.
  intros HK Hc [(jobs & Hj & Hset) _ _ _ Hm].
  pose proof (jobs_kind _ _ _ _ _ _ HK Hc Hj Hset) as Hkind.
  pose proof (picks_new address_owned (fun a => ref_id a.2) address_owned_id _ _ _ Hm) as Hn.
  unfold kept. rewrite step_owned_picks in *. split.
  - eapply new_objects_subset; [exact Hn| |].
    + unfold ref_ids. apply collect_map_values. apply Hn.
    + intros id ([k r] & -> & Hkr)%elem_of_map. apply elem_of_map_to_list, collect_map_lookup in Hkr.
      by apply (elem_of_map_1 (fun a : SuiAddress * ObjectRef => ref_id a.2) _ (k, r)).
  - intros k r Hkr. split; [|by apply Hkind].
    apply collect_map_lookup, picks_elem in Hkr as (r' & o & Hr & Hf). unfold address_owned in Hf. cbn in Hf.
    destruct (get_address_owner_address o); [|done]. injection Hf as -> ->. by apply (made_live _ _ _ Hm).
Qed.

Lemma shared_new es w w' : made es w w' -> new_objects (map fst (foldl step_shared [] es)) w w'.
Proof. intros Hm. rewrite step_shared_picks. by apply (picks_new shared_id fst shared_id_id). Qed.

Lemma land_new es w w' : made es w w' -> new_objects (land_ids (foldl step_land (∅, 0) es).1) w w'.
Proof.
  intros Hm. rewrite step_land_picks. set (ps := picks shared_id es).
  pose proof (picks_new shared_id fst shared_id_id _ _ _ Hm) as Hn. fold ps in Hn.
  assert (Hsnd : map (fun kv : Z * (ObjectID * Z) => kv.2.1) (zip (seqZ 0 (Z.of_nat (length ps))) ps) = map fst ps).
  { rewrite <-(map_map snd fst). f_equal. apply snd_zip. rewrite length_seqZ. lia. }
  eapply new_objects_subset; [exact Hn| |].
  - unfold land_ids. apply (collect_map_values (fst : ObjectID * Z -> ObjectID)). rewrite Hsnd. apply Hn.
  - intros id ([k v] & -> & Hkv)%elem_of_map. apply elem_of_map_to_list, collect_map_lookup in Hkv.
    rewrite <-Hsnd. by apply (elem_of_map_1 (fun kv : Z * (ObjectID * Z) => kv.2.1) _ (k, v)).
Qed.

(** ** The loop of a preparation *)

Lemma kept_nothing kd w : kept kd ∅ w.
Proof. intros k r. by rewrite lookup_empty. Qed.

(** The context that a preparation leaves. *)
Record prep_leaves package ctx ctx' w0 w : Prop := {
  pl_shape : same_shape ctx ctx';
  pl_live : refs_live w ctx';
  pl_published : published (state w) package;
  pl_keeps : keeps (gas_ids (user_accounts ctx)) w0 w;
}.

Lemma prep_loop {A} package K ctx accounts es w0 w (body : A * gmap ObjectID ObjectRef -> TransactionEffects ->
    M World (A * gmap ObjectID ObjectRef)) (f : A -> TransactionEffects -> A)
    (I : A -> list TransactionEffects -> Prop) a :
  context_ok ctx -> executed_jobs package K ctx accounts es w0 w ->
  (forall acc e rest w, e ∈ es -> I acc.1 (e :: rest) -> executed (state w) (effects_digest e) ->
     I (f acc.1 e) rest /\ exists w', body acc e w = Some (with_gas f acc e, w') /\ keeps [] w w') ->
  I a es ->
  exists w', foldM body (a, ∅) es w = Some ((foldl f a es, new_gas es), w') /\
    prep_leaves package ctx (refresh_gas_objects (new_gas es) ctx) w0 w' /\
    executed_jobs package K ctx accounts es w0 w'.
Proof.
  intros Hok Hej Hb HI. pose proof Hej as [(jobs & _ & Hset) _ _ _ _].
  destruct (foldM_commits body (with_gas f) (fun acc => I acc.1) es (a, ∅) w) as (w' & Hw' & Hk).
  - intros acc e rest w1. apply Hb.
  - done.
  - intros e [i He]%list_elem_of_lookup_1.
    destruct (Forall2_lookup_r _ _ _ _ _ Hset He) as (j & _ & [_ _ _ _ Hx]). done.
  - exists w'. rewrite with_gas_all in Hw'. split; [done|].
    apply (executed_jobs_keeps _ _ _ _ _ _ _ _ Hk) in Hej.
    split; [|done]. destruct Hej as [_ Hl Hp Hkeep _]. constructor; [|done|done|done].
    apply refresh_shape; [by apply context_ok_users|apply new_gas_ok].
Qed.

(** ** The preparations *)

(** A context in a world where its preparations succeed. *)
Record ready package ctx w : Prop := {
  rd_ok : context_ok ctx;
  rd_live : refs_live w ctx;
  rd_published : published (state w) package;
  rd_gas : forall k a, user_accounts ctx !! k = Some a -> gas_objects a <> [];
  rd_unlocked : forall r, ~ locked (state w) r;
}.

Lemma shape_lookup ctx ctx' k a' :
  same_shape ctx ctx' -> user_accounts ctx' !! k = Some a' ->
  exists a, user_accounts ctx !! k = Some a /\ shape a' = shape a.
Proof.
  intros [Hu _] Ha'. pose proof (f_equal (lookup k) Hu) as Hl. rewrite !lookup_fmap, Ha' in Hl.
  destruct (user_accounts ctx !! k) as [a|]; [|done]. injection Hl as Hl. exists a.
  split; [done|]. unfold shape. congruence.
Qed.

Lemma shape_dom ctx ctx' k :
  same_shape ctx ctx' -> is_Some (user_accounts ctx' !! k) <-> is_Some (user_accounts ctx !! k).
Proof.
  intros [Hu _]. pose proof (f_equal (lookup k) Hu) as Hl. rewrite !lookup_fmap in Hl.
  destruct (user_accounts ctx !! k), (user_accounts ctx' !! k); try done; split; eauto.
Qed.

Lemma shape_size ctx ctx' : same_shape ctx ctx' -> size (user_accounts ctx') = size (user_accounts ctx).
Proof. intros [Hu _]. apply (f_equal size) in Hu. by rewrite !map_size_fmap in Hu. Qed.

Lemma prep_leaves_ready package ctx ctx' w w' :
  ready package ctx w -> prep_leaves package ctx ctx' w w' -> ready package ctx' w'.
Proof.
  intros [Hok _ _ Hg Hun] [Hs Hl Hp Hk].
  constructor; [by eapply context_ok_shape|done|done| |by intros id ?%(keeps_locked _ _ _ Hk)%Hun].
  intros k a' Ha'. destruct (shape_lookup _ _ _ _ Hs Ha') as (a & Ha & [= _ _ Hids]).
  specialize (Hg _ _ Ha). unfold account_ids in Hids. intros Hnil. rewrite Hnil in Hids.
  by destruct (gas_objects a).
Qed.

Lemma ready_state package ctx w w' : state w' = state w -> ready package ctx w -> ready package ctx w'.
Proof.
  intros Hs [Hok Hl Hp Hg Hun]. constructor; [done| |by rewrite Hs|done|by rewrite Hs].
  intros k a r. rewrite Hs. apply Hl.
Qed.

Lemma prep_leaves_refl package ctx w : ready package ctx w -> prep_leaves package ctx ctx w w.
Proof. intros [_ Hl Hp _ _]. constructor; [done|done|done|apply keeps_refl]. Qed.

Lemma users_gas package ctx w n a :
  ready package ctx w -> a ∈ take n (btree_values (user_accounts ctx)) -> gas_objects a <> [].
Proof.
  intros [Hok _ _ Hg _] Ha. destruct (values_users ctx n Hok) as [_ Hin]. destruct (Hin _ Ha). eauto.
Qed.

Lemma values_senders ctx k :
  context_ok ctx -> k ∈ map sender (btree_values (user_accounts ctx)) <-> is_Some (user_accounts ctx !! k).
Proof.
  intros Hok%context_ok_users. rewrite elem_of_map. split.
  - intros (a & -> & Ha). apply btree_values_elem in Ha as [k' Ha].
    assert (sender a = k') as -> by by apply Hok. by exists a.
  - intros [a Ha]. exists a. split; [symmetry; by apply Hok|]. apply btree_values_elem. eauto.
Qed.

(** Generation, execution and commitment of calls for the first accounts. *)
Lemma prep_calls package K ctx w (accounts : list Account)
    (generate : M World (list Transaction)) :
  ready package ctx w -> (forall c, K c -> call_valid max_dynamic_fields c) -> users_of ctx accounts ->
  (exists jobs w', generate w = Some (map (job_tx package) jobs, w') /\ state w' = state w /\
     jobs_for K accounts jobs) ->
  exists es w', bindM generate execute_raw_transactions w = Some (es, w') /\
    executed_jobs package K ctx accounts es w w'.
Proof.
  intros Hr HK Hu (jobs & w1 & Hgen & Hs & Hj). apply (ready_state _ _ _ _ Hs) in Hr as [Hok Hl Hp _ _].
  destruct (run_jobs package K ctx accounts jobs w1) as (es & w2 & He & [Hx Hlv Hpb Hk Hm]); [done..|].
  exists es, w2. split; [unfold bindM; by rewrite Hgen|].
  constructor; [done|done|done|by eapply keeps_state|by eapply made_state].
Qed.

Lemma root_owned n c a e :
  root_call n c -> creates c a e -> exists r, first_such address_owned (created e) = Some (a, r).
Proof. by destruct c. Qed.

Lemma mint_owned c a e :
  mint_call c -> creates c a e -> exists r, first_such address_owned (created e) = Some (a, r).
Proof. by destruct c. Qed.

Lemma owned_step epoch_id e w (acc : gmap SuiAddress ObjectRef * gmap ObjectID ObjectRef) :
  is_Some (first_such address_owned (created e)) -> executed (state w) (effects_digest e) ->
  exists w', keeps [] w w' /\
    prepared_kitty epoch_id acc e w = Some (with_gas step_owned acc e, w') /\
    (executed_epoch e = epoch_id -> prepared_dynamic_field acc e w = Some (with_gas step_owned acc e, w')).
Proof.
  intros [o Ho] He. destruct (commit_outputs_ok epoch_id e w He) as (w' & Hc & Hk).
  exists w'. split; [done|]. unfold prepared_kitty, prepared_dynamic_field, with_gas, step_owned, bindM, lift.
  rewrite Ho. split; [by rewrite Hc|]. intros ->. by rewrite Hc.
Qed.

Lemma dynamic_fields_ok package n ctx w :
  ready package ctx w -> 0 <= n <= max_dynamic_fields ->
  Z.of_nat (size (user_accounts ctx)) < 2 ^ 64 ->
  exists roots ctx' w', preparing_dynamic_fields package n ctx w = Some ((roots, ctx'), w') /\
    prep_leaves package ctx ctx' w w' /\
    (forall k, is_Some (roots !! k) <-> n <> 0 /\ is_Some (user_accounts ctx !! k)) /\
    new_objects (ref_ids roots) w w' /\
    kept Root roots w'.
Proof.
  intros Hr Hn Hsize. unfold preparing_dynamic_fields. destruct (n =? 0) eqn:E.
  { apply Z.eqb_eq in E. eexists _, _, w. split; [done|]. split; [by apply prep_leaves_refl|].
    split; [|by split; [apply no_objects|apply kept_nothing]]. intros k. rewrite lookup_empty. split; [by intros [? ?]|lia]. }
  apply Z.eqb_neq in E. set (accounts := btree_values (user_accounts ctx)).
  assert (Hu : users_of ctx accounts).
  { rewrite <-(take_ge accounts (length accounts)) by lia. apply values_users, Hr. }
  destruct (prep_calls package (root_call n) ctx w accounts
    (generate_transactions (RootObjectCreateTxGenerator package n) ctx) Hr)
    as (es & w1 & Hrun & Hej); [|done|apply generate_roots; [done|apply Hr]|].
  { intros [] HK; try done. by exists n. }
  pose proof Hej as [(jobs & Hj & Hset) _ _ _ _].
  pose proof (jobs_owned _ _ _ _ _ (root_owned n) Hj Hset) as Hdom.
  destruct (prep_loop package (root_call n) ctx accounts es w w1 prepared_dynamic_field step_owned
    (fun _ _ => True) ∅) as (w2 & Hw2 & Hleaves & Hej2); [apply Hr|exact Hej| |done|].
  { intros acc e rest w' He _ Hx. split; [done|]. destruct (owned_step (executed_epoch e) e w' acc)
      as (w'' & Hk & _ & Hd); [|done|exists w''; by split; [apply Hd|]].
    destruct (job_effect _ _ _ _ _ _ Hj Hset He) as ([] & a & HK & Hc); try done.
    destruct Hc as [r ->]. eauto. }
  eexists _, _, w2. split; [|split; [exact Hleaves|split; [|by eapply (owned_new package (root_call n)); [by intros []|apply root_owned|exact Hej2]]]].
  - rewrite <-bindM_assoc. unfold bindM at 1. rewrite Hrun. unfold bindM. by rewrite Hw2.
  - intros k. cbn. rewrite Hdom. unfold accounts. rewrite values_senders by apply Hr. tauto.
Qed.

Lemma kitty_objects_ok package test_kitty ctx w :
  ready package ctx w ->
  exists kitties ctx' w', prepare_kitty_objects package test_kitty ctx w = Some ((kitties, ctx'), w') /\
    prep_leaves package ctx ctx' w w' /\
    (forall k, is_Some (kitties !! k) <-> test_kitty = true /\ is_Some (user_accounts ctx !! k)) /\
    new_objects (ref_ids kitties) w w' /\
    kept Kitty kitties w'.
Proof.
  intros Hr. unfold prepare_kitty_objects. destruct test_kitty; cbn [negb].
  2:{ eexists _, _, w. split; [done|]. split; [by apply prep_leaves_refl|].
      split; [|by split; [apply no_objects|apply kept_nothing]]. intros k. rewrite lookup_empty. split; [by intros [? ?]|by intros [? ?]]. }
  set (accounts := btree_values (user_accounts ctx)).
  assert (Htake : take (length accounts) accounts = accounts) by (by apply take_ge).
  assert (Hu : users_of ctx accounts) by (rewrite <-Htake; apply values_users, Hr).
  destruct (prep_calls package mint_call ctx w accounts
    (generate_for (KittyObjectCreateTxGenerator package) accounts) Hr)
    as (es & w1 & Hrun & Hej); [by intros []|done| |].
  { apply generate_for_ok; [apply kitty_makes|]. intros a Ha.
    apply (users_gas package ctx w (length accounts)); [done|]. fold accounts. by rewrite Htake. }
  pose proof Hej as [(jobs & Hj & Hset) _ _ _ _].
  pose proof (jobs_owned _ _ _ _ _ mint_owned Hj Hset) as Hdom.
  destruct (prep_loop package mint_call ctx accounts es w w1 (prepared_kitty (epoch (state w1))) step_owned
    (fun _ _ => True) ∅) as (w2 & Hw2 & Hleaves & Hej2); [apply Hr|exact Hej| |done|].
  { intros acc e rest w' He _ Hx. split; [done|]. destruct (owned_step (epoch (state w1)) e w' acc)
      as (w'' & Hk & Hd & _); [|done|exists w''; by split].
    destruct (job_effect _ _ _ _ _ _ Hj Hset He) as ([] & a & HK & Hc); try done.
    destruct Hc as [r ->]. eauto. }
  eexists _, _, w2. split; [|split; [exact Hleaves|split; [|by eapply (owned_new package mint_call); [by intros []|apply mint_owned|exact Hej2]]]].
  - rewrite <-bindM_assoc. unfold bindM at 1. rewrite Hrun. unfold bindM, gets. by rewrite Hw2.
  - intros k. cbn. rewrite Hdom. unfold accounts. rewrite values_senders by apply Hr. tauto.
Qed.

Lemma is_shared_call c0 (Hc0 : match c0 with CallShared | CallLand => True | _ => False end) c a e :
  c0 = c -> creates c a e -> is_Some (first_such shared_id (created e)).
Proof. intros <-. by destruct c0. Qed.

Lemma shared_objects_ok package n ctx w :
  ready package ctx w -> 0 <= n <= Z.of_nat (size (user_accounts ctx)) ->
  exists shared ctx' w', prepare_shared_objects package n ctx w = Some ((shared, ctx'), w') /\
    prep_leaves package ctx ctx' w w' /\ Z.of_nat (length shared) = n /\
    new_objects (map fst shared) w w'.
Proof.
  intros Hr Hn. unfold prepare_shared_objects. destruct (n =? 0) eqn:E.
  { apply Z.eqb_eq in E as ->. eexists _, _, w. split; [done|]. by split; [apply prep_leaves_refl|split; [|apply no_objects]]. }
  set (accounts := take (Z.to_nat n) (btree_values (user_accounts ctx))).
  assert (Hlen : length accounts = Z.to_nat n).
  { unfold accounts. rewrite length_take, btree_values_length. lia. }
  destruct (prep_calls package (eq CallShared) ctx w accounts
    (generate_for (SharedObjectCreateTxGenerator package) accounts) Hr)
    as (es & w1 & Hrun & Hej); [by intros ? <-|apply values_users, Hr| |].
  { apply generate_for_ok; [apply shared_makes|]. intros a. by apply (users_gas package ctx w). }
  pose proof Hej as [(jobs & Hj & Hset) _ _ _ _].
  destruct (jobs_shared _ _ _ _ _ (is_shared_call CallShared I) Hj Hset) as [Hsh Hes].
  destruct (prep_loop package (eq CallShared) ctx accounts es w w1 (prepared_shared (epoch (state w1)))
    step_shared (fun _ _ => True) []) as (w2 & Hw2 & Hleaves & Hej2); [apply Hr|exact Hej| |done|].
  { intros acc e rest w' He _ Hx. split; [done|]. rewrite Forall_forall in Hsh.
    destruct (Hsh _ He) as [o Ho]. destruct (commit_outputs_ok (epoch (state w1)) e w' Hx) as (w'' & Hc & Hk).
    exists w''. split; [|done]. unfold prepared_shared, with_gas, step_shared, bindM, lift.
    by rewrite Ho, Hc. }
  eexists _, _, w2. split; [|split; [exact Hleaves|split; [|by apply shared_new, Hej2]]].
  - unfold guard_. rewrite (proj2 (Z.leb_le _ _)) by lia.
    unfold bindM at 1, ret at 1. cbn beta.
    rewrite <-bindM_assoc. unfold bindM at 1. fold accounts. rewrite Hrun. unfold bindM, gets. by rewrite Hw2.
  - cbn. rewrite step_shared_all by done. cbn. lia.
Qed.

(** Lands are numbered from zero, as long as the counter fits in 16 bits. *)
Lemma land_objects_ok package n ctx w :
  let lands_num := Z.min n (Z.of_nat (size (user_accounts ctx))) in
  ready package ctx w -> 0 <= n -> lands_num < 2 ^ 16 ->
  exists lands ctx' w', prepare_land_objects package n ctx w = Some ((lands, ctx'), w') /\
    prep_leaves package ctx ctx' w w' /\ (forall i, is_Some (lands !! i) <-> 0 <= i < lands_num) /\
    new_objects (land_ids lands) w w'.
Proof.
  intros lands_num Hr Hn Hbound. unfold prepare_land_objects. destruct (n =? 0) eqn:E.
  { apply Z.eqb_eq in E as ->. eexists _, _, w. split; [done|]. split; [by apply prep_leaves_refl|].
    split; [|apply no_objects]. intros i. unfold lands_num. rewrite lookup_empty. split; [by intros [? ?]|lia]. }
  set (accounts := take (Z.to_nat n) (btree_values (user_accounts ctx))).
  assert (Hlen : Z.of_nat (length accounts) = lands_num).
  { unfold accounts, lands_num. rewrite length_take, btree_values_length. lia. }
  destruct (prep_calls package (eq CallLand) ctx w accounts
    (generate_for (LandObjectCreateTxGenerator package) accounts) Hr)
    as (es & w1 & Hrun & Hej); [by intros ? <-|apply values_users, Hr| |].
  { apply generate_for_ok; [apply land_makes|]. intros a. by apply (users_gas package ctx w). }
  pose proof Hej as [(jobs & Hj & Hset) _ _ _ _].
  destruct (jobs_shared _ _ _ _ _ (is_shared_call CallLand I) Hj Hset) as [Hsh Hes].
  destruct (prep_loop package (eq CallLand) ctx accounts es w w1 (prepared_land (epoch (state w1)))
    step_land (fun mi rest => 0 <= mi.2 /\ mi.2 + Z.of_nat (length rest) < 2 ^ 16) (∅, 0))
    as (w2 & Hw2 & Hleaves & Hej2); [apply Hr|exact Hej| |cbn; lia|].
  { intros acc e rest w' He [Hi0 Hi] Hx. rewrite Forall_forall in Hsh. cbn [length] in Hi.
    destruct (Hsh _ He) as [o Ho]. destruct (commit_outputs_ok (epoch (state w1)) e w' Hx) as (w'' & Hc & Hk).
    split; [unfold step_land; rewrite Ho; cbn; lia|].
    exists w''. split; [|done]. unfold prepared_land, with_gas, step_land, bindM, lift.
    rewrite Ho. unfold add. rewrite wrap_in by (unfold in_range; lia). by rewrite Hc. }
  eexists _, _, w2. split; [|split; [exact Hleaves|split; [|by apply land_new, Hej2]]].
  - rewrite <-bindM_assoc. unfold bindM at 1. fold accounts. rewrite Hrun. unfold bindM, gets. by rewrite Hw2.
  - intros i. cbn [fst]. rewrite step_land_all; [rewrite Hes; lia|done| |lia].
    intros k. rewrite lookup_empty. split; [by intros [? ?]|lia].
Qed.

(** ** Publishing and the whole preparation *)

Abbreviation benchmark_package := (Source (join CARGO_MANIFEST_DIR "move_package") false).

Lemma publish_ok ctx w :
  context_ok ctx -> refs_live w ctx -> gas_objects (admin_account ctx) <> [] ->
  exists package ctx' w', publish_package benchmark_package ctx w = Some ((package, ctx'), w') /\
    same_shape ctx ctx' /\ refs_live w' ctx' /\ published (state w') (ref_id package) /\
    (forall r, locked (state w') r -> locked (state w) r) /\
    (forall id x, owned_as (state w) id = Some x -> owned_as (state w') id = Some x) /\
    user_accounts ctx' = user_accounts ctx /\ account_indexes ctx' = account_indexes ctx.
Proof.
  intros Hok Hlive Hgas. set (admin := admin_account ctx) in *.
  destruct (gas_objects admin) as [|gas rest] eqn:Eg; [done|].
  assert (Hadm : all_accounts ctx !! sender admin = Some admin) by apply lookup_insert_eq.
  destruct (Hlive _ _ gas Hadm) as [Hg Hco]; [rewrite Eg; left|].
  destruct (execute_publish (state w) admin gas Hg Hco)
    as (e & s' & package & He & Hst & Hid & Hl & Hpkg & Hpub & Hk & Hlk & Hown).
  exists package, (set_admin_account (set_gas_objects (gas_object e :: rest) admin) ctx),
    (mkWorld s' (entropy w) (steps w) (reports w)).
  pose proof (accounts_ok_account _ _ _ (co_accounts _ Hok) Hadm) as Hnd.
  unfold account_ids in Hnd. rewrite Eg in Hnd. cbn in Hnd. apply NoDup_cons in Hnd as [Hnin _].
  split; [|split; [|split; [|done]]].
  - unfold publish_package. fold admin. rewrite Eg. unfold bindM at 1, lift at 1. cbn [lookup list_lookup].
    unfold publish_package_with, execute_raw_transaction, on_state, assert_ok, bindM.
    rewrite He. cbn. rewrite Hst. cbn. rewrite Hpkg. done.
  - split; [done|]. unfold shape, account_ids. cbn. fold admin. rewrite Eg. cbn. by rewrite Hid.
  - intros k a r. unfold all_accounts. cbn. fold admin. rewrite lookup_insert. case_decide as Hka.
    + intros [= <-]. cbn. intros [->|Hr]%elem_of_cons; [rewrite Hid; split; [done|by apply Hown]|].
      split; [|apply Hown; eapply Hlive; [exact Hadm|]; rewrite Eg; by right].
      apply Hk; [intros Heq; apply Hnin; rewrite <-Heq; by apply elem_of_map_1|].
      eapply Hlive; [exact Hadm|]. rewrite Eg. by right.
    + intros Ha Hr. destruct (Hlive k a r) as [Hl1 Ho1]; [by apply user_account_all|done|].
      split; [|by apply Hown]. apply Hk; [|done].
      intros Heq. apply Hka.
      eapply (accounts_ok_owner (all_accounts ctx) _ _ admin a (ref_id gas));
        [apply Hok|exact Hadm|by apply user_account_all|..].
      * unfold account_ids. rewrite Eg. left.
      * rewrite <-Heq. by apply (elem_of_map_1 ref_id).
Qed.

(** What the measured generator of a workload holds. *)
Record prepared (o : PTBOptions) ctx (g : MoveTxGenerator) : Prop := {
  pr_transfers : mg_num_transfers g = num_transfers o /\ mg_use_native_transfer g = use_native_transfer o /\
    mg_computation g = computation o /\ mg_erc20_transfer g = erc20_transfer o;
  pr_roots : forall k, is_Some (root_objects g !! k) <->
    num_dynamic_fields o <> 0 /\ is_Some (user_accounts ctx !! k);
  pr_shared : Z.of_nat (length (shared_objects g)) = num_shared_objects o;
  pr_kitties : forall k, is_Some (kitty_objects g !! k) <->
    test_kitty o = true /\ is_Some (user_accounts ctx !! k);
  pr_lands : forall i, is_Some (land_objects g !! i) <->
    0 <= i < Z.min (num_land_objects o) (Z.of_nat (size (user_accounts ctx)));
}.

(** The options that a number of users allows. *)
Record options_fit (o : PTBOptions) (users : Z) : Prop := {
  of_users : users < 2 ^ 64;
  of_fields : 0 <= num_dynamic_fields o <= max_dynamic_fields;
  of_shared : 0 <= num_shared_objects o <= users;
  of_lands : 0 <= num_land_objects o /\ Z.min (num_land_objects o) users < 2 ^ 16;
}.

(** Identifiers of live objects, all distinct. *)
Definition live_ids (ids : list ObjectID) w : Prop :=
  NoDup ids /\ forall id, id ∈ ids -> is_Some (live (state w) id).

Lemma live_ids_app ids ids' keep w w' :
  live_ids ids w -> new_objects ids' w w' -> keeps keep w w' -> live_ids (ids ++ ids') w'.
Proof.
  intros [Hd Hl] [Hd' Hn] Hk. split.
  - apply NoDup_app. split; [done|]. split; [|done]. intros id Hid Hid'.
    destruct (Hn _ Hid') as [Hnone _]. apply Hl in Hid. rewrite Hnone in Hid. by destruct Hid.
  - intros id [Hid|Hid]%elem_of_app; [by apply (keeps_dom _ _ _ Hk), Hl|by apply Hn].
Qed.

Lemma users_live_ids ctx w : context_ok ctx -> refs_live w ctx -> live_ids (gas_ids (user_accounts ctx)) w.
Proof.
  intros Hok Hl. split; [by apply context_ok_users|].
  intros id ([k a] & Hid & Hka)%list_elem_of_bind. apply elem_of_map_to_list in Hka. cbn in Hid.
  apply elem_of_map in Hid as (r & -> & Hr). exists r. eapply Hl; [by apply user_account_all|done].
Qed.

(** The preparations so far: the identifiers of the objects that they made are
    live, and distinct from each other and from the gas, and the references of
    those that an address owns, with their kind and owner, are live. *)
Record staged package ctx0 (ids : list ObjectID) (refs : list (ObjectKind * SuiAddress * ObjectRef)) ctx w : Prop := {
  sg_ready : ready package ctx w;
  sg_shape : same_shape ctx0 ctx;
  sg_ids : live_ids (gas_ids (user_accounts ctx) ++ ids) w;
  sg_refs : forall x, x ∈ refs -> live (state w) (ref_id x.2) = Some x.2 /\
    owned_as (state w) (ref_id x.2) = Some x.1 /\ ref_id x.2 ∈ ids;
}.

Lemma staged_start package ctx w : ready package ctx w -> staged package ctx [] [] ctx w.
Proof.
  intros Hr. constructor; [done|done| |by intros r ?%elem_of_nil]. rewrite app_nil_r.
  apply users_live_ids; apply Hr.
Qed.

Lemma staged_step package ctx0 ids refs ctx w ids' refs' ctx' w' :
  staged package ctx0 ids refs ctx w -> prep_leaves package ctx ctx' w w' -> new_objects ids' w w' ->
  (forall x, x ∈ refs' -> live (state w') (ref_id x.2) = Some x.2 /\
     owned_as (state w') (ref_id x.2) = Some x.1 /\ ref_id x.2 ∈ ids') ->
  staged package ctx0 (ids ++ ids') (refs ++ refs') ctx' w'.
Proof.
  intros [Hr Hs Hi Hrefs] Hp Hn Hrefs'. pose proof Hp as [Hs' _ _ Hk]. constructor.
  - by eapply prep_leaves_ready.
  - by eapply same_shape_trans.
  - rewrite (gas_ids_shape _ _ (proj1 Hs')), app_assoc. by eapply live_ids_app.
  - intros r [Hin|Hin]%elem_of_app; rewrite elem_of_app.
    + destruct (Hrefs _ Hin) as (Hl & Ho & Hid). split; [|split; [by apply (keeps_owned _ _ _ Hk)|by left]].
      apply (keeps_live _ _ _ Hk); [|done]. intros Hg. destruct Hi as [Hnd _].
      apply NoDup_app in Hnd as (_ & Hd & _). by apply (Hd _ Hg).
    + destruct (Hrefs' _ Hin) as (? & ? & ?). split; [done|]. split; [done|]. by right.
Qed.

(** The references of a map, with their kind and owner. *)
Definition map_refs (kd : ObjectKind) (m : gmap SuiAddress ObjectRef) : list (ObjectKind * SuiAddress * ObjectRef) :=
  map (fun kr => (kd, kr.1, kr.2)) (map_to_list m).

Lemma map_refs_elem kd m k r : m !! k = Some r -> (kd, k, r) ∈ map_refs kd m.
Proof. intros Hr. apply elem_of_map. exists (k, r). by rewrite elem_of_map_to_list. Qed.

Lemma map_refs_ids kd m w :
  kept kd m w ->
  forall x, x ∈ map_refs kd m -> live (state w) (ref_id x.2) = Some x.2 /\
    owned_as (state w) (ref_id x.2) = Some x.1 /\ ref_id x.2 ∈ ref_ids m.
Proof.
  intros Hm x ([k r] & -> & Hkr)%elem_of_map. cbn. destruct (Hm k r) as [? ?]; [by apply elem_of_map_to_list|].
  do 2 (split; [done|]). by apply (elem_of_map_1 (fun kr : SuiAddress * ObjectRef => ref_id kr.2) _ (k, r)).
Qed.

Lemma no_refs w (ids : list ObjectID) : forall x : ObjectKind * SuiAddress * ObjectRef, x ∈ [] ->
  live (state w) (ref_id x.2) = Some x.2 /\ owned_as (state w) (ref_id x.2) = Some x.1 /\ ref_id x.2 ∈ ids.
Proof. by intros r ?%elem_of_nil. Qed.

(** The objects that a generator holds are live, and no two of them, nor one of
    them and a gas object, are the same. *)
Definition held_ids (g : MoveTxGenerator) : list ObjectID :=
  ((ref_ids (root_objects g) ++ map fst (shared_objects g)) ++ ref_ids (kitty_objects g)) ++
    land_ids (land_objects g).

(** The gas objects of the users are coins of theirs. *)
Definition users_coins w ctx : Prop :=
  forall k a r, user_accounts ctx !! k = Some a -> r ∈ gas_objects a ->
    owned_as (state w) (ref_id r) = Some (Coin, k).

Record holds w ctx (g : MoveTxGenerator) : Prop := {
  ho_roots : kept Root (root_objects g) w;
  ho_kitties : kept Kitty (kitty_objects g) w;
  ho_coins : users_coins w ctx;
  ho_ids : live_ids (gas_ids (user_accounts ctx) ++ held_ids g) w;
  ho_unlocked : forall r, ~ locked (state w) r;
}.

Lemma users_coins_shape w w' ctx ctx' :
  same_shape ctx ctx' -> (forall id x, owned_as (state w) id = Some x -> owned_as (state w') id = Some x) ->
  users_coins w ctx -> users_coins w' ctx'.
Proof.
  intros Hs Hk Hc k a' r' Ha' Hr'. apply Hk.
  destruct (shape_lookup _ _ _ _ Hs Ha') as (a & Ha & [= _ _ Hids]).
  apply (elem_of_map_1 ref_id) in Hr'. unfold account_ids in Hids. rewrite Hids in Hr'.
  apply elem_of_map in Hr' as (r & -> & Hr). by eapply Hc.
Qed.

Lemma create_generator_ok o ctx w :
  context_ok ctx -> refs_live w ctx -> users_coins w ctx -> gas_objects (admin_account ctx) <> [] ->
  (forall k a, user_accounts ctx !! k = Some a -> gas_objects a <> []) ->
  (forall r, ~ locked (state w) r) ->
  options_fit o (Z.of_nat (size (user_accounts ctx))) ->
  exists g ctx' w', create_move_tx_generator o ctx w = Some ((g, ctx'), w') /\
    same_shape ctx ctx' /\ refs_live w' ctx' /\ published (state w') (move_package g) /\
    prepared o ctx' g /\ holds w' ctx' g.
Proof.
  intros Hok Hlive Hcoins Hadm Hgas Hun [Hsz Hdf Hsh [Hl0 Hl1]].
  destruct (publish_ok ctx w Hok Hlive Hadm)
    as (package & c0 & w0 & Hrun0 & Hs0 & Hlive0 & Hpub0 & Hlk0 & Hown0 & Hu0 & _).
  assert (Hg0 : staged (ref_id package) c0 [] [] c0 w0).
  { apply staged_start.
    constructor; [by eapply context_ok_shape|done|done|rewrite Hu0; exact Hgas|by intros id ?%Hlk0%Hun]. }
  rewrite <-Hu0 in Hsz, Hsh, Hl1.
  destruct (dynamic_fields_ok (ref_id package) (num_dynamic_fields o) c0 w0 (sg_ready _ _ _ _ _ _ Hg0))
    as (roots & c1 & w1 & Hrun1 & Hp1 & Hroots & Hn1 & Hlr1); [done..|].
  pose proof (staged_step _ _ _ _ _ _ _ _ _ _ Hg0 Hp1 Hn1 (map_refs_ids _ _ _ Hlr1)) as Hg1.
  rewrite <-(shape_size _ _ (pl_shape _ _ _ _ _ Hp1)) in Hsh, Hl1.
  destruct (shared_objects_ok (ref_id package) (num_shared_objects o) c1 w1 (sg_ready _ _ _ _ _ _ Hg1))
    as (shared & c2 & w2 & Hrun2 & Hp2 & Hshared & Hn2); [done..|].
  pose proof (staged_step _ _ _ _ _ _ _ _ _ _ Hg1 Hp2 Hn2 (no_refs _ _)) as Hg2.
  rewrite <-(shape_size _ _ (pl_shape _ _ _ _ _ Hp2)) in Hl1.
  destruct (kitty_objects_ok (ref_id package) (test_kitty o) c2 w2 (sg_ready _ _ _ _ _ _ Hg2))
    as (kitties & c3 & w3 & Hrun3 & Hp3 & Hkitties & Hn3 & Hlk3).
  pose proof (staged_step _ _ _ _ _ _ _ _ _ _ Hg2 Hp3 Hn3 (map_refs_ids _ _ _ Hlk3)) as Hg3.
  rewrite <-(shape_size _ _ (pl_shape _ _ _ _ _ Hp3)) in Hl1.
  destruct (land_objects_ok (ref_id package) (num_land_objects o) c3 w3 (sg_ready _ _ _ _ _ _ Hg3))
    as (lands & c4 & w4 & Hrun4 & Hp4 & Hlands & Hn4); [done..|].
  pose proof (staged_step _ _ _ _ _ _ _ _ _ _ Hg3 Hp4 Hn4 (no_refs _ _)) as [Hr4 Hs4 Hi4 Hrefs4].
  rewrite !app_nil_r, !app_nil_l in Hrefs4.
  exists (mkMoveTxGenerator (ref_id package) (num_transfers o) (use_native_transfer o) (computation o)
    roots shared (erc20_transfer o) kitties lands), c4, w4.
  split; [|split; [by eapply same_shape_trans|split; [apply Hr4|split; [apply Hr4|split]]]].
  - unfold create_move_tx_generator, bindM. rewrite Hrun0. cbn [fst snd]. rewrite Hrun1. cbn [fst snd].
    rewrite Hrun2. cbn [fst snd]. rewrite Hrun3. cbn [fst snd]. rewrite Hrun4. done.
  - constructor; cbn; [done| |done| |].
    + intros k. rewrite Hroots. by rewrite (shape_dom _ _ _ Hs4).
    + intros k. rewrite Hkitties. rewrite (shape_dom _ _ _ Hs4). by rewrite (shape_dom _ _ _ (sg_shape _ _ _ _ _ _ Hg2)).
    + intros i. rewrite Hlands. by rewrite (shape_size _ _ (pl_shape _ _ _ _ _ Hp4)).
  - constructor; cbn; [| | |exact Hi4|apply Hr4].
    + intros k r Hr%(map_refs_elem Root). destruct (Hrefs4 (Root, k, r)) as (? & ? & _); [apply elem_of_app; tauto|done].
    + intros k r Hr%(map_refs_elem Kitty). destruct (Hrefs4 (Kitty, k, r)) as (? & ? & _); [apply elem_of_app; tauto|done].
    + eapply (users_coins_shape w w4 ctx c4); [by eapply same_shape_trans| |done].
      intros id x Hx. apply (keeps_owned _ _ _ (pl_keeps _ _ _ _ _ Hp4)), (keeps_owned _ _ _ (pl_keeps _ _ _ _ _ Hp3)),
        (keeps_owned _ _ _ (pl_keeps _ _ _ _ _ Hp2)), (keeps_owned _ _ _ (pl_keeps _ _ _ _ _ Hp1)). by apply Hown0.
Qed.

End prepare.
