(* ===== verification/SuiReportsSpec.v ===== *)
(** The reports of the Sui single-node benchmark: what comes before a measurement
    reports nothing. *)
From stdpp Require Import base list option numbers strings gmap.
From S2P Require Import Prelude Machine FileSystem SuiTypes SuiStore SuiWorld SuiAccounts SuiGenerators SuiNode SuiContext SuiBench.
Open Scope Z_scope.

Section quiet.
Context `{SuiEnv}.

(** Code that reports nothing. *)
Definition quiet {A} (p : M World A) : Prop :=
  forall w a w', p w = Some (a, w') -> reports w' = reports w.

Lemma quiet_bind {A B} (p : M World A) (k : A -> M World B) :
  quiet p -> (forall a, quiet (k a)) -> quiet (bindM p k).
Proof. intros Hp Hk w b w' (a & w1 & H1%Hp & H2%Hk)%bindM_Some. congruence. Qed.

Lemma quiet_ret {A} (a : A) : quiet (ret a).
Proof. by intros w b w' [= _ <-]. Qed.
Lemma quiet_panic {A} : quiet (@panic World A).
Proof. done. Qed.
Lemma quiet_lift {A} (o : option A) : quiet (lift o).
Proof. by intros w b w' [_ ->]%lift_Some. Qed.
Lemma quiet_gets {A} (f : World -> A) : quiet (gets f).
Proof. by intros w b w' [= _ <-]. Qed.
Lemma quiet_guard b : quiet (guard_ b).
Proof. destruct b; [apply quiet_ret|apply quiet_panic]. Qed.
Lemma quiet_unwrap {E A} (r : result E A) : quiet (unwrap r).
Proof. destruct r; [apply quiet_ret|apply quiet_panic]. Qed.
Lemma quiet_on_state {A} (f : AuthorityState -> A * AuthorityState) : quiet (on_state f).
Proof. intros w a w'. unfold on_state. destruct (f (state w)). by intros [= _ <-]. Qed.
Lemma quiet_set_state s : quiet (set_state s).
Proof. by intros w a w' [= _ <-]. Qed.
Lemma quiet_random {A} (f : Entropy -> A * Entropy) : quiet (random f).
Proof. intros w a w'. unfold random. destruct (f (entropy w)). by intros [= _ <-]. Qed.
Lemma quiet_next : quiet next.
Proof. by intros w a w' [= _ <-]. Qed.
Lemma quiet_if {A} (b : bool) (p q : M World A) : quiet p -> quiet q -> quiet (if b then p else q).
Proof. by destruct b. Qed.
Lemma quiet_decide {A} (P : Prop) `{!Decision P} (p q : M World A) :
  quiet p -> quiet q -> quiet (if decide P then p else q).
Proof. by destruct (decide P). Qed.

Lemma quiet_seqM {A} (ts : list (M World A)) : Forall quiet ts -> quiet (seqM ts).
Proof.
  induction 1 as [|t ts Ht _ IH]; [apply quiet_ret|]. cbn. apply quiet_bind; [done|]. intros a.
  apply quiet_bind; [done|]. intros; apply quiet_ret.
Qed.

Lemma quiet_map {A X} (f : X -> M World A) xs : (forall x, quiet (f x)) -> Forall quiet (map f xs).
Proof. intros Hf. apply Forall_forall. by intros t (x & -> & _)%elem_of_map. Qed.

Lemma quiet_collect {A X} (f : X -> M World A) xs : (forall x, quiet (f x)) -> quiet (collect_tasks (map f xs)).
Proof.
  intros Hf. unfold collect_tasks. apply quiet_bind; [apply quiet_next|]. intros k. apply quiet_seqM.
  rewrite arrange_perm. by apply quiet_map.
Qed.

Lemma quiet_foldM {A X} (body : A -> X -> M World A) a l : (forall a x, quiet (body a x)) -> quiet (foldM body a l).
Proof.
  intros Hb. revert a. induction l as [|x l IH]; intros a; [apply quiet_ret|]. cbn. by apply quiet_bind.
Qed.

End quiet.

Create HintDb quiet.
#[export] Hint Resolve quiet_ret quiet_panic quiet_lift quiet_gets quiet_guard quiet_unwrap quiet_on_state quiet_set_state quiet_random quiet_next quiet_if quiet_decide quiet_collect quiet_foldM : quiet.

(** Follow the binds of a body. *)
Ltac quiet_steps :=
  repeat first [progress auto with quiet nocore|simple apply quiet_collect; intros ?
               |simple apply quiet_foldM; intros ? ?|simple apply quiet_bind; [|intros ?]
               |simple apply quiet_if|simple apply quiet_decide].

Section quiet_steps.
Context `{SuiEnv}.
Implicit Types (ctx : BenchmarkContext).

Lemma quiet_signed a p m f args : quiet (signed_move_call a p m f args).
Proof. unfold signed_move_call. quiet_steps. Qed.
Hint Resolve quiet_signed : quiet.

Lemma quiet_land g b : quiet (land_step g b).
Proof. unfold land_step. quiet_steps. Qed.
Hint Resolve quiet_land : quiet.

Lemma quiet_move g a to args objects : quiet (generate_tx (move_tx_generator g) a to args objects).
Proof. cbn. unfold move_generate_tx. quiet_steps. Qed.

Lemma quiet_raw tx : quiet (execute_raw_transaction tx).
Proof. unfold execute_raw_transaction, assert_ok. quiet_steps. Qed.
Hint Resolve quiet_raw : quiet.

Lemma quiet_commit n e : quiet (commit_outputs n e).
Proof. unfold commit_outputs. quiet_steps. Qed.
Hint Resolve quiet_commit : quiet.

Lemma quiet_publish d ctx : quiet (publish_package d ctx).
Proof. unfold publish_package, publish_package_with. quiet_steps. Qed.

Lemma quiet_generate g ctx :
  (forall a to args objects, quiet (generate_tx g a to args objects)) -> quiet (generate_transactions g ctx).
Proof. intros Hg. unfold generate_transactions, generate_numbered. quiet_steps. Qed.

Lemma quiet_generate_for g accounts :
  (forall a to args objects, quiet (generate_tx g a to args objects)) -> quiet (generate_for g accounts).
Proof. intros Hg. unfold generate_for. apply quiet_seqM, quiet_map. intros; apply Hg. Qed.

Lemma quiet_dynamic_fields p n ctx : quiet (preparing_dynamic_fields p n ctx).
Proof.
  unfold preparing_dynamic_fields, execute_raw_transactions, prepared_dynamic_field.
  quiet_steps. apply quiet_generate. intros. cbn. quiet_steps.
Qed.

Lemma quiet_shared p n ctx : quiet (prepare_shared_objects p n ctx).
Proof.
  unfold prepare_shared_objects, execute_raw_transactions, prepared_shared.
  quiet_steps. apply quiet_generate_for. intros. cbn. quiet_steps.
Qed.

Lemma quiet_kitty p b ctx : quiet (prepare_kitty_objects p b ctx).
Proof.
  unfold prepare_kitty_objects, execute_raw_transactions, prepared_kitty.
  quiet_steps. apply quiet_generate_for. intros. cbn. quiet_steps.
Qed.

Lemma quiet_lands p n ctx : quiet (prepare_land_objects p n ctx).
Proof.
  unfold prepare_land_objects, execute_raw_transactions, prepared_land.
  quiet_steps. apply quiet_generate_for. intros. cbn. quiet_steps.
Qed.
Hint Resolve quiet_publish quiet_dynamic_fields quiet_shared quiet_kitty quiet_lands : quiet.

Lemma quiet_create_move o ctx : quiet (create_move_tx_generator o ctx).
Proof. unfold create_move_tx_generator. quiet_steps. Qed.

Lemma quiet_context wl c b p : quiet (context_new wl c b p).
Proof.
  unfold context_new, new_from_workload, new_from_file, validator_new, batch_create_account_and_gas,
    batch_create_account_and_gas_by_index, create_indexed_account, create_account, elapsed_ms, now.
  quiet_steps. all: destruct x as [[? ?] ?]; quiet_steps.
Qed.

Lemma quiet_certify txs b : quiet (certify_transactions txs b).
Proof. unfold certify_transactions, certify_one. quiet_steps. Qed.

Lemma quiet_assign txs : quiet (assigned_shared_object_versions txs).
Proof. unfold assigned_shared_object_versions. quiet_steps. Qed.

Lemma quiet_sign tx : quiet (sign_transaction tx).
Proof. unfold sign_transaction. quiet_steps. Qed.
Hint Resolve quiet_sign : quiet.

Lemma quiet_sign_all txs : quiet (validator_sign_transactions txs).
Proof. unfold validator_sign_transactions. quiet_steps. Qed.

Lemma quiet_certificate v tx c : quiet (execute_certificate v tx c).
Proof. unfold execute_certificate, assert_ok. quiet_steps. destruct c; quiet_steps. Qed.
Hint Resolve quiet_certificate : quiet.

Lemma quiet_execute_all ctx txs : quiet (execute_all ctx txs).
Proof. unfold execute_all. quiet_steps. Qed.

Lemma quiet_sample b txs : quiet (take_sample b txs).
Proof. unfold take_sample, execute_sample_transaction. quiet_steps. Qed.

End quiet_steps.
#[export] Hint Resolve quiet_raw quiet_commit quiet_certify quiet_assign quiet_sign_all quiet_execute_all quiet_sample : quiet.
