(* ===== verification/SuiTxSpec.v ===== *)
(** The transactions of the Sui single-node benchmark: what the builders of
    transactions promise, and the inputs of the transaction that the measured
    generator makes for an account. *)
From stdpp Require Import base list option numbers strings gmap sorting.
From S2P Require Import Prelude Machine FileSystem BenchMain SuiTypes SuiStore SuiWorld SuiAccounts SuiAccountsSpec SuiGenerators SuiNode SuiContext SuiContextSpec SuiBench.
Open Scope Z_scope.

(** ** What the transaction builders promise *)

Section args.
Context `{SuiData}.

Definition arg_id (a : ObjectArg) : ObjectID :=
  match a with ImmOrOwnedObject r => ref_id r | SharedObject id _ _ => id end.

Definition object_args (args : list CallArg) : list ObjectArg :=
  omap (fun a => match a with ObjectCallArg o => Some o | Pure _ => None end) args.

End args.

(** The names of the calls of the generators. *)
Definition call_names : list string :=
  ["benchmark"; "transfer_coin"; "increment_shared_counter"; "read_dynamic_fields";
   "run_computation"; "KittyBreeding"; "provide_gene"; "breed"; "MillionPixel"; "occupy"]%string.

Ltac in_names := unfold call_names; set_solver.

Class BuilderLaws `{SuiEnv} := {
  (** The object inputs of a builder, and the gas object and object inputs of a
      transaction. *)
  ptb_inputs : PTB -> list ObjectArg;
  tx_inputs : Transaction -> ObjectRef * list ObjectArg;
  identifier_some s : s ∈ call_names -> is_Some (identifier_new s);
  inputs_new : ptb_inputs ptb_new = [];
  (** Objects that are not yet inputs are added; the others might conflict. *)
  inputs_transfer a r b :
    ref_id r ∉ map arg_id (ptb_inputs b) ->
    exists b', transfer_object a r b = Some b' /\ ptb_inputs b' = ptb_inputs b ++ [ImmOrOwnedObject r];
  inputs_move_call p m f args b :
    NoDup (map arg_id (ptb_inputs b ++ object_args args)) ->
    exists b', move_call p m f [] args b = Some b' /\ ptb_inputs b' = ptb_inputs b ++ object_args args;
  inputs_obj a b :
    arg_id a ∉ map arg_id (ptb_inputs b) ->
    exists arg b', ptb_obj a b = Some (arg, b') /\ ptb_inputs b' = ptb_inputs b ++ [a];
  inputs_pure n b : exists arg b', ptb_pure_u64 n b = Some (arg, b') /\ ptb_inputs b' = ptb_inputs b;
  inputs_programmable p m f args b : ptb_inputs (programmable_move_call p m f [] args b) = ptb_inputs b;
  tx_inputs_programmable kp b a gas price :
    tx_inputs (build_and_sign kp (ttb_programmable (ptb_finish b) (ttb_new a gas price))) =
      (gas, ptb_inputs b);
  (** Encodings of addresses and of 16-bit integers, and random integers. *)
  bcs_address_some a : is_Some (bcs_address a);
  bcs_u16_some n : in_range 16 n -> is_Some (bcs_uint 16 n);
  gen_range width e : 0 <= width -> in_range width (gen width e).1;
}.

(** ** Transactions of one account *)

Section transaction.
Context `{SuiEnv} `{!BuilderLaws}.
Implicit Types (g : MoveTxGenerator) (a : Account) (w : World).

Lemma inputs_call p m f args b :
  m ∈ call_names -> f ∈ call_names -> NoDup (map arg_id (ptb_inputs b ++ object_args args)) ->
  exists b', call_ p m f args b = Some b' /\ ptb_inputs b' = ptb_inputs b ++ object_args args.
Proof.
  intros Hm Hf Hnd. unfold call_. destruct (identifier_some _ Hm) as [im ->], (identifier_some _ Hf) as [jf ->].
  by apply inputs_move_call.
Qed.

Lemma transfer_one_ok g a b i r :
  gas_objects a !! Z.to_nat i = Some r -> NoDup (map arg_id (ptb_inputs b ++ [ImmOrOwnedObject r])) ->
  exists b', transfer_one g a b i = Some b' /\ ptb_inputs b' = ptb_inputs b ++ [ImmOrOwnedObject r].
Proof.
  intros Hr Hnd. unfold transfer_one, at_index. rewrite Hr. cbn. destruct (mg_use_native_transfer g).
  - apply inputs_transfer. rewrite map_app in Hnd. apply NoDup_app in Hnd as (_ & Hd & _).
    intros Hin. apply (Hd _ Hin). left.
  - apply inputs_call; [in_names..|exact Hnd].
Qed.

Lemma transfer_all_ok g a b (idxs : list Z) (rs : list ObjectRef) :
  Forall2 (fun i r => gas_objects a !! Z.to_nat i = Some r) idxs rs ->
  NoDup (map arg_id (ptb_inputs b ++ map ImmOrOwnedObject rs)) ->
  exists b', transfer_all g a b idxs = Some b' /\ ptb_inputs b' = ptb_inputs b ++ map ImmOrOwnedObject rs.
Proof.
  intros HF. revert b. induction HF as [|i r idxs rs Hr HF IH]; intros b Hnd.
  - exists b. cbn. by rewrite app_nil_r.
  - cbn [map] in Hnd. rewrite cons_middle, app_assoc in Hnd.
    destruct (transfer_one_ok g a b i r Hr) as (b1 & H1 & Hi1).
    { rewrite map_app in Hnd. by apply NoDup_app in Hnd as (? & _ & _). }
    rewrite <-Hi1 in Hnd. destruct (IH b1 Hnd) as (b2 & H2 & Hi2).
    exists b2. cbn. rewrite H1. cbn. split; [done|]. rewrite Hi2, Hi1, <-app_assoc. done.
Qed.

(** ** The inputs of the other steps *)

(** The shared object of an index, if the generator has any. *)
Definition shared_of g (args : gmap string Z) (l : list ObjectArg) : Prop :=
  match shared_objects g with
  | [] => l = []
  | _ => exists so, at_index (shared_objects g) (arg args "shared_obj_index") = Some so /\
           l = [SharedObject so.1 so.2 true]
  end.

Definition root_of g a (l : list ObjectRef) : Prop :=
  if decide (root_objects g = ∅) then l = []
  else exists r, root_objects g !! sender a = Some r /\ l = [r].

(** The coin of an ERC-20 transfer, if the generator makes one. *)
Definition coin_of g a (obj_index : Z) (coins : list ObjectRef) : Prop :=
  if mg_erc20_transfer g then
    let i := Z.of_nat (length (gas_objects a)) / 2 + obj_index in
    in_range 64 i /\ exists r, gas_objects a !! Z.to_nat i = Some r /\ coins = [r]
  else coins = [].

(** The kitty that gives its gene, or the gene and the kitty that breed. *)
Definition kitty_of g a (args : gmap string Z) (objects l : list ObjectRef) : Prop :=
  if decide (kitty_objects g = ∅) then l = []
  else exists kitty, kitty_objects g !! sender a = Some kitty /\
    if arg args "kitty_fn" =? 1 then l = [kitty]
    else exists gene new_kitty, objects !! 0%nat = Some gene /\ objects !! 1%nat = Some new_kitty /\
           l = [gene; new_kitty].

Definition land_of g (l : list ObjectArg) : Prop :=
  if decide (land_objects g = ∅) then l = []
  else exists i land, land_objects g !! i = Some land /\ l = [SharedObject land.1 land.2 true].

(** The lands are numbered from zero, and their number fits in 16 bits. *)
Definition lands_numbered g : Prop :=
  Z.of_nat (size (land_objects g)) < 2 ^ 16 /\
  forall i, is_Some (land_objects g !! i) <-> 0 <= i < Z.of_nat (size (land_objects g)).

(** A step that adds inputs. *)
Definition adds (step : PTB -> option PTB) (l : list ObjectArg) : Prop :=
  forall b, NoDup (map arg_id (ptb_inputs b ++ l)) ->
    exists b', step b = Some b' /\ ptb_inputs b' = ptb_inputs b ++ l.

Lemma adds_nothing step : (forall b, step b = Some b) -> adds step [].
Proof. intros Hs b _. exists b. by rewrite app_nil_r. Qed.

Lemma increment_adds g args l : shared_of g args l -> adds (increment_shared g args) l.
Proof.
  unfold shared_of, increment_shared. destruct (shared_objects g) as [|so0 sos].
  - intros ->. by apply adds_nothing.
  - intros (so & Hso & ->) b Hnd. rewrite Hso. cbn. by apply inputs_call; [in_names..|].
Qed.

Lemma programmable_call_ok p f args b :
  f ∈ call_names ->
  exists b', programmable_call p "benchmark" f args b = Some b' /\ ptb_inputs b' = ptb_inputs b.
Proof.
  intros Hf. unfold programmable_call.
  destruct (identifier_some "benchmark") as [im ->]; [in_names|].
  destruct (identifier_some f Hf) as [jf ->]. cbn. eexists. split; [done|]. by rewrite inputs_programmable.
Qed.

Lemma read_adds g a l : root_of g a l -> adds (read_dynamic_fields g a) (map ImmOrOwnedObject l).
Proof.
  unfold root_of, read_dynamic_fields. case_decide; [intros ->; by apply adds_nothing|].
  intros (r & Hr & ->) b Hnd. rewrite Hr. cbn.
  destruct (inputs_obj (ImmOrOwnedObject r) b) as (arg & b' & -> & Hi).
  { rewrite map_app in Hnd. apply NoDup_app in Hnd as (_ & Hd & _). intros Hin. apply (Hd _ Hin). left. }
  cbn. destruct (programmable_call_ok (move_package g) "read_dynamic_fields" [arg] b') as (b'' & -> & Hi').
  { in_names. }
  exists b''. by rewrite Hi', Hi.
Qed.

Lemma computation_adds g : in_range 8 (mg_computation g) -> adds (run_computation g) [].
Proof.
  intros Hc. unfold run_computation. destruct (mg_computation g >? 0); [|by apply adds_nothing].
  intros b _. unfold mul. rewrite wrap_in by (unfold in_range in *; lia). cbn.
  destruct (inputs_pure (mg_computation g * 100) b) as (arg & b' & -> & Hi). cbn.
  destruct (programmable_call_ok (move_package g) "run_computation" [arg] b') as (b'' & -> & Hi').
  { in_names. }
  exists b''. by rewrite Hi', Hi, app_nil_r.
Qed.

Lemma erc20_adds g a args coins :
  coin_of g a (arg args "obj_index") coins -> adds (erc20_step g a args) (map ImmOrOwnedObject coins).
Proof.
  unfold coin_of, erc20_step. destruct (mg_erc20_transfer g).
  - intros (Hr & r & Hl & ->) b Hnd. unfold add. rewrite wrap_in by done. cbn. unfold at_index. rewrite Hl.
    cbn. by apply inputs_call; [in_names..|].
  - intros ->. by apply adds_nothing.
Qed.

Lemma kitty_adds g a to args objects l :
  kitty_of g a args objects l -> adds (kitty_step g a to args objects) (map ImmOrOwnedObject l).
Proof.
  unfold kitty_of, kitty_step. case_decide as Hk.
  - intros ->. rewrite Hk, map_size_empty. by apply adds_nothing.
  - destruct (Nat.ltb_spec 0 (size (kitty_objects g))) as [_|Hle].
    2:{ exfalso. apply Hk, map_size_empty_inv. lia. }
    intros (kitty & Hkitty & Hl) b Hnd. rewrite Hkitty. cbn. destruct (arg args "kitty_fn" =? 1).
    + subst l. destruct (bcs_address_some to) as [bytes ->]. cbn.
      by apply inputs_call; [in_names..|].
    + destruct Hl as (gene & nk & Hg & Hn & ->). rewrite Hg. cbn. rewrite Hn. cbn.
      by apply inputs_call; [in_names..|].
Qed.

Lemma land_index_ok x y len :
  in_range 16 x -> in_range 16 y -> 0 < len < 2 ^ 16 ->
  exists i, land_index x y len = Some i /\ 0 <= i < len.
Proof.
  unfold in_range. intros Hx Hy Hl. unfold land_index, mul, add. rewrite wrap_in by (unfold in_range; lia). cbn.
  rewrite wrap_in by (unfold in_range; lia). cbn. unfold rem.
  destruct (Z.eqb_spec len 0); [lia|]. cbn.
  pose proof (Z.mod_pos_bound (x * 65536 + y) len). eexists. split; [done|].
  rewrite cast_in by (unfold in_range; lia). lia.
Qed.

(** The land of a random pixel is one of the lands, whatever the numbers drawn. *)
Lemma land_adds g b w :
  lands_numbered g -> (forall l, land_of g l -> NoDup (map arg_id (ptb_inputs b ++ l))) ->
  exists b' w' l, land_step g b w = Some (b', w') /\ state w' = state w /\ land_of g l /\
    ptb_inputs b' = ptb_inputs b ++ l.
Proof.
  intros [Hsz Hnum] Hnd. unfold land_step, land_of in *. destruct (decide (land_objects g = ∅)) as [He|Hne].
  { rewrite He, map_size_empty. exists b, w, []. by rewrite app_nil_r. }
  assert (Hpos : (0 < size (land_objects g))%nat).
  { destruct (size (land_objects g)) eqn:E; [|lia]. exfalso. by apply Hne, map_size_empty_inv. }
  rewrite (proj2 (Nat.ltb_lt _ _) Hpos). unfold bindM, random.
  pose proof (gen_range 16 (entropy w)) as Hx. destruct (gen 16 (entropy w)) as [x e1]. cbn in Hx |- *.
  pose proof (gen_range 16 e1) as Hy. destruct (gen 16 e1) as [y e2]. cbn in Hy |- *.
  rewrite cast_in by (unfold in_range; lia).
  destruct (land_index_ok x y (Z.of_nat (size (land_objects g)))) as (i & -> & Hi); [by apply Hx|by apply Hy|lia|].
  unfold lift. apply Hnum in Hi as [land Hland]. rewrite Hland.
  destruct (bcs_u16_some x (Hx ltac:(lia))) as [bx ->], (bcs_u16_some y (Hy ltac:(lia))) as [by_ ->].
  assert (Hl : exists i0 land0, land_objects g !! i0 = Some land0 /\
    [SharedObject land.1 land.2 true] = [SharedObject land0.1 land0.2 true]) by (by exists i, land).
  destruct (inputs_call (move_package g) "MillionPixel" "occupy"
    [ObjectCallArg (SharedObject land.1 land.2 true); Pure bx; Pure by_] b) as (b' & -> & Hi').
  { in_names. } { in_names. } { by apply Hnd. }
  eexists b', _, [SharedObject land.1 land.2 true]. split; [done|]. split; [done|]. by split.
Qed.

(** ** The transaction *)

(** The inputs of the steps of a transaction, in order. *)
Definition inputs_of (rs : list ObjectRef) (sh : list ObjectArg) (ro co ki : list ObjectRef)
    (la : list ObjectArg) : list ObjectArg :=
  map ImmOrOwnedObject rs ++ sh ++ map ImmOrOwnedObject ro ++ map ImmOrOwnedObject co ++
    map ImmOrOwnedObject ki ++ la.

Lemma adds_seq (step : PTB -> option PTB) l b rest (k : PTB -> option PTB) :
  adds step l -> NoDup (map arg_id (ptb_inputs b ++ l ++ rest)) ->
  exists b', ptb_inputs b' = ptb_inputs b ++ l /\ NoDup (map arg_id (ptb_inputs b' ++ rest)) /\
    (b ← step b; k b) = k b'.
Proof.
  intros Hs Hnd. rewrite app_assoc in Hnd. destruct (Hs b) as (b' & Hb' & Hi).
  { rewrite map_app in Hnd. by apply NoDup_app in Hnd as (? & _ & _). }
  exists b'. split; [done|]. rewrite Hi. split; [done|]. by rewrite Hb'.
Qed.

(** A programmable transaction that an account sends and signs, and pays with [gas]. *)
Definition signed_by a (gas : ObjectRef) (tx : Transaction) : Prop :=
  exists pt, tx = build_and_sign (keypair a)
    (ttb_programmable pt (ttb_new (sender a) gas DEFAULT_VALIDATOR_GAS_PRICE)).

(** The transaction of an account: its gas object, and the inputs of every step. *)
Lemma move_tx_ok g a to args objects gas rs sh ro co ki w :
  Forall2 (fun i r => gas_objects a !! Z.to_nat i = Some r) (transfer_range g) rs ->
  shared_of g args sh -> root_of g a ro -> in_range 8 (mg_computation g) ->
  coin_of g a (arg args "obj_index") co -> kitty_of g a args objects ki -> lands_numbered g ->
  gas_objects a !! Z.to_nat (arg args "obj_index") = Some gas ->
  (forall la, land_of g la -> NoDup (map arg_id (inputs_of rs sh ro co ki la))) ->
  exists tx w' la, generate_tx (move_tx_generator g) a to args objects w = Some (tx, w') /\
    state w' = state w /\ land_of g la /\ tx_inputs tx = (gas, inputs_of rs sh ro co ki la) /\ signed_by a gas tx.
Proof.
  intros Hrs Hsh Hro Hc Hco Hki Hla Hgas Hnd.
  assert (Hland : exists la, land_of g la).
  { unfold land_of. case_decide as He; [by exists []|]. apply map_choose in He as (i & land & Hl).
    eexists. by exists i, land. }
  destruct Hland as [la0 Hla0]. pose proof (Hnd _ Hla0) as Hnd0. unfold inputs_of in Hnd0.
  assert (Hpre : NoDup (map arg_id (map ImmOrOwnedObject rs ++ sh ++ map ImmOrOwnedObject ro ++ [] ++
    map ImmOrOwnedObject co ++ map ImmOrOwnedObject ki))).
  { rewrite !app_assoc, map_app in Hnd0. apply NoDup_app in Hnd0 as (Hn & _ & _). cbn. by rewrite !app_assoc. }
  destruct (transfer_all_ok g a ptb_new (transfer_range g) rs Hrs) as (b1 & H1 & Hi1).
  { rewrite inputs_new. cbn. rewrite map_app in Hpre. by apply NoDup_app in Hpre as (? & _ & _). }
  rewrite inputs_new in Hi1. cbn [app] in Hi1. rewrite <-Hi1 in Hpre.
  destruct (adds_seq _ _ _ _ (fun b => b ← read_dynamic_fields g a b; b ← run_computation g b;
    b ← erc20_step g a args b; kitty_step g a to args objects b) (increment_adds _ _ _ Hsh) Hpre)
    as (b2 & Hi2 & Hn2 & E2).
  destruct (adds_seq _ _ _ _ (fun b => b ← run_computation g b; b ← erc20_step g a args b;
    kitty_step g a to args objects b) (read_adds _ _ _ Hro) Hn2) as (b3 & Hi3 & Hn3 & E3).
  destruct (adds_seq _ _ _ _ (fun b => b ← erc20_step g a args b; kitty_step g a to args objects b)
    (computation_adds _ Hc) Hn3) as (b4 & Hi4 & Hn4 & E4).
  destruct (adds_seq _ _ _ _ (kitty_step g a to args objects) (erc20_adds _ _ _ _ Hco) Hn4)
    as (b5 & Hi5 & Hn5 & E5).
  destruct (kitty_adds g a to args objects ki Hki b5 Hn5) as (b6 & E6 & Hi6).
  assert (Hi : ptb_inputs b6 = map ImmOrOwnedObject rs ++ sh ++ map ImmOrOwnedObject ro ++
    map ImmOrOwnedObject co ++ map ImmOrOwnedObject ki).
  { rewrite Hi6, Hi5, Hi4, Hi3, Hi2, Hi1, app_nil_r. by rewrite <-!app_assoc. }
  destruct (land_adds g b6 w Hla) as (b7 & w' & la & E7 & Hs & Hl & Hi7).
  { intros l Hl. rewrite Hi, <-!app_assoc. by apply Hnd. }
  eexists _, w', la. split; [|split; [done|split; [done|]]].
  - cbn [generate_tx move_tx_generator]. unfold move_generate_tx, bindM, lift.
    rewrite H1. cbn [mbind option_bind] in E2, E3, E4, E5 |- *. rewrite E2, E3, E4, E5, E6, E7.
    unfold at_index. by rewrite Hgas.
  - split; [|by eexists]. rewrite tx_inputs_programmable, Hi7, Hi. unfold inputs_of. by rewrite <-!app_assoc.
Qed.

(** ** Owned and shared inputs *)

Definition owned_arg (a : ObjectArg) : option ObjectRef :=
  match a with ImmOrOwnedObject r => Some r | SharedObject _ _ _ => None end.
Definition shared_arg (a : ObjectArg) : option (ObjectID * Z) :=
  match a with ImmOrOwnedObject _ => None | SharedObject id v _ => Some (id, v) end.

(** The owned objects of a transaction, gas first, and its shared objects. *)
Definition owned_refs (tx : Transaction) : list ObjectRef :=
  (tx_inputs tx).1 :: omap owned_arg (tx_inputs tx).2.
Definition owned_ids (tx : Transaction) : list ObjectID := map ref_id (owned_refs tx).
Definition tx_shared (tx : Transaction) : list (ObjectID * Z) := omap shared_arg (tx_inputs tx).2.

Lemma omap_owned (l : list ObjectRef) : omap owned_arg (map ImmOrOwnedObject l) = l.
Proof. induction l as [|r l IH]; [done|]. cbn. by rewrite IH. Qed.
Lemma omap_owned_shared (l : list ObjectRef) : omap shared_arg (map ImmOrOwnedObject l) = [].
Proof. by induction l. Qed.

(** The shared object that increments and occupations use. *)
Lemma shared_of_args g args l :
  shared_of g args l -> omap owned_arg l = [] /\
  (forall so, so ∈ omap shared_arg l -> so ∈ shared_objects g) /\
  map arg_id l = map fst (omap shared_arg l) /\
  length l = (if decide (shared_objects g = []) then 0 else 1)%nat.
Proof.
  unfold shared_of. destruct (shared_objects g) as [|so0 sos] eqn:E.
  - intros ->. split; [done|]. split; [by intros so ?%elem_of_nil|]. done.
  - intros (so & Hso & ->). split; [done|]. split; [|done].
    intros so' Hin. apply list_elem_of_singleton in Hin as ->. destruct so. by eapply list_elem_of_lookup_2.
Qed.

Lemma land_of_args g l :
  land_of g l -> omap owned_arg l = [] /\
  (forall so, so ∈ omap shared_arg l -> exists i, land_objects g !! i = Some so) /\
  map arg_id l = map fst (omap shared_arg l) /\
  length l = (if decide (land_objects g = ∅) then 0 else 1)%nat.
Proof.
  unfold land_of. case_decide.
  - intros ->. split; [done|]. split; [by intros so ?%elem_of_nil|]. done.
  - intros (i & land & Hland & ->). split; [done|]. split; [|done].
    intros so Hin. apply list_elem_of_singleton in Hin as ->. exists i. by destruct land.
Qed.

Lemma inputs_of_owned g args rs sh ro co ki la :
  shared_of g args sh -> land_of g la ->
  omap owned_arg (inputs_of rs sh ro co ki la) = rs ++ ro ++ co ++ ki /\
  omap shared_arg (inputs_of rs sh ro co ki la) = omap shared_arg sh ++ omap shared_arg la.
Proof.
  intros (Hs & _)%shared_of_args (Hl & _)%land_of_args. unfold inputs_of. rewrite !omap_app, !omap_owned, !omap_owned_shared.
  rewrite Hs, Hl. cbn. by rewrite app_nil_r.
Qed.

End transaction.
