(* ===== verification/SuiRunSpec.v ===== *)
(** Runs of the Sui single-node benchmark: the transactions that are generated
    from a new context use live objects, and no object twice. *)
From stdpp Require Import base list option numbers strings gmap sorting.
From S2P Require Import Prelude Machine FileSystem BenchMain SuiTypes SuiStore SuiWorld SuiAccounts SuiAccountsSpec SuiGenerators SuiNode SuiContext SuiContextSpec SuiBench SuiJobsSpec SuiPrepareSpec SuiTxSpec.
Open Scope Z_scope.

(** ** Transactions of a run *)

Section runs.
Context `{SuiEnv} `{!ObjectLaws} `{!ValidatorLaws} `{!BuilderLaws}.
Implicit Types (g : MoveTxGenerator) (a : Account) (w : World) (ctx : BenchmarkContext) (o : PTBOptions).

(** A new context has live references only. *)
Lemma built_live objs ctx w w' :
  context_ok ctx -> built objs w w' -> refs_from objs (all_accounts ctx) -> coins_from objs (all_accounts ctx) ->
  refs_live w' ctx.
Proof.
  intros Hok (Hs & Hnd & _) Hr Hc k a r Ha Hin. rewrite Hs. split.
  - apply (Hr _ _ _ Ha) in Hin. apply elem_of_map in Hin as (o & -> & Ho). by apply live_genesis.
  - destruct (Hc _ _ _ Ha Hin) as (id & Ho & ->).
    assert (sender a = k) as -> by by apply (co_accounts _ Hok).
    unfold ref_id, compute_object_reference. cbn. rewrite with_id_object_id. by apply owned_genesis.
Qed.

Lemma built_coins objs ctx w w' :
  context_ok ctx -> built objs w w' -> coins_from objs (all_accounts ctx) -> users_coins w' ctx.
Proof.
  intros Hok (Hs & Hnd & _) Hc k a r Ha Hin. apply (user_account_all _ _ _ Hok) in Ha.
  destruct (Hc _ _ _ Ha Hin) as (id & Ho & ->). rewrite Hs. unfold ref_id, compute_object_reference. cbn.
  rewrite with_id_object_id. by apply owned_genesis.
Qed.

Lemma lookup_nonempty {A} (l : list A) n : Z.of_nat (length l) = n -> 1 <= n -> l <> [].
Proof. intros Hl Hn ->. cbn in Hl. lia. Qed.

(** The context and the generator of a new PTB workload. *)
Lemma ptb_prepared o component print_sample_tx tx_count w :
  let workload := mkWorkload tx_count (KindPTB o) in
  let n := reserved workload print_sample_tx in
  0 <= tx_count -> 0 <= num_transfers o -> Z.of_nat n * (num_transfers o + 1) < 2 ^ 64 ->
  NoDup (draw_keys n (entropy w)).*1 -> options_fit o (Z.of_nat n - 1) ->
  exists ctx0 w0 g ctx w',
    context_new workload component print_sample_tx EmptyString w = Some (ctx0, w0) /\
    create_move_tx_generator o ctx0 w0 = Some ((g, ctx), w') /\
    same_shape ctx0 ctx /\ published (state w') (move_package g) /\
    context_ok ctx /\ refs_live w' ctx /\ prepared o ctx g /\ holds w' ctx g /\
    S (size (user_accounts ctx)) = n /\
    forall k a, user_accounts ctx !! k = Some a -> Z.of_nat (length (gas_objects a)) = num_transfers o + 1.
Proof.
  intros workload n Hc Ht Hn Hkeys Hfit.
  destruct (context_from_workload workload component print_sample_tx (num_transfers o + 1) w)
    as (ctx0 & objs & w0 & Hnew & Hok & Hb & Hrefs & Hcoins & _ & Hsize & _ & Hlen); [done| |lia|done|done|].
  { cbn. unfold add. apply wrap_in. unfold in_range. fold n in Hn. unfold n, reserved in Hn. cbn in Hn.
    destruct print_sample_tx; nia. }
  fold n in Hsize.
  destruct (create_generator_ok o ctx0 w0) as (g & ctx & w' & Hg & Hs & Hlive & Hpub & Hp & Hholds).
  - done.
  - by eapply built_live.
  - by eapply built_coins.
  - apply (lookup_nonempty _ (num_transfers o + 1)); [|lia].
    apply (Hlen (sender (admin_account ctx0))). apply lookup_insert_eq.
  - intros k a Ha. apply (lookup_nonempty _ (num_transfers o + 1)); [|lia].
    apply (Hlen k). by apply user_account_all.
  - destruct Hb as (-> & _ & _). apply unlocked_genesis.
  - replace (Z.of_nat (size (user_accounts ctx0))) with (Z.of_nat n - 1) by lia. done.
  - exists ctx0, w0, g, ctx, w'. do 4 (split; [done|]). split; [by eapply context_ok_shape|].
    do 3 (split; [done|]). split; [by rewrite (shape_size _ _ Hs)|].
    intros k a Ha. destruct (shape_lookup _ _ _ _ Hs Ha) as (a0 & Ha0 & [= _ _ Hids]).
    rewrite <-(Hlen k a0) by by apply user_account_all.
    apply (f_equal length) in Hids. unfold account_ids in Hids. rewrite !length_map in Hids. by rewrite Hids.
Qed.

(** Tasks that compute a transaction and keep the state. *)
Lemma collect_pure {X} (f : X -> M World Transaction) (R : X -> Transaction -> Prop) (xs : list X) w :
  (forall x w, x ∈ xs -> exists tx w', f x w = Some (tx, w') /\ state w' = state w /\ R x tx) ->
  exists txs xs' w', xs' ≡ₚ xs /\ collect_tasks (map f xs) w = Some (txs, w') /\ state w' = state w /\
    Forall2 R xs' txs.
Proof.
  intros Hf. pose proof (arrange_perm (schedule (steps w)) xs) as Hp.
  assert (Hrun : forall l w, (forall x, x ∈ l -> x ∈ xs) -> exists txs w',
            seqM (map f l) w = Some (txs, w') /\ state w' = state w /\ Forall2 R l txs).
  { induction l as [|x l IH]; intros w0 Hin; [exists [], w0; split; [done|split; [done|constructor]]|].
    destruct (Hf x w0) as (tx & w1 & Hx & Hs & HR); [apply Hin; left|].
    destruct (IH w1) as (txs & w2 & Htxs & Hs2 & HRs); [intros; apply Hin; by right|].
    exists (tx :: txs), w2. cbn. unfold bindM. rewrite Hx, Htxs. split; [done|].
    split; [congruence|by constructor]. }
  destruct (Hrun (arrange (schedule (steps w)) xs) (mkWorld (state w) (entropy w) (S (steps w)) (reports w)))
    as (txs & w' & Htxs & Hs & HR); [intros x Hx; by rewrite Hp in Hx|].
  exists txs, (arrange (schedule (steps w)) xs), w'. split; [done|]. split; [|done].
  unfold collect_tasks, next, bindM. by rewrite arrange_map.
Qed.

(** The owned inputs of a transaction are live. *)
Definition tx_live w (tx : Transaction) : Prop :=
  Forall (fun r => live (state w) (ref_id r) = Some r) (owned_refs tx).

(** References of a user's account are live. *)
Lemma account_live ctx w k a :
  context_ok ctx -> refs_live w ctx -> user_accounts ctx !! k = Some a ->
  forall r, r ∈ gas_objects a -> live (state w) (ref_id r) = Some r.
Proof. intros Hok Hl Ha r Hr. eapply Hl; [by apply user_account_all|done]. Qed.

(** ** Workloads *)

(** C20. A new PTB workload is prepared without a panic whatever the order in which
    the tasks finish: the generator has a root object and a kitty for every user
    when asked for, the requested shared objects, and lands numbered from zero; the
    context has one user per transaction with the gas objects its transfers need,
    no object in two accounts, and only references of live objects, those of the
    preparation included. *)
Theorem workload_prepared o component print_sample_tx tx_count w :
  let workload := mkWorkload tx_count (KindPTB o) in
  let n := reserved workload print_sample_tx in
  0 <= tx_count -> 0 <= num_transfers o -> Z.of_nat n * (num_transfers o + 1) < 2 ^ 64 ->
  NoDup (draw_keys n (entropy w)).*1 -> options_fit o (Z.of_nat n - 1) ->
  exists g ctx w',
    (let% ctx := context_new workload component print_sample_tx EmptyString in
     create_tx_generator workload ctx) w = Some ((move_tx_generator g, ctx), w') /\
    context_ok ctx /\ refs_live w' ctx /\ prepared o ctx g /\ holds w' ctx g /\ S (size (user_accounts ctx)) = n /\
    forall k a, user_accounts ctx !! k = Some a -> Z.of_nat (length (gas_objects a)) = num_transfers o + 1.
Proof.
  intros workload n Hc Ht Hn Hkeys Hfit.
  destruct (ptb_prepared o component print_sample_tx tx_count w Hc Ht Hn Hkeys Hfit)
    as (ctx0 & w0 & g & ctx & w' & Hnew & Hg & _ & _ & Hrest).
  exists g, ctx, w'. split; [|exact Hrest]. unfold bindM. unfold workload. rewrite Hnew.
  cbn [create_tx_generator workload_kind]. unfold bindM. by rewrite Hg.
Qed.

(** ** The transactions of a workload *)

Lemma NoDup_app_sub {A} (l l' k k' : list A) :
  NoDup (l ++ l') -> (forall x, x ∈ k -> x ∈ l) -> (forall x, x ∈ k' -> x ∈ l') -> NoDup k -> NoDup k' ->
  NoDup (k ++ k').
Proof.
  intros (_ & Hd & _)%NoDup_app Hk Hk' Hnd Hnd'. apply NoDup_app. split; [done|]. split; [|done].
  intros x Hx Hx'. by apply (Hd x); auto.
Qed.

Lemma NoDup_short {A} (l : list A) : (length l <= 1)%nat -> NoDup l.
Proof. destruct l as [|x [|]]; cbn; [constructor|intros; apply NoDup_singleton|lia]. Qed.

Lemma root_of_ids g a ro :
  root_of g a ro -> (length ro <= 1)%nat /\ (forall r, r ∈ ro -> root_objects g !! sender a = Some r) /\
  length ro = (if decide (root_objects g = ∅) then 0 else 1)%nat.
Proof.
  unfold root_of. case_decide; [intros ->; cbn; split; [lia|]; split; [by intros r ?%elem_of_nil|done]|].
  intros (r & Hr & ->). cbn. split; [lia|]. split; [|done]. by intros r' ->%list_elem_of_singleton.
Qed.

Lemma ref_ids_elem (m : gmap SuiAddress ObjectRef) k r : m !! k = Some r -> ref_id r ∈ ref_ids m.
Proof. intros Hr. apply elem_of_map. exists (k, r). by rewrite elem_of_map_to_list. Qed.

Lemma land_ids_elem (m : gmap Z (ObjectID * Z)) i so : m !! i = Some so -> so.1 ∈ land_ids m.
Proof. intros Hi. apply elem_of_map. exists (i, so). by rewrite elem_of_map_to_list. Qed.

(** The inputs of a user's transaction have distinct identifiers. *)
Lemma inputs_distinct w ctx g k a args rs sh ro la :
  holds w ctx g -> context_ok ctx -> user_accounts ctx !! k = Some a ->
  (forall r, r ∈ rs -> r ∈ gas_objects a) -> NoDup (map ref_id rs) ->
  shared_of g args sh -> root_of g a ro -> land_of g la ->
  NoDup (map arg_id (inputs_of rs sh ro [] [] la)).
Proof.
  intros [_ _ _ [Hids _] _] Hok Ha Hrs Hnd Hsh Hro Hla.
  apply shared_of_args in Hsh as (_ & Hsh & Hshids & Hshl). apply land_of_args in Hla as (_ & Hla & Hlaids & Hlal).
  apply root_of_ids in Hro as (Hrol & Hro & _).
  assert (Hperm : NoDup (gas_ids (user_accounts ctx) ++ map fst (shared_objects g) ++ ref_ids (root_objects g) ++
    land_ids (land_objects g))).
  { assert (Hp : gas_ids (user_accounts ctx) ++ held_ids g ≡ₚ ref_ids (kitty_objects g) ++ gas_ids (user_accounts ctx) ++
      map fst (shared_objects g) ++ ref_ids (root_objects g) ++ land_ids (land_objects g)).
    { unfold held_ids. solve_Permutation. }
    rewrite Hp in Hids. by apply NoDup_app in Hids as (_ & _ & ?). }
  assert (Hsub1 : forall id, id ∈ map ref_id rs -> id ∈ gas_ids (user_accounts ctx)).
  { intros id (r & -> & Hr)%elem_of_map. eapply accounts_elem; [exact Ha|]. by apply (elem_of_map_1 ref_id), Hrs. }
  assert (Hsub2 : forall id, id ∈ map arg_id sh -> id ∈ map fst (shared_objects g)).
  { intros id. rewrite Hshids. intros (so & -> & Hso)%elem_of_map. by apply elem_of_map_1, Hsh. }
  assert (Hsub3 : forall id, id ∈ map ref_id ro -> id ∈ ref_ids (root_objects g)).
  { intros id (r & -> & Hr%Hro)%elem_of_map. by eapply ref_ids_elem. }
  assert (Hsub4 : forall id, id ∈ map arg_id la -> id ∈ land_ids (land_objects g)).
  { intros id. rewrite Hlaids. intros (so & -> & [i Hso]%Hla)%elem_of_map. by eapply land_ids_elem. }
  unfold inputs_of. rewrite !map_app, !map_map. cbn [map app arg_id].
  eapply NoDup_app_sub; [exact Hperm|done| |exact Hnd|].
  { intros id. rewrite !elem_of_app. naive_solver. }
  apply NoDup_app in Hperm as (_ & _ & Hperm). eapply NoDup_app_sub; [exact Hperm|done| |..].
  { intros id. rewrite !elem_of_app. naive_solver. }
  { apply NoDup_short. rewrite length_map, Hshl. destruct (decide (shared_objects g = [])); lia. }
  apply NoDup_app in Hperm as (_ & _ & Hperm). eapply NoDup_app_sub; [exact Hperm|done|done|..].
  { apply NoDup_short. by rewrite length_map. }
  { apply NoDup_short. rewrite length_map, Hlal. destruct (decide (land_objects g = ∅)); lia. }
Qed.

(** Keys from zero on are counted by the size of the map. *)
Lemma numbered_size {A} (m : gmap Z A) n :
  0 <= n -> (forall i, is_Some (m !! i) <-> 0 <= i < n) -> Z.of_nat (size m) = n.
Proof.
  intros Hn Hm. rewrite <-size_dom.
  assert (dom m = list_to_set (seqZ 0 n)) as ->.
  { apply set_eq. intros i. rewrite elem_of_dom, Hm, elem_of_list_to_set, elem_of_seqZ. lia. }
  rewrite size_list_to_set by apply NoDup_seqZ. rewrite length_seqZ. lia.
Qed.

Lemma prepared_lands o ctx g :
  options_fit o (Z.of_nat (size (user_accounts ctx))) -> prepared o ctx g -> lands_numbered g.
Proof.
  intros [_ _ _ [Hl Hb]] [_ _ _ _ Hla].
  assert (Hs : Z.of_nat (size (land_objects g)) = Z.min (num_land_objects o) (Z.of_nat (size (user_accounts ctx)))).
  { apply numbered_size; [lia|done]. }
  split; [lia|]. intros i. by rewrite Hs.
Qed.

(** The shared object of a number, if there are any: the numbers go round them. *)
Definition shared_at g (i : Z) : list (ObjectID * Z) :=
  option_list (shared_objects g !! Z.to_nat (i mod Z.of_nat (length (shared_objects g)))).

(** The transaction of a user with a number: sent and signed by the user and paid with
    its first gas object, it owns all its gas objects and its root, and shares the
    object of the number and a land. *)
Definition user_tx g (i : Z) a (tx : Transaction) : Prop :=
  exists gas ro la, gas_objects a !! 0%nat = Some gas /\ signed_by a gas tx /\
    root_of g a ro /\ owned_refs tx = gas_objects a ++ ro /\
    land_of g la /\ tx_shared tx = shared_at g i ++ omap shared_arg la.

Lemma user_tx_shared g i a tx :
  user_tx g i a tx ->
  (forall so, so ∈ tx_shared tx -> so ∈ shared_objects g \/ exists i, land_objects g !! i = Some so) /\
  length (tx_shared tx) = ((if decide (shared_objects g = []) then 0 else 1) +
                           (if decide (land_objects g = ∅) then 0 else 1))%nat.
Proof.
  intros (gas & ro & la & _ & _ & _ & _ & Hla & ->). apply land_of_args in Hla as (_ & Hlo & Hids & Hl).
  apply (f_equal length) in Hids. rewrite !length_map in Hids. unfold shared_at. split.
  - intros so [Hin|?%Hlo]%elem_of_app; [|by right]. left.
    destruct (shared_objects g !! _) as [so'|] eqn:E; [|by apply elem_of_nil in Hin].
    apply list_elem_of_singleton in Hin as ->. by eapply list_elem_of_lookup_2.
  - rewrite length_app, <-Hids, Hl. f_equal. destruct (decide (shared_objects g = [])) as [->|Hne]; [done|].
    destruct (lookup_lt_is_Some_2 (shared_objects g) (Z.to_nat (i mod Z.of_nat (length (shared_objects g)))))
      as [so ->]; [|done].
    destruct (shared_objects g) as [|so sos]; [done|]. pose proof (Z.mod_pos_bound i (Z.of_nat (length (so :: sos)))).
    cbn [length] in *. lia.
Qed.

(** Options of a run of [run_benchmark] that reads no file. *)
Record run_options o : Prop := {
  ro_transfers : 0 <= num_transfers o;
  ro_computation : in_range 8 (computation o);
  ro_kitty : test_kitty o = false;
  ro_erc20 : erc20_transfer o = false;
}.

(** The shared object of a number, and the root of a user. *)
Definition shared_index g (i : Z) : Z :=
  if shared_obj_num (move_tx_generator g) =? 0 then 0 else i mod shared_obj_num (move_tx_generator g).

Lemma shared_choice g i :
  exists sh, shared_of g {[ "shared_obj_index"%string := shared_index g i ]} sh /\ omap shared_arg sh = shared_at g i.
Proof.
  unfold shared_of, shared_index, shared_at. cbn [shared_obj_num move_tx_generator].
  destruct (shared_objects g) as [|so sos] eqn:E; [by exists []|].
  set (index := if _ =? 0 then 0 else _).
  assert (Hindex : index = i mod Z.of_nat (length (so :: sos))) by done. rewrite <-Hindex.
  destruct (lookup_lt_is_Some_2 (so :: sos) (Z.to_nat index)) as [so' Hso'].
  { unfold index. destruct (Z.eqb_spec (Z.of_nat (length (so :: sos))) 0) as [E0|Hne]; cbn in *; [lia|].
    pose proof (Z.mod_pos_bound i (Z.of_nat (S (length sos)))). lia. }
  exists [SharedObject so'.1 so'.2 true]. split; [by exists so'|]. cbn [omap]. rewrite Hso'. by destruct so'.
Qed.

Lemma root_choice o ctx g k a :
  prepared o ctx g -> user_accounts ctx !! k = Some a -> sender a = k -> exists ro, root_of g a ro.
Proof.
  intros [_ Hroots _ _ _] Ha Hk. unfold root_of. case_decide as Hr; [by exists []|].
  apply map_choose in Hr as (k' & r' & Hr').
  destruct (proj1 (Hroots k') (mk_is_Some _ _ Hr')) as [Hf _].
  destruct (proj2 (Hroots k)) as [r Hr]; [split; [done|by eexists]|]. rewrite Hk. eauto.
Qed.

(** The account's objects from the second on are those of the transfers. *)
Lemma transfers_of g a gas rs :
  gas_objects a = gas :: rs -> Z.of_nat (length rs) = mg_num_transfers g ->
  Forall2 (fun i r => gas_objects a !! Z.to_nat i = Some r) (transfer_range g) rs.
Proof.
  intros Eg Hlen. unfold transfer_range. rewrite Eg.
  replace (Z.to_nat (mg_num_transfers g)) with (length rs) by lia.
  apply Forall2_same_length_lookup. rewrite length_map, length_seq. split; [done|].
  intros j x y (j' & -> & Hj)%map_lookup_Some_1 Hy. apply lookup_seq in Hj as [-> _]. by rewrite Nat2Z.id.
Qed.

Lemma user_tx_ok o ctx g w0 k a i w :
  run_options o -> context_ok ctx -> prepared o ctx g -> holds w0 ctx g ->
  options_fit o (Z.of_nat (size (user_accounts ctx))) -> user_accounts ctx !! k = Some a ->
  Z.of_nat (length (gas_objects a)) = num_transfers o + 1 ->
  exists tx w', generate_numbered (move_tx_generator g) (i, a) w = Some (tx, w') /\ state w' = state w /\
    user_tx g i a tx.
Proof.
  intros [Ht Hc Hk He] Hok Hp Hh Hfit Ha Hlen.
  pose proof (prepared_lands _ _ _ Hfit Hp) as Hlands.
  pose proof (context_ok_users _ Hok) as Husers. pose proof (accounts_ok_account _ _ _ Husers Ha) as Hnd.
  destruct (shared_choice g i) as (sh & Hsh & Hat).
  destruct (root_choice o ctx g k a Hp Ha) as [ro Hro]; [by apply Husers|].
  destruct Hp as [(Hnt & _ & Hco & Her) _ _ Hki _].
  destruct (gas_objects a) as [|gas rs] eqn:Eg; [cbn in Hlen; lia|]. cbn [length] in Hlen.
  assert (Hkit : kitty_objects g = ∅).
  { apply map_eq. intros k'. rewrite lookup_empty. apply eq_None_not_Some. rewrite Hki. intros []. congruence. }
  destruct (move_tx_ok g a (sender a) {[ "shared_obj_index"%string := shared_index g i ]} [] gas rs sh ro [] [] w)
    as (tx & w' & la & Hrun & Hs & Hla & Hin & Hsig); [|done|done|by rewrite Hco| | |done|by rewrite Eg| |].
  - apply (transfers_of g a gas rs Eg). lia.
  - unfold coin_of. by rewrite Her, He.
  - unfold kitty_of. by rewrite decide_True.
  - intros la Hla. unfold account_ids in Hnd. rewrite Eg in Hnd. cbn in Hnd. apply NoDup_cons in Hnd as [_ Hnd].
    eapply inputs_distinct; [exact Hh|done|exact Ha|rewrite Eg; by right|done|exact Hsh|exact Hro|exact Hla].
  - exists tx, w'. split; [|split; [done|]].
    + unfold generate_numbered. cbn [fst snd]. rewrite <-Hrun. unfold shared_index, bindM.
      destruct (Z.eqb_spec (shared_obj_num (move_tx_generator g)) 0) as [|Hne]; [done|].
      unfold rem, lift. by rewrite (proj2 (Z.eqb_neq _ _) Hne).
    + exists gas, ro, la. unfold owned_refs, tx_shared. rewrite Hin, Eg. cbn [fst snd].
      destruct (inputs_of_owned g _ rs sh ro [] [] la Hsh Hla) as [-> ->]. by rewrite !app_nil_r, Hat.
Qed.

(** The owned identifiers of a user's transaction. *)
Definition user_ids g a : list ObjectID :=
  account_ids a ++ map ref_id (option_list (root_objects g !! sender a)).

Lemma user_tx_ids o ctx g k i a tx :
  prepared o ctx g -> user_accounts ctx !! k = Some a -> user_tx g i a tx -> owned_ids tx = user_ids g a.
Proof.
  intros Hp Ha (gas & ro & la & _ & _ & Hro & Ho & _). unfold owned_ids, user_ids. rewrite Ho, map_app. do 2 f_equal.
  unfold root_of in Hro. case_decide as Hr; [by rewrite Hr, lookup_empty, Hro|].
  by destruct Hro as (r & -> & ->).
Qed.

(** No object is owned by the transactions of two users. *)
Lemma users_ids_distinct w ctx g (accounts : list Account) :
  holds w ctx g -> context_ok ctx -> users_of ctx accounts -> NoDup (accounts ≫= user_ids g).
Proof.
  intros [_ _ _ [Hids _] _] Hok [Hnd Hin]. pose proof (context_ok_users _ Hok) as Husers.
  assert (Hdis : forall id a, a ∈ accounts -> id ∈ account_ids a -> id ∉ ref_ids (root_objects g)).
  { intros id a Ha Hida Hr. destruct (Hin _ Ha) as [k Hk]. apply NoDup_app in Hids as (_ & Hd & _).
    apply (Hd id); [by eapply accounts_elem|]. unfold held_ids. rewrite !elem_of_app. tauto. }
  assert (Hroots : NoDup (ref_ids (root_objects g))).
  { apply NoDup_app in Hids as (_ & _ & Hids). unfold held_ids in Hids. rewrite <-!app_assoc in Hids.
    by apply NoDup_app in Hids as (? & _ & _). }
  assert (Hroot : forall id a, id ∈ map ref_id (option_list (root_objects g !! sender a)) ->
            exists r, root_objects g !! sender a = Some r /\ id = ref_id r).
  { intros id a (r & -> & Hr)%elem_of_map. destruct (root_objects g !! sender a) as [r'|]; [|by apply elem_of_nil in Hr].
    cbn in Hr. apply list_elem_of_singleton in Hr as ->. eauto. }
  apply NoDup_bind.
  - intros a a' id Ha Ha' [Hi|Hi]%elem_of_app [Hi'|Hi']%elem_of_app.
    + destruct (Hin _ Ha) as [k Hk], (Hin _ Ha') as [k' Hk'].
      assert (k = k') as -> by by eapply accounts_ok_owner. congruence.
    + apply Hroot in Hi' as (r & Hr & ->). exfalso. eapply Hdis; [exact Ha|exact Hi|by eapply ref_ids_elem].
    + apply Hroot in Hi as (r & Hr & ->). exfalso. eapply Hdis; [exact Ha'|exact Hi'|by eapply ref_ids_elem].
    + apply Hroot in Hi as (r & Hr & ->), Hi' as (r' & Hr' & Heq).
      assert (sender a = sender a') as Hs.
      { apply elem_of_map_to_list in Hr, Hr'.
        assert ((sender a, r) = (sender a', r')) as [= -> _]; [|done].
        apply (NoDup_map_eq (fun kr : SuiAddress * ObjectRef => ref_id kr.2) (map_to_list (root_objects g))); done. }
      destruct (Hin _ Ha) as [k Hk], (Hin _ Ha') as [k' Hk'].
      assert (sender a = k) by by apply Husers. assert (sender a' = k') by by apply Husers. congruence.
  - intros a Ha. unfold user_ids. apply NoDup_app. destruct (Hin _ Ha) as [k Hk].
    split; [by eapply accounts_ok_account|]. split; [|destruct (root_objects g !! sender a); [apply NoDup_singleton|constructor]].
    intros id Hi (r & Hr & ->)%Hroot. eapply Hdis; [exact Ha|exact Hi|by eapply ref_ids_elem].
  - by apply NoDup_fmap_1 with (f := sender).
Qed.

Lemma holds_state w w' ctx g : state w' = state w -> holds w ctx g -> holds w' ctx g.
Proof.
  intros Hs [Hr Hk Hc Hi Hu]. unfold live_ids, kept, users_coins in *. rewrite <-Hs in *. by constructor.
Qed.

(** The transactions of the users, in some order. *)
Lemma generate_users o ctx g w :
  run_options o -> context_ok ctx -> prepared o ctx g -> holds w ctx g ->
  options_fit o (Z.of_nat (size (user_accounts ctx))) ->
  (forall k a, user_accounts ctx !! k = Some a -> Z.of_nat (length (gas_objects a)) = num_transfers o + 1) ->
  exists txs users w', generate_transactions (move_tx_generator g) ctx w = Some (txs, w') /\
    state w' = state w /\ users ≡ₚ numbered 0 (btree_values (user_accounts ctx)) /\
    Forall2 (fun ia tx => user_tx g ia.1 ia.2 tx) users txs.
Proof.
  intros Ho Hok Hp Hh Hfit Hlen.
  pose proof (numbered_from_ok 0 (btree_values (user_accounts ctx))) as Hl. rewrite btree_values_length in Hl.
  pose proof (numbered_snd 0 (btree_values (user_accounts ctx))) as Hm. set (l := numbered _ _) in *.
  destruct (collect_pure (generate_numbered (move_tx_generator g)) (fun ia tx => user_tx g ia.1 ia.2 tx) l w)
    as (txs & l' & w' & Hperm & Hrun & Hs & Huses).
  { intros [i a] w2 Hia.
    assert (Ha : a ∈ btree_values (user_accounts ctx)) by (rewrite <-Hm; by apply (elem_of_map_1 snd l (i, a))).
    apply btree_values_elem in Ha as [k Ha]. by eapply user_tx_ok; eauto. }
  exists txs, l', w'. split; [|done]. unfold generate_transactions, bindM, lift.
  rewrite Hl; [done|lia|]. destruct Hfit. lia.
Qed.

(** What a run measures: one transaction per user, of live objects that no other
    transaction owns. *)
Record generated o ctx g (txs : list Transaction) w : Prop := {
  ge_count : length txs = size (user_accounts ctx);
  ge_live : Forall (tx_live w) txs;
  ge_distinct : NoDup (txs ≫= owned_ids);
  ge_owned : Forall (fun tx => Z.of_nat (length (owned_ids tx)) =
    num_transfers o + 1 + (if num_dynamic_fields o =? 0 then 0 else 1)) txs;
  ge_shared : Forall (fun tx =>
    (forall so, so ∈ tx_shared tx -> is_Some (live (state w) so.1)) /\
    length (tx_shared tx) = ((if decide (shared_objects g = []) then 0 else 1) +
                             (if decide (land_objects g = ∅) then 0 else 1))%nat) txs;
}.

Lemma users_generated o ctx g txs users w :
  context_ok ctx -> refs_live w ctx -> prepared o ctx g -> holds w ctx g ->
  (forall k a, user_accounts ctx !! k = Some a -> Z.of_nat (length (gas_objects a)) = num_transfers o + 1) ->
  users ≡ₚ numbered 0 (btree_values (user_accounts ctx)) -> Forall2 (fun ia tx => user_tx g ia.1 ia.2 tx) users txs ->
  generated o ctx g txs w.
Proof.
  intros Hok Hlive Hp Hh Hlen Hnum HF.
  assert (Hperm : map snd users ≡ₚ btree_values (user_accounts ctx)) by by rewrite Hnum, numbered_snd.
  assert (Hin : forall a, a ∈ map snd users -> exists k, user_accounts ctx !! k = Some a).
  { intros a Ha. apply btree_values_elem. by rewrite <-Hperm. }
  assert (Htx : forall tx, tx ∈ txs -> exists k i a, user_accounts ctx !! k = Some a /\ user_tx g i a tx).
  { intros tx [j Hj]%list_elem_of_lookup_1. destruct (Forall2_lookup_r _ _ _ _ _ HF Hj) as ([i a] & Hia & Hu).
    apply list_elem_of_lookup_2, (elem_of_map_1 snd), Hin in Hia as [k Ha]. eauto. }
  constructor.
  - apply Forall2_length in HF. by rewrite <-HF, <-(length_map snd), Hperm, btree_values_length.
  - apply Forall_forall. intros tx (k & i & a & Ha & (gas & ro & la & _ & _ & Hro & Ho & _))%Htx. unfold tx_live. rewrite Ho.
    apply Forall_app. split; apply Forall_forall; intros r Hr; [by eapply account_live|].
    apply root_of_ids in Hro as (_ & Hro & _). eapply (ho_roots _ _ _ Hh), Hro, Hr.
  - assert (Heq : txs ≫= owned_ids = map snd users ≫= user_ids g).
    { clear Htx Hperm Hnum. induction HF as [|[i a] tx users txs Hu HF IH]; [done|]. cbn [map]. rewrite !bind_cons.
      destruct (Hin a) as [k Ha]; [left|]. rewrite (user_tx_ids _ _ _ _ _ _ _ Hp Ha Hu), IH; [done|].
      intros; apply Hin; by right. }
    rewrite Heq. eapply users_ids_distinct; [exact Hh|done|]. split; [|done]. rewrite Hperm.
    rewrite <-(take_ge (btree_values _) (length (btree_values (user_accounts ctx)))) by lia.
    by apply values_users.
  - apply Forall_forall. intros tx (k & i & a & Ha & Hu)%Htx. rewrite (user_tx_ids _ _ _ _ _ _ _ Hp Ha Hu).
    unfold user_ids. rewrite length_app, length_map. unfold account_ids. rewrite length_map, Nat2Z.inj_add, (Hlen _ _ Ha).
    assert (Hk : sender a = k) by by apply (context_ok_users _ Hok). rewrite Hk.
    destruct Hp as [_ Hroots _ _ _]. specialize (Hroots k).
    destruct (Z.eqb_spec (num_dynamic_fields o) 0) as [Hz|Hz], (root_objects g !! k) as [r|]; cbn; try lia.
    + destruct (proj1 Hroots) as [? _]; [by eexists|done].
    + destruct (proj2 Hroots) as [? [=]]. split; [done|by eexists].
  - apply Forall_forall. intros tx (k & i0 & a & Ha & (Hso & Hl)%user_tx_shared)%Htx. split; [|done].
    intros so [Hin'|[i Hi]]%Hso; apply (ho_ids _ _ _ Hh); unfold held_ids; rewrite !elem_of_app.
    + right; left; left; right. by apply elem_of_map_1.
    + right; right. by eapply land_ids_elem.
Qed.

(** The run up to the generated transactions. *)
Lemma run_generated o component print_sample_tx tx_count w :
  let workload := mkWorkload tx_count (KindPTB o) in
  let n := reserved workload print_sample_tx in
  0 <= tx_count -> run_options o -> Z.of_nat n * (num_transfers o + 1) < 2 ^ 64 ->
  NoDup (draw_keys n (entropy w)).*1 -> options_fit o (Z.of_nat n - 1) ->
  exists ctx0 w0 g ctx w1 txs w',
    context_new workload component print_sample_tx EmptyString w = Some (ctx0, w0) /\
    create_move_tx_generator o ctx0 w0 = Some ((g, ctx), w1) /\
    generate_transactions (move_tx_generator g) ctx w1 = Some (txs, w') /\
    same_shape ctx0 ctx /\ published (state w') (move_package g) /\ context_ok ctx /\ holds w' ctx g /\
    S (length txs) = n /\ prepared o ctx g /\ generated o ctx g txs w' /\
    exists users, users ≡ₚ numbered 0 (btree_values (user_accounts ctx)) /\
      Forall2 (fun ia tx => user_tx g ia.1 ia.2 tx) users txs.
Proof.
  intros workload n Hc Ho Hn Hkeys Hfit.
  destruct (ptb_prepared o component print_sample_tx tx_count w Hc (ro_transfers _ Ho) Hn Hkeys Hfit)
    as (ctx0 & w0 & g & ctx & w1 & Hnew & Hg & Hsh & Hpub & Hok & Hlive & Hp & Hh & Hsize & Hlen).
  change (S (size (user_accounts ctx)) = n) in Hsize.
  replace (Z.of_nat n - 1) with (Z.of_nat (size (user_accounts ctx))) in Hfit by lia.
  destruct (generate_users o ctx g w1 Ho Hok Hp Hh Hfit Hlen) as (txs & users & w' & Hrun & Hs & Hperm & HF).
  assert (Hh' : holds w' ctx g) by by eapply holds_state.
  assert (Hgen : generated o ctx g txs w').
  { eapply users_generated; [done| |done|done|done|exact Hperm|exact HF].
    intros k a r. rewrite Hs. apply Hlive. }
  exists ctx0, w0, g, ctx, w1, txs, w'. do 4 (split; [done|]). split; [by rewrite Hs|].
  do 2 (split; [done|]). split; [by rewrite (ge_count _ _ _ _ _ Hgen)|]. do 2 (split; [done|]). by exists users.
Qed.


End runs.
