(* ===== verification/SuiProgramSpec.v ===== *)
(** The programs of the benchmark's transactions, and what the validator promises
    about certifying and executing them. *)
From stdpp Require Import base list option numbers strings gmap sorting.
From S2P Require Import Prelude Machine FileSystem BenchMain SuiTypes SuiStore SuiWorld SuiAccounts SuiAccountsSpec SuiGenerators SuiNode SuiContext SuiContextSpec SuiBench SuiJobsSpec SuiPrepareSpec SuiTxSpec SuiRunSpec.
Open Scope Z_scope.

(** ** Programs *)

Section programs.
Context `{SuiEnv} `{!ValidatorLaws}.

(** The programs of an address over its own objects, with the number of their
    commands: transfers of its coins, reads of its roots, computations, and genes
    of its kitties. *)
Inductive program (package : ObjectID) (s : AuthorityState) (max_rounds : Z) (a : SuiAddress) : nat -> PTB -> Prop :=
| program_new : program package s max_rounds a 0 ptb_new
| program_transfer n b b' r :
    program package s max_rounds a n b -> owned_as s (ref_id r) = Some (Coin, a) ->
    transfer_object a r b = Some b' -> program package s max_rounds a (S n) b'
| program_transfer_coin n b b' r :
    program package s max_rounds a n b -> owned_as s (ref_id r) = Some (Coin, a) ->
    call_ package "benchmark" "transfer_coin" [ObjectCallArg (ImmOrOwnedObject r)] b = Some b' ->
    program package s max_rounds a (S n) b'
| program_read n b ab b' root :
    program package s max_rounds a n b -> owned_as s (ref_id root) = Some (Root, a) ->
    ptb_obj (ImmOrOwnedObject root) b = Some ab ->
    programmable_call package "benchmark" "read_dynamic_fields" [ab.1] ab.2 = Some b' ->
    program package s max_rounds a (S n) b'
| program_compute n b ab b' rounds :
    program package s max_rounds a n b -> rounds <= max_rounds -> ptb_pure_u64 rounds b = Some ab ->
    programmable_call package "benchmark" "run_computation" [ab.1] ab.2 = Some b' ->
    program package s max_rounds a (S n) b'
| program_gene n b b' kitty to bytes :
    program package s max_rounds a n b -> owned_as s (ref_id kitty) = Some (Kitty, a) ->
    bcs_address to = Some bytes ->
    call_ package "KittyBreeding" "provide_gene" [ObjectCallArg (ImmOrOwnedObject kitty); Pure bytes] b = Some b' ->
    program package s max_rounds a (S n) b'.

(** An address and the key pair that was drawn with it. *)
Definition drawn (kp : SuiAddress * AccountKeyPair) : Prop := exists e, (get_account_key_pair e).1 = kp.

(** A transaction of such a program, signed by the owner of its objects. *)
Definition user_program (max_commands : nat) (max_rounds : Z) (s : AuthorityState) (tx : Transaction) : Prop :=
  exists package a gas n b,
    published s package /\ drawn (sender a, keypair a) /\ owned_as s (ref_id gas) = Some (Coin, sender a) /\
    program package s max_rounds (sender a) n b /\ (n <= max_commands)%nat /\
    tx = build_and_sign (keypair a)
           (ttb_programmable (ptb_finish b) (ttb_new (sender a) gas DEFAULT_VALIDATOR_GAS_PRICE)).

(** Steps that keep the objects outside [ids], the packages, the owners and what was
    executed. *)
Record untouched (ids : list ObjectID) (s s' : AuthorityState) : Prop := {
  un_live : forall id r, id ∉ ids -> live s id = Some r -> live s' id = Some r;
  un_published : forall p, published s p -> published s' p;
  un_owned : forall id x, owned_as s id = Some x -> owned_as s' id = Some x;
  un_executed : forall d, executed s d -> executed s' d;
}.

Lemma untouched_refl ids s : untouched ids s s.
Proof. by constructor. Qed.

Lemma untouched_trans ids s1 s2 s3 : untouched ids s1 s2 -> untouched ids s2 s3 -> untouched ids s1 s3.
Proof. intros [? ? ? ?] [? ? ? ?]. constructor; auto. Qed.

Lemma program_untouched package s s' rounds a ids n b :
  untouched ids s s' -> program package s rounds a n b -> program package s' rounds a n b.
Proof.
  intros [_ _ Ho _]. induction 1.
  - apply program_new.
  - by eapply program_transfer; eauto.
  - by eapply program_transfer_coin; eauto.
  - by eapply program_read; eauto.
  - by eapply program_compute; eauto.
  - by eapply program_gene; eauto.
Qed.

Lemma user_program_untouched commands rounds s s' ids tx :
  untouched ids s s' -> user_program commands rounds s tx -> user_program commands rounds s' tx.
Proof.
  intros Hu (package & a & gas & n & b & Hp & Hd & Ho & Hprog & Hrest). exists package, a, gas, n, b.
  split; [by apply (un_published _ _ _ Hu)|]. split; [done|]. split; [by apply (un_owned _ _ _ Hu)|].
  split; [by eapply program_untouched|done].
Qed.

End programs.

(** ** What the validator promises *)

Section runnable.
Context `{SuiEnv} `{!ValidatorLaws} `{!BuilderLaws}.

(** A transaction that can be executed: a program of owned objects, all live. *)
Record runnable (max_commands : nat) (max_rounds : Z) (s : AuthorityState) (tx : Transaction) : Prop := {
  rn_program : user_program max_commands max_rounds s tx;
  rn_live : Forall (fun r => live s (ref_id r) = Some r) (owned_refs tx);
  rn_distinct : NoDup (owned_ids tx);
  rn_owned : tx_shared tx = [];
}.

(** One that can be signed: none of its objects is locked. *)
Definition signable max_commands max_rounds (s : AuthorityState) (tx : Transaction) : Prop :=
  runnable max_commands max_rounds s tx /\ Forall (fun r => ~ locked s r) (owned_refs tx).

(** Signing a transaction locks its objects. *)
Definition signing (tx : Transaction) (s s' : AuthorityState) : Prop :=
  untouched [] s s' /\ forall r, locked s' r -> locked s r \/ r ∈ owned_refs tx.

(** A transaction whose only object besides the gas is the kitty that gives its
    gene to the sender. *)
Definition gives_gene (max_rounds : Z) (s : AuthorityState) (a : Account) (gas kitty : ObjectRef) (tx : Transaction) : Prop :=
  exists package n b0 bytes b,
    program package s max_rounds (sender a) n b0 /\ ptb_inputs b0 = [] /\
    owned_as s (ref_id kitty) = Some (Kitty, sender a) /\ bcs_address (sender a) = Some bytes /\
    call_ package "KittyBreeding" "provide_gene" [ObjectCallArg (ImmOrOwnedObject kitty); Pure bytes] b0 = Some b /\
    tx = build_and_sign (keypair a)
           (ttb_programmable (ptb_finish b) (ttb_new (sender a) gas DEFAULT_VALIDATOR_GAS_PRICE)).

(** Its effects: the gene is created for the sender, under a new identifier, and
    the gas and the kitty have new versions. *)
Record gene_given (a : SuiAddress) (gas kitty : ObjectRef) (e : TransactionEffects) (s s' : AuthorityState) : Prop := {
  gg_gas : ref_id (gas_object e) = ref_id gas /\ live s' (ref_id gas) = Some (gas_object e);
  gg_created : exists gene o, created e = [(gene, o)] /\ get_address_owner_address o = Some a /\
    live s (ref_id gene) = None /\ live s' (ref_id gene) = Some gene;
  gg_mutated : exists kitty' o o', mutated e ≡ₚ [(gas_object e, o'); (kitty', o)] /\
    get_address_owner_address o = Some a /\ ref_id kitty' = ref_id kitty /\ live s' (ref_id kitty) = Some kitty';
}.

(** Steps that change no object and lock none. *)
Definition takes (s s' : AuthorityState) : Prop :=
  untouched [] s s' /\ forall r, locked s' r -> locked s r.

(** Executing a transaction changes its objects, locks none, and is for good. *)
Record executes (max_rounds : Z) (tx : Transaction) (e : TransactionEffects) (s s' : AuthorityState) : Prop := {
  ex_ok : status_is_ok e = true;
  ex_untouched : untouched (owned_ids tx) s s';
  ex_unlocked : forall r, locked s' r -> locked s r;
  ex_executed : executed s' (effects_digest e);
  ex_gene : forall a gas kitty, gives_gene max_rounds s a gas kitty tx -> gene_given (sender a) gas kitty e s s';
}.

End runnable.

Class ExecutionLaws `{SuiEnv} `{!ValidatorLaws} `{!BuilderLaws} := {
  (** The commands of a program and the rounds of a computation that the gas of a
      transaction pays for. *)
  max_commands : nat;
  max_rounds : Z;
  (** The validator is the whole committee: its signature makes a certificate. *)
  cert_of_secret tx s :
    exists c, cert_new tx [sign_with_secret 0 tx s] = Some c /\ cert_into_unsigned c = tx;
  handle_signs tx s : signable max_commands max_rounds s tx ->
    exists sig s' c, state_handle_transaction tx s = (Ok sig, s') /\ signing tx s s' /\
      cert_new tx [sig] = Some c /\ cert_into_unsigned c = tx;
  handle_for_testing_signs tx s : signable max_commands max_rounds s tx ->
    exists r s', handle_transaction_for_testing tx s = (Ok r, s') /\ signing tx s s';
  contains_shared c : contains_shared_object c = negb (bool_decide (tx_shared (cert_into_unsigned c) = []));
  (** Without shared objects there are no versions to assign. *)
  assign_owned certs s : Forall (fun c => tx_shared (cert_into_unsigned c) = []) certs ->
    exists versions, assign_versions_from_consensus (map new_from_certificate certs) s = Ok versions /\
      takes s (set_assigned_shared_object_versions versions s);
  (** The executions, by the ways in which the benchmark asks for them. *)
  execute_sample tx s : runnable max_commands max_rounds s tx ->
    exists e s', try_execute_immediately (new_from_quorum_execution tx 0) s = (Ok e, s') /\ executes max_rounds tx e s s';
  execute_immediately c s : runnable max_commands max_rounds s (cert_into_unsigned c) ->
    exists e s', try_execute_immediately (new_from_certificate c) s = (Ok e, s') /\
      executes max_rounds (cert_into_unsigned c) e s s';
  execute_managed c s : runnable max_commands max_rounds s (cert_into_unsigned c) ->
    exists e s', state_execute_certificate c s = (Ok e, s') /\ executes max_rounds (cert_into_unsigned c) e s s';
  (** The service submits the certificate to the consensus client, which must take it. *)
  execute_service submit c s :
    runnable max_commands max_rounds s (cert_into_unsigned c) ->
    (forall s1, exists s2, submit (UserTransaction c) s1 = Some s2 /\ takes s1 s2) ->
    exists e s', execute_certificate_for_testing submit c s = Some (Ok e, s') /\
      executes max_rounds (cert_into_unsigned c) e s s';
  process_consensus c s : tx_shared (cert_into_unsigned c) = [] ->
    exists s', process_consensus_transactions_for_tests (UserTransaction c) s = (Ok tt, s') /\ takes s s';
}.

Section stable.
Context `{SuiEnv} `{!ValidatorLaws} `{!BuilderLaws} `{!ExecutionLaws}.

Abbreviation can_run := (runnable max_commands max_rounds).
Abbreviation can_sign := (signable max_commands max_rounds).

(** What changes other objects keeps a transaction executable. *)
Lemma runnable_untouched ids s s' tx :
  untouched ids s s' -> (forall id, id ∈ ids -> id ∉ owned_ids tx) -> can_run s tx -> can_run s' tx.
Proof.
  intros Hu Hd [Hp Hl Hnd Hsh]. constructor; [by eapply user_program_untouched| |done|done].
  rewrite Forall_forall in Hl |- *. intros r Hr. apply (un_live _ _ _ Hu); [|by apply Hl].
  intros Hin. apply (Hd _ Hin). unfold owned_ids. by apply elem_of_map_1.
Qed.

(** What signs another transaction keeps a transaction signable. *)
Lemma signable_signing tx tx' s s' :
  signing tx s s' -> (forall id, id ∈ owned_ids tx -> id ∉ owned_ids tx') -> can_sign s tx' -> can_sign s' tx'.
Proof.
  intros [Hu Hlk] Hd [Hrun Hun]. split; [eapply runnable_untouched; [exact Hu|by intros id ?%elem_of_nil|done]|].
  rewrite Forall_forall in Hun |- *. intros r Hr [Hl|Hin]%Hlk; [by eapply Hun|].
  apply (Hd (ref_id r)); unfold owned_ids; by apply elem_of_map_1.
Qed.

End stable.
