(* ===== verification/SuiExecutionSpec.v ===== *)
(** Complete runs of the Sui single-node benchmark: the generated transactions are
    certified and executed, and the run reports how many there were. *)
From stdpp Require Import base list option numbers strings gmap sorting.
From S2P Require Import Prelude Machine FileSystem BenchMain SuiTypes SuiStore SuiWorld SuiAccounts SuiAccountsSpec SuiGenerators SuiNode SuiContext SuiContextSpec SuiBench SuiJobsSpec SuiPrepareSpec SuiReportsSpec SuiTxSpec SuiRunSpec SuiProgramSpec.
Open Scope Z_scope.

Section generated.
Context `{SuiEnv} `{!ValidatorLaws}.
Implicit Types (g : MoveTxGenerator) (a : Account) (w : World) (ctx : BenchmarkContext) (o : PTBOptions).

(** ** Keys of the accounts *)

Definition keys_drawn ctx : Prop :=
  forall k a, user_accounts ctx !! k = Some a -> drawn (sender a, keypair a).

Lemma create_account_drawn num start w c w' : create_account num start w = Some (c, w') -> drawn c.1.
Proof.
  unfold create_account, random. intros (kp & w1 & Hkp & (objs & w2 & _ & [= <- _])%bindM_Some)%bindM_Some.
  exists (entropy w). destruct (get_account_key_pair (entropy w)). by injection Hkp as <- _.
Qed.

Lemma context_keys workload component print_sample_tx w ctx w' :
  context_new workload component print_sample_tx EmptyString w = Some (ctx, w') -> keys_drawn ctx.
Proof.
  unfold context_new, new_from_workload. rewrite decide_True by done.
  intros (n & w1 & _ & (per & w2 & _ & (total & w3 & _ & (r & w4 & Hr & (u & w5 & _ & (p & w6 & Hp & Hv)%bindM_Some)
    %bindM_Some)%bindM_Some)%bindM_Some)%bindM_Some)%bindM_Some.
  apply bindM_Some in Hv as (v & w7 & _ & [= <- _]). apply lift_Some in Hp as [Hp _].
  unfold batch_create_account_and_gas in Hr. apply bindM_Some in Hr as (starts & w8 & _ & Hr).
  apply bindM_Some in Hr as (cs & w9 & Hcs & [= <- _]). rewrite add_accounts_eq in Hp. cbn in Hp.
  apply (collect_all (fun c => drawn c.1)) in Hcs.
  2:{ intros t w10 c w11 (start & -> & _)%elem_of_map. apply create_account_drawn. }
  intros k a Ha. cbn in Ha. unfold pop_last in Hp. destruct (last _) as [[k' v']|]; [|done]. injection Hp as <-.
  cbn in Ha. apply lookup_delete_Some in Ha as [_ Ha%collect_map_lookup].
  apply elem_of_map in Ha as ([[a' kp] objs] & [= -> ->] & Hin). rewrite Forall_forall in Hcs. apply (Hcs _ Hin).
Qed.

Lemma keys_shape ctx ctx' : same_shape ctx ctx' -> keys_drawn ctx -> keys_drawn ctx'.
Proof.
  intros Hs Hk k a' Ha'. destruct (shape_lookup _ _ _ _ Hs Ha') as (a & Ha & [= -> -> _]). by eapply Hk.
Qed.

(** ** The component of the context *)

(** Skip the steps of a body, to its result. *)
Ltac last_step H := repeat (apply bindM_Some in H as (? & ? & _ & H)); by injection H as _ <- _.

Ltac case_match_in H := match type of H with context [if ?b then _ else _] => destruct b end.

Lemma component_prepared o ctx w g ctx' w' :
  create_move_tx_generator o ctx w = Some ((g, ctx'), w') -> benchmark_component ctx' = benchmark_component ctx.
Proof.
  unfold create_move_tx_generator, publish_package, preparing_dynamic_fields, prepare_shared_objects,
    prepare_kitty_objects, prepare_land_objects.
  intros ([p c1] & w1 & H1 & ([r c2] & w2 & H2 & ([sh c3] & w3 & H3 & ([ki c4] & w4 & H4 & ([la c5] & w5 & H5 & H6)
    %bindM_Some)%bindM_Some)%bindM_Some)%bindM_Some)%bindM_Some.
  cbn [fst snd] in *. injection H6 as _ <- _.
  trans (benchmark_component c4); [case_match_in H5; last_step H5|].
  trans (benchmark_component c3); [case_match_in H4; last_step H4|].
  trans (benchmark_component c2); [case_match_in H3; last_step H3|].
  trans (benchmark_component c1); [case_match_in H2; last_step H2|].
  last_step H1.
Qed.

Lemma component_new workload component print_sample_tx w ctx w' :
  context_new workload component print_sample_tx EmptyString w = Some (ctx, w') ->
  benchmark_component ctx = component.
Proof.
  unfold context_new, new_from_workload. rewrite decide_True by done.
  intros Hr. repeat (apply bindM_Some in Hr as (? & ? & _ & Hr)). by injection Hr as <- _.
Qed.

(** ** Generated transactions are programs *)

Section program.
Context (g : MoveTxGenerator) (a : Account) (s : AuthorityState) (rounds : Z).
Hypothesis (Hcoins : forall r, r ∈ gas_objects a -> owned_as s (ref_id r) = Some (Coin, sender a)).
Hypothesis (Hroot : forall r, root_objects g !! sender a = Some r -> owned_as s (ref_id r) = Some (Root, sender a)).
Abbreviation prog := (program (move_package g) s rounds (sender a)).

Lemma transfers_program idxs n b b' :
  transfer_all g a b idxs = Some b' -> prog n b -> prog (length idxs + n) b'.
Proof.
  revert n b. induction idxs as [|i idxs IH]; intros n b; cbn; [by intros [= <-]|].
  intros (b1 & Hb1 & Hrest)%bind_Some Hp. unfold transfer_one in Hb1.
  apply bind_Some in Hb1 as (r & Hr & Hb1). apply list_elem_of_lookup_2, Hcoins in Hr.
  rewrite <-Nat.add_succ_r. apply (IH _ b1 Hrest).
  destruct (mg_use_native_transfer g); [by eapply program_transfer|by eapply program_transfer_coin].
Qed.

Lemma read_program n b b' :
  read_dynamic_fields g a b = Some b' -> prog n b -> exists n', (n' <= S n)%nat /\ prog n' b'.
Proof.
  unfold read_dynamic_fields. case_decide; [intros [= <-]; exists n; split; [lia|done]|].
  intros (r & Hr & (ab & Hab & Hc)%bind_Some)%bind_Some Hp. exists (S n). split; [done|].
  eapply program_read; eauto.
Qed.

Lemma compute_program n b b' :
  in_range 8 (mg_computation g) -> mg_computation g * 100 <= rounds ->
  run_computation g b = Some b' -> prog n b -> exists n', (n' <= S n)%nat /\ prog n' b'.
Proof.
  intros Hc Hr. unfold run_computation. destruct (mg_computation g >? 0); [|intros [= <-]; exists n; split; [lia|done]].
  intros (ab & Hab & Hcall)%bind_Some Hp. apply bind_Some in Hab as (x & Hx & Hab).
  unfold mul in Hx. rewrite wrap_in in Hx by (unfold in_range in *; lia). injection Hx as <-.
  exists (S n). split; [done|]. eapply program_compute; eauto.
Qed.

(** A transaction of a generator without shared objects, kitties, lands and ERC-20. *)
Lemma move_program to args objects w tx w' commands :
  shared_objects g = [] -> mg_erc20_transfer g = false -> kitty_objects g = ∅ -> land_objects g = ∅ ->
  in_range 8 (mg_computation g) -> mg_computation g * 100 <= rounds ->
  (Z.to_nat (mg_num_transfers g) + 2 <= commands)%nat ->
  published s (move_package g) -> drawn (sender a, keypair a) ->
  move_generate_tx g a to args objects w = Some (tx, w') -> user_program commands rounds s tx.
Proof.
  intros Hsh He Hk Hl Hc Hr Hn Hp Hd. unfold move_generate_tx.
  intros (b & w1 & [Hb ->]%lift_Some & (b7 & w2 & H7 & (gas & w3 & [Hgas ->]%lift_Some & [= <- _])%bindM_Some)
    %bindM_Some)%bindM_Some.
  unfold land_step in H7. rewrite Hl, map_size_empty in H7. injection H7 as <- _.
  apply bind_Some in Hb as (b1 & H1 & Hb). apply bind_Some in Hb as (b2 & H2 & Hb).
  unfold increment_shared in H2. rewrite Hsh in H2. injection H2 as <-.
  apply bind_Some in Hb as (b3 & H3 & Hb). apply bind_Some in Hb as (b4 & H4 & Hb).
  apply bind_Some in Hb as (b5 & H5 & H6). unfold erc20_step in H5. rewrite He in H5. injection H5 as <-.
  unfold kitty_step in H6. rewrite Hk, map_size_empty in H6. injection H6 as <-.
  pose proof (transfers_program _ 0 _ _ H1 (program_new _ _ _ _)) as P0.
  destruct (read_program _ _ _ H3 P0) as (n1 & Hn1 & P1).
  destruct (compute_program _ _ _ Hc Hr H4 P1) as (n2 & Hn2 & P2).
  exists (move_package g), a, gas, n2, b4. do 2 (split; [done|]).
  split; [by eapply Hcoins, list_elem_of_lookup_2|]. split; [done|]. split; [|done].
  unfold transfer_range in Hn1. rewrite length_map, length_seq in Hn1. lia.
Qed.

End program.

End generated.

(** ** Certifying and executing *)

Section execution.
Context `{SuiEnv} `{!ObjectLaws} `{!ValidatorLaws} `{!BuilderLaws} `{!ExecutionLaws}.
Implicit Types (g : MoveTxGenerator) (a : Account) (w : World) (ctx : BenchmarkContext) (o : PTBOptions).
Abbreviation can_run := (runnable max_commands max_rounds).
Abbreviation can_sign := (signable max_commands max_rounds).

(** Tasks on disjoint objects all succeed: one task keeps what the others need. *)
Lemma seqM_disjoint {X Y} (f : X -> M World Y) (ids : X -> list ObjectID) (P : AuthorityState -> X -> Prop)
    (I : AuthorityState -> Prop) (Q : X -> Y -> Prop) (xs : list X) w :
  (forall x w, x ∈ xs -> P (state w) x -> I (state w) -> exists y w', f x w = Some (y, w') /\ Q x y /\ I (state w') /\
     forall z, P (state w) z -> (forall id, id ∈ ids x -> id ∉ ids z) -> P (state w') z) ->
  NoDup (xs ≫= ids) -> Forall (P (state w)) xs -> I (state w) ->
  exists ys w', seqM (map f xs) w = Some (ys, w') /\ Forall2 Q xs ys /\ I (state w').
Proof.
  intros Hf Hnd HP. revert w HP. induction xs as [|x xs IH]; intros w HP HI.
  { exists [], w. split; [done|]. split; [constructor|done]. }
  rewrite bind_cons in Hnd. apply NoDup_app in Hnd as (_ & Hd & Hnd). apply Forall_cons in HP as [Hx HP].
  destruct (Hf x w) as (y & w1 & Hy & HQ & HI1 & Hkeep); [left|done|done|].
  destruct (IH (fun z w' Hz => Hf z w' (list_elem_of_further _ _ _ Hz)) Hnd w1) as (ys & w2 & Hys & HQs & HI2); [|done|].
  { rewrite Forall_forall in HP |- *. intros z Hz. apply Hkeep; [by apply HP|].
    intros id Hid Hid'. apply (Hd _ Hid). apply list_elem_of_bind. by exists z. }
  exists (y :: ys), w2. split; [cbn; unfold bindM; by rewrite Hy, Hys|]. split; [by constructor|done].
Qed.

Lemma collect_disjoint {X Y} (f : X -> M World Y) (ids : X -> list ObjectID) (P : AuthorityState -> X -> Prop)
    (I : AuthorityState -> Prop) (Q : X -> Y -> Prop) (xs : list X) w :
  (forall x w, x ∈ xs -> P (state w) x -> I (state w) -> exists y w', f x w = Some (y, w') /\ Q x y /\ I (state w') /\
     forall z, P (state w) z -> (forall id, id ∈ ids x -> id ∉ ids z) -> P (state w') z) ->
  NoDup (xs ≫= ids) -> Forall (P (state w)) xs -> I (state w) ->
  exists ys xs' w', collect_tasks (map f xs) w = Some (ys, w') /\ xs' ≡ₚ xs /\ Forall2 Q xs' ys /\ I (state w').
Proof.
  intros Hf Hnd HP HI. pose proof (arrange_perm (schedule (steps w)) xs) as Hp.
  destruct (seqM_disjoint f ids P I Q (arrange (schedule (steps w)) xs)
    (mkWorld (state w) (entropy w) (S (steps w)) (reports w))) as (ys & w' & Hrun & HQ & HI').
  - intros x w1 Hx. apply Hf. by rewrite Hp in Hx.
  - by rewrite Hp.
  - by rewrite Hp.
  - done.
  - exists ys, (arrange (schedule (steps w)) xs), w'. split; [|done].
    unfold collect_tasks, next, bindM. by rewrite arrange_map.
Qed.

Lemma signing_refl tx s : signing tx s s.
Proof. split; [apply untouched_refl|]. by left. Qed.

Lemma certify_one_ok skip_signing tx w :
  can_sign (state w) tx ->
  exists c w', certify_one skip_signing tx w = Some (c, w') /\ cert_into_unsigned c = tx /\
    signing tx (state w) (state w').
Proof.
  intros Hs. unfold certify_one, gets, on_state, bindM. destruct skip_signing.
  - destruct (cert_of_secret tx (state w)) as (c & Hc & Htx). exists c, w. cbn. rewrite Hc.
    split; [done|]. split; [done|]. apply signing_refl.
  - destruct (handle_signs _ _ Hs) as (sig & s' & c & Hh & Hsig & Hc & Htx).
    eexists c, _. rewrite Hh. cbn. rewrite Hc. split; [done|]. done.
Qed.

(** The transactions are certified, whatever the order, and can be executed. *)
Lemma certify_ok skip_signing txs w :
  Forall (can_sign (state w)) txs -> NoDup (txs ≫= owned_ids) ->
  exists certs w', certify_transactions txs skip_signing w = Some (certs, w') /\
    map cert_into_unsigned certs ≡ₚ txs /\ untouched [] (state w) (state w').
Proof.
  intros Hs Hnd.
  destruct (collect_disjoint (certify_one skip_signing) owned_ids can_sign (untouched [] (state w))
    (fun tx c => cert_into_unsigned c = tx) txs w) as (certs & txs' & w' & Hrun & Hp & HQ & Hu).
  - intros tx w1 Htx Hsig HI. destruct (certify_one_ok skip_signing tx w1 Hsig) as (c & w2 & Hc & Hu & Hsi).
    exists c, w2. do 2 (split; [done|]). split; [eapply untouched_trans; [exact HI|apply Hsi]|].
    intros z Hz Hd. by eapply signable_signing.
  - done.
  - done.
  - apply untouched_refl.
  - exists certs, w'. split; [done|]. split; [|done]. rewrite <-Hp.
    clear -HQ. induction HQ as [|tx c ? ? <- _ IH]; [done|]. cbn. by constructor.
Qed.

Lemma runnable_kept s s' txs : untouched [] s s' -> Forall (can_run s) txs -> Forall (can_run s') txs.
Proof.
  intros Hu Hr. eapply Forall_impl; [exact Hr|]. intros tx.
  eapply runnable_untouched; [exact Hu|by intros id ?%elem_of_nil].
Qed.

Lemma assigned_ok certs w :
  Forall (fun c => tx_shared (cert_into_unsigned c) = []) certs ->
  exists w', assigned_shared_object_versions certs w = Some (tt, w') /\ takes (state w) (state w').
Proof.
  intros Hc. destruct (assign_owned certs (state w) Hc) as (versions & Hv & Hu).
  eexists. unfold assigned_shared_object_versions, gets, bindM. cbn. rewrite Hv. cbn. done.
Qed.

(** The consensus client takes the certificates of owned objects. *)
Lemma consensus_step_ok mode c s :
  tx_shared (cert_into_unsigned c) = [] ->
  exists s', consensus_step mode (UserTransaction c) s = Some s' /\ takes s s'.
Proof.
  intros Hc. assert (Hshared : contains_shared_object c = false).
  { by rewrite contains_shared, Hc. }
  unfold consensus_step, consensus_body. rewrite Hshared. destruct mode; cbn.
  - exists s. split; [done|]. split; [apply untouched_refl|done].
  - destruct (process_consensus c s Hc) as (s' & -> & Hu). by exists s'.
Qed.

(** The components whose measurement executes certificates. *)
Definition executes_certificates (component : Component) : bool :=
  match component with
  | Baseline | WithTxManager | ValidatorWithoutConsensus | ValidatorWithFakeConsensus => true
  | TxnSigning | CheckpointExecutor | ExecutionOnly => false
  end.

Lemma execute_certificate_ok v component c w :
  executes_certificates component = true -> can_run (state w) (cert_into_unsigned c) ->
  exists e w', execute_certificate v c component w = Some (e, w') /\
    executes max_rounds (cert_into_unsigned c) e (state w) (state w').
Proof.
  intros Hc Hr. pose proof (rn_owned _ _ _ _ Hr) as Hsh.
  assert (Hno : contains_shared_object c = false) by by rewrite contains_shared, Hsh.
  unfold execute_certificate, on_state, gets, assert_ok, bindM. destruct component; try done.
  - destruct (execute_immediately c _ Hr) as (e & s' & He & Hex).
    pose proof (ex_ok _ _ _ _ _ Hex) as Hok. exists e. eexists. rewrite He. cbn. rewrite Hok. done.
  - destruct (execute_managed c _ Hr) as (e & s' & He & Hex).
    pose proof (ex_ok _ _ _ _ _ Hex) as Hok. exists e. eexists. rewrite Hno. cbn. rewrite He. cbn. rewrite Hok. done.
  - destruct (execute_service (consensus_step (consensus_mode v)) c _ Hr) as (e & s' & He & Hex).
    { intros s1. by apply consensus_step_ok. }
    pose proof (ex_ok _ _ _ _ _ Hex) as Hok. exists e. eexists. cbn. rewrite He. cbn. rewrite Hok. done.
  - destruct (execute_service (consensus_step (consensus_mode v)) c _ Hr) as (e & s' & He & Hex).
    { intros s1. by apply consensus_step_ok. }
    pose proof (ex_ok _ _ _ _ _ Hex) as Hok. exists e. eexists. cbn. rewrite He. cbn. rewrite Hok. done.
Qed.

(** Certificates of disjoint objects are all executed, whatever the order. *)
Lemma execute_all_ok ctx certs w :
  executes_certificates (benchmark_component ctx) = true ->
  Forall (can_run (state w)) (map cert_into_unsigned certs) ->
  NoDup (map cert_into_unsigned certs ≫= owned_ids) ->
  exists es w', execute_all ctx certs w = Some (es, w') /\ length es = length certs /\
    Forall (fun e => status_is_ok e = true) es.
Proof.
  intros Hc Hr Hnd. unfold execute_all.
  destruct (collect_disjoint (fun c => execute_certificate (validator ctx) c (benchmark_component ctx))
    (fun c => owned_ids (cert_into_unsigned c)) (fun s c => can_run s (cert_into_unsigned c)) (fun _ => True)
    (fun _ e => status_is_ok e = true) certs w) as (es & certs' & w' & Hrun & Hp & HQ & _).
  - intros c w1 _ Hc1 _. destruct (execute_certificate_ok (validator ctx) _ c w1 Hc Hc1) as (e & w2 & He & Hex).
    exists e, w2. split; [done|]. split; [apply Hex|]. split; [done|]. intros z Hz Hd.
    eapply runnable_untouched; [apply Hex|done|done].
  - assert (map cert_into_unsigned certs ≫= owned_ids = certs ≫= (fun c => owned_ids (cert_into_unsigned c))) as <-
      by apply list_fmap_bind. done.
  - by apply Forall_map.
  - done.
  - exists es, w'. split; [done|]. split; [by rewrite <-(Forall2_length _ _ _ HQ), Hp|].
    clear -HQ. induction HQ; by constructor.
Qed.

(** ** Measurements *)

(** The transactions that are left after the sample. *)
Definition measured {A} (print_sample_tx : bool) (l : list A) : nat :=
  if print_sample_tx then pred (length l) else length l.

Lemma take_sample_ok print_sample_tx certs w :
  (print_sample_tx = true -> certs <> []) ->
  Forall (can_run (state w)) (map cert_into_unsigned certs) ->
  NoDup (map cert_into_unsigned certs ≫= owned_ids) ->
  exists certs' w', take_sample print_sample_tx certs w = Some (certs', w') /\
    length certs' = measured print_sample_tx certs /\
    Forall (can_run (state w')) (map cert_into_unsigned certs') /\
    NoDup (map cert_into_unsigned certs' ≫= owned_ids).
Proof.
  intros Hne Hr Hnd. unfold take_sample, measured. destruct print_sample_tx; [|by exists certs, w].
  destruct certs as [|c certs]; [by destruct Hne|]. cbn [map] in Hr, Hnd. apply Forall_cons in Hr as [Hc Hr].
  rewrite bind_cons in Hnd. apply NoDup_app in Hnd as (_ & Hd & Hnd).
  destruct (execute_sample _ _ Hc) as (e & s' & He & [Hok Hu _ _ _]).
  exists certs. eexists. split; [|split; [done|split; [|done]]].
  - cbn. unfold execute_sample_transaction, execute_raw_transaction, assert_ok, on_state, bindM. rewrite He. cbn.
    rewrite Hok. cbn. by rewrite Hok.
  - cbn. rewrite Forall_forall in Hr |- *. intros tx Htx. eapply runnable_untouched; [exact Hu| |by apply Hr].
    intros id Hid Hid'. apply (Hd _ Hid). apply list_elem_of_bind. by exists tx.
Qed.

Lemma benchmark_execution_ok certs print_sample_tx ctx w :
  executes_certificates (benchmark_component ctx) = true -> (print_sample_tx = true -> certs <> []) ->
  Forall (can_run (state w)) (map cert_into_unsigned certs) ->
  NoDup (map cert_into_unsigned certs ≫= owned_ids) ->
  exists elapsed w', benchmark_transaction_execution certs print_sample_tx ctx w = Some (tt, w') /\
    reports w' = reports w ++ [Throughput "Execution" elapsed (measured print_sample_tx certs) elapsed].
Proof.
  intros Hc Hne Hr Hnd.
  destruct (take_sample_ok _ _ _ Hne Hr Hnd) as (certs' & w1 & R1 & Hlen & Hr1 & Hnd1).
  pose proof (quiet_sample _ _ _ _ _ R1) as Hq1.
  destruct (execute_all_ok ctx certs' (mkWorld (state w1) (entropy w1) (S (steps w1)) (reports w1)) Hc Hr1 Hnd1)
    as (es & w2 & R2 & _ & _).
  pose proof (quiet_execute_all _ _ _ _ _ R2) as Hq2.
  eexists _, _. unfold benchmark_transaction_execution, now, elapsed_ms, next, report, modify, ret, bindM.
  rewrite R1, R2. cbn. split; [done|]. cbn. by rewrite Hq2, <-Hlen, <-Hq1.
Qed.

Lemma sign_ok tx w :
  can_sign (state w) tx ->
  exists r w', sign_transaction tx w = Some (r, w') /\ signing tx (state w) (state w').
Proof.
  intros Hs. destruct (handle_for_testing_signs _ _ Hs) as (r & s' & Hh & Hsig).
  exists r. eexists. unfold sign_transaction, on_state, bindM. rewrite Hh. done.
Qed.

Lemma benchmark_signing_ok txs print_sample_tx w :
  (print_sample_tx = true -> txs <> []) -> Forall (can_sign (state w)) txs -> NoDup (txs ≫= owned_ids) ->
  exists elapsed w', benchmark_transaction_signing txs print_sample_tx w = Some (tt, w') /\
    reports w' = reports w ++ [Throughput "Transaction signing" elapsed (length txs) elapsed].
Proof.
  intros Hne Hs Hnd.
  destruct (collect_disjoint sign_transaction owned_ids can_sign (fun _ => True) (fun _ _ => True) txs
    (mkWorld (state w) (entropy w) (S (steps w)) (reports w))) as (rs & _ & w1 & Hrun & _).
  - intros tx w1 _ Hsig _. destruct (sign_ok tx w1 Hsig) as (r & w2 & Hr & Hsi).
    exists r, w2. do 3 (split; [done|]). intros z Hz Hd. by eapply signable_signing.
  - done.
  - done.
  - done.
  - pose proof (quiet_sign_all _ _ _ _ Hrun) as Hq.
    assert (Hfirst : (if print_sample_tx then let% _ := lift (txs !! 0%nat) in ret tt else ret tt) w = Some (tt, w)).
    { destruct print_sample_tx; [|done]. destruct txs; [by destruct Hne|done]. }
    eexists _, _. unfold benchmark_transaction_signing. unfold bindM at 1. rewrite Hfirst.
    unfold now, elapsed_ms, next, report, modify, ret, bindM, validator_sign_transactions.
    rewrite Hrun. cbn. split; [done|]. cbn. by rewrite Hq.
Qed.

(** ** Runs *)

(** The transactions of the users can be signed. *)
Lemma generated_signable o ctx g w1 txs w :
  run_options o -> num_shared_objects o = 0 -> num_land_objects o <= 0 ->
  (Z.to_nat (num_transfers o) + 2 <= max_commands)%nat -> computation o * 100 <= max_rounds ->
  Z.of_nat (size (user_accounts ctx)) < 2 ^ 64 ->
  keys_drawn ctx -> published (state w) (move_package g) -> context_ok ctx -> holds w ctx g ->
  prepared o ctx g -> generated o ctx g txs w ->
  generate_transactions (move_tx_generator g) ctx w1 = Some (txs, w) -> Forall (can_sign (state w)) txs.
Proof.
  intros [Ht Hc Hk He] Hsh Hla Hmax Hrounds Hsize Hkeys Hpub Hok Hh Hp Hgen Hrun.
  destruct Hp as [(Hnt & _ & Hco & Her) _ Hso Hki Hlands].
  assert (Hs0 : shared_objects g = []) by (destruct (shared_objects g); [done|cbn in Hso; lia]).
  assert (Hk0 : kitty_objects g = ∅).
  { apply map_eq. intros k. rewrite lookup_empty. apply eq_None_not_Some. rewrite Hki. intros []. congruence. }
  assert (Hl0 : land_objects g = ∅).
  { apply map_eq. intros i. rewrite lookup_empty. apply eq_None_not_Some. rewrite Hlands. lia. }
  assert (Hprog : Forall (user_program max_commands max_rounds (state w)) txs).
  { unfold generate_transactions in Hrun.
    pose proof (numbered_snd 0 (btree_values (user_accounts ctx))) as Hm.
    apply bindM_Some in Hrun as (l' & w2 & [Hl' ->]%lift_Some & Hrun).
    rewrite numbered_from_ok in Hl' by (rewrite ?btree_values_length; lia). injection Hl' as <-.
    eapply collect_all; [|exact Hrun]. intros t w3 tx w4 ([i a] & -> & Hin)%elem_of_map.
    apply (elem_of_map_1 snd) in Hin. rewrite Hm in Hin. apply btree_values_elem in Hin as [k Ha]. cbn in Ha.
    assert (Hka : sender a = k) by by apply (context_ok_users _ Hok).
    unfold generate_numbered. intros (index & w5 & _ & Htx)%bindM_Some. cbn in Htx.
    eapply move_program; [| |done|congruence|done|done|by rewrite Hco|by rewrite Hco|by rewrite Hnt|done|by eapply Hkeys|exact Htx].
    - intros r Hr. rewrite Hka. by eapply (ho_coins _ _ _ Hh).
    - intros r Hr. by apply (ho_roots _ _ _ Hh). }
  destruct Hgen as [_ Hlive Hnd _ Hshared]. apply Forall_forall. intros tx Htx. split.
  - rewrite Forall_forall in Hprog, Hlive, Hshared. constructor; [by apply Hprog|by apply Hlive| |].
    + apply list_elem_of_split in Htx as (l1 & l2 & ->). rewrite bind_app, bind_cons in Hnd.
      apply NoDup_app in Hnd as (_ & _ & Hnd). by apply NoDup_app in Hnd as (? & _ & _).
    + destruct (Hshared _ Htx) as [_ Hl]. rewrite Hs0, Hl0, !decide_True in Hl by done. by apply nil_length_inv.
  - apply Forall_forall. intros r _. apply (ho_unlocked _ _ _ Hh).
Qed.

(** What a run reports: signing counts the sample, execution does not. *)
Definition run_report (component : Component) (print_sample_tx : bool) (tx_count elapsed : Z) : Report :=
  match component with
  | TxnSigning => Throughput "Transaction signing" elapsed (Z.to_nat tx_count + if print_sample_tx then 1 else 0) elapsed
  | _ => Throughput "Execution" elapsed (Z.to_nat tx_count) elapsed
  end.

(** The certificates that a measurement is given. *)
Lemma certified_ok txs skip_signing w :
  Forall (can_sign (state w)) txs -> NoDup (txs ≫= owned_ids) ->
  exists certs w',
    (forall measure : list CertifiedTransaction -> M World unit,
      (let% transactions := certify_transactions txs skip_signing in
       let% _ := assigned_shared_object_versions transactions in measure transactions) w = measure certs w') /\
    map cert_into_unsigned certs ≡ₚ txs /\ Forall (can_run (state w')) (map cert_into_unsigned certs) /\
    NoDup (map cert_into_unsigned certs ≫= owned_ids) /\ reports w' = reports w.
Proof.
  intros Hs Hnd. destruct (certify_ok skip_signing txs w Hs Hnd) as (certs & w1 & R1 & Hp & Hu1).
  assert (Hr1 : Forall (can_run (state w1)) txs).
  { apply (runnable_kept (state w)); [done|]. eapply Forall_impl; [exact Hs|]. by intros tx [? _]. }
  rewrite <-Hp in Hr1, Hnd. destruct (assigned_ok certs w1) as (w2 & R2 & [Hu _]).
  { rewrite Forall_map in Hr1. eapply Forall_impl; [exact Hr1|]. by intros c [_ _ _ ?]. }
  exists certs, w2. split; [intros measure; unfold bindM; by rewrite R1, R2|]. split; [done|].
  split; [by eapply runnable_kept|]. split; [done|]. by rewrite (quiet_assign _ _ _ _ R2), (quiet_certify _ _ _ _ _ R1).
Qed.

(** The measurement that follows the generation. *)
Lemma run_start o component checkpoint_size print_sample_tx skip_signing tx_count w ctx0 w0 g ctx w1 txs w2 :
  context_new (mkWorkload tx_count (KindPTB o)) component print_sample_tx EmptyString w = Some (ctx0, w0) ->
  create_move_tx_generator o ctx0 w0 = Some ((g, ctx), w1) ->
  generate_transactions (move_tx_generator g) ctx w1 = Some (txs, w2) ->
  run_benchmark (mkWorkload tx_count (KindPTB o)) component checkpoint_size print_sample_tx skip_signing
      EmptyString EmptyString w =
    match component with
    | TxnSigning => benchmark_transaction_signing txs print_sample_tx
    | _ => let% transactions := certify_transactions txs skip_signing in
           let% _ := assigned_shared_object_versions transactions in
           match component with
           | CheckpointExecutor => benchmark_checkpoint_executor transactions checkpoint_size ctx
           | ExecutionOnly => benchmark_transaction_execution_in_memory transactions print_sample_tx ctx
           | _ => benchmark_transaction_execution transactions print_sample_tx ctx
           end
    end w2.
Proof.
  intros Hnew Hg Hrun. unfold run_benchmark. unfold bindM at 1. rewrite Hnew.
  unfold create_tx_generator, bindM at 1 2 3. cbn. rewrite Hg. cbn [fst snd ret]. unfold ret.
  rewrite decide_True by done. unfold bindM at 1. by rewrite Hrun.
Qed.

(** What the theorems about runs over owned objects assume. *)
Record owned_run_options o (tx_count : Z) (print_sample_tx : bool) w : Prop := {
  or_count : 0 <= tx_count;
  or_options : run_options o;
  or_gas : Z.of_nat (reserved (mkWorkload tx_count (KindPTB o)) print_sample_tx) * (num_transfers o + 1) < 2 ^ 64;
  or_keys : NoDup (draw_keys (reserved (mkWorkload tx_count (KindPTB o)) print_sample_tx) (entropy w)).*1;
  or_fit : options_fit o (Z.of_nat (reserved (mkWorkload tx_count (KindPTB o)) print_sample_tx) - 1);
  or_owned : num_shared_objects o = 0 /\ num_land_objects o = 0;
  or_commands : (Z.to_nat (num_transfers o) + 2 <= max_commands)%nat;
  or_rounds : computation o * 100 <= max_rounds;
}.

(** The number of generated transactions: one more for the sample. *)
Definition generated_count (tx_count : Z) (print_sample_tx : bool) : nat :=
  (Z.to_nat tx_count + if print_sample_tx then 1 else 0)%nat.

(** A run over owned objects reaches its measurement with transactions that can be signed. *)
Lemma run_ready o component checkpoint_size print_sample_tx skip_signing tx_count w :
  owned_run_options o tx_count print_sample_tx w ->
  exists ctx txs w2,
    run_benchmark (mkWorkload tx_count (KindPTB o)) component checkpoint_size print_sample_tx skip_signing
        EmptyString EmptyString w =
      match component with
      | TxnSigning => benchmark_transaction_signing txs print_sample_tx
      | _ => let% transactions := certify_transactions txs skip_signing in
             let% _ := assigned_shared_object_versions transactions in
             match component with
             | CheckpointExecutor => benchmark_checkpoint_executor transactions checkpoint_size ctx
             | ExecutionOnly => benchmark_transaction_execution_in_memory transactions print_sample_tx ctx
             | _ => benchmark_transaction_execution transactions print_sample_tx ctx
             end
      end w2 /\
    length txs = generated_count tx_count print_sample_tx /\ Forall (can_sign (state w2)) txs /\
    NoDup (txs ≫= owned_ids) /\ reports w2 = reports w /\ benchmark_component ctx = component.
Proof.
  intros [Hc Ho Hn Hkeys Hfit [Hsh Hla] Hmax Hrounds].
  destruct (run_generated o component print_sample_tx tx_count w Hc Ho Hn Hkeys Hfit)
    as (ctx0 & w0 & g & ctx & w1 & txs & w2 & Hnew & Hg & Hrun & Hshape & Hpub & Hok & Hh & Hlen & Hp & Hgen & _).
  exists ctx, txs, w2. split; [exact (run_start _ _ _ _ _ _ _ _ _ _ _ _ _ _ Hnew Hg Hrun)|].
  split; [unfold generated_count; unfold reserved in Hlen; cbn in Hlen; destruct print_sample_tx; lia|].
  split; [|split; [exact (ge_distinct _ _ _ _ _ Hgen)|split]].
  - eapply (generated_signable o ctx g w1); try done; [lia| |].
    + rewrite <-(ge_count _ _ _ _ _ Hgen). destruct Hfit as [Hu _ _ _]. lia.
    + eapply keys_shape; [exact Hshape|]. by eapply context_keys.
  - rewrite (quiet_generate _ _ (quiet_move g) _ _ _ Hrun), (quiet_create_move _ _ _ _ _ Hg). by eapply quiet_context.
  - rewrite (component_prepared _ _ _ _ _ _ Hg). by eapply component_new.
Qed.

(** C11. A run over owned objects completes, whatever the order in which the tasks
    finish: the accounts are created, the objects prepared, the transactions
    generated, and all of them signed, or certified and executed by the component,
    the sample first; and the run reports once, with the number of transactions. *)
Theorem benchmark_completes o component print_sample_tx skip_signing checkpoint_size tx_count w :
  owned_run_options o tx_count print_sample_tx w ->
  executes_certificates component = true \/ component = TxnSigning ->
  exists elapsed w',
    run_benchmark (mkWorkload tx_count (KindPTB o)) component checkpoint_size print_sample_tx skip_signing
      EmptyString EmptyString w = Some (tt, w') /\
    reports w' = reports w ++ [run_report component print_sample_tx tx_count elapsed].
Proof.
  intros Hopt Hcomp.
  destruct (run_ready o component checkpoint_size print_sample_tx skip_signing tx_count w Hopt)
    as (ctx & txs & w2 & -> & Hlen & Hsign & Hnd & Hq & Hb).
  assert (Hne : print_sample_tx = true -> txs <> []) by (unfold generated_count in Hlen; intros -> ->; cbn in Hlen; lia).
  destruct Hcomp as [Hc1| ->].
  - destruct (certified_ok txs skip_signing w2 Hsign Hnd) as (certs & w3 & Hcert & Hp & Hr & Hnd' & Hq').
    assert (Hlen' : length certs = length txs) by by rewrite <-Hp, length_map.
    destruct (benchmark_execution_ok certs print_sample_tx ctx w3) as (elapsed & w4 & R4 & Hrep); [by rewrite Hb| |done|done|].
    { intros Hpr ->. apply (Hne Hpr). by destruct txs. }
    exists elapsed, w4. split; [destruct component; try done; by rewrite Hcert|]. rewrite Hrep, Hq', Hq. do 2 f_equal.
    unfold measured, run_report. rewrite Hlen', Hlen. unfold generated_count.
    destruct component; try done; destruct print_sample_tx; f_equal; lia.
  - destruct (benchmark_signing_ok txs print_sample_tx w2 Hne Hsign Hnd) as (elapsed & w3 & R3 & Hrep).
    exists elapsed, w3. split; [done|]. by rewrite Hrep, Hq, Hlen.
Qed.

End execution.
