(* ===== verification/SuiConsensusSpec.v ===== *)
(** What the consensus client of [SuiConsensus] promises: it is a log, whose entries
    its task processes in the order in which they were submitted, each once. *)
From stdpp Require Import base list option numbers relations.
From S2P Require Import Prelude Machine SuiTypes SuiStore SuiWorld SuiAccounts SuiNode SuiConsensus SuiJobsSpec SuiTxSpec SuiProgramSpec SuiExecutionSpec.
Open Scope Z_scope.

(** ** What is documented of the channel *)

(** The messages that wait, whether the two halves are alive, and the bound. *)
Record View (T : Type) : Type := mkView {
  queued : list T;
  sending : bool;
  receiving : bool;
  capacity : Z;
}.
Arguments mkView {T} _ _ _ _.
Arguments queued {T} _.
Arguments sending {T} _.
Arguments receiving {T} _.
Arguments capacity {T} _.

(** An error without a receiver; a full channel makes the sender wait. *)
Definition view_send {T} (t : T) (v : View T) : Poll (result unit (View T)) :=
  if negb (receiving v) then Ready (Err tt)
  else if Z.of_nat (length (queued v)) <? capacity v
       then Ready (Ok (mkView (queued v ++ [t]) (sending v) true (capacity v)))
       else Pending.

(** The first message; without any, [None] once the senders are gone. *)
Definition view_recv {T} (v : View T) : Poll (option (T * View T)) :=
  match queued v with
  | t :: q => Ready (Some (t, mkView q (sending v) (receiving v) (capacity v)))
  | [] => if sending v then Pending else Ready None
  end.

Class MpscLaws `{Mpsc} := {
  view : forall {T}, Channel T -> View T;
  view_new T n : view (mpsc_channel n : Channel T) = mkView [] true true n;
  view_of_send {T} (t : T) ch :
    match send t ch with
    | Ready (Ok ch') => Ready (Ok (view ch'))
    | Ready (Err e) => Ready (Err e)
    | Pending => Pending
    end = view_send t (view ch);
  view_of_recv {T} (ch : Channel T) :
    match recv ch with
    | Ready (Some (t, ch')) => Ready (Some (t, view ch'))
    | Ready None => Ready None
    | Pending => Pending
    end = view_recv (view ch);
  (** The messages that were not received are dropped with the receiver. *)
  view_drop_receiver {T} (ch : Channel T) :
    view (drop_receiver ch) = mkView [] (sending (view ch)) false (capacity (view ch));
  view_drop_sender {T} (ch : Channel T) :
    view (drop_sender ch) = mkView (queued (view ch)) false (receiving (view ch)) (capacity (view ch));
}.

Section consensus.
Context `{SuiEnv} `{MC : Mpsc} `{!MpscLaws}.
Implicit Types (s : AuthorityState) (c : MockConsensusClient).

Abbreviation Sequenced := (ConsensusTransaction CertifiedTransaction).

(** ** The specification: a log *)

(** The transactions ever submitted, and how many of them were processed. *)
Record Log : Type := mkLog {
  submitted : list Sequenced;
  taken : nat;
  log_closed : bool;
  log_stopped : bool;
  log_authority : AuthorityState;
}.

Definition log_new s : Log := mkLog [] 0 false false s.

Inductive log_step (mode : ConsensusMode) : Event -> Log -> Log -> Prop :=
| log_submitted tx l n s :
    log_step mode (Submitted tx) (mkLog l n false false s) (mkLog (l ++ [tx]) n false false s)
| log_refused tx l n s :
    log_step mode (Refused tx) (mkLog l n false true s) (mkLog l n false true s)
| log_processed tx l n cl s :
    l !! n = Some tx -> (consensus_body mode tx s).1 = true ->
    log_step mode Turned (mkLog l n cl false s) (mkLog l (S n) cl false (consensus_body mode tx s).2)
| log_panicked tx l n cl s :
    l !! n = Some tx -> (consensus_body mode tx s).1 = false ->
    log_step mode Turned (mkLog l n cl false s) (mkLog l (S n) cl true (consensus_body mode tx s).2)
| log_finished l s :
    log_step mode Turned (mkLog l (length l) true false s) (mkLog l (length l) true true s)
| log_dropped l n cl b s : log_step mode Dropped (mkLog l n cl b s) (mkLog l n true b s)
| log_changed l n cl b s s' : log_step mode (Changed s') (mkLog l n cl b s) (mkLog l n cl b s').

(** ** The client refines the log *)

Abbreviation waiting c := (queued (view (tx_channel c))).

(** The channel holds what was submitted and not yet processed. *)
Record represents (a : Log) c : Prop := {
  rp_authority : log_authority a = shared_validator c;
  rp_closed : log_closed a = negb (held c) /\ sending (view (tx_channel c)) = held c;
  rp_task : if log_stopped a
            then consensus_handle c <> Running /\ receiving (view (tx_channel c)) = false
            else consensus_handle c = Running /\ receiving (view (tx_channel c)) = true /\
                 waiting c = drop (taken a) (submitted a);
  rp_taken : (taken a <= length (submitted a))%nat;
  rp_capacity : Z.of_nat (length (waiting c)) <= 1000000 /\ capacity (view (tx_channel c)) = 1000000;
}.

Lemma represents_new s : represents (log_new s) (client_new s).
Proof. constructor; cbn; rewrite ?view_new; done. Qed.

(** What a submission does to the channel. *)
Lemma submit_view tx c r :
  submit_to_consensus tx c = r ->
  match view_send tx (view (tx_channel c)) with
  | Ready (Ok v) => exists ch, view ch = v /\
      r = Ready (Some (mkClient ch (consensus_handle c) (shared_validator c) (held c)))
  | Ready (Err _) => r = Ready None
  | Pending => r = Pending
  end.
Proof.
  intros <-. rewrite <-view_of_send. unfold submit_to_consensus. destruct (send tx (tx_channel c)) as [[ch|]|]; [|done|done].
  by exists ch.
Qed.

(** What a turn of the running task does. *)
Lemma turn_view mode c r :
  consensus_handle c = Running -> run_turn mode c = r ->
  match waiting c with
  | tx :: q =>
      exists ch, queued (view ch) = (if (consensus_body mode tx (shared_validator c)).1 then q else []) /\
        sending (view ch) = sending (view (tx_channel c)) /\ capacity (view ch) = capacity (view (tx_channel c)) /\
        receiving (view ch) = (consensus_body mode tx (shared_validator c)).1 && receiving (view (tx_channel c)) /\
        r = Ready (mkClient ch (if (consensus_body mode tx (shared_validator c)).1 then Running else Panicked)
                     (consensus_body mode tx (shared_validator c)).2 (held c))
  | [] => if sending (view (tx_channel c)) then r = Pending
          else r = Ready (mkClient (drop_receiver (tx_channel c)) Finished (shared_validator c) (held c))
  end.
Proof.
  intros Hrun <-. unfold run_turn. rewrite Hrun. pose proof (view_of_recv (tx_channel c)) as Hv. unfold view_recv in Hv.
  destruct (waiting c) as [|tx q].
  - destruct (sending (view (tx_channel c))); by destruct (recv (tx_channel c)) as [[[? ?]|]|].
  - destruct (recv (tx_channel c)) as [[[t ch]|]|]; [|done|done]. injection Hv as -> Hv.
    destruct (consensus_body mode tx (shared_validator c)) as [[] s']; cbn.
    + exists ch. by rewrite Hv.
    + exists (drop_receiver ch). by rewrite view_drop_receiver, Hv.
Qed.

Lemma submitted_log mode tx a c c' :
  represents a c -> held c = true -> submit_to_consensus tx c = Ready (Some c') ->
  exists a', log_step mode (Submitted tx) a a' /\ represents a' c'.
Proof.
  destruct a as [l n cl st s]. intros [Ha [Hcl Hsd] Ht Hn [Hcap Hc]] Hh Hsub. cbn in *.
  apply submit_view in Hsub. unfold view_send in Hsub.
  destruct (receiving (view (tx_channel c))) eqn:Hrc; [cbn in Hsub|done].
  destruct st; [by destruct Ht|]. destruct Ht as (Hrun & _ & Hq). rewrite Hc in Hsub.
  destruct (Z.ltb_spec (Z.of_nat (length (waiting c))) 1000000); [|done].
  destruct Hsub as (ch & Hv & [= ->]). rewrite Hh in Hcl. cbn in Hcl. subst cl.
  eexists. split; [constructor|]. constructor; cbn; rewrite ?Hv; cbn; try done.
  - by rewrite Hh, Hsd.
  - split; [done|]. split; [done|]. by rewrite Hq, drop_app_le.
  - rewrite length_app. cbn. lia.
  - rewrite length_app. cbn. lia.
Qed.

Lemma turned_log mode a c c' :
  represents a c -> run_turn mode c = Ready c' -> exists a', log_step mode Turned a a' /\ represents a' c'.
Proof.
  destruct a as [l n cl st s]. intros [Ha [Hcl Hsd] Ht Hn [Hcap Hc]] Hturn. cbn in *.
  assert (Hrun : consensus_handle c = Running) by (unfold run_turn in Hturn; by destruct (consensus_handle c)).
  destruct st; [by destruct Ht|]. destruct Ht as (_ & Hrc & Hq). apply turn_view in Hturn; [|done].
  subst s cl. destruct (waiting c) as [|tx q] eqn:Hw.
  - rewrite Hsd in Hturn. destruct (held c) eqn:Hh; [done|]. injection Hturn as ->.
    assert (n = length l) as ->.
    { apply (f_equal length) in Hq. rewrite length_drop in Hq. cbn in Hq. lia. }
    eexists. split; [apply log_finished|]. constructor; cbn; rewrite ?view_drop_receiver; cbn; rewrite ?Hh; done.
  - assert (Hl : l !! n = Some tx) by by rewrite <-(Nat.add_0_r n), <-lookup_drop, <-Hq.
    assert (Hq' : drop (S n) l = q) by by rewrite <-Nat.add_1_r, <-drop_drop, <-Hq.
    pose proof (lookup_lt_Some _ _ _ Hl). destruct Hturn as (ch & Hv & Hvs & Hvc & Hvr & [= ->]). cbn in Hcap.
    rewrite Hrc, andb_true_r in Hvr.
    destruct (consensus_body mode tx (shared_validator c)) as [[] s2] eqn:Hb; cbn in *;
      (eexists; split; [econstructor; [exact Hl|by rewrite Hb]|]);
      rewrite Hb; constructor; cbn; rewrite ?Hv, ?Hvs, ?Hvc, ?Hvr; cbn; try done; lia.
Qed.

(** Each step of the client is a step of the log. *)
Lemma client_step_log mode e a c c' :
  represents a c -> client_step mode e c c' ->
  exists a', log_step mode e a a' /\ represents a' c'.
Proof.
  intros Hr Hstep. destruct Hstep as [tx c c' Hh Hsub|tx c Hh Hsub|c c' Hturn|c|s' c].
  - by eapply submitted_log.
  - exists a. split; [|done]. destruct a as [l n cl st s], Hr as [_ [Hcl _] Ht _ _]. cbn in *.
    rewrite Hh in Hcl. subst cl. apply submit_view in Hsub. unfold view_send in Hsub.
    destruct st; [constructor|]. destruct Ht as (_ & Hrc & _). rewrite Hrc in Hsub. cbn in Hsub.
    destruct (_ <? _); [|done]. by destruct Hsub as (? & _ & ?).
  - by eapply turned_log.
  - destruct a as [l n cl st s], Hr as [Ha [Hcl Hsd] Ht Hn Hcap]. eexists. split; [constructor|].
    constructor; cbn in *; rewrite ?view_drop_sender; cbn; try done.
  - destruct a as [l n cl st s], Hr as [Ha Hcl Ht Hn Hcap]. eexists. split; [constructor|]. by constructor.
Qed.

Lemma client_traces_log mode tr a c c' :
  represents a c -> traces (client_step mode) tr c c' ->
  exists a', traces (log_step mode) tr a a' /\ represents a' c'.
Proof.
  intros Hr Htr. revert a Hr. induction Htr as [c1|e tr c1 c2 c3 Hs _ IH]; intros a Hr.
  - eexists. split; [constructor|done].
  - destruct (client_step_log _ _ _ _ _ Hr Hs) as (b & Hb & Hrb).
    destruct (IH b Hrb) as (d & Hd & Hrd). exists d. split; [by econstructor|done].
Qed.

(** ** What the log holds *)

Definition submissions (tr : list Event) : list Sequenced :=
  omap (fun e => match e with Submitted tx => Some tx | _ => None end) tr.

(** No other task changes the authority. *)
Definition undisturbed (tr : list Event) : Prop :=
  Forall (fun e => match e with Changed _ => False | _ => True end) tr.

Lemma log_submissions mode tr a b :
  traces (log_step mode) tr a b -> submitted b = submitted a ++ submissions tr.
Proof.
  intros Htr. induction Htr as [|e tr a b c Hs _ IH]; [by rewrite app_nil_r|].
  rewrite IH. destruct Hs; cbn; try done. by rewrite <-app_assoc.
Qed.

Lemma consensus_run_app mode l1 l2 s :
  consensus_run_impl mode (l1 ++ l2) s = (consensus_run_impl mode l1 s ≫= consensus_run_impl mode l2).
Proof.
  revert s. induction l1 as [|tx l1 IH]; intros s; [done|]. cbn.
  destruct (consensus_step mode tx s); [apply IH|done].
Qed.

(** A log that has not stopped is the loop over its processed entries. *)
Definition history mode s (a : Log) : Prop :=
  log_stopped a = false ->
  consensus_run_impl mode (take (taken a) (submitted a)) s = Some (log_authority a) /\
  (taken a <= length (submitted a))%nat.

Lemma log_step_history mode e a b s :
  match e with Changed _ => False | _ => True end ->
  log_step mode e a b -> history mode s a -> history mode s b.
Proof.
  intros Hq Hs Hh. destruct Hs as [tx l n s1|tx l n s1|tx l n cl s1 Hl Hb| | | |]; try done.
  - intros _. destruct (Hh eq_refl) as [Hr Hn]. cbn in *. rewrite take_app_le by done.
    split; [done|]. rewrite length_app. lia.
  - intros _. destruct (Hh eq_refl) as [Hr Hn]. cbn in *. pose proof (lookup_lt_Some _ _ _ Hl).
    rewrite (take_S_r _ _ _ Hl), consensus_run_app, Hr. cbn. unfold consensus_step.
    destruct (consensus_body mode tx s1) as [[] s2]; [|done]. split; [done|lia].
Qed.

Lemma log_history mode tr a b s :
  undisturbed tr -> traces (log_step mode) tr a b -> history mode s a -> history mode s b.
Proof.
  intros Hq Htr. induction Htr as [|e tr a b c Hs _ IH]; [done|].
  apply Forall_cons in Hq as [He Hq]. intros Ha. apply IH; [done|]. by eapply log_step_history.
Qed.

(** ** Properties of the client *)

(** The task empties a channel that it can process. *)
Lemma turns_drain mode c s' :
  consensus_handle c = Running ->
  consensus_run_impl mode (waiting c) (shared_validator c) = Some s' ->
  exists c', traces (client_step mode) (replicate (length (waiting c)) Turned) c c' /\
    waiting c' = [] /\ consensus_handle c' = Running /\ shared_validator c' = s'.
Proof.
  remember (waiting c) as q eqn:Hq. revert c Hq. induction q as [|tx q IH]; intros c Hq Hrun Hs; cbn in *.
  - simplify_eq. exists c. split; [constructor|done].
  - apply bind_Some in Hs as (s1 & Hs1 & Hs). pose proof (turn_view mode c _ Hrun eq_refl) as Ht. rewrite <-Hq in Ht.
    unfold consensus_step in Hs1. destruct (consensus_body mode tx (shared_validator c)) as [[] s2]; [|done].
    injection Hs1 as ->. destruct Ht as (ch & Hv & _ & _ & _ & Hturn). cbn in Hv, Hturn.
    destruct (IH (mkClient ch Running s1 (held c))) as (c' & Htr & Hc'); [done..|].
    exists c'. split; [|done]. eapply trace_cons; [|exact Htr]. by apply step_turned.
Qed.

(** C14. The consensus client refines the log: whatever the interleaving of
    submissions, of turns of the spawned task and of what other tasks do, the
    submissions are the entries of a log that the task processes in order, each
    once, and the channel, which never exceeds its capacity, holds those that are
    not yet processed.  A submission panics only after the task has stopped. *)
Theorem client_refines_log mode tr s c :
  traces (client_step mode) tr (client_new s) c ->
  exists a, traces (log_step mode) tr (log_new s) a /\ represents a c /\ submitted a = submissions tr.
Proof.
  intros Htr. destruct (client_traces_log _ _ _ _ _ (represents_new s) Htr) as (a & Ha & Hr).
  exists a. split; [done|]. split; [done|]. by rewrite (log_submissions _ _ _ _ Ha).
Qed.

(** C16. While the task of the consensus client runs, the processed submissions and
    the channel make up all submissions in order; the task empties the channel in as
    many turns as it holds transactions and leaves what the loop over them leaves.
    When no other task changed the authority this is the loop over all submissions
    from the first state, however they were interleaved with the turns. *)
Theorem client_drains mode tr s c s' :
  traces (client_step mode) tr (client_new s) c -> consensus_handle c = Running ->
  consensus_run_impl mode (waiting c) (shared_validator c) = Some s' ->
  (exists processed, submissions tr = processed ++ waiting c /\
    (undisturbed tr -> consensus_run_impl mode processed s = Some (shared_validator c))) /\
  (exists c', traces (client_step mode) (replicate (length (waiting c)) Turned) c c' /\
    waiting c' = [] /\ consensus_handle c' = Running /\ shared_validator c' = s') /\
  (undisturbed tr -> consensus_run_impl mode (submissions tr) s = Some s').
Proof.
  intros Htr Hrun Hq. destruct (client_traces_log _ _ _ _ _ (represents_new s) Htr) as (a & Ha & [Hau _ Ht Hn _]).
  pose proof (log_submissions _ _ _ _ Ha) as Hsub. cbn in Hsub.
  destruct (log_stopped a) eqn:Hst; [by destruct Ht|]. destruct Ht as (_ & _ & Hd).
  assert (Hdone : undisturbed tr -> consensus_run_impl mode (take (taken a) (submitted a)) s = Some (shared_validator c)).
  { intros Hu. rewrite <-Hau. eapply (log_history _ _ _ _ s Hu Ha); [|done]. intros _. split; [done|cbn; lia]. }
  rewrite <-Hsub. split; [|split].
  - exists (take (taken a) (submitted a)). split; [|done]. by rewrite Hd, take_drop.
  - by apply turns_drain.
  - intros Hu. rewrite <-(take_drop (taken a) (submitted a)), consensus_run_app, (Hdone Hu). cbn. by rewrite <-Hd.
Qed.

(** A submission to an empty channel, followed by a turn, is the synchronous step that
    [execute_certificate] of [SuiNode] hands to the validator service. *)
Lemma submit_then_turn mode tx c s' :
  consensus_handle c = Running -> held c = true -> waiting c = [] -> receiving (view (tx_channel c)) = true ->
  0 < capacity (view (tx_channel c)) -> consensus_step mode tx (shared_validator c) = Some s' ->
  exists c', traces (client_step mode) [Submitted tx; Turned] c c' /\ waiting c' = [] /\
    consensus_handle c' = Running /\ shared_validator c' = s'.
Proof.
  intros Hrun Hh Hw Hrc Hcap Hs. pose proof (submit_view tx c _ eq_refl) as Hsub.
  unfold view_send in Hsub. rewrite Hrc, Hw in Hsub.
  change (Z.of_nat (length [])) with 0 in Hsub. apply Z.ltb_lt in Hcap. rewrite Hcap in Hsub. cbn in Hsub.
  destruct Hsub as (ch & Hv & Hsub). set (c1 := mkClient _ _ _ _) in Hsub.
  assert (Hw1 : waiting c1 = [tx]) by by unfold c1; cbn; rewrite Hv.
  destruct (turns_drain mode c1 s') as (c' & Htr & Hc'); [done|rewrite Hw1; cbn; change (shared_validator c1) with (shared_validator c); by rewrite Hs|].
  exists c'. split; [|done]. rewrite Hw1 in Htr. eapply trace_cons; [by apply step_submitted|exact Htr].
Qed.

(** ** Certificates of owned objects *)

Section owned.
Context `{!ValidatorLaws} `{!BuilderLaws} `{!ExecutionLaws}.

Definition owned_certificate (tx : Sequenced) : Prop :=
  exists cert, tx = UserTransaction cert /\ tx_shared (cert_into_unsigned cert) = [].

Lemma owned_body mode tx s :
  owned_certificate tx ->
  (consensus_body mode tx s).1 = true /\ takes s (consensus_body mode tx s).2.
Proof.
  intros (cert & -> & Hsh). destruct (consensus_step_ok mode cert s Hsh) as (s' & Hs & Ht).
  unfold consensus_step in Hs. destruct (consensus_body _ _ _) as [[] ?]; by simplify_eq.
Qed.

Lemma takes_refl s : takes s s.
Proof. split; [apply untouched_refl|done]. Qed.

Lemma takes_trans s1 s2 s3 : takes s1 s2 -> takes s2 s3 -> takes s1 s3.
Proof. intros [Hu Hl] [Hu' Hl']. split; [by eapply untouched_trans|auto]. Qed.

Lemma owned_run mode l s :
  Forall owned_certificate l -> exists s', consensus_run_impl mode l s = Some s' /\ takes s s'.
Proof.
  intros Hl. revert s. induction Hl as [|tx l (cert & -> & Hsh) _ IH]; intros s; [eexists; split; [done|apply takes_refl]|].
  destruct (consensus_step_ok mode cert s Hsh) as (s1 & Hs1 & Ht1). destruct (IH s1) as (s2 & Hs2 & Ht2).
  exists s2. cbn. rewrite Hs1. split; [done|]. by eapply takes_trans.
Qed.

(** A log of owned certificates has not stopped before it is closed. *)
Definition healthy (a : Log) : Prop := log_stopped a = true -> log_closed a = true.

Lemma healthy_step mode e a b :
  Forall owned_certificate (submitted a) -> log_step mode e a b -> healthy a ->
  healthy b /\ forall tx, e <> Refused tx.
Proof.
  intros Ho Hs Ha. destruct Hs as [| |tx l n cl s Hl Hb|tx l n cl s Hl Hb| | |]; try (split; done).
  - by specialize (Ha eq_refl).
  - eapply Forall_lookup_1 in Ho; [|exact Hl]. destruct (owned_body mode tx s Ho) as [Hok _]. congruence.
Qed.

Lemma healthy_traces mode tr a b :
  Forall owned_certificate (submitted a ++ submissions tr) -> traces (log_step mode) tr a b -> healthy a ->
  healthy b /\ forall tx, Refused tx ∉ tr.
Proof.
  intros Ho Htr. revert Ho. induction Htr as [|e tr a b c Hs Htr IH]; intros Ho Ha.
  { split; [done|]. intros tx ?%elem_of_nil. done. }
  pose proof (log_submissions mode [e] a b ltac:(by eapply trace_cons; [|constructor])) as Hsub.
  destruct (healthy_step _ _ _ _ (proj1 (proj1 (Forall_app _ _ _) Ho)) Hs Ha) as [Hb Hr].
  destruct IH as [Hc Hrs]; [|done|].
  - rewrite Hsub, <-app_assoc. unfold submissions in *. by rewrite <-omap_app.
  - split; [done|]. intros tx [Heq|Hin]%elem_of_cons; [by eapply Hr|by eapply Hrs].
Qed.

(** C15. Submissions of certificates of owned objects never panic while the client is
    held and its task never stops, in either mode and under every interleaving; it
    accepts the next one as soon as the channel is not full, and from every point its
    turns empty the channel without touching or locking an object. *)
Theorem owned_certificates_sequenced mode tr s c :
  traces (client_step mode) tr (client_new s) c -> Forall owned_certificate (submissions tr) ->
  held c = true ->
  (forall tx, Refused tx ∉ tr) /\ consensus_handle c = Running /\
  (forall tx, Z.of_nat (length (waiting c)) < 1000000 ->
     exists c', client_step mode (Submitted tx) c c') /\
  exists c', traces (client_step mode) (replicate (length (waiting c)) Turned) c c' /\
    waiting c' = [] /\ consensus_handle c' = Running /\
    takes (shared_validator c) (shared_validator c').
Proof.
  intros Htr Ho Hopen.
  destruct (client_traces_log _ _ _ _ _ (represents_new s) Htr) as (a & Ha & [_ [Hcl _] Ht Hn [_ Hcap]]).
  destruct (healthy_traces mode tr (log_new s) a Ho Ha ltac:(done)) as [Hh Hr].
  pose proof (log_submissions _ _ _ _ Ha) as Hsub. cbn in Hsub.
  destruct (log_stopped a) eqn:Hst; [by rewrite Hopen, (Hh Hst) in Hcl|]. destruct Ht as (Hrun & Hrc & Hd).
  destruct (owned_run mode (waiting c) (shared_validator c)) as (s' & Hs' & Ht').
  { rewrite Hd, Hsub. by apply Forall_drop. }
  split; [done|]. split; [done|]. split.
  - intros tx Hlt. pose proof (submit_view tx c _ eq_refl) as Hv. unfold view_send in Hv. rewrite Hrc, Hcap in Hv.
    apply Z.ltb_lt in Hlt. rewrite Hlt in Hv. cbn in Hv. destruct Hv as (ch & _ & Hv). eexists. by apply step_submitted.
  - destruct (turns_drain _ _ _ Hrun Hs') as (c1 & E1 & E2 & E3 & <-). by exists c1.
Qed.

End owned.

End consensus.
