(* ===== verification/SuiKittySpec.v ===== *)
(** The kitty run of the Sui single-node benchmark: the kitties give their genes,
    and the breeding starts with live objects, a gene and a kitty for every user. *)
From stdpp Require Import base list option numbers strings gmap sorting.
From S2P Require Import Prelude Machine FileSystem BenchMain SuiTypes SuiStore SuiWorld SuiAccounts SuiAccountsSpec SuiGenerators SuiNode SuiContext SuiContextSpec SuiBench SuiJobsSpec SuiPrepareSpec SuiReportsSpec SuiTxSpec SuiRunSpec SuiProgramSpec SuiExecutionSpec.
Open Scope Z_scope.

Section kitty.
Context `{SuiEnv} `{!ObjectLaws} `{!ValidatorLaws} `{!BuilderLaws} `{!ExecutionLaws}.
Implicit Types (g : MoveTxGenerator) (a : Account) (w : World) (ctx : BenchmarkContext) (o : PTBOptions).
Abbreviation can_run := (runnable max_commands max_rounds).
Abbreviation can_sign := (signable max_commands max_rounds).

(** ** Giving genes *)

(** An account with its gas object and its kitty. *)
Definition Donor : Type := Account * ObjectRef * ObjectRef.
Definition donor_ids (d : Donor) : list ObjectID := [ref_id d.1.2; ref_id d.2].

(** The transaction of a donor can be executed. *)
Record donates (s : AuthorityState) (d : Donor) (tx : Transaction) : Prop := {
  dn_run : can_run s tx;
  dn_gives : gives_gene max_rounds s d.1.1 d.1.2 d.2 tx;
  dn_owned : owned_refs tx = [d.1.2; d.2];
}.

Lemma donates_ids s d tx : donates s d tx -> owned_ids tx = donor_ids d.
Proof. intros [_ _ Ho]. unfold owned_ids. by rewrite Ho. Qed.

Lemma donates_untouched ids s s' d tx :
  untouched ids s s' -> (forall id, id ∈ ids -> id ∉ donor_ids d) -> donates s d tx -> donates s' d tx.
Proof.
  intros Hu Hd Hdn. pose proof (donates_ids _ _ _ Hdn) as Hids. destruct Hdn as [Hr Hg Ho]. constructor; [|clear Ho Hids|done].
  - eapply runnable_untouched; [exact Hu| |done]. by rewrite Hids.
  - destruct Hg as (package & n & b0 & bytes & b & Hp & Hin & Hk & Hrest). exists package, n, b0, bytes, b.
    split; [by eapply program_untouched|]. split; [done|]. split; [by apply (un_owned _ _ _ Hu)|done].
Qed.

(** The kitty among the changed objects. *)
Definition changed_kitty (e : TransactionEffects) : option (SuiAddress * ObjectRef) :=
  first_such (fun ro => if decide (ref_id ro.1 = ref_id (gas_object e)) then None else address_owned ro) (mutated e).

(** A donor and the effects of its transaction, in a later world. *)
Record given (d : Donor) (e : TransactionEffects) w : Prop := {
  gv_id : ref_id (gas_object e) = ref_id d.1.2;
  gv_gas : live (state w) (ref_id d.1.2) = Some (gas_object e);
  gv_gene : exists gene, first_such address_owned (created e) = Some (sender d.1.1, gene) /\
    gene ∈ (created e).*1;
  gv_kitty : exists kitty, changed_kitty e = Some (sender d.1.1, kitty) /\ ref_id kitty = ref_id d.2 /\
    live (state w) (ref_id d.2) = Some kitty;
  gv_executed : executed (state w) (effects_digest e);
}.

Lemma given_keeps d e ids w w' :
  keeps ids w w' -> (forall id, id ∈ donor_ids d -> id ∉ ids) -> given d e w -> given d e w'.
Proof.
  intros Hk Hd [H1' H2' H3' (kitty & Hf & Hid & Hl) H5']. constructor; [done| |done| |by apply (keeps_executed _ _ _ Hk)].
  - apply (keeps_live _ _ _ Hk); [apply Hd; left|done].
  - exists kitty. do 2 (split; [done|]). apply (keeps_live _ _ _ Hk); [apply Hd; right; left|done].
Qed.

Lemma changed_kitty_of (e : TransactionEffects) kitty (ow ow' : Owner) addr :
  mutated e ≡ₚ [(gas_object e, ow'); (kitty, ow)] -> get_address_owner_address ow = Some addr ->
  ref_id kitty <> ref_id (gas_object e) -> changed_kitty e = Some (addr, kitty).
Proof.
  intros Hp Ho Hne. unfold changed_kitty, first_such.
  apply symmetry, Permutation_length_2_inv in Hp as [-> | ->]; cbn; rewrite (decide_False _ _ Hne), (decide_True _ _ eq_refl);
    unfold address_owned; cbn; by rewrite Ho.
Qed.

Lemma give_one v component d c w :
  executes_certificates component = true -> donates (state w) d (cert_into_unsigned c) ->
  exists e w', execute_certificate v c component w = Some (e, w') /\ given d e w' /\
    keeps (donor_ids d) w w' /\ made [e] w w'.
Proof.
  intros Hc Hdn. pose proof (donates_ids _ _ _ Hdn) as Hids. destruct d as [[a gas] kitty].
  destruct Hdn as [Hr Hg Ho]. cbn in Hg.
  destruct (execute_certificate_ok v component c w Hc Hr) as (e & w' & He & [Hok Hu Hlk Hex Hgene]).
  rewrite Hids in Hu. destruct (Hgene _ _ _ Hg) as [[Hid Hgl] (gene & og & Hcr & Hog & Hnew & Hgnl)
    (kitty' & ok & ogas & Hmut & Howner & Hkid & Hkl)].
  pose proof (rn_distinct _ _ _ _ Hr) as Hnd. rewrite Hids in Hnd. unfold donor_ids in Hnd. cbn [fst snd] in Hnd.
  apply NoDup_cons in Hnd as [Hne _]. rewrite list_elem_of_singleton in Hne.
  exists e, w'. split; [done|]. split; [|split].
  - constructor; cbn [fst snd]; [done|done| | |done].
    + exists gene. rewrite Hcr. cbn. unfold first_such, address_owned. cbn. rewrite Hog. split; [done|left].
    + exists kitty'. split; [|done]. eapply changed_kitty_of; [exact Hmut|done|]. rewrite Hkid, Hid. congruence.
  - constructor; [by apply (un_live _ _ _ Hu)| |by apply (un_published _ _ _ Hu)|by apply (un_executed _ _ _ Hu)
      |done|by apply (un_owned _ _ _ Hu)].
    intros id [r Hr']. destruct (decide (id = ref_id gas)) as [->|Hn1]; [by eexists|].
    destruct (decide (id = ref_id kitty)) as [->|Hn2]; [by eexists|]. exists r.
    apply (un_live _ _ _ Hu); [|done]. unfold donor_ids. cbn. set_solver.
  - constructor; unfold created_refs; cbn; rewrite Hcr; cbn; [apply NoDup_singleton| |];
      by intros r ->%list_elem_of_singleton.
Qed.

Lemma keeps_untouched ids w w' : keeps ids w w' -> untouched ids (state w) (state w').
Proof. intros [K1 K2 K3 K4 K5 K6]. by constructor. Qed.

(** Certificates of donors, one after the other. *)
Lemma give_all v component (ds : list (Donor * CertifiedTransaction)) w :
  executes_certificates component = true -> NoDup (ds ≫= (fun dc => donor_ids dc.1)) ->
  (forall dc, dc ∈ ds -> donates (state w) dc.1 (cert_into_unsigned dc.2)) ->
  exists es w', seqM (map (fun dc => execute_certificate v dc.2 component) ds) w = Some (es, w') /\
    Forall2 (fun dc e => given dc.1 e w') ds es /\ keeps (ds ≫= (fun dc => donor_ids dc.1)) w w' /\ made es w w'.
Proof.
  intros Hc. revert w. induction ds as [|[d c] ds IH]; intros w Hnd Hdn.
  - exists [], w. split; [done|]. split; [constructor|]. split; [apply keeps_refl|].
    constructor; [constructor|..]; by intros r ?%elem_of_nil.
  - rewrite bind_cons in Hnd |- *. cbn [fst] in *. apply NoDup_app in Hnd as (_ & Hd & Hnd).
    destruct (give_one v component d c w Hc) as (e & w1 & He & Hg & Hk & Hm); [apply (Hdn (d, c)); left|].
    assert (Hother : forall dc id, dc ∈ ds -> id ∈ donor_ids d -> id ∉ donor_ids dc.1).
    { intros dc id Hdc Hid Hid'. apply (Hd _ Hid). apply list_elem_of_bind. by exists dc. }
    destruct (IH w1 Hnd) as (es & w2 & Hes & Hgs & Hks & Hms).
    { intros dc Hdc. eapply donates_untouched; [by apply keeps_untouched| |apply Hdn; by right].
      intros id. by apply Hother. }
    exists (e :: es), w2. split; [cbn; unfold bindM; by rewrite He, Hes|].
    split; [constructor; [|done]; eapply given_keeps; [exact Hks|exact Hd|done]|].
    split; [by eapply keeps_trans|].
    eapply made_cons; [exact Hm|exact Hms|exact Hks|apply (keeps_dom _ _ _ Hk)|].
    intros id (dc & Hid & Hdc)%list_elem_of_bind. pose proof (Hdn dc ltac:(by right)) as Hdc'.
    rewrite <-(donates_ids _ _ _ Hdc') in Hid. unfold owned_ids in Hid. apply elem_of_map in Hid as (r & -> & Hr).
    exists r. pose proof (rn_live _ _ _ _ (dn_run _ _ _ Hdc')) as Hl. rewrite Forall_forall in Hl. by apply Hl.
Qed.

(** ** The loop over the effects *)

Definition step_kitty (m : gmap SuiAddress ObjectRef) (e : TransactionEffects) : gmap SuiAddress ObjectRef :=
  match changed_kitty e with Some x => <[x.1 := x.2]> m | None => m end.
Definition step_gene (acc : Genes) (e : TransactionEffects) : Genes :=
  mkGenes (note_gas e (genes_gas acc)) (step_kitty (genes_kitties acc) e) (step_owned (genes_objects acc) e).

Lemma step_gene_all es acc :
  foldl step_gene acc es =
  mkGenes (foldl (fun m e => note_gas e m) (genes_gas acc) es) (foldl step_kitty (genes_kitties acc) es)
    (foldl step_owned (genes_objects acc) es).
Proof. revert acc. induction es as [|e es IH]; intros acc; [by destruct acc|]. cbn. by rewrite IH. Qed.

Lemma step_kitty_picks es m : foldl step_kitty m es = ins_all m (omap changed_kitty es).
Proof.
  revert m. induction es as [|e es IH]; intros m; [done|]. cbn. rewrite IH. unfold step_kitty.
  by destruct (changed_kitty e).
Qed.

(** The maps that the loop makes. *)
Definition genes_of (es : list TransactionEffects) : Genes :=
  mkGenes (new_gas es) (collect_map (omap changed_kitty es)) (collect_map (picks address_owned es)).

Lemma genes_loop epoch_id (ds : list Donor) es w :
  Forall2 (fun d e => given d e w) ds es ->
  exists w', foldM (note_gene epoch_id) (mkGenes ∅ ∅ ∅) es w = Some (genes_of es, w') /\ keeps [] w w'.
Proof.
  intros HF. assert (Heff : forall e, e ∈ es -> exists d, given d e w).
  { intros e [i Hi]%list_elem_of_lookup_1. destruct (Forall2_lookup_r _ _ _ _ _ HF Hi) as (d & _ & Hg). by exists d. }
  destruct (foldM_commits (note_gene epoch_id) step_gene (fun _ _ => True) es (mkGenes ∅ ∅ ∅) w) as (w' & Hw' & Hk).
  - intros acc e rest w1 He _ Hx. split; [done|].
    destruct (Heff e He) as (d & [_ _ (gene & Hgene & _) (kitty & Hkitty & _) _]).
    destruct (commit_outputs_ok epoch_id e w1 Hx) as (w2 & Hc & Hk). exists w2. split; [|done].
    unfold note_gene, bindM, lift. rewrite Hgene. cbn [fst snd]. unfold changed_kitty in Hkitty. rewrite Hkitty.
    rewrite Hc. unfold step_gene, step_kitty, step_owned, changed_kitty. by rewrite Hgene, Hkitty.
  - done.
  - intros e He. destruct (Heff e He) as (d & [_ _ _ _ Hx]). done.
  - exists w'. split; [|done]. rewrite Hw', step_gene_all, note_gas_all, step_kitty_picks, step_owned_picks. done.
Qed.

(** A map of what the effects have for their donors. *)
Lemma keyed_lookup (f : TransactionEffects -> option (SuiAddress * ObjectRef)) (ds : list Donor) es e k r :
  Forall2 (fun d e => exists r, f e = Some (sender d.1.1, r)) ds es -> NoDup (map (fun d => sender d.1.1) ds) ->
  e ∈ es -> f e = Some (k, r) -> collect_map (omap f es) !! k = Some r.
Proof.
  intros HF Hnd He Hf. apply collect_map_elem; [|apply list_elem_of_omap; eauto].
  assert (Hk : (omap f es).*1 = map (fun d => sender d.1.1) ds); [|by rewrite Hk].
  clear He Hnd. induction HF as [|d e' ds es [r' Hr'] HF IH]; [done|]. cbn. rewrite Hr'. cbn. by rewrite IH.
Qed.

(** ** The first phase *)

Lemma give_certificates ctx (ds : list Donor) certs w :
  executes_certificates (benchmark_component ctx) = true -> NoDup (ds ≫= donor_ids) ->
  Forall2 (fun d c => donates (state w) d (cert_into_unsigned c)) ds certs ->
  exists es ds' w', execute_all ctx certs w = Some (es, w') /\ ds' ≡ₚ ds /\
    Forall2 (fun d e => given d e w') ds' es /\ made es w w'.
Proof.
  intros Hc Hnd HF. set (dcs := zip ds certs).
  pose proof (Forall2_length _ _ _ HF) as Hlen.
  assert (Hfst : map fst dcs = ds) by (apply fst_zip; lia).
  assert (Hsnd : map snd dcs = certs) by (apply snd_zip; lia).
  assert (Hbind : forall l : list (Donor * CertifiedTransaction), l ≫= (fun dc => donor_ids dc.1) = map fst l ≫= donor_ids).
  { intros l. symmetry. apply (list_fmap_bind fst donor_ids). }
  pose proof (arrange_perm (schedule (steps w)) dcs) as Hp.
  set (w0 := mkWorld (state w) (entropy w) (S (steps w)) (reports w)).
  destruct (give_all (validator ctx) (benchmark_component ctx) (arrange (schedule (steps w)) dcs) w0)
    as (es & w' & Hrun & Hg & _ & Hm); [done| | |].
  - rewrite Hp, Hbind. by rewrite Hfst.
  - intros [d c] Hdc. rewrite Hp in Hdc. apply list_elem_of_lookup_1 in Hdc as [i Hi].
    apply lookup_zip_with_Some in Hi as (d' & c' & [= -> ->] & Hd & Hc').
    by eapply (Forall2_lookup_lr _ _ _ _ _ _ HF).
  - exists es, (map fst (arrange (schedule (steps w)) dcs)), w'. split; [|split; [|split]].
    + unfold execute_all, collect_tasks, next, bindM. rewrite <-Hsnd, map_map.
      rewrite (arrange_map (fun dc => execute_certificate (validator ctx) dc.2 (benchmark_component ctx))). exact Hrun.
    + by rewrite Hp, Hfst.
    + by apply Forall2_fmap_l.
    + by apply (made_state _ w w0).
Qed.

Lemma keeps_same_state w w' : state w' = state w -> keeps [] w w'.
Proof. intros Hs. eapply (keeps_state [] w w'); [done|apply keeps_refl]. Qed.

Lemma given_same_state d e w w' : state w' = state w -> given d e w -> given d e w'.
Proof. intros Hs. eapply given_keeps; [by apply keeps_same_state|]. intros. apply not_elem_of_nil. Qed.

Lemma kitty_phase_one ctx (ds : list Donor) txs skip_signing w :
  executes_certificates (benchmark_component ctx) = true -> NoDup (ds ≫= donor_ids) ->
  Forall2 (donates (state w)) ds txs -> (forall r, ~ locked (state w) r) ->
  exists es elapsed ds' w1 w',
    kitty_phase "Execution provide_gene" None txs skip_signing ctx w = Some ((es, length txs, elapsed), w') /\
    ds' ≡ₚ ds /\ Forall2 (fun d e => given d e w') ds' es /\ untouched [] (state w) (state w1) /\ made es w1 w' /\
    reports w' = reports w ++ [Throughput "Execution provide_gene" elapsed (length txs) elapsed].
Proof.
  intros Hc Hnd HF Hun.
  assert (Hids : txs ≫= owned_ids = ds ≫= donor_ids).
  { clear -HF. induction HF as [|d tx ds txs Hd _ IH]; [done|]. rewrite !bind_cons, IH. by rewrite (donates_ids _ _ _ Hd). }
  destruct (certify_ok skip_signing txs w) as (certs & w1 & R1 & Hp & Hu1); [|by rewrite Hids|].
  { apply Forall_forall. intros tx [i Hi]%list_elem_of_lookup_1. destruct (Forall2_lookup_r _ _ _ _ _ HF Hi) as (d & _ & Hd).
    split; [apply Hd|]. apply Forall_forall. intros r _. apply Hun. }
  assert (Hlen : length certs = length txs) by by rewrite <-Hp, length_map.
  destruct (Permutation_Forall2 (Permutation_sym Hp) (proj2 (Forall2_flip _ _ _) HF)) as (ds1 & Hp1 & HF1).
  assert (HF2 : Forall2 (fun d c => donates (state w) d (cert_into_unsigned c)) ds1 certs).
  { by apply (Forall2_fmap_r cert_into_unsigned (donates (state w)) ds1 certs), Forall2_flip. }
  destruct (assigned_ok certs w1) as (w2 & R2 & [Hu2 _]).
  { apply Forall_forall. intros c [i Hi]%list_elem_of_lookup_1. destruct (Forall2_lookup_r _ _ _ _ _ HF2 Hi) as (d & _ & Hd).
    apply (rn_owned _ _ _ _ (dn_run _ _ _ Hd)). }
  pose proof (untouched_trans _ _ _ _ Hu1 Hu2) as Hu.
  set (w2' := mkWorld (state w2) (entropy w2) (S (steps w2)) (reports w2)).
  destruct (give_certificates ctx ds1 certs w2') as (es & ds2 & w3 & R3 & Hp3 & Hg & Hm); [done|by rewrite <-Hp1| |].
  { eapply Forall2_impl; [exact HF2|]. intros d c Hd.
    eapply donates_untouched; [exact Hu|by intros id ?%elem_of_nil|done]. }
  eexists es, _, ds2, w2', _. split; [|split; [by rewrite Hp1|split; [|split; [exact Hu|split]]]].
  - unfold kitty_phase, now, elapsed_ms, next, report, modify, ret, bindM. rewrite R1, R2.
    unfold w2' in R3. rewrite R3. by rewrite Hlen.
  - eapply Forall2_impl; [exact Hg|]. intros d e. by apply given_same_state.
  - eapply made_keeps; [by apply (keeps_same_state w3)| |exact Hm]. intros. apply not_elem_of_nil.
  - cbn. rewrite (quiet_execute_all _ _ _ _ _ R3). cbn. rewrite (quiet_assign _ _ _ _ R2), (quiet_certify _ _ _ _ _ R1).
    done.
Qed.

(** ** The transactions of the two phases *)

(** A generator of kitty transactions only. *)
Record kitty_generator g : Prop := {
  kg_transfers : mg_num_transfers g = 0;
  kg_shared : shared_objects g = [];
  kg_roots : root_objects g = ∅;
  kg_erc20 : mg_erc20_transfer g = false;
  kg_lands : land_objects g = ∅;
  kg_computation : in_range 8 (mg_computation g) /\ mg_computation g * 100 <= max_rounds;
}.

(** The inputs of a transaction of the generator: its gas, and kitties and genes. *)
Lemma kitty_tx_inputs g a fn objects gas ki w :
  kitty_generator g -> gas_objects a = [gas] ->
  kitty_of g a {[ "kitty_fn"%string := fn ]} objects ki -> NoDup (map ref_id ki) ->
  exists tx w', generate_tx (move_tx_generator g) a (sender a) {[ "kitty_fn"%string := fn ]} objects w = Some (tx, w') /\
    state w' = state w /\ tx_inputs tx = (gas, map ImmOrOwnedObject ki) /\ signed_by a gas tx.
Proof.
  intros [Ht Hs Hr He Hl [Hc _]] Hgas Hki Hnd.
  destruct (move_tx_ok g a (sender a) {[ "kitty_fn"%string := fn ]} objects gas [] [] [] [] ki w)
    as (tx & w' & la & Hrun & Hst & Hla & Hin & Hsig).
  - unfold transfer_range. rewrite Ht. constructor.
  - unfold shared_of. by rewrite Hs.
  - unfold root_of. by rewrite decide_True.
  - done.
  - unfold coin_of. by rewrite He.
  - done.
  - split; rewrite Hl, map_size_empty; [done|]. intros i. rewrite lookup_empty. cbn. split; [by intros [? ?]|lia].
  - unfold arg. rewrite lookup_singleton_ne by done. by rewrite Hgas.
  - intros la Hla. unfold land_of in Hla. rewrite decide_True in Hla by done. subst la. unfold inputs_of. cbn.
    rewrite app_nil_r, map_map. exact Hnd.
  - exists tx, w'. do 2 (split; [done|]). split; [|done]. rewrite Hin. unfold land_of in Hla. rewrite decide_True in Hla by done.
    subst la. unfold inputs_of. cbn. by rewrite app_nil_r.
Qed.

(** The program of a transaction that gives a gene. *)
Lemma provide_program g a gas kitty w tx w' s :
  kitty_generator g -> gas_objects a = [gas] -> kitty_objects g !! sender a = Some kitty ->
  owned_as s (ref_id gas) = Some (Coin, sender a) -> owned_as s (ref_id kitty) = Some (Kitty, sender a) ->
  published s (move_package g) -> drawn (sender a, keypair a) -> (2 <= max_commands)%nat ->
  generate_tx (move_tx_generator g) a (sender a) {[ "kitty_fn"%string := 1 ]} [] w = Some (tx, w') ->
  gives_gene max_rounds s a gas kitty tx /\ user_program max_commands max_rounds s tx.
Proof.
  intros [Ht Hs Hr He Hl [Hc Hrounds]] Hgas Hkitty Hog Hok Hpub Hd Hmax. cbn. unfold move_generate_tx.
  intros (b & w1 & [Hb ->]%lift_Some & (b7 & w2 & R7 & (gas' & w3 & [Hgas' ->]%lift_Some & [= <- _])%bindM_Some)
    %bindM_Some)%bindM_Some.
  unfold arg in Hgas'. rewrite lookup_singleton_ne, Hgas in Hgas' by done. injection Hgas' as <-.
  unfold land_step in R7. rewrite Hl, map_size_empty in R7. injection R7 as <- _.
  apply bind_Some in Hb as (b1 & R1 & Hb). apply bind_Some in Hb as (b2 & R2 & Hb).
  unfold transfer_range in R1. rewrite Ht in R1. injection R1 as <-.
  unfold increment_shared in R2. rewrite Hs in R2. injection R2 as <-.
  apply bind_Some in Hb as (b3 & R3 & Hb). unfold read_dynamic_fields in R3. rewrite decide_True in R3 by done.
  injection R3 as <-. apply bind_Some in Hb as (b4 & R4 & Hb).
  apply bind_Some in Hb as (b5 & R5 & R6). unfold erc20_step in R5. rewrite He in R5. injection R5 as <-.
  destruct (computation_adds g Hc ptb_new) as (b4' & Hb4 & Hin); [rewrite inputs_new; constructor|].
  rewrite R4 in Hb4. injection Hb4 as <-. rewrite inputs_new in Hin. cbn in Hin.
  destruct (compute_program g a s max_rounds 0 ptb_new b4 Hc Hrounds R4 (program_new _ _ _ _)) as (n & Hn & P4).
  unfold kitty_step in R6. destruct (0 <? size (kitty_objects g))%nat eqn:Esz.
  2:{ apply Nat.ltb_ge in Esz. assert (kitty_objects g = ∅) as Hem by (apply map_size_empty_inv; lia).
      by rewrite Hem, lookup_empty in Hkitty. }
  rewrite Hkitty in R6. cbn in R6. unfold arg in R6. rewrite lookup_singleton_eq in R6. cbn in R6.
  apply bind_Some in R6 as (bytes & Hbytes & R6). split.
  - exists (move_package g), n, b4, bytes, b. done.
  - exists (move_package g), a, gas, (S n), b. do 3 (split; [done|]).
    split; [by eapply program_gene|]. split; [lia|done].
Qed.

Lemma provide_tx g a gas kitty w s :
  kitty_generator g -> gas_objects a = [gas] -> kitty_objects g !! sender a = Some kitty ->
  live s (ref_id gas) = Some gas -> live s (ref_id kitty) = Some kitty -> ref_id gas <> ref_id kitty ->
  owned_as s (ref_id gas) = Some (Coin, sender a) -> owned_as s (ref_id kitty) = Some (Kitty, sender a) ->
  published s (move_package g) -> drawn (sender a, keypair a) -> (2 <= max_commands)%nat ->
  exists tx w', generate_tx (move_tx_generator g) a (sender a) {[ "kitty_fn"%string := 1 ]} [] w = Some (tx, w') /\
    state w' = state w /\ donates s (a, gas, kitty) tx.
Proof.
  intros Hg Hgas Hkitty Hlg Hlk Hne Hog Hok Hpub Hd Hmax.
  destruct (kitty_tx_inputs g a 1 [] gas [kitty] w) as (tx & w' & Hrun & Hst & Hin & _);
    [done|done| |apply NoDup_singleton|].
  { unfold kitty_of. rewrite decide_False; [|intros Hem; by rewrite Hem, lookup_empty in Hkitty].
    exists kitty. split; [done|]. unfold arg. by rewrite lookup_singleton_eq. }
  destruct (provide_program g a gas kitty w tx w' s) as [Hgives Hprog]; [done..|].
  assert (Ho : owned_refs tx = [gas; kitty]) by (unfold owned_refs; by rewrite Hin).
  exists tx, w'. do 2 (split; [done|]). constructor; [constructor| |]; cbn [fst snd]; try done.
  - rewrite Ho. by repeat (apply Forall_cons; split; [|]).
  - unfold owned_ids. rewrite Ho. cbn. constructor; [by rewrite list_elem_of_singleton|apply NoDup_singleton].
  - unfold tx_shared. by rewrite Hin.
Qed.

(** A transaction that breeds. *)
Lemma breed_tx g a gas gene kitty new_kitty w :
  kitty_generator g -> gas_objects a = [gas] -> kitty_objects g !! sender a = Some kitty ->
  ref_id gene <> ref_id new_kitty ->
  exists tx w', generate_tx (move_tx_generator g) a (sender a) {[ "kitty_fn"%string := 2 ]} [gene; new_kitty] w =
      Some (tx, w') /\ state w' = state w /\ owned_refs tx = [gas; gene; new_kitty] /\ tx_shared tx = [] /\
    signed_by a gas tx.
Proof.
  intros Hg Hgas Hkitty Hne.
  destruct (kitty_tx_inputs g a 2 [gene; new_kitty] gas [gene; new_kitty] w) as (tx & w' & Hrun & Hst & Hin & Hsig);
    [done|done| | |].
  { unfold kitty_of. rewrite decide_False; [|intros Hem; by rewrite Hem, lookup_empty in Hkitty].
    exists kitty. split; [done|]. unfold arg. rewrite lookup_singleton_eq. cbn. by exists gene, new_kitty. }
  { cbn. constructor; [by rewrite list_elem_of_singleton|apply NoDup_singleton]. }
  exists tx, w'. do 2 (split; [done|]). unfold owned_refs, tx_shared. by rewrite Hin.
Qed.

(** ** The transactions of the first phase *)

(** Every user is a donor. *)
Record donors ctx g (ds : list Donor) : Prop := {
  dr_users : map (fun d => d.1.1) ds ≡ₚ btree_values (user_accounts ctx);
  dr_gas : forall d, d ∈ ds -> gas_objects d.1.1 = [d.1.2] /\ kitty_objects g !! sender d.1.1 = Some d.2;
}.

Lemma donors_senders ctx g ds : context_ok ctx -> donors ctx g ds -> NoDup (map (fun d => sender d.1.1) ds).
Proof.
  intros Hok [Hp _]. rewrite <-(map_map (fun d : Donor => d.1.1) sender), Hp.
  rewrite <-(take_ge (btree_values _) (length (btree_values (user_accounts ctx)))) by lia.
  by apply values_users.
Qed.

(** References of distinct keys of a map with distinct identifiers. *)
Lemma map_ids_distinct (m : gmap SuiAddress ObjectRef) k k' r r' :
  NoDup (ref_ids m) -> m !! k = Some r -> m !! k' = Some r' -> ref_id r = ref_id r' -> k = k'.
Proof.
  intros Hnd Hr%elem_of_map_to_list Hr'%elem_of_map_to_list Heq.
  assert ((k, r) = (k', r')) as [= -> _]; [|done].
  by apply (NoDup_map_eq (fun kr : SuiAddress * ObjectRef => ref_id kr.2) (map_to_list m)).
Qed.

Lemma donors_distinct w ctx g ds :
  context_ok ctx -> holds w ctx g -> donors ctx g ds -> NoDup (ds ≫= donor_ids).
Proof.
  intros Hok Hh Hds. pose proof (donors_senders _ _ _ Hok Hds) as Hnd. destruct Hds as [Hp Hd].
  pose proof (context_ok_users _ Hok) as Husers. destruct Hh as [_ _ _ [Hids _] _].
  apply NoDup_app in Hids as (_ & Hdis & Hheld).
  assert (Hkit : NoDup (ref_ids (kitty_objects g))).
  { unfold held_ids in Hheld. apply NoDup_app in Hheld as (Hheld & _ & _). by apply NoDup_app in Hheld as (_ & _ & ?). }
  assert (Hkey : forall d, d ∈ ds -> exists k, user_accounts ctx !! k = Some d.1.1 /\ sender d.1.1 = k).
  { intros d Hin. apply (elem_of_map_1 (fun d : Donor => d.1.1)) in Hin. rewrite Hp in Hin.
    apply btree_values_elem in Hin as [k Hk]. exists k. split; [done|]. by apply Husers. }
  assert (Hgas : forall d, d ∈ ds -> ref_id d.1.2 ∈ account_ids d.1.1).
  { intros d Hin. unfold account_ids. rewrite (proj1 (Hd d Hin)). left. }
  assert (Hcross : forall d d', d ∈ ds -> d' ∈ ds -> ref_id d.1.2 <> ref_id d'.2).
  { intros d d' Hin Hin' Heq. destruct (Hkey d Hin) as (k & Hk & _). apply (Hdis (ref_id d.1.2)).
    - eapply accounts_elem; [exact Hk|by apply Hgas].
    - unfold held_ids. rewrite !elem_of_app. left. right. rewrite Heq. eapply ref_ids_elem, Hd, Hin'. }
  apply NoDup_bind.
  - intros d d' id Hin Hin' Hi Hi'. apply (NoDup_map_eq (fun d : Donor => sender d.1.1) ds); [done..|].
    destruct (Hkey d Hin) as (k & Hk & Hs), (Hkey d' Hin') as (k' & Hk' & Hs').
    unfold donor_ids in Hi, Hi'. rewrite elem_of_cons, list_elem_of_singleton in Hi, Hi'.
    destruct Hi as [->| ->], Hi' as [Heq|Heq]; [|by apply Hcross in Heq|by symmetry in Heq; apply Hcross in Heq|].
    + rewrite Hs, Hs'. apply (accounts_ok_owner (user_accounts ctx) k k' d.1.1 d'.1.1 (ref_id d.1.2)); [done..|by apply Hgas|].
      rewrite Heq. by apply Hgas.
    + eapply map_ids_distinct; [exact Hkit|by apply Hd|by apply Hd|done].
  - intros d Hin. unfold donor_ids. constructor; [|apply NoDup_singleton]. rewrite list_elem_of_singleton. by apply Hcross.
  - by apply NoDup_fmap_1 with (f := fun d : Donor => sender d.1.1).
Qed.

Lemma Forall2_choose {X Y Z'} (f : Z' -> X) (P : Z' -> Y -> Prop) (xs : list X) (ys : list Y) :
  Forall2 (fun x y => exists z, f z = x /\ P z y) xs ys -> exists zs, map f zs = xs /\ Forall2 P zs ys.
Proof.
  induction 1 as [|x y xs ys (z & <- & Hz) _ (zs & <- & Hzs)]; [by exists []|].
  exists (z :: zs). split; [done|by constructor].
Qed.

Lemma provide_all ctx g w :
  kitty_generator g -> context_ok ctx -> refs_live w ctx -> holds w ctx g -> keys_drawn ctx ->
  published (state w) (move_package g) -> (2 <= max_commands)%nat ->
  (forall k a, user_accounts ctx !! k = Some a -> length (gas_objects a) = 1%nat /\ is_Some (kitty_objects g !! k)) ->
  exists txs ds w', generate_kitty_provide_gene_transactions (move_tx_generator g) ctx w = Some (txs, w') /\
    state w' = state w /\ donors ctx g ds /\ Forall2 (donates (state w)) ds txs.
Proof.
  intros Hg Hok Hlive Hh Hkeys Hpub Hmax Husers.
  destruct (collect_pure (fun a => generate_tx (move_tx_generator g) a (sender a) {[ "kitty_fn"%string := 1 ]} [])
    (fun a tx => exists d : Donor, d.1.1 = a /\ gas_objects d.1.1 = [d.1.2] /\
       kitty_objects g !! sender d.1.1 = Some d.2 /\ donates (state w) d tx) (btree_values (user_accounts ctx)) w) as (txs & accounts & w' & Hp & Hrun & Hs & HF).
  { intros a w1 [k Ha]%btree_values_elem. destruct (Husers k a Ha) as [Hlen [kitty Hkitty]].
    assert (Hk : sender a = k) by by apply (context_ok_users _ Hok). rewrite <-Hk in Ha, Hkitty.
    destruct (gas_objects a) as [|gas [|? ?]] eqn:Egas; try done.
    assert (Hgin : gas ∈ gas_objects a) by (rewrite Egas; left).
    destruct (ho_kitties _ _ _ Hh _ _ Hkitty) as [Hkl Hko].
    destruct (provide_tx g a gas kitty w1 (state w)) as (tx & w2 & Htx & Hst & Hdn); try done.
    - by eapply account_live.
    - intros Heq. destruct (ho_ids _ _ _ Hh) as [Hids _]. apply NoDup_app in Hids as (_ & Hdis & _).
      apply (Hdis (ref_id gas)); [by eapply user_gas_id|]. unfold held_ids. rewrite !elem_of_app. left. right.
      rewrite Heq. by eapply ref_ids_elem.
    - by eapply (ho_coins _ _ _ Hh).
    - by eapply Hkeys.
    - exists tx, w2. do 2 (split; [done|]). by exists (a, gas, kitty). }
  apply (Forall2_choose (fun d : Donor => d.1.1) (fun d tx => gas_objects d.1.1 = [d.1.2] /\
    kitty_objects g !! sender d.1.1 = Some d.2 /\ donates (state w) d tx)) in HF as (ds & Hds & HF). exists txs, ds, w'. split; [done|]. split; [done|]. split.
  - constructor; [etrans; [apply reflexive_eq, Hds|exact Hp]|]. intros d [i Hi]%list_elem_of_lookup_1.
    destruct (Forall2_lookup_l _ _ _ _ _ HF Hi) as (tx & _ & Hgas & Hkitty & _). done.
  - eapply Forall2_impl; [exact HF|]. by intros d tx (_ & _ & ?).
Qed.

(** ** The transactions of the second phase *)

Lemma given_gas_ids (ds : list Donor) es w :
  Forall2 (fun d e => given d e w) ds es -> map (fun e => ref_id (gas_object e)) es = map (fun d => ref_id d.1.2) ds.
Proof. induction 1 as [|d e ds es Hg _ IH]; [done|]. cbn [map]. rewrite IH. f_equal. apply Hg. Qed.

(** The tasks of users with a gene and a kitty. *)
Lemma breed_tasks (f : Account -> ObjectRef -> ObjectRef -> M World Transaction) (m m' : gmap SuiAddress ObjectRef)
    (accounts : list Account) :
  (forall a, a ∈ accounts -> is_Some (m !! sender a) /\ is_Some (m' !! sender a)) ->
  exists ts, mapM (fun a => x ← m !! sender a; y ← m' !! sender a; Some (f a x y)) accounts =
      Some (map (fun t => f t.1.1 t.1.2 t.2) ts) /\
    map (fun t => t.1.1) ts = accounts /\
    forall t, t ∈ ts -> m !! sender t.1.1 = Some t.1.2 /\ m' !! sender t.1.1 = Some t.2.
Proof.
  induction accounts as [|a accounts IH]; intros Hm; [exists []; do 2 (split; [done|]); by intros t ?%elem_of_nil|].
  destruct (Hm a) as [[x Hx] [y Hy]]; [left|]. destruct IH as (ts & Hts & Hmap & Hin); [intros; apply Hm; by right|].
  exists ((a, x, y) :: ts). cbn. rewrite Hx, Hy. cbn. rewrite Hts. cbn. split; [done|]. split; [by rewrite Hmap|].
  intros t [->|Ht]%elem_of_cons; [done|by apply Hin].
Qed.

Section breed.
Context g ctx (ds : list Donor) (es : list TransactionEffects) (w1 w : World).
Hypothesis Hgen : kitty_generator g.
Hypothesis Hok : context_ok ctx.
Hypothesis Hds : donors ctx g ds.
Hypothesis Hnd : NoDup (ds ≫= donor_ids).
Hypothesis Hgiven : Forall2 (fun d e => given d e w) ds es.
Hypothesis Hmade : made es w1 w.
Hypothesis Hdonor : forall d id, d ∈ ds -> id ∈ donor_ids d -> is_Some (live (state w1) id).

Abbreviation gene_map := (collect_map (picks address_owned es)).
Abbreviation kitty_map := (collect_map (omap changed_kitty es)).

(** What a user breeds: its new gas, its gene and the new version of its kitty, all from
    the effects of its own transaction. *)
Record litter (t : Account * ObjectRef * ObjectRef) (d : Donor) : Prop := {
  li_donor : d ∈ ds;
  li_sender : sender t.1.1 = sender d.1.1;
  li_kitten : kitty_objects g !! sender t.1.1 = Some d.2;
  li_gas : exists gas, gas_objects t.1.1 = [gas] /\ ref_id gas = ref_id d.1.2 /\ live (state w) (ref_id gas) = Some gas;
  li_effects : exists e, e ∈ es /\ gas_objects t.1.1 = [gas_object e] /\
    first_such address_owned (created e) = Some (sender t.1.1, t.1.2) /\ changed_kitty e = Some (sender t.1.1, t.2);
  li_gene : gene_map !! sender t.1.1 = Some t.1.2 /\ t.1.2 ∈ created_refs es;
  li_kitty : kitty_map !! sender t.1.1 = Some t.2 /\ ref_id t.2 = ref_id d.2 /\ live (state w) (ref_id t.2) = Some t.2;
}.

Lemma gas_map_lookup d e : d ∈ ds -> e ∈ es -> given d e w -> new_gas es !! ref_id d.1.2 = Some (gas_object e).
Proof.
  intros Hd He Hg. unfold new_gas. apply collect_map_elem.
  - assert (Heq : (map (fun e => (ref_id (gas_object e), gas_object e)) es).*1 = map (fun d => ref_id d.1.2) ds).
    { etrans; [apply map_fst_map|]. by apply (given_gas_ids ds es w). }
    rewrite Heq. clear -Hnd. induction ds as [|d ds' IH]; [constructor|]. rewrite bind_cons in Hnd.
    apply NoDup_app in Hnd as (_ & Hd & Hnd'). cbn [map]. constructor; [|by apply IH].
    intros (d' & Hid & Hd')%elem_of_map. apply (Hd (ref_id d.1.2)); [left|]. apply list_elem_of_bind.
    exists d'. split; [rewrite Hid; left|done].
  - apply elem_of_map. exists e. split; [|done]. by rewrite (gv_id _ _ _ Hg).
Qed.

Lemma user_litter k a :
  user_accounts (refresh_gas_objects (new_gas es) ctx) !! k = Some a -> exists gene kitty d, litter (a, gene, kitty) d.
Proof.
  pose proof (context_ok_users _ Hok) as Husers. pose proof (donors_senders _ _ _ Hok Hds) as Hsenders.
  rewrite refresh_gas_objects_eq by done. cbn. rewrite lookup_fmap.
  destruct (user_accounts ctx !! k) as [a0|] eqn:Ha0; [|done]. intros [= <-].
  assert (Hin : a0 ∈ map (fun d => d.1.1) ds) by (rewrite (dr_users _ _ _ Hds); by apply btree_values_elem; exists k).
  apply elem_of_map in Hin as (d & -> & Hd). destruct (dr_gas _ _ _ Hds d Hd) as [Hgas Hkitty].
  pose proof Hd as [i Hi]%list_elem_of_lookup_1. destruct (Forall2_lookup_l _ _ _ _ _ Hgiven Hi) as (e & Hei & Hg).
  assert (He : e ∈ es) by by eapply list_elem_of_lookup_2.
  pose proof (gas_map_lookup d e Hd He Hg) as Hnew. destruct Hg as [Hid Hgl (gene & Hgene & Hcr) (kitty & Hk & Hkid & Hkl) _].
  exists gene, kitty, d. constructor; cbn; [done|done|done| | | |].
  - exists (gas_object e). rewrite Hgas. cbn. unfold updated. rewrite Hnew. cbn. rewrite Hid. done.
  - exists e. rewrite Hgas. cbn. unfold updated. rewrite Hnew. done.
  - split; [|apply list_elem_of_bind; by exists e].
    eapply (keyed_lookup (fun e => first_such address_owned (created e)) ds); [|done|exact He|done].
    eapply Forall2_impl; [exact Hgiven|]. intros d' e' [_ _ (r & Hr & _) _ _]. eauto.
  - split; [|by rewrite Hkid]. eapply (keyed_lookup changed_kitty ds); [|done|exact He|done].
    eapply Forall2_impl; [exact Hgiven|]. intros d' e' [_ _ _ (r & Hr & _) _]. eauto.
Qed.

(** A gene is not one of the objects that donated. *)
Lemma gene_new gene d id : gene ∈ created_refs es -> d ∈ ds -> id ∈ donor_ids d -> ref_id gene <> id.
Proof.
  intros Hg Hd Hid <-. destruct (Hdonor d _ Hd Hid) as [r Hr]. by rewrite (made_new _ _ _ Hmade _ Hg) in Hr.
Qed.

Definition litter_ids (t : Account * ObjectRef * ObjectRef) : list ObjectID :=
  account_ids t.1.1 ++ [ref_id t.1.2; ref_id t.2].

Lemma litter_ids_elem t d id :
  litter t d -> id ∈ litter_ids t -> id ∈ donor_ids d \/ id = ref_id t.1.2.
Proof.
  intros [_ _ _ (gas & Hgas & Hid & _) _ _ (_ & Hkid & _)]. unfold litter_ids, account_ids, donor_ids. rewrite Hgas.
  cbn [map app]. rewrite Hid, Hkid. set_solver.
Qed.

Lemma donor_unique d d' id : d ∈ ds -> d' ∈ ds -> id ∈ donor_ids d -> id ∈ donor_ids d' -> d = d'.
Proof.
  intros Hd Hd' Hi Hi'. clear -Hnd Hd Hd' Hi Hi'. induction ds as [|d0 ds' IH]; [by apply elem_of_nil in Hd|].
  rewrite bind_cons in Hnd. apply NoDup_app in Hnd as (_ & Hdis & Hnd'). apply elem_of_cons in Hd, Hd'.
  destruct Hd as [->|Hd], Hd' as [->|Hd']; [done| | |by apply IH]; exfalso.
  - apply (Hdis id Hi), list_elem_of_bind. by exists d'.
  - apply (Hdis id Hi'), list_elem_of_bind. by exists d.
Qed.

Lemma litters_distinct (ts : list (Account * ObjectRef * ObjectRef)) :
  (forall t, t ∈ ts -> exists d, litter t d) -> NoDup (map (fun t => sender t.1.1) ts) -> NoDup (ts ≫= litter_ids).
Proof.
  intros Hts Hsenders. apply NoDup_bind.
  - intros t t' id Ht Ht' Hi Hi'. apply (NoDup_map_eq (fun t : Account * ObjectRef * ObjectRef => sender t.1.1) ts); [done..|].
    destruct (Hts t Ht) as [d Hl], (Hts t' Ht') as [d' Hl'].
    destruct (litter_ids_elem t d id Hl Hi) as [Hid| ->], (litter_ids_elem t' d' _ Hl' Hi') as [Hid'|Heq].
    + rewrite (li_sender _ _ Hl), (li_sender _ _ Hl'). f_equal.
      by rewrite (donor_unique d d' id (li_donor _ _ Hl) (li_donor _ _ Hl') Hid Hid').
    + exfalso. eapply gene_new; [apply (li_gene _ _ Hl')|apply (li_donor _ _ Hl)|exact Hid|done].
    + exfalso. eapply gene_new; [apply (li_gene _ _ Hl)|apply (li_donor _ _ Hl')|exact Hid'|done].
    + eapply (map_ids_distinct gene_map); [|apply (li_gene _ _ Hl)|apply (li_gene _ _ Hl')|done].
      apply collect_map_values, (picks_distinct address_owned (fun x => ref_id x.2) address_owned_id).
      apply (made_distinct _ _ _ Hmade).
  - intros t Ht. destruct (Hts t Ht) as [d Hl]. pose proof Hl as [Hd _ _ (gas & Hgas & Hid & _) _ [_ Hg] (_ & Hkid & _)].
    assert (Hne : ref_id d.1.2 <> ref_id d.2).
    { clear -Hnd Hd. apply list_elem_of_split in Hd as (l1 & l2 & ->). rewrite bind_app, bind_cons in Hnd.
      apply NoDup_app in Hnd as (_ & _ & Hnd'). apply NoDup_app in Hnd' as (Hnd' & _ & _).
      apply NoDup_cons in Hnd' as [Hn _]. by rewrite list_elem_of_singleton in Hn. }
    unfold litter_ids, account_ids. rewrite Hgas. cbn [map app]. rewrite Hid, Hkid.
    assert (Hg1 : ref_id t.1.2 <> ref_id d.1.2) by (apply (gene_new _ d); [done|done|left]).
    assert (Hg2 : ref_id t.1.2 <> ref_id d.2) by (apply (gene_new _ d); [done|done|right; left]).
    repeat constructor; set_solver.
  - by apply NoDup_fmap_1 with (f := fun t : Account * ObjectRef * ObjectRef => sender t.1.1).
Qed.

(** A breeding transaction of a user: the user sends and signs it, and it owns what the
    effects [e] of the user's own transaction of the first phase left: the new version
    of its gas object, the gene that was made for it, and the new version of its kitty. *)
Definition breeds g (es : list TransactionEffects) w a (tx : Transaction) : Prop :=
  exists e gene kitty new_kitty, e ∈ es /\ gas_objects a = [gas_object e] /\
    first_such address_owned (created e) = Some (sender a, gene) /\
    kitty_objects g !! sender a = Some kitty /\ ref_id new_kitty = ref_id kitty /\
    changed_kitty e = Some (sender a, new_kitty) /\ signed_by a (gas_object e) tx /\
    owned_refs tx = [gas_object e; gene; new_kitty] /\ tx_shared tx = [] /\ tx_live w tx.

(** The breeding transactions: one per user, of live objects that no other uses. *)
Lemma breed_all :
  exists txs w', generate_kitty_breed_transactions (move_tx_generator g) gene_map kitty_map
      (refresh_gas_objects (new_gas es) ctx) w = Some (txs, w') /\ state w' = state w /\
    length txs = size (user_accounts ctx) /\ NoDup (txs ≫= owned_ids) /\
    exists accounts, accounts ≡ₚ btree_values (user_accounts (refresh_gas_objects (new_gas es) ctx)) /\
      Forall2 (breeds g es w') accounts txs.
Proof.
  set (ctx' := refresh_gas_objects (new_gas es) ctx).
  assert (Hshape : same_shape ctx ctx') by (apply refresh_shape; [by apply context_ok_users|apply new_gas_ok]).
  destruct (breed_tasks (fun a x y => generate_tx (move_tx_generator g) a (sender a) {[ "kitty_fn"%string := 2 ]} [x; y])
    gene_map kitty_map (btree_values (user_accounts ctx'))) as (ts & Hts & Hmap & Hin).
  { intros a [k Ha]%btree_values_elem. destruct (user_litter k a Ha) as (x & y & d & [_ _ _ _ _ [Hx _] [Hy _]]).
    split; by eexists. }
  assert (Hlit : forall t, t ∈ ts -> exists d, litter t d).
  { intros [[a x] y] Ht. destruct (Hin _ Ht) as [Hx Hy]. cbn in Hx, Hy.
    apply (elem_of_map_1 (fun t : Account * ObjectRef * ObjectRef => t.1.1)) in Ht. rewrite Hmap in Ht.
    apply btree_values_elem in Ht as [k Ha]. destruct (user_litter k a Ha) as (x' & y' & d & Hl).
    pose proof (proj1 (li_gene _ _ Hl)) as Hx'. pose proof (proj1 (li_kitty _ _ Hl)) as Hy'. cbn in Hx', Hy'.
    exists d. congruence. }
  destruct (collect_pure (fun t => generate_tx (move_tx_generator g) t.1.1 (sender t.1.1) {[ "kitty_fn"%string := 2 ]} [t.1.2; t.2])
    (fun t tx => owned_refs tx = gas_objects t.1.1 ++ [t.1.2; t.2] /\ tx_shared tx = [] /\
       exists gas, gas_objects t.1.1 = [gas] /\ signed_by t.1.1 gas tx) ts w)
    as (txs & ts' & w' & Hp & Hrun & Hst & HF).
  { intros t w2 Ht. destruct (Hlit t Ht) as (d & [Hd _ Hk (gas & Hgas & _) _ [_ Hg] (_ & Hkid & _)]). rewrite Hgas.
    destruct (breed_tx g t.1.1 gas t.1.2 d.2 t.2 w2) as (tx & w3 & Hrun & Hst & Ho & Hsh & Hsig);
      [done|done|exact Hk|rewrite Hkid; apply (gene_new _ d); [done|done|right; left]|].
    exists tx, w3. do 4 (split; [done|]). by exists gas. }
  assert (Hids : txs ≫= owned_ids = ts' ≫= litter_ids).
  { clear -HF. induction HF as [|t tx ts txs [Ho _] _ IH]; [done|]. rewrite !bind_cons, IH. f_equal.
    unfold owned_ids, litter_ids, account_ids. by rewrite Ho, map_app. }
  exists txs, w'. split; [unfold generate_kitty_breed_transactions, bindM, lift; fold ctx'; by rewrite Hts|].
  split; [done|]. split; [|split].
  - apply Forall2_length in HF. rewrite <-HF, Hp, <-(length_map (fun t => t.1.1) ts), Hmap, btree_values_length.
    by apply shape_size.
  - rewrite Hids, Hp. apply litters_distinct; [done|]. rewrite <-(map_map (fun t : Account * ObjectRef * ObjectRef => t.1.1) sender), Hmap.
    rewrite <-(take_ge (btree_values _) (length (btree_values (user_accounts ctx')))) by lia.
    apply values_users. by eapply context_ok_shape.
  - exists (map (fun t => t.1.1) ts'). split; [by rewrite Hp, Hmap|]. apply Forall2_fmap_l.
    apply Forall2_same_length_lookup. split; [by eapply Forall2_length|]. intros i t tx Hti Htx.
    destruct (Forall2_lookup_lr _ _ _ _ _ _ HF Hti Htx) as (Ho & Hsh & gas & Hgas & Hsig).
    apply list_elem_of_lookup_2 in Hti. rewrite Hp in Hti. destruct (Hlit t Hti)
      as (d & [_ _ Hk (gas' & Hgas' & _ & Hgl) (e & He & Hge & Hgene & Hch) [_ Hg] (_ & Hkid & Hkl)]).
    assert (gas' = gas_object e) as -> by congruence. assert (gas = gas_object e) as -> by congruence.
    rewrite Hgas in Ho. exists e, t.1.2, d.2, t.2. do 9 (split; [done|]).
    unfold tx_live. rewrite Ho, Hst. cbn. repeat (apply Forall_cons; split; [|]); [done| |done|by apply Forall_nil].
    by apply (made_live _ _ _ Hmade).
Qed.

End breed.

(** ** The run *)

Lemma quiet_genes epoch_id es : quiet (foldM (note_gene epoch_id) (mkGenes ∅ ∅ ∅) es).
Proof. apply quiet_foldM. intros acc e. unfold note_gene. quiet_steps. Qed.

Lemma quiet_provide g ctx : quiet (generate_kitty_provide_gene_transactions (move_tx_generator g) ctx).
Proof. unfold generate_kitty_provide_gene_transactions. apply quiet_collect. intros a. apply quiet_move. Qed.

Lemma quiet_breed g genes kitties ctx : quiet (generate_kitty_breed_transactions (move_tx_generator g) genes kitties ctx).
Proof.
  intros w0 txs w0'. unfold generate_kitty_breed_transactions, collect_tasks.
  intros (tasks & w1 & [Ht ->]%lift_Some & Hrun)%bindM_Some. revert Hrun. apply quiet_bind; [apply quiet_next|].
  intros k. apply quiet_seqM. rewrite arrange_perm. apply mapM_Some in Ht. apply Forall_forall.
  intros t [i Hi]%list_elem_of_lookup_1. destruct (Forall2_lookup_r _ _ _ _ _ Ht Hi) as (a & _ & Ha).
  apply bind_Some in Ha as (x & _ & (y & _ & [= <-])%bind_Some). apply quiet_move.
Qed.

(** Options of a kitty run in which a transaction changes nothing but its gas and
    its kitty. *)
Record kitty_options o : Prop := {
  ko_kitty : test_kitty o = true;
  ko_transfers : num_transfers o = 0;
  ko_fields : num_dynamic_fields o = 0;
  ko_shared : num_shared_objects o = 0;
  ko_lands : num_land_objects o = 0;
  ko_erc20 : erc20_transfer o = false;
  ko_computation : in_range 8 (computation o) /\ computation o * 100 <= max_rounds;
}.

Lemma prepared_kitty_generator o ctx g : kitty_options o -> prepared o ctx g -> kitty_generator g.
Proof.
  intros [Hk Ht Hf Hs Hl He Hc] [(Hnt & _ & Hco & Her) Hroots Hsh _ Hlands]. constructor.
  - by rewrite Hnt.
  - destruct (shared_objects g); [done|cbn in Hsh; lia].
  - apply map_eq. intros k. rewrite lookup_empty. apply eq_None_not_Some. rewrite Hroots. by intros [? _].
  - congruence.
  - apply map_eq. intros i. rewrite lookup_empty. apply eq_None_not_Some. rewrite Hlands. lia.
  - by rewrite Hco.
Qed.

(** The run from its first phase on. *)
Lemma kitty_run_from ctx g w skip_signing component :
  kitty_generator g -> context_ok ctx -> refs_live w ctx -> holds w ctx g -> keys_drawn ctx ->
  published (state w) (move_package g) -> (2 <= max_commands)%nat ->
  (forall k a, user_accounts ctx !! k = Some a -> length (gas_objects a) = 1%nat /\ is_Some (kitty_objects g !! k)) ->
  executes_certificates component = true -> benchmark_component ctx = component ->
  exists txs w1 es elapsed w2 genes w3 txs' w4,
    generate_kitty_provide_gene_transactions (move_tx_generator g) ctx w = Some (txs, w1) /\
    kitty_phase "Execution provide_gene" None txs skip_signing ctx w1 = Some ((es, length txs, elapsed), w2) /\
    foldM (note_gene (epoch (state w2))) (mkGenes ∅ ∅ ∅) es w2 = Some (genes, w3) /\
    generate_kitty_breed_transactions (move_tx_generator g) (genes_objects genes) (genes_kitties genes)
      (refresh_gas_objects (genes_gas genes) ctx) w3 = Some (txs', w4) /\
    reports w4 = reports w ++ [Throughput "Execution provide_gene" elapsed (length txs') elapsed] /\
    length txs' = size (user_accounts ctx) /\ NoDup (txs' ≫= owned_ids) /\
    exists accounts, accounts ≡ₚ btree_values (user_accounts (refresh_gas_objects (genes_gas genes) ctx)) /\
      Forall2 (breeds g es w4) accounts txs'.
Proof.
  intros Hg Hok Hlive Hh Hkeys Hpub Hmax Husers Hc <-.
  destruct (provide_all ctx g w) as (txs & ds & w1 & R1 & Hs1 & Hds & HF); [done..|].
  pose proof (donors_distinct _ _ _ _ Hok Hh Hds) as Hnd. rewrite <-Hs1 in HF.
  destruct (kitty_phase_one ctx ds txs skip_signing w1) as (es & elapsed & ds' & wx & w2 & R2 & Hp & Hgv & Hu & Hm & Hrep);
    [done|done|done| |].
  { intros r. rewrite Hs1. apply (ho_unlocked _ _ _ Hh). }
  destruct (genes_loop (epoch (state w2)) ds' es w2 Hgv) as (w3 & R3 & Hk3).
  assert (Hds' : donors ctx g ds').
  { destruct Hds as [Hu1 Hu2]. constructor; [by rewrite Hp|]. intros d. rewrite Hp. apply Hu2. }
  destruct (breed_all g ctx ds' es wx w3) as (txs' & w4 & R4 & Hs4 & Hlen & Hndt & Hbreed).
  - done.
  - done.
  - done.
  - by rewrite Hp.
  - eapply Forall2_impl; [exact Hgv|]. intros d e. eapply given_keeps; [exact Hk3|]. intros. apply not_elem_of_nil.
  - eapply made_keeps; [exact Hk3| |exact Hm]. intros. apply not_elem_of_nil.
  - intros d id Hd Hid. rewrite Hp in Hd. apply list_elem_of_lookup_1 in Hd as [i Hi].
    destruct (Forall2_lookup_l _ _ _ _ _ HF Hi) as (tx & _ & Hdn). rewrite <-(donates_ids _ _ _ Hdn) in Hid.
    apply elem_of_map in Hid as (r & -> & Hr). exists r. apply (un_live _ _ _ Hu); [apply not_elem_of_nil|].
    pose proof (rn_live _ _ _ _ (dn_run _ _ _ Hdn)) as Hl. rewrite Forall_forall in Hl. by apply Hl.
  - assert (Hlen1 : length txs = length txs').
    { rewrite Hlen, <-btree_values_length, <-(dr_users _ _ _ Hds), length_map. symmetry. by eapply Forall2_length. }
    exists txs, w1, es, elapsed, w2, (genes_of es), w3, txs', w4. do 4 (split; [done|]). split; [|done].
    rewrite (quiet_breed _ _ _ _ _ _ _ R4), (quiet_genes _ _ _ _ _ R3), Hrep, (quiet_provide _ _ _ _ _ R1). by rewrite Hlen1.
Qed.

(** C17. In a run of kitties only (no transfers, dynamic fields, shared objects, lands or
    ERC-20), whose component executes certificates, every user's kitty gives its gene,
    whatever the order in which the tasks finish: the context and the kitties are
    prepared, the first phase runs to its end and reports one transaction per user, and
    its effects are noted; the transactions of the breeding phase are then one per user,
    which the user sends and signs, over the new version of its gas object, the gene
    that its own transaction made for it and the new version of its kitty, all of them
    live and none in two transactions; and the rest of the run is the breeding phase on
    these transactions. *)
Theorem kitty_breeding o component print_sample_tx skip_signing tx_count w :
  let workload := mkWorkload tx_count (KindPTB o) in
  let n := reserved workload print_sample_tx in
  0 <= tx_count -> kitty_options o -> Z.of_nat n < 2 ^ 64 -> NoDup (draw_keys n (entropy w)).*1 ->
  0 <= max_dynamic_fields -> (2 <= max_commands)%nat -> executes_certificates component = true ->
  exists ctx0 w0 g ctx w1 txs w2 es elapsed w3 genes w4 txs' w5 accounts,
    context_new workload component print_sample_tx EmptyString w = Some (ctx0, w0) /\
    create_tx_generator workload ctx0 w0 = Some ((move_tx_generator g, ctx), w1) /\
    generate_kitty_provide_gene_transactions (move_tx_generator g) ctx w1 = Some (txs, w2) /\
    kitty_phase "Execution provide_gene" None txs skip_signing ctx w2 = Some ((es, length txs, elapsed), w3) /\
    foldM (note_gene (epoch (state w3))) (mkGenes ∅ ∅ ∅) es w3 = Some (genes, w4) /\
    let ctx' := refresh_gas_objects (genes_gas genes) ctx in
    generate_kitty_breed_transactions (move_tx_generator g) (genes_objects genes) (genes_kitties genes) ctx' w4 =
      Some (txs', w5) /\
    reports w5 = reports w ++ [Throughput "Execution provide_gene" elapsed (length txs') elapsed] /\
    S (length txs') = n /\ NoDup (txs' ≫= owned_ids) /\
    accounts ≡ₚ btree_values (user_accounts ctx') /\ Forall2 (breeds g es w5) accounts txs' /\
    run_kitty_test workload component print_sample_tx skip_signing EmptyString w =
      (let% p2 := kitty_phase "Execution breed" (Some elapsed) txs' skip_signing ctx' in
       let '(_, tx_count, elapsed2) := p2 in
       report (Throughput "Execution kitty all" (elapsed + elapsed2) tx_count (elapsed + elapsed2))) w5.
Proof.
  intros workload n Hc Ho Hn Hkeys Hfields Hmax Hcomp. pose proof Ho as [Hkit Ht Hf Hs Hl He Hco].
  destruct (ptb_prepared o component print_sample_tx tx_count w)
    as (ctx0 & w0 & g & ctx & w1 & Hnew & Hg & Hshape & Hpub & Hok & Hlive & Hp & Hh & Hsize & Hgas); [done|lia| |done| |].
  { fold workload n. nia. }
  { fold workload n. assert (1 <= n)%nat by (unfold n, reserved; cbn; destruct print_sample_tx; lia). constructor; lia. }
  fold workload n in Hsize.
  destruct (kitty_run_from ctx g w1 skip_signing component) as
    (txs & w2 & es & elapsed & w3 & genes & w4 & txs' & w5 & R1 & R2 & R3 & R4 & Hrep & Hlen & Hnd & accounts & Hp' & HF); try done.
  - by eapply prepared_kitty_generator.
  - eapply keys_shape; [exact Hshape|]. by eapply context_keys.
  - intros k a Ha. split; [specialize (Hgas k a Ha); lia|]. apply (pr_kitties _ _ _ Hp). split; [done|by eexists].
  - rewrite (component_prepared _ _ _ _ _ _ Hg). by eapply component_new.
  - exists ctx0, w0, g, ctx, w1, txs, w2, es, elapsed, w3, genes, w4, txs', w5, accounts. split; [done|].
    split; [unfold create_tx_generator, bindM; cbn; by rewrite Hg|]. do 4 (split; [done|]).
    split; [by rewrite Hrep, (quiet_create_move _ _ _ _ _ Hg), (quiet_context _ _ _ _ _ _ _ Hnew)|].
    split; [by rewrite Hlen|]. do 3 (split; [done|]).
    assert (Hsig : component <> TxnSigning) by by intros ->.
    unfold run_kitty_test. unfold bindM at 1. unfold workload. rewrite Hnew.
    unfold create_tx_generator. cbn [workload_kind]. unfold bindM at 1 2. rewrite Hg. unfold ret at 1. cbn [fst snd].
    unfold bindM at 1. rewrite R1. rewrite !decide_False by done. unfold bindM at 1. rewrite R2.
    unfold bindM at 1. unfold gets. unfold bindM at 1. rewrite R3. unfold bindM at 1. rewrite R4. by rewrite decide_False.
Qed.

End kitty.
