(* ===== verification/SuiErc20Spec.v ===== *)
(** ERC-20 transfers of the Sui single-node benchmark: the transactions of a file
    of transfers, over the accounts of a file of accounts, never share an object. *)
From stdpp Require Import base list option numbers strings gmap sorting.
From S2P Require Import Prelude Machine FileSystem BenchMain SuiTypes SuiStore SuiWorld SuiAccounts SuiAccountsSpec SuiGenerators SuiNode SuiContext SuiContextSpec SuiBench SuiJobsSpec SuiPrepareSpec SuiTxSpec SuiRunSpec.
Open Scope Z_scope.

(** ** Numbering the transfers of a sender *)

Section numbering.

(** The number a sender's next transfer gets. *)
Definition next_number (m : gmap Z Z) (f : Z) : Z := default 0 (m !! f).

Fixpoint number_transfers (m : gmap Z Z) (ts : list (Z * Z)) : list (Z * Z) :=
  match ts with
  | [] => []
  | (f, _) :: ts => (f, next_number m f) :: number_transfers (<[f := next_number m f + 1]> m) ts
  end.

(** How often a sender occurs. *)
Definition sends (f : Z) (ts : list (Z * Z)) : Z :=
  Z.of_nat (length (base.filter (fun t => t.1 = f) ts)).

Lemma sends_cons f t ts : sends f (t :: ts) = (if decide (t.1 = f) then 1 else 0) + sends f ts.
Proof. unfold sends. rewrite filter_cons. case_decide; cbn; lia. Qed.

Lemma next_number_insert m f f' v :
  next_number (<[f := v]> m) f' = if decide (f = f') then v else next_number m f'.
Proof. unfold next_number. rewrite lookup_insert. by case_decide. Qed.

Lemma number_bounds m ts f k :
  (f, k) ∈ number_transfers m ts -> next_number m f <= k < next_number m f + sends f ts.
Proof.
  revert m. induction ts as [|[f0 t0] ts IH]; intros m; cbn [number_transfers].
  - by rewrite elem_of_nil.
  - rewrite elem_of_cons, sends_cons. cbn [fst]. intros [[= -> ->]|Hin].
    + rewrite decide_True by done. unfold sends. lia.
    + apply IH in Hin. rewrite next_number_insert in Hin. case_decide; subst; lia.
Qed.

Lemma number_distinct m ts : NoDup (number_transfers m ts).
Proof.
  revert m. induction ts as [|[f0 t0] ts IH]; intros m; [constructor|]. cbn. constructor; [|apply IH].
  intros Hin%number_bounds. rewrite next_number_insert, decide_True in Hin by done. lia.
Qed.

End numbering.

Section erc20.
Context `{SuiEnv} `{!ObjectLaws} `{!ValidatorLaws} `{!BuilderLaws}.
Implicit Types (g : MoveTxGenerator) (a : Account) (w : World) (ctx : BenchmarkContext) (o : PTBOptions).

(** ** The records of the transfers *)

Definition record_transfer (record : list string) (t : Z * Z) : Prop :=
  record_u64 record 0 = Some t.1 /\ record_u64 record 1 = Some t.2.

(** The sender's account of a numbered transfer. *)
Definition transfer_of ctx (fk : Z * Z) (x : Account * SuiAddress * Z) : Prop :=
  exists addr, account_indexes ctx !! fk.1 = Some addr /\ user_accounts ctx !! addr = Some x.1.1 /\
    x.2 = fk.2.

Lemma erc20_records_ok rows ctx m records ts :
  indexed_ok rows ctx -> Forall2 record_transfer records ts ->
  Forall (fun t => t.1 ∈ rows.*1 /\ t.2 ∈ rows.*1) ts ->
  (forall f, 0 <= next_number m f /\ next_number m f + sends f ts < 2 ^ 64) ->
  exists xs, erc20_records ctx m records = Some xs /\
    Forall2 (transfer_of ctx) (number_transfers m ts) xs.
Proof.
  intros [Hrows _] Hrec. revert m.
  induction Hrec as [|record [f t] records ts [Hf Ht] Hrec IH]; intros m Hin Hm.
  { exists []. split; [done|constructor]. }
  apply Forall_cons in Hin as [[Hfin Htin] Hin].
  apply list_elem_of_fmap in Hfin as ([f' n] & Heqf & Hfn), Htin as ([t' n'] & Heqt & Htn).
  cbn in Heqf, Heqt, Hf, Ht. subst f' t'.
  destruct (Hrows _ _ Hfn) as (addr & a & Haddr & Ha & _).
  destruct (Hrows _ _ Htn) as (addr' & _ & Haddr' & _).
  assert (Hmf := Hm f). rewrite sends_cons, decide_True in Hmf by done.
  assert (Hs : 0 <= sends f ts) by (unfold sends; lia).
  destruct (IH (<[f := next_number m f + 1]> m)) as (xs & Hxs & HF); [done| |].
  { intros f0. specialize (Hm f0). rewrite sends_cons in Hm. cbn [fst] in Hm.
    rewrite next_number_insert. case_decide; subst; lia. }
  exists ((a, addr', next_number m f) :: xs). split.
  - cbn [erc20_records]. unfold erc20_record. rewrite Hf. cbn. rewrite Ht. cbn. rewrite Haddr. cbn.
    rewrite Ha. cbn. rewrite Haddr'. cbn. fold (next_number m f). unfold add.
    rewrite wrap_in by (unfold in_range; lia). cbn. by rewrite Hxs.
  - cbn. constructor; [|done]. by exists addr.
Qed.

(** ** The objects of a transfer *)

(** The gas object and the coin of the [k]-th transfer of an account. *)
Definition transfer_indexes (ak : Account * Z) : list nat :=
  [Z.to_nat ak.2; Z.to_nat (Z.of_nat (length (gas_objects ak.1)) / 2 + ak.2)].
Definition transfer_ids (ak : Account * Z) : list ObjectID :=
  omap (fun i => account_ids ak.1 !! i) (transfer_indexes ak).

Lemma transfer_ids_distinct accounts (aks : list (Account * Z)) :
  accounts_ok accounts -> NoDup aks ->
  (forall ak, ak ∈ aks -> (exists k, accounts !! k = Some ak.1) /\
     0 <= ak.2 < Z.of_nat (length (gas_objects ak.1)) / 2) ->
  NoDup (aks ≫= transfer_ids).
Proof.
  intros Hok Hnd Hin.
  assert (Hid : forall ak id, id ∈ transfer_ids ak -> exists i, i ∈ transfer_indexes ak /\
            account_ids ak.1 !! i = Some id).
  { intros ak id. unfold transfer_ids. rewrite list_elem_of_omap. intros (i & ? & ?). eauto. }
  apply NoDup_bind; [| |done].
  - intros [a k] [a' k'] id Hm1 Hm2 (i & Hi & Hai)%Hid (i' & Hi' & Hai')%Hid. cbn in *.
    destruct (Hin _ Hm1) as [[x Hx] Hk], (Hin _ Hm2) as [[x' Hx'] Hk']. cbn in *.
    assert (x = x') as ->.
    { apply (accounts_ok_owner accounts x x' a a' id); [done..|by eapply list_elem_of_lookup_2|by eapply list_elem_of_lookup_2]. }
    assert (a = a') as -> by congruence. f_equal.
    assert (i = i') as -> by (eapply NoDup_lookup; [by eapply accounts_ok_account|done|done]).
    unfold transfer_indexes in *. cbn in *. rewrite !elem_of_cons, elem_of_nil in Hi, Hi'.
    destruct Hi as [->|[->|[]]], Hi' as [?|[?|[]]]; lia.
  - intros [a k] Hm1. destruct (Hin _ Hm1) as [[x Hx] Hk]. cbn in *.
    pose proof (accounts_ok_account _ _ _ Hok Hx) as Ha. unfold transfer_ids, transfer_indexes. cbn.
    destruct (account_ids a !! Z.to_nat k) as [i1|] eqn:E1,
      (account_ids a !! Z.to_nat (Z.of_nat (length (gas_objects a)) / 2 + k)) as [i2|] eqn:E2; cbn;
      try apply NoDup_singleton; [|constructor].
    apply NoDup_cons. split; [|apply NoDup_singleton]. rewrite list_elem_of_singleton. intros <-.
    pose proof (NoDup_lookup _ _ _ _ Ha E1 E2). lia.
Qed.

(** A generator for a workload without prepared objects, and its options. *)
Record plain g : Prop := {
  pl_roots : root_objects g = ∅;
  pl_shared : shared_objects g = [];
  pl_kitties : kitty_objects g = ∅;
  pl_lands : land_objects g = ∅;
  pl_computation : in_range 8 (mg_computation g);
}.

Record plain_options o : Prop := {
  po_transfers : 0 <= num_transfers o;
  po_fields : num_dynamic_fields o = 0;
  po_shared : num_shared_objects o = 0;
  po_kitty : test_kitty o = false;
  po_lands : num_land_objects o = 0;
  po_computation : in_range 8 (computation o);
}.

(** The transaction of the [k]-th transfer of an account: the account sends and signs it,
    and it owns the [k]-th gas object of the account, which pays, and the [k]-th of the
    second half, which is the coin. *)
Definition transfers a (k : Z) (tx : Transaction) : Prop :=
  exists gas coin, gas_objects a !! Z.to_nat k = Some gas /\
    gas_objects a !! Z.to_nat (Z.of_nat (length (gas_objects a)) / 2 + k) = Some coin /\
    signed_by a gas tx /\ owned_refs tx = [gas; coin] /\ tx_shared tx = [].

Lemma transfers_ids a k tx : transfers a k tx -> owned_ids tx = transfer_ids (a, k).
Proof.
  intros (gas & coin & Hgas & Hcoin & _ & Ho & _). unfold owned_ids, transfer_ids, transfer_indexes, account_ids.
  rewrite Ho. cbn. by rewrite (map_lookup_Some ref_id _ _ _ Hgas), (map_lookup_Some ref_id _ _ _ Hcoin).
Qed.

Lemma bind_transfer_ids (xs : list (Account * SuiAddress * Z)) (txs : list Transaction) :
  Forall2 (fun x tx => transfers x.1.1 x.2 tx) xs txs ->
  txs ≫= owned_ids = map (fun x => (x.1.1, x.2)) xs ≫= transfer_ids.
Proof.
  induction 1 as [|x tx xs txs Htx _ IH]; [done|]. cbn [map]. rewrite !bind_cons. by rewrite (transfers_ids _ _ _ Htx), IH.
Qed.

(** The transaction of a transfer. *)
Lemma transfer_tx g a to k w :
  plain g -> mg_erc20_transfer g = true -> mg_num_transfers g = 0 ->
  0 <= k < Z.of_nat (length (gas_objects a)) / 2 -> Z.of_nat (length (gas_objects a)) < 2 ^ 64 ->
  exists tx w', generate_tx (move_tx_generator g) a to {[ "obj_index"%string := k ]} [] w = Some (tx, w') /\
    state w' = state w /\ transfers a k tx.
Proof.
  intros [Hro Hsh Hki Hla Hco] He Hn Hk Hlen. set (len := Z.of_nat (length (gas_objects a))) in *.
  assert (Hidx : len / 2 + k < len) by (pose proof (Z.mul_div_le len 2); lia).
  destruct (lookup_lt_is_Some_2 (gas_objects a) (Z.to_nat k)) as [gas Hgas]; [unfold len in *; lia|].
  destruct (lookup_lt_is_Some_2 (gas_objects a) (Z.to_nat (len / 2 + k))) as [coin Hcoin]; [unfold len in *; lia|].
  set (args := {[ "obj_index"%string := k ]} : gmap string Z).
  assert (Harg : arg args "obj_index" = k) by done.
  assert (Hshared : shared_of g args []) by (unfold shared_of; by rewrite Hsh).
  assert (Hland : forall la, land_of g la -> la = []) by (intros la; unfold land_of; by rewrite decide_True).
  destruct (move_tx_ok g a to args [] gas [] [] [] [coin] [] w) as (tx & w' & la & Hrun & Hs & Hl & Hin & Hsig).
  - unfold transfer_range. rewrite Hn. constructor.
  - done.
  - unfold root_of. by rewrite decide_True.
  - done.
  - unfold coin_of. rewrite He, Harg. fold len. split; [unfold in_range; lia|]. by exists coin.
  - unfold kitty_of. by rewrite decide_True.
  - split; [rewrite Hla, map_size_empty; lia|]. intros i. rewrite Hla, map_size_empty, lookup_empty.
    split; [by intros [? ?]|lia].
  - by rewrite Harg.
  - intros la ->%Hland. apply NoDup_singleton.
  - exists tx, w'. split; [done|]. split; [done|]. apply Hland in Hl as ->.
    exists gas, coin. unfold owned_refs, tx_shared. by rewrite Hin.
Qed.

(** ** The run *)

(** Without objects to prepare, creating the generator only publishes the package. *)
Lemma plain_generator o ctx w :
  plain_options o -> context_ok ctx -> refs_live w ctx -> gas_objects (admin_account ctx) <> [] ->
  exists g ctx' w', create_move_tx_generator o ctx w = Some ((g, ctx'), w') /\
    plain g /\ mg_erc20_transfer g = erc20_transfer o /\ mg_num_transfers g = num_transfers o /\
    context_ok ctx' /\ refs_live w' ctx' /\
    user_accounts ctx' = user_accounts ctx /\ account_indexes ctx' = account_indexes ctx.
Proof.
  intros [_ Hf Hs Hk Hl Hc] Hok Hlive Hadm.
  destruct (publish_ok ctx w Hok Hlive Hadm) as (package & c0 & w0 & Hrun & Hs0 & Hlive0 & _ & _ & Hu & Hi).
  eexists _, c0, w0. split.
  - unfold create_move_tx_generator, bindM. rewrite Hrun. cbn [fst snd].
    rewrite Hf, Hs, Hk, Hl. cbn. done.
  - split; [by constructor|]. do 2 (split; [done|]). split; [by eapply context_ok_shape|]. done.
Qed.

(** The accounts and numbers of the transfers, each once. *)
Lemma transfers_distinct rows ctx ts xs :
  indexed_ok rows ctx -> Forall2 (transfer_of ctx) (number_transfers ∅ ts) xs ->
  context_ok ctx -> NoDup (map (fun x : Account * SuiAddress * Z => (x.1.1, x.2)) xs).
Proof.
  intros [_ Hinj] HF Hok%context_ok_users.
  eapply (NoDup_Forall2 (fun fk (ak : Account * Z) => exists addr, account_indexes ctx !! fk.1 = Some addr /\
    user_accounts ctx !! addr = Some ak.1 /\ ak.2 = fk.2)); [| |apply (number_distinct ∅ ts)].
  - intros [f k] [f' k'] [a k0] _ _ (addr & Hi & Ha & Hk) (addr' & Hi' & Ha' & Hk'). cbn in *.
    assert (sender a = addr) as <- by by apply Hok. assert (sender a = addr') as <- by by apply Hok.
    rewrite (Hinj _ _ _ Hi Hi'). congruence.
  - apply Forall2_fmap_r. eapply Forall2_impl; [exact HF|]. intros fk x (addr & ? & ? & ?). by exists addr.
Qed.

(** A transfer is in the range of its account's objects. *)
Lemma transfers_bounded rows ctx ts xs :
  indexed_ok rows ctx -> NoDup rows.*1 -> Forall (fun t => t.1 ∈ rows.*1 /\ t.2 ∈ rows.*1) ts ->
  (forall i n, (i, n) ∈ rows -> sends i ts <= n) ->
  Forall2 (transfer_of ctx) (number_transfers ∅ ts) xs ->
  forall x, x ∈ xs -> (exists k, user_accounts ctx !! k = Some x.1.1) /\
    0 <= x.2 < Z.of_nat (length (gas_objects x.1.1)) / 2 /\
    exists i n, (i, n) ∈ rows /\ Z.of_nat (length (gas_objects x.1.1)) = n * 2.
Proof.
  intros [Hrows Hinj] Hnd Hin Hmax HF x [i Hi]%list_elem_of_lookup_1.
  destruct (Forall2_lookup_r _ _ _ _ _ HF Hi) as ([f k] & Hfk & addr & Haddr & Ha & Hk). cbn in *.
  split; [by exists addr|]. rewrite Hk. apply list_elem_of_lookup_2 in Hfk.
  pose proof (number_bounds _ _ _ _ Hfk) as Hb. unfold next_number in Hb. rewrite lookup_empty in Hb. cbn in Hb.
  assert (Hf : exists n, (f, n) ∈ rows).
  { assert (Hs : 0 < sends f ts) by lia. unfold sends in Hs.
    destruct (base.filter (fun t => t.1 = f) ts) as [|[f' t'] l] eqn:El; [cbn in Hs; lia|].
    assert (Hft : (f', t') ∈ base.filter (fun t : Z * Z => t.1 = f) ts) by (rewrite El; left).
    apply list_elem_of_filter in Hft as [Heq Hft]. cbn in Heq. subst f'.
    rewrite Forall_forall in Hin. destruct (Hin _ Hft) as [Hfin _].
    apply list_elem_of_fmap in Hfin as ([f1 n] & Heq & Hfin). cbn in Heq. subst f1. by exists n. }
  destruct Hf as [n Hn]. destruct (Hrows _ _ Hn) as (addr' & a' & Haddr' & Ha' & Hlen).
  assert (addr' = addr) as -> by congruence. assert (a' = x.1.1) as -> by congruence.
  rewrite Hlen, Z.div_mul by lia. specialize (Hmax _ _ Hn). split; [lia|eauto].
Qed.

Lemma row_total records rows i n :
  Forall2 record_row records rows -> (i, n) ∈ rows -> n * 2 <= total_objects rows.
Proof.
  induction 1 as [|record row records rows (_ & _ & Hrow) Hrows IH]; [by rewrite elem_of_nil|].
  apply total_objects_nonneg in Hrows. rewrite elem_of_cons. cbn [total_objects].
  intros [<-|Hin%IH]; cbn; lia.
Qed.

(** The transaction of a record, the [k]-th of the sender [f]: that of the account of
    this index, over coins of it that are live. *)
Definition record_tx ctx w (fk : Z * Z) (tx : Transaction) : Prop :=
  exists addr a, account_indexes ctx !! fk.1 = Some addr /\ user_accounts ctx !! addr = Some a /\
    transfers a fk.2 tx /\
    Forall (fun r => live (state w) (ref_id r) = Some r /\ owned_as (state w) (ref_id r) = Some (Coin, sender a))
      (owned_refs tx).

Lemma records_tx ctx w fks xs (txs : list Transaction) :
  context_ok ctx -> refs_live w ctx -> Forall2 (transfer_of ctx) fks xs ->
  Forall2 (fun x tx => transfers x.1.1 x.2 tx) xs txs -> Forall2 (record_tx ctx w) fks txs.
Proof.
  intros Hok Hlive HF. revert txs.
  induction HF as [|[f k] x fks xs (addr & Haddr & Ha & Hk) _ IH]; intros txs HT; [by apply Forall2_nil_inv_l in HT as ->|].
  apply Forall2_cons_inv_l in HT as (tx & txs' & Hx & HT & ->). cbn in Hk. rewrite Hk in Hx. constructor; [|by apply IH].
  exists addr, x.1.1. do 3 (split; [done|]). destruct Hx as (gas & coin & Hgas & Hcoin & _ & -> & _).
  apply (user_account_all _ _ _ Hok) in Ha.
  repeat (apply Forall_cons; split; [eapply Hlive; [exact Ha|by eapply list_elem_of_lookup_2]|]). by apply Forall_nil.
Qed.

(** C19. A run of ERC-20 transfers from files, without other objects, whose accounts and
    receivers are in the file of accounts and where no account sends more often than its
    row allows, generates one transaction per record, whatever the order in which the
    tasks finish: the account of the record's sender sends and signs it, it pays with
    the gas object of its number among the sender's records and transfers the coin of
    that number, both of them live coins of the sender, it shares nothing, and no object
    is used by two transactions. *)
Theorem erc20_disjoint o workload component print_sample_tx account_path erc20_path rows records w :
  workload_kind workload = KindPTB o -> plain_options o -> erc20_transfer o = true -> num_transfers o = 0 ->
  account_path <> EmptyString -> Forall2 record_row (get_records_from_file account_path) rows ->
  Forall2 record_transfer (get_records_from_file erc20_path) records ->
  1 + total_objects rows <= 10000000000000000 -> NoDup rows.*1 ->
  NoDup (draw_keys (S (length rows)) (entropy w)).*1 ->
  Forall (fun t => t.1 ∈ rows.*1 /\ t.2 ∈ rows.*1) records ->
  (forall i n, (i, n) ∈ rows -> sends i records <= n) ->
  Z.of_nat (length records) < 2 ^ 63 ->
  exists ctx0 w0 g ctx w1 txs w' fks,
    context_new workload component print_sample_tx account_path w = Some (ctx0, w0) /\
    create_tx_generator workload ctx0 w0 = Some ((move_tx_generator g, ctx), w1) /\
    generate_erc20_tx_from_csv (move_tx_generator g) erc20_path ctx w1 = Some (txs, w') /\
    indexed_ok rows ctx /\ length txs = length records /\ NoDup (txs ≫= owned_ids) /\
    fks ≡ₚ number_transfers ∅ records /\ Forall2 (record_tx ctx w') fks txs.
Proof.
  intros Hkind Hpl He Hnt Hpath Hrows Htr Htot Hnd Hkeys Hin Hmax Hcount.
  destruct (context_from_file component account_path rows w Hpath Hrows Htot Hnd Hkeys workload print_sample_tx)
    as (ctx0 & objs & w0 & Hnew & Hok0 & Hidx0 & Hb & Hrefs & Hcoins & _ & _ & Hadm).
  destruct (plain_generator o ctx0 w0) as (g & ctx & w1 & Hg & Hplain & Hge & Hgn & Hok & Hlive & Hu & Hi);
    [done|done|by eapply built_live|by intros Hnil; rewrite Hnil in Hadm|].
  assert (Hidx : indexed_ok rows ctx).
  { destruct Hidx0 as [Hr Hj]. constructor; [rewrite Hi, Hu; exact Hr|rewrite Hi; exact Hj]. }
  destruct (erc20_records_ok rows ctx ∅ _ records Hidx Htr Hin) as (xs & Hxs & HF).
  { intros f. unfold next_number. rewrite lookup_empty. cbn. unfold sends.
    pose proof (length_filter (fun t => t.1 = f) records). lia. }
  pose proof (transfers_bounded _ _ _ _ Hidx Hnd Hin Hmax HF) as Hbound.
  pose proof (context_ok_users _ Hok) as Husers.
  destruct (collect_pure (fun '(from, to, obj_index) =>
      generate_tx (move_tx_generator g) from to {[ "obj_index"%string := obj_index ]} [])
    (fun x tx => transfers x.1.1 x.2 tx) xs w1) as (txs & xs' & w' & Hp & Hrun & Hs & Huses).
  { intros [[a to] k] w2 Hx. destruct (Hbound _ Hx) as [[addr Ha] Hk]. cbn in Ha, Hk.
    destruct Hk as (Hk & i & n & Hrow & Hlen). change (Z.of_nat (length (gas_objects a)) = n * 2) in Hlen. pose proof (row_total _ _ _ _ Hrows Hrow).
    apply transfer_tx; [done|congruence|congruence|done|cbn; lia]. }
  assert (Hin' : forall x, x ∈ xs' -> x ∈ xs) by (intros x; by rewrite Hp).
  assert (Hlive' : refs_live w' ctx) by (intros k' a r'; rewrite Hs; apply Hlive).
  destruct (Permutation_Forall2 (Permutation_sym Hp) (proj2 (Forall2_flip _ _ _) HF)) as (fks & Hpf & HF').
  exists ctx0, w0, g, ctx, w1, txs, w', fks. split; [done|]. split; [|split; [|split; [done|split; [|split; [|split]]]]].
  - unfold create_tx_generator. rewrite Hkind. unfold bindM. by rewrite Hg.
  - unfold generate_erc20_tx_from_csv, bindM, lift. by rewrite Hxs.
  - apply Forall2_length in Huses, HF. rewrite <-Huses, Hp, <-HF.
    clear. generalize (∅ : gmap Z Z). induction records as [|[f t] ts IH]; intros m; [done|]. cbn. by rewrite IH.
  - rewrite (bind_transfer_ids _ _ Huses). apply (transfer_ids_distinct (user_accounts ctx)); [done| |].
    + rewrite Hp. by eapply transfers_distinct.
    + intros ak (x & -> & Hx%Hin')%elem_of_map. cbn. destruct (Hbound _ Hx) as (? & ? & _). done.
  - by symmetry.
  - eapply records_tx; [done|done| |exact Huses]. by apply Forall2_flip in HF'.
Qed.

End erc20.
