(* ===== verification/SuiMemorySpec.v ===== *)
(** Execution of transactions on the in-memory store of the Sui benchmark: when
    no transaction writes what another reads or writes, the order in which the
    tasks run does not matter. *)
From stdpp Require Import base list option numbers strings gmap.
From S2P Require Import Prelude Machine SuiTypes SuiStore SuiWorld SuiAccounts SuiGenerators SuiNode SuiContext.
Open Scope Z_scope.

(** ** What the package cache promises *)

(** A program of object reads on some objects. *)
Fixpoint eval_obj_reads `{SuiData} {A} (p : ObjReads A) (objs : gmap ObjectID Object) : A :=
  match p with ODone a => a | OGetObject id k => eval_obj_reads (k (objs !! id)) objs end.

Class CacheLaws `{SuiStoreEnv} := {
  (** What a lookup of a package returns for the object of its identifier. *)
  package_at : option Object -> result SuiError (option PackageObject);
  is_package : Object -> bool;
  (** The cache has only packages of the store. *)
  cache_ok : PackageObjectCache -> gmap ObjectID Object -> Prop;
  cache_new objs : cache_ok package_cache_new objs;
  cache_get c id objs : cache_ok c objs ->
    (eval_obj_reads (package_cache_get id c) objs).1 = package_at (objs !! id) /\
    cache_ok (eval_obj_reads (package_cache_get id c) objs).2 objs;
  cache_keep c objs objs' : cache_ok c objs ->
    (forall id o, objs !! id = Some o -> is_package o = true -> objs' !! id = Some o) ->
    cache_ok c objs';
}.

(** ** Transactions on a map of objects *)

Section pure.
Context `{SuiEnv} `{!CacheLaws}.
Implicit Types (objs : gmap ObjectID Object) (st : InMemoryObjectStore) (s : AuthorityState).

Definition at_version (version : Z) (o : option Object) : option Object :=
  match o with
  | Some o => if (object_version o =? version)%Z then Some o else None
  | None => None
  end.

Definition child_at (parent : ObjectID) (upper_bound : Z) (o : option Object) : option Object :=
  match o with
  | Some o =>
      if (object_version o <=? upper_bound)%Z
         && bool_decide (object_owner o = ObjectOwner (address_of_object parent))
      then Some o else None
  | None => None
  end.

(** The identifiers that a program of the executor reads, and its result. *)
Fixpoint eval_calls {A} (p : StoreCalls A) objs : list ObjectID * option A :=
  match p with
  | Done a => ([], Some a)
  | GetObject id k => let r := eval_calls (k (objs !! id)) objs in (id :: r.1, r.2)
  | GetObjectByKey id version k =>
      let r := eval_calls (k (at_version version (objs !! id))) objs in (id :: r.1, r.2)
  | GetPackageObject id k => let r := eval_calls (k (package_at (objs !! id))) objs in (id :: r.1, r.2)
  | ReadChildObject parent child upper k =>
      let r := eval_calls (k (child_at parent upper (objs !! child))) objs in (child :: r.1, r.2)
  | GetObjectReceivedAtVersion _ _ _ _ | GetLatestParentEntryRefDeprecated _ => ([], None)
  end.

(** A store with given objects and a sound cache. *)
Definition sound objs st : Prop := objects st = objs /\ cache_ok (package_cache st) objs.

Lemma run_obj_reads_eval {A} (p : ObjReads A) st :
  exists n, run_obj_reads p st =
    Some (eval_obj_reads p (objects st), mkInMemoryObjectStore (objects st) (package_cache st) n).
Proof.
  revert st. induction p as [a|id k IH]; intros st.
  - exists (num_object_reads st). by destruct st.
  - cbn. unfold bindM, get_object. destruct (IH (objects st !! id)
      (mkInMemoryObjectStore (objects st) (package_cache st) (cast 64 (num_object_reads st + 1)))) as [n ->].
    by exists n.
Qed.

Lemma get_object_sound id objs st :
  sound objs st -> exists st', get_object id st = Some (objs !! id, st') /\ sound objs st'.
Proof. intros [<- Hc]. eexists. split; [done|]. by split. Qed.

Lemma get_by_key_sound id version objs st :
  sound objs st ->
  exists st', get_object_by_key id version st = Some (at_version version (objs !! id), st') /\ sound objs st'.
Proof.
  intros Hs. destruct (get_object_sound id objs st Hs) as (st' & Hg & Hs').
  exists st'. unfold get_object_by_key, bindM. by rewrite Hg.
Qed.

Lemma get_package_sound id objs st :
  sound objs st ->
  exists st', get_package_object id st = Some (package_at (objs !! id), st') /\ sound objs st'.
Proof.
  intros [<- Hc]. destruct (run_obj_reads_eval (package_cache_get id (package_cache st)) st) as [n Hr].
  destruct (cache_get _ id _ Hc) as [Hv Hc'].
  eexists. unfold get_package_object, bindM, gets. rewrite Hr. cbn. rewrite Hv. split; [done|]. by split.
Qed.

Lemma child_sound parent child upper objs st :
  sound objs st ->
  exists st', read_child_object parent child upper st = Some (child_at parent upper (objs !! child), st') /\
    sound objs st'.
Proof.
  intros Hs. destruct (get_object_sound child objs st Hs) as (st' & Hg & Hs').
  exists st'. unfold read_child_object, bindM. by rewrite Hg.
Qed.

(** Running the executor on a store is evaluating it on the objects. *)
Lemma run_store_calls_eval {A} (p : StoreCalls A) objs st a :
  sound objs st -> (eval_calls p objs).2 = Some a ->
  exists st', run_store_calls p st = Some (a, st') /\ sound objs st'.
Proof.
  revert st. induction p as [a0|id k IH|id v k IH|id k IH|parent child upper k IH|?|?];
    intros st Hs He; cbn in He.
  - injection He as ->. exists st. done.
  - destruct (get_object_sound id objs st Hs) as (st1 & Hr1 & Hs1). cbn [run_store_calls].
    unfold bindM. rewrite Hr1. by apply IH.
  - destruct (get_by_key_sound id v objs st Hs) as (st1 & Hr1 & Hs1). cbn [run_store_calls].
    unfold bindM. rewrite Hr1. by apply IH.
  - destruct (get_package_sound id objs st Hs) as (st1 & Hr1 & Hs1). cbn [run_store_calls].
    unfold bindM. rewrite Hr1. by apply IH.
  - destruct (child_sound parent child upper objs st Hs) as (st1 & Hr1 & Hs1). cbn [run_store_calls].
    unfold bindM. rewrite Hr1. by apply IH.
  - done.
  - done.
Qed.

(** The result depends on the objects that are read only. *)
Lemma eval_calls_agree {A} (p : StoreCalls A) objs objs' :
  (forall id, id ∈ (eval_calls p objs).1 -> objs' !! id = objs !! id) ->
  eval_calls p objs' = eval_calls p objs.
Proof.
  induction p as [a0|id k IH|id v k IH|id k IH|parent child upper k IH|?|?]; intros Hag; cbn in *; try done.
  1-4: rewrite Hag by left; rewrite IH; [done|]; intros id' Hid'; apply Hag; by right.
Qed.

(** ** Input objects *)

Definition kind_id (kind : InputObjectKind) : ObjectID :=
  match kind with
  | MovePackage id => id
  | ImmOrOwnedMoveObject r => ref_id r
  | SharedMoveObject id _ _ => id
  end.

(** The object of an input kind, with the cell of the locks; [None] is a panic. *)
Definition eval_kind (locks : result SuiError (list (ObjectID * Z))) (cell : option (gmap ObjectID Z))
    (kind : InputObjectKind) (o : option Object)
    : option (result SuiError (option Object) * option (gmap ObjectID Z)) :=
  match kind with
  | MovePackage _ =>
      Some (match package_at o with Ok p => Ok (option_map object_of_package p) | Err e => Err e end, cell)
  | ImmOrOwnedMoveObject r => Some (Ok (at_version (ref_version r) o), cell)
  | SharedMoveObject id _ _ =>
      match get_or_try_init locks cell with
      | Err e => Some (Err e, cell)
      | Ok m => match m !! id with Some v => Some (Ok (at_version v o), Some m) | None => None end
      end
  end.

Fixpoint eval_kinds (locks : result SuiError (list (ObjectID * Z))) (cell : option (gmap ObjectID Z))
    (kinds : list InputObjectKind) (acc : list (InputObjectKind * Object)) objs
    : option (result SuiError (list (InputObjectKind * Object))) :=
  match kinds with
  | [] => Some (Ok acc)
  | kind :: kinds =>
      match eval_kind locks cell kind (objs !! kind_id kind) with
      | None => None
      | Some (Err e, _) => Some (Err e)
      | Some (Ok None, _) => Some (Err (object_not_found_error kind))
      | Some (Ok (Some o), cell) => eval_kinds locks cell kinds (acc ++ [(kind, o)]) objs
      end
  end.

Lemma read_kind_eval locks cell kind objs st r :
  sound objs st -> eval_kind locks cell kind (objs !! kind_id kind) = Some r ->
  exists st', read_kind locks cell kind st = Some (r, st') /\ sound objs st'.
Proof.
  intros Hs. destruct kind as [id|objref|id v m]; cbn [eval_kind read_kind kind_id].
  - intros [= <-]. destruct (get_package_sound id objs st Hs) as (st' & Hg & Hs').
    exists st'. unfold bindM. by rewrite Hg.
  - intros [= <-]. destruct (get_by_key_sound (ref_id objref) (ref_version objref) objs st Hs) as (st' & Hg & Hs').
    exists st'. unfold bindM. by rewrite Hg.
  - destruct (get_or_try_init locks cell) as [ls|e]; [|intros [= <-]; by exists st].
    destruct (ls !! id) as [v'|] eqn:Hl; [|done]. intros [= <-].
    destruct (get_by_key_sound id v' objs st Hs) as (st' & Hg & Hs').
    exists st'. unfold bindM, lift. by rewrite Hg.
Qed.

Lemma read_kinds_eval locks cell kinds acc objs st r :
  sound objs st -> eval_kinds locks cell kinds acc objs = Some r ->
  exists st', read_kinds locks cell kinds acc st = Some (r, st') /\ sound objs st'.
Proof.
  revert cell acc st. induction kinds as [|kind kinds IH]; intros cell acc st Hs;
    cbn [eval_kinds read_kinds].
  - intros [= <-]. by exists st.
  - destruct (eval_kind locks cell kind (objs !! kind_id kind)) as [[ro cell']|] eqn:Ek; [|done].
    destruct (read_kind_eval _ _ _ _ _ _ Hs Ek) as (st1 & Hr & Hs1). unfold bindM. rewrite Hr. cbn [fst snd].
    destruct ro as [[o|]|e]; [by apply IH|intros [= <-]; by exists st1|intros [= <-]; by exists st1].
Qed.

Lemma eval_kinds_agree locks cell kinds acc objs objs' :
  (forall id, id ∈ map kind_id kinds -> objs' !! id = objs !! id) ->
  eval_kinds locks cell kinds acc objs' = eval_kinds locks cell kinds acc objs.
Proof.
  revert cell acc. induction kinds as [|kind kinds IH]; intros cell acc Hag; [done|].
  cbn [eval_kinds]. rewrite Hag by left. repeat case_match; try done.
  apply IH. intros id Hid. apply Hag. by right.
Qed.

End pure.

(** ** Transactions *)

Section order.
Context `{SuiEnv} `{!CacheLaws}.
Implicit Types (objs : gmap ObjectID Object) (st : InMemoryObjectStore) (s : AuthorityState)
  (t : InnerTemporaryStore) (tx : CertifiedTransaction).

(** The effects and the writes of a transaction that is executed on some objects,
    and the identifiers it reads there; [None] if it panics. *)
Definition exec_on s tx objs : option (list ObjectID * (TransactionEffects * InnerTemporaryStore)) :=
  kinds ← cert_input_objects tx;
  r ← eval_kinds (get_shared_locks (cert_key tx) s) None kinds [] objs;
  match r with
  | Err _ => None
  | Ok inputs =>
      match check_certificate_input s (new_from_certificate tx) inputs with
      | Err _ => None
      | Ok (gas_status, checked_inputs) =>
          let out := eval_calls
            (execute_transaction_to_effects s (new_from_certificate tx) checked_inputs gas_status) objs in
          te ← out.2;
          if status_is_ok te.2 then Some (map kind_id kinds ++ out.1, (te.2, te.1)) else None
      end
  end.

(** The objects after a commit. *)
Definition commit_map t objs : gmap ObjectID Object :=
  foldl (fun m e => <[e.1 := e.2]> m)
    (foldl (remove_input (written t)) objs (elements (mutable_inputs t))) (map_to_list (written t)).

Lemma remove_inputs_lookup (w m : gmap ObjectID Object) (l : list ObjectID) id :
  w !! id = None -> foldl (remove_input w) m l !! id = if decide (id ∈ l) then None else m !! id.
Proof.
  intros Hw. revert m. induction l as [|i l IH]; intros m.
  - rewrite decide_False; [done|apply not_elem_of_nil].
  - cbn [foldl]. rewrite IH. unfold remove_input. destruct (decide (i = id)) as [->|Hne].
    + rewrite Hw, lookup_delete_eq. repeat case_decide; set_solver.
    + assert (Hm : match w !! i with Some _ => m | None => delete i m end !! id = m !! id).
      { destruct (w !! i); [done|]. by rewrite lookup_delete_ne. }
      rewrite Hm. repeat case_decide; set_solver.
Qed.

Lemma commit_map_lookup t objs id :
  commit_map t objs !! id =
  match written t !! id with
  | Some o => Some o
  | None => if decide (id ∈ mutable_inputs t) then None else objs !! id
  end.
Proof.
  unfold commit_map. change (foldl ?f ?m ?l) with (ins_all m l). rewrite ins_all_union.
  assert (Hw : collect_map (map_to_list (written t)) = written t).
  { apply map_eq. intros i. apply option_eq. intros o. split.
    - intros Ho%collect_map_lookup. by apply elem_of_map_to_list.
    - intros Ho. apply collect_map_elem; [apply NoDup_fst_map_to_list|]. by apply elem_of_map_to_list. }
  rewrite Hw. destruct (written t !! id) as [o|] eqn:E.
  - by apply lookup_union_Some_l.
  - rewrite lookup_union_r, remove_inputs_lookup by done. repeat case_decide; set_solver.
Qed.

(** The identifiers a commit may change. *)
Definition writes t : gset ObjectID := mutable_inputs t ∪ dom (written t).

Lemma commit_map_other t objs id : id ∉ writes t -> commit_map t objs !! id = objs !! id.
Proof.
  intros Hid. rewrite commit_map_lookup. unfold writes in Hid.
  destruct (written t !! id) as [o|] eqn:E.
  - apply elem_of_dom_2 in E. set_solver.
  - rewrite decide_False by set_solver. done.
Qed.

Lemma commit_map_comm t1 t2 objs :
  writes t1 ## writes t2 ->
  commit_map t1 (commit_map t2 objs) = commit_map t2 (commit_map t1 objs).
Proof.
  intros Hd. apply map_eq. intros id. destruct (decide (id ∈ writes t1)) as [H1|H1].
  - rewrite (commit_map_other t2 (commit_map t1 objs)) by set_solver.
    rewrite !(commit_map_lookup t1). rewrite (commit_map_other t2) by set_solver. done.
  - rewrite (commit_map_other t1) by done.
    rewrite !(commit_map_lookup t2). by rewrite (commit_map_other t1).
Qed.

(** Execution on a store is execution on its objects, then a commit. *)
Lemma execute_in_memory_eval s tx objs st reads e t :
  sound objs st -> exec_on s tx objs = Some (reads, (e, t)) ->
  exists st', execute_transaction_in_memory s tx st = Some (e, st') /\
    objects st' = commit_map t objs /\ cache_ok (package_cache st') objs.
Proof.
  intros Hs He. unfold exec_on in He. unfold execute_transaction_in_memory.
  destruct (cert_input_objects tx) as [kinds|]; [|done]. cbn [mbind option_bind] in He.
  destruct (eval_kinds _ None kinds [] objs) as [r|] eqn:Ek; [|done]. cbn in He.
  destruct r as [inputs|]; [|done].
  destruct (read_kinds_eval _ _ _ _ _ _ _ Hs Ek) as (st1 & Hr1 & Hs1).
  unfold bindM, lift, read_objects_for_execution. rewrite Hr1. cbn [unwrap ret].
  destruct (check_certificate_input s (new_from_certificate tx) inputs) as [[gs ci]|]; [|done]. cbn in *.
  destruct (eval_calls _ objs) as [rs [[t0 e0]|]] eqn:Ec; cbn in He; [|done].
  destruct (run_store_calls_eval (execute_transaction_to_effects s (new_from_certificate tx) ci gs) objs st1 (t0, e0))
    as (st2 & Hr2 & [Ho2 Hc2]); [done|by rewrite Ec|].
  rewrite Hr2. cbn. unfold assert_ok, guard_, bindM. destruct (status_is_ok e0) eqn:Es; [|done].
  injection He as _ -> ->. cbn. eexists. split; [done|]. cbn. split; [by rewrite Ho2|done].
Qed.

(** A transaction does the same on objects that agree on what it reads. *)
Lemma exec_on_agree s tx objs objs' reads et :
  exec_on s tx objs = Some (reads, et) -> (forall id, id ∈ reads -> objs' !! id = objs !! id) ->
  exec_on s tx objs' = Some (reads, et).
Proof.
  unfold exec_on. destruct (cert_input_objects tx) as [kinds|]; [|done]. cbn [mbind option_bind].
  destruct (eval_kinds _ None kinds [] objs) as [r|] eqn:Ek; [|done]. cbn.
  destruct r as [inputs|]; [|done]. destruct (check_certificate_input _ _ inputs) as [[gs ci]|] eqn:Ech; [|done].
  set (p := execute_transaction_to_effects _ _ _ _).
  destruct (eval_calls p objs) as [rs [te|]] eqn:Ec; cbn; [|done].
  destruct (status_is_ok te.2) eqn:Es; [|done]. intros [= <- <-] Hag.
  rewrite (eval_kinds_agree _ _ _ _ objs), Ek by (intros id Hid; apply Hag; apply elem_of_app; by left).
  cbn. rewrite Ech. fold p. rewrite (eval_calls_agree p objs), Ec; [cbn; by rewrite Es|].
  rewrite Ec. intros id Hid. apply Hag. apply elem_of_app. by right.
Qed.

(** ** Transactions that do not conflict *)

(** A transaction with what its execution reads, returns and writes. *)
Definition Item : Type :=
  CertifiedTransaction * (list ObjectID * (TransactionEffects * InnerTemporaryStore)).
Definition item_reads (x : Item) : list ObjectID := x.2.1.
Definition item_effects (x : Item) : TransactionEffects := x.2.2.1.
Definition item_store (x : Item) : InnerTemporaryStore := x.2.2.2.

Definition conflict_free (x y : Item) : Prop :=
  writes (item_store x) ## writes (item_store y) /\
  (forall id, id ∈ item_reads x -> id ∉ writes (item_store y)) /\
  (forall id, id ∈ item_reads y -> id ∉ writes (item_store x)).

(** Every transaction succeeds on the objects, no two conflict, and none writes a
    package, which is immutable. *)
Record independent s objs (items : list Item) : Prop := {
  ind_exec : Forall (fun x => exec_on s x.1 objs = Some x.2) items;
  ind_free : ForallOrdPairs conflict_free items;
  ind_packages : Forall (fun x => forall id o, objs !! id = Some o -> is_package o = true ->
    id ∉ writes (item_store x)) items;
}.

Lemma conflict_free_sym x y : conflict_free x y -> conflict_free y x.
Proof. intros (H1 & H2 & H3). split; [by symmetry|done]. Qed.

Lemma ForallOrdPairs_perm {A} (R : A -> A -> Prop) (l l' : list A) :
  (forall x y, R x y -> R y x) -> l ≡ₚ l' -> ForallOrdPairs R l -> ForallOrdPairs R l'.
Proof.
  intros Hsym. induction 1 as [|x l l' Hp IH|x y l|]; intros HF; [done| | |auto].
  - inversion HF as [|? ? Hx Hl]; subst. constructor; [by rewrite <-Hp|auto].
  - inversion HF as [|? ? Hx Hl]; subst. inversion Hl as [|? ? Hy Hl']; subst.
    apply Forall_cons in Hx as [Hyx Hx]. constructor; [|by constructor].
    constructor; [by apply Hsym|done].
Qed.

Lemma independent_perm s objs items items' :
  items ≡ₚ items' -> independent s objs items -> independent s objs items'.
Proof.
  intros Hp [H1 H2 H3]. constructor; [by rewrite <-Hp| |by rewrite <-Hp].
  eapply ForallOrdPairs_perm; [apply conflict_free_sym|done|done].
Qed.

(** What is independent stays so after the commit of one of the transactions. *)
Lemma independent_commit s objs x items :
  independent s objs (x :: items) -> independent s (commit_map (item_store x) objs) items.
Proof.
  intros [He Hf Hp]. apply Forall_cons in He as [_ He], Hp as [_ Hp].
  inversion Hf as [|? ? Hx Hf']; subst. rewrite Forall_forall in He, Hp, Hx.
  constructor; [|done|].
  - apply Forall_forall. intros y Hy. specialize (He y Hy). destruct y as [tx [reads et]]. cbn in *.
    eapply exec_on_agree; [exact He|]. intros id Hid. apply commit_map_other.
    destruct (Hx _ Hy) as (_ & _ & Hr). by apply Hr.
  - apply Forall_forall. intros y Hy id o. destruct (decide (id ∈ writes (item_store x))) as [Hin|Hout].
    + destruct (Hx _ Hy) as (Hd & _ & _). set_solver.
    + rewrite commit_map_other by done. by apply Hp.
Qed.

(** The objects after the commits of some transactions. *)
Definition commit_all objs (items : list Item) : gmap ObjectID Object :=
  foldl (fun m x => commit_map (item_store x) m) objs items.

Lemma run_items s objs items st :
  independent s objs items -> sound objs st ->
  exists st', seqM (map (execute_transaction_in_memory s) (map fst items)) st =
      Some (map item_effects items, st') /\ objects st' = commit_all objs items.
Proof.
  revert objs st. induction items as [|x items IH]; intros objs st Hi Hs.
  - exists st. split; [done|]. by destruct Hs.
  - pose proof (independent_commit _ _ _ _ Hi) as Hi'. destruct Hi as [He _ Hp].
    apply Forall_cons in He as [He _], Hp as [Hp _]. destruct x as [tx [reads [e t]]]. cbn in He.
    destruct (execute_in_memory_eval _ _ _ _ _ _ _ Hs He) as (st1 & Hr1 & Ho1 & Hc1).
    destruct (IH (commit_map t objs) st1) as (st2 & Hr2 & Ho2); [done| |].
    { split; [done|]. eapply cache_keep; [exact Hc1|]. intros id o Ho Hpk.
      rewrite commit_map_other; [done|]. by apply (Hp id o). }
    exists st2. split; [|done]. cbn. unfold bindM. by rewrite Hr1, Hr2.
Qed.

Lemma commit_all_perm objs items items' :
  items ≡ₚ items' -> ForallOrdPairs conflict_free items -> commit_all objs items = commit_all objs items'.
Proof.
  intros Hp. revert objs. induction Hp as [|x l l' Hp IH|x y l|l1 l2 l3 Hp1 IH1 Hp2 IH2]; intros objs HF.
  - done.
  - inversion HF; subst. cbn. by apply IH.
  - inversion HF as [|? ? Hx Hl]; subst. apply Forall_cons in Hx as [(Hd & _ & _) _]. cbn. f_equal.
    apply commit_map_comm. done.
  - rewrite IH1 by done. apply IH2. eapply ForallOrdPairs_perm; [apply conflict_free_sym|done|done].
Qed.

Lemma new_store_sound s (store : InMemoryObjectStore) :
  create_in_memory_store s = Some store -> sound (objects store) store.
Proof.
  unfold create_in_memory_store. destruct (mapM _ _) as [objs|]; [|done]. intros [= <-].
  split; [done|apply cache_new].
Qed.

(** The tasks of the certificates are spawned unless one has a shared object. *)
Definition spawns (txs : list CertifiedTransaction) : nat :=
  if existsb contains_shared_object txs then 0 else 1.

(** Independent transactions are executed, whatever the order of the tasks. *)
Lemma tasks_in_memory (store : InMemoryObjectStore) (items : list Item) (w : World) :
  sound (objects store) store -> independent (state w) (objects store) items ->
  exists es store',
    execute_transactions_in_memory store (map fst items) w =
      Some ((es, store'), mkWorld (state w) (entropy w) (spawns (map fst items) + steps w) (reports w)) /\
    es ≡ₚ map item_effects items /\ objects store' = commit_all (objects store) items.
Proof.
  intros Hs Hind. destruct (run_items _ _ _ _ Hind Hs) as (st1 & Hr1 & Ho1).
  set (items' := arrange (schedule (steps w)) items).
  assert (Hp : items' ≡ₚ items) by apply arrange_perm.
  destruct (run_items (state w) (objects store) items' store) as (st2 & Hr2 & Ho2); [|done|].
  { eapply independent_perm; [by symmetry|done]. }
  unfold execute_transactions_in_memory, spawns, bindM at 1, gets.
  destruct (existsb contains_shared_object (map fst items)).
  - exists (map item_effects items), st1. unfold lift. rewrite Hr1. by destruct w.
  - exists (map item_effects items'), st2. unfold bindM, next, lift.
    rewrite !arrange_map.
    change (map fst (arrange (schedule (steps w)) items)) with (map fst items'). rewrite Hr2.
    split; [done|]. split; [by rewrite Hp|]. rewrite Ho2. apply commit_all_perm; [done|].
    eapply ForallOrdPairs_perm; [apply conflict_free_sym|by symmetry|apply Hind].
Qed.

(** C21. When no transaction writes what another one reads or writes, executing the
    transactions as tasks on a new in-memory store gives, in whatever order the
    tasks run, the effects of the execution in order, each once, and the same
    objects. *)
Theorem in_memory_order (store : InMemoryObjectStore) (items : list Item) (w : World) :
  create_in_memory_store (state w) = Some store ->
  independent (state w) (objects store) items ->
  exists es store' in_order w',
    execute_transactions_in_memory store (map fst items) w = Some ((es, store'), w') /\
    seqM (map (execute_transaction_in_memory (state w)) (map fst items)) store =
      Some (map item_effects items, in_order) /\
    es ≡ₚ map item_effects items /\ objects store' = objects in_order.
Proof.
  intros Hs%new_store_sound Hind. destruct (run_items _ _ _ _ Hind Hs) as (st1 & Hr1 & Ho1).
  destruct (tasks_in_memory _ _ _ Hs Hind) as (es & store' & Hrun & Hp & Ho).
  exists es, store', st1. eexists. do 3 (split; [done|]). by rewrite Ho, Ho1.
Qed.

End order.
