(* ===== verification/SuiLiveSpec.v ===== *)
(** The measurements of the Sui single-node benchmark that execute in memory: that of
    execution only, and that of the checkpoint executor, over owned objects.

    The in-memory store is filled from the live object set of the validator, which has
    what was committed to its database: the measurements need the objects of the
    certificates there.  Transactions over distinct owned objects do not conflict, so
    that their tasks can run in any order. *)
From stdpp Require Import base list option numbers strings gmap.
From S2P Require Import Prelude Machine SuiTypes SuiStore SuiWorld SuiAccounts SuiAccountsSpec SuiGenerators SuiNode SuiContext SuiContextSpec SuiBench SuiCheckpointSpec SuiJobsSpec SuiPrepareSpec SuiReportsSpec SuiTxSpec SuiRunSpec SuiProgramSpec SuiExecutionSpec SuiMemorySpec.
Open Scope Z_scope.

(** ** What the validator promises about its live object set *)

Section live.
Context `{SuiEnv}.

Definition normal_object (o : LiveObject Object) : option Object :=
  match o with Normal o => Some o | Wrapped => None end.

(** The objects of the live object set, by their identifiers. *)
Definition live_objects (s : AuthorityState) : gmap ObjectID Object :=
  collect_map (map (fun o => (object_id o, o)) (omap normal_object (iter_live_object_set s))).

Context `{!ValidatorLaws} `{!BuilderLaws} `{!ExecutionLaws} `{!CacheLaws}.

(** The object that a store with the live object set gives for an input. *)
Definition input_of (s : AuthorityState) (ko : InputObjectKind * Object) : Prop :=
  match ko.1 with
  | MovePackage id => exists p, package_at (live_objects s !! id) = Ok (Some p) /\ ko.2 = object_of_package p
  | ImmOrOwnedMoveObject r => live_objects s !! ref_id r = Some ko.2 /\ object_version ko.2 = ref_version r
  | SharedMoveObject _ _ _ => False
  end.

End live.

Class LiveLaws `{SuiEnv} `{!ValidatorLaws} `{!BuilderLaws} `{!ExecutionLaws} `{!CacheLaws} := {
  (** [iter_live_object_set(false)]: no wrapped object, and each identifier once. *)
  live_set_normal s : Wrapped ∉ iter_live_object_set s;
  live_set_distinct s : NoDup (map object_id (omap normal_object (iter_live_object_set s)));
  (** Packages and the dynamic fields of objects belong to no address. *)
  published_unowned s p : published s p -> owned_as s p = None;
  package_unowned s o : Normal o ∈ iter_live_object_set s -> is_package o = true -> owned_as s (object_id o) = None;
  dynamic_fields : AuthorityState -> ObjectID -> list ObjectID;
  fields_unowned s id f : f ∈ dynamic_fields s id -> owned_as s f = None;
  (** A transaction that is executed leaves the objects that are not its own in the
      live object set, and their dynamic fields as they were. *)
  sample_stored tx s e s' : runnable max_commands max_rounds s tx ->
    try_execute_immediately (new_from_quorum_execution tx 0) s = (Ok e, s') ->
    (forall o, Normal o ∈ iter_live_object_set s -> object_id o ∉ owned_ids tx -> Normal o ∈ iter_live_object_set s') /\
    (forall id, id ∉ owned_ids tx -> dynamic_fields s' id = dynamic_fields s id);
  (** The inputs of a transaction of owned objects are objects of addresses and
      published packages. *)
  inputs_owned s tx id : runnable max_commands max_rounds s tx -> id ∈ owned_ids tx -> is_Some (owned_as s id);
  input_objects c s : runnable max_commands max_rounds s (cert_into_unsigned c) ->
    exists packages kinds, cert_input_objects c = Some kinds /\ Forall (published s) packages /\
      kinds ≡ₚ map ImmOrOwnedMoveObject (owned_refs (cert_into_unsigned c)) ++ map MovePackage packages;
  (** The digest covers the gas object, and the identifiers of new objects are derived
      from the digest. *)
  digest_gas c c' : cert_digest c = cert_digest c' ->
    ref_id (tx_inputs (cert_into_unsigned c)).1 = ref_id (tx_inputs (cert_into_unsigned c')).1;
  derived_from : Digest -> ObjectID -> Prop;
  derived_once d d' id : derived_from d id -> derived_from d' id -> d = d';
  (** The checks accept the objects of the inputs; the execution on them, with their
      dynamic fields in the store, succeeds. *)
  inputs_checked c s kinds inputs : runnable max_commands max_rounds s (cert_into_unsigned c) ->
    cert_input_objects c = Some kinds -> map fst inputs = kinds -> Forall (input_of s) inputs ->
    exists checked, check_certificate_input s (new_from_certificate c) inputs = Ok checked;
  (** It reads its inputs and objects of the store that no address owns, and writes its
      inputs and new objects. *)
  executed_on_live c s inputs gas_status checked : runnable max_commands max_rounds s (cert_into_unsigned c) ->
    Forall (input_of s) inputs ->
    (forall id f, id ∈ owned_ids (cert_into_unsigned c) -> f ∈ dynamic_fields s id -> is_Some (live_objects s !! f)) ->
    check_certificate_input s (new_from_certificate c) inputs = Ok (gas_status, checked) ->
    exists reads t e,
      eval_calls (execute_transaction_to_effects s (new_from_certificate c) checked gas_status) (live_objects s) =
        (reads, Some (t, e)) /\
      status_is_ok e = true /\ effects_digest e = cert_digest c /\
      (forall id, id ∈ reads -> id ∈ owned_ids (cert_into_unsigned c) \/ is_Some (live_objects s !! id) /\ owned_as s id = None) /\
      (forall id, id ∈ writes t -> id ∈ owned_ids (cert_into_unsigned c) \/
         live_objects s !! id = None /\ derived_from (cert_digest c) id);
}.

Section live_store.
Context `{SuiEnv} `{!ObjectLaws} `{!ValidatorLaws} `{!BuilderLaws} `{!ExecutionLaws} `{!CacheLaws} `{!LiveLaws}.
Implicit Types (c : CertifiedTransaction) (s : AuthorityState) (w : World) (ctx : BenchmarkContext) (o : PTBOptions).
Abbreviation can_run := (runnable max_commands max_rounds).
Abbreviation ids_of c := (owned_ids (cert_into_unsigned c)).

(** What a certificate needs was committed: the versions of its objects, its packages,
    and the dynamic fields of its objects are in the live object set. *)
Record available s c : Prop := {
  av_objects : forall r, r ∈ owned_refs (cert_into_unsigned c) ->
    exists x, live_objects s !! ref_id r = Some x /\ object_version x = ref_version r;
  av_packages : forall kinds p, cert_input_objects c = Some kinds -> MovePackage p ∈ kinds ->
    exists x package, live_objects s !! p = Some x /\ package_at (Some x) = Ok (Some package);
  av_fields : forall id f, id ∈ ids_of c -> f ∈ dynamic_fields s id -> is_Some (live_objects s !! f);
}.

(** Certificates that can be measured in memory: executable, with their objects
    committed, no object in two of them. *)
Record measurable s (certs : list CertifiedTransaction) : Prop := {
  me_run : Forall (can_run s) (map cert_into_unsigned certs);
  me_available : Forall (available s) certs;
  me_distinct : NoDup (map cert_into_unsigned certs ≫= owned_ids);
}.

(** ** The store *)

Lemma live_objects_elem s x : Normal x ∈ iter_live_object_set s -> live_objects s !! object_id x = Some x.
Proof.
  intros Hx. apply collect_map_elem; [rewrite map_fst_map; apply live_set_distinct|].
  apply elem_of_map. exists x. split; [done|]. apply list_elem_of_omap. by exists (Normal x).
Qed.

Lemma live_objects_inv s id x : live_objects s !! id = Some x -> Normal x ∈ iter_live_object_set s /\ id = object_id x.
Proof.
  intros (y & [= -> ->] & Hy)%collect_map_lookup%elem_of_map. split; [|done].
  apply list_elem_of_omap in Hy as ([?|] & Hin & [= ->]). done.
Qed.

Lemma create_store_ok s : create_in_memory_store s = Some (store_new (live_objects s)).
Proof.
  unfold create_in_memory_store, live_objects. pose proof (live_set_normal s) as Hn.
  set (l := iter_live_object_set s) in *. clearbody l.
  assert (Hm : mapM (fun y : LiveObject Object => match y with Normal object => Some (object_id object, object) | Wrapped => None end) l =
    Some (map (fun y => (object_id y, y)) (omap normal_object l))).
  { induction l as [|[x|] l IH]; [done| |by destruct Hn; left]. cbn. rewrite IH; [done|].
    intros Hin. apply Hn. by right. }
  by rewrite Hm.
Qed.

(** ** Transactions of owned objects *)

Lemma owned_stored s c id : available s c -> id ∈ ids_of c -> is_Some (live_objects s !! id).
Proof. intros Ha (r & -> & Hr)%elem_of_map. destruct (av_objects _ _ Ha _ Hr) as (x & Hx & _). by exists x. Qed.

(** The inputs are found in the store. *)
Lemma eval_inputs s locks kinds acc :
  Forall (fun k => exists x, input_of s (k, x)) kinds ->
  exists inputs, eval_kinds locks None kinds acc (live_objects s) = Some (Ok (acc ++ inputs)) /\
    map fst inputs = kinds /\ Forall (input_of s) inputs.
Proof.
  intros Hk. revert acc. induction Hk as [|k kinds (x & Hx) _ IH]; intros acc.
  { exists []. cbn. by rewrite app_nil_r. }
  destruct (IH (acc ++ [(k, x)])) as (inputs & He & Hm & Hi). exists ((k, x) :: inputs).
  assert (Hone : eval_kind locks None k (live_objects s !! kind_id k) = Some (Ok (Some x), None)).
  { destruct k as [id|r|? ? ?]; cbn in *; [| |done].
    - destruct Hx as (p & -> & ->). done.
    - destruct Hx as [-> Hv]. cbn. by rewrite Hv, Z.eqb_refl. }
  cbn [eval_kinds]. rewrite Hone, He, <-app_assoc. split; [done|]. split; [cbn; by rewrite Hm|by constructor].
Qed.

(** What the transactions of distinct owned objects read and write. *)
Record touches s c (item : list ObjectID * (TransactionEffects * InnerTemporaryStore)) : Prop := {
  to_effects : effects_digest item.2.1 = cert_digest c;
  to_reads : forall id, id ∈ item.1 -> id ∈ ids_of c \/ is_Some (live_objects s !! id) /\ owned_as s id = None;
  to_writes : forall id, id ∈ writes item.2.2 -> id ∈ ids_of c \/
    live_objects s !! id = None /\ derived_from (cert_digest c) id;
}.

Lemma kind_input s c packages kinds kind :
  available s c -> cert_input_objects c = Some kinds -> Forall (published s) packages ->
  kinds ≡ₚ map ImmOrOwnedMoveObject (owned_refs (cert_into_unsigned c)) ++ map MovePackage packages -> kind ∈ kinds ->
  (exists x, input_of s (kind, x)) /\
  (kind_id kind ∈ ids_of c \/ is_Some (live_objects s !! kind_id kind) /\ owned_as s (kind_id kind) = None).
Proof.
  intros Ha Hk Hp Hperm Hkind. pose proof Hkind as Hkind'. rewrite Hperm in Hkind'.
  apply elem_of_app in Hkind' as [(r & -> & Hr)%elem_of_map|(p & -> & Hin)%elem_of_map].
  - split; [destruct (av_objects _ _ Ha _ Hr) as (x & Hx); by exists x|].
    left. unfold owned_ids. cbn [kind_id]. by apply (elem_of_map_1 ref_id).
  - rewrite Forall_forall in Hp. destruct (av_packages _ _ Ha _ _ Hk Hkind) as (x & package & Hx & Hat).
    split; [exists (object_of_package package), package; by rewrite Hx|].
    right. cbn. rewrite Hx. split; [done|]. by apply published_unowned, Hp.
Qed.

(** A transaction of owned objects is executed on the live object set. *)
Lemma exec_on_live s c :
  can_run s (cert_into_unsigned c) -> available s c ->
  exists item, exec_on s c (live_objects s) = Some item /\ touches s c item.
Proof.
  intros Hr Ha. destruct (input_objects c s Hr) as (packages & kinds & Hk & Hp & Hperm).
  pose proof (fun kind => kind_input s c packages kinds kind Ha Hk Hp Hperm) as Hin.
  destruct (eval_inputs s (get_shared_locks (cert_key c) s) kinds []) as (inputs & He & Hm & Hi).
  { apply Forall_forall. intros kind Hkind. by apply Hin. }
  destruct (inputs_checked c s kinds inputs Hr Hk Hm Hi) as ([gs ci] & Hch).
  destruct (executed_on_live c s inputs gs ci Hr Hi (av_fields _ _ Ha) Hch) as (reads & t & e & Hx & Hok & Hd & Hreads & Hwrites).
  exists (map kind_id kinds ++ reads, (e, t)). split.
  - unfold exec_on. rewrite Hk. cbn [mbind option_bind]. rewrite He. cbn. rewrite Hch, Hx. cbn. by rewrite Hok.
  - constructor; [done| |done]. intros id [(kind & -> & Hkind)%elem_of_map|Hid]%elem_of_app; [by apply Hin|by apply Hreads].
Qed.

(** Two transactions without a common object do not conflict. *)
Lemma touches_free s c c' item item' :
  can_run s (cert_into_unsigned c) -> can_run s (cert_into_unsigned c') -> available s c -> available s c' ->
  (forall id, id ∈ ids_of c -> id ∉ ids_of c') ->
  touches s c item -> touches s c' item' -> conflict_free (c, item) (c', item').
Proof.
  intros Hr Hr' Ha Ha' Hd Ht Ht'.
  assert (Hdig : cert_digest c <> cert_digest c').
  { intros Heq%digest_gas. apply (Hd (ref_id (tx_inputs (cert_into_unsigned c)).1)); [left|]. rewrite Heq. left. }
  assert (Hrw : forall d d' i i', available s d -> can_run s (cert_into_unsigned d') ->
    (forall id, id ∈ ids_of d -> id ∉ ids_of d') -> touches s d i -> touches s d' i' ->
    forall id, id ∈ i.1 -> id ∉ writes i'.2.2).
  { intros d d' i i' R R' Dj [_ Hrd _] [_ _ Hwr] id Hid Hw.
    destruct (Hrd _ Hid) as [Ho|[Hl Hn]], (Hwr _ Hw) as [Ho'|[Hl' _]].
    - by eapply Dj.
    - destruct (owned_stored _ _ _ R Ho) as [? ?]. congruence.
    - destruct (inputs_owned _ _ _ R' Ho') as [? ?]. congruence.
    - destruct Hl as [? ?]. congruence. }
  unfold conflict_free, item_reads, item_store. cbn. split; [|split].
  - intros id Hw Hw'. destruct (to_writes _ _ _ Ht _ Hw) as [Ho|[Hl Hf]], (to_writes _ _ _ Ht' _ Hw') as [Ho'|[Hl' Hf']].
    + by eapply Hd.
    + destruct (owned_stored _ _ _ Ha Ho) as [? ?]. congruence.
    + destruct (owned_stored _ _ _ Ha' Ho') as [? ?]. congruence.
    + by eapply Hdig, derived_once.
  - exact (Hrw c c' item item' Ha Hr' Hd Ht Ht').
  - apply (Hrw c' c item' item Ha' Hr); [|done|done]. intros id D1 D2. by eapply Hd.
Qed.

Lemma measurable_cons s c certs :
  measurable s (c :: certs) -> can_run s (cert_into_unsigned c) /\ available s c /\ measurable s certs /\
    forall c', c' ∈ certs -> forall id, id ∈ ids_of c -> id ∉ ids_of c'.
Proof.
  intros [Hr Ha Hnd]. cbn [map] in Hr, Hnd. rewrite bind_cons in Hnd. apply NoDup_app in Hnd as (_ & Hd & Hnd).
  apply Forall_cons in Hr as [Hc Hr], Ha as [Hav Ha]. do 2 (split; [done|]). split; [by constructor|].
  intros c' Hc' id D1 D2. apply (Hd _ D1). apply list_elem_of_bind. exists (cert_into_unsigned c').
  split; [done|]. by apply elem_of_map_1.
Qed.

Lemma measurable_elem s certs c :
  measurable s certs -> c ∈ certs -> can_run s (cert_into_unsigned c) /\ available s c.
Proof.
  intros [Hr Ha _] Hc. split; [|exact (proj1 (Forall_forall _ _) Ha c Hc)].
  exact (proj1 (Forall_forall _ _) Hr _ (elem_of_map_1 cert_into_unsigned _ _ Hc)).
Qed.

(** Transactions of distinct owned objects are independent. *)
Lemma certificates_independent s (certs : list CertifiedTransaction) :
  measurable s certs ->
  exists items, map fst items = certs /\ independent s (live_objects s) items /\
    Forall (fun x => effects_digest (item_effects x) = cert_digest x.1) items.
Proof.
  intros Hme.
  enough (exists items, map fst items = certs /\
    Forall (fun x => exec_on s x.1 (live_objects s) = Some x.2 /\ touches s x.1 x.2) items /\
    ForallOrdPairs conflict_free items) as (items & Hm & Hx & Hf).
  { exists items. split; [done|]. subst certs. split.
    - constructor; [by eapply Forall_impl; [exact Hx|]; intros x [? _]|done|].
      rewrite Forall_forall in Hx. apply Forall_forall. intros x Hin id y Hy Hpk Hw.
      destruct (measurable_elem _ _ x.1 Hme) as [Hr _]; [by apply elem_of_map_1|].
      apply live_objects_inv in Hy as [Hy ->]. pose proof (package_unowned s y Hy Hpk) as Hun.
      destruct (to_writes _ _ _ (proj2 (Hx _ Hin)) _ Hw) as [Ho|[Hl _]].
      + destruct (inputs_owned s _ _ Hr Ho) as [? ?]. congruence.
      + by rewrite live_objects_elem in Hl.
    - eapply Forall_impl; [exact Hx|]. by intros x [_ [? _ _]]. }
  induction certs as [|c certs IH]; [exists []; split; [done|]; split; constructor|].
  apply measurable_cons in Hme as (Hr & Ha & Hme & Hd).
  destruct (IH Hme) as (items & Hm & Hx & Hf). destruct (exec_on_live s c Hr Ha) as (item & He & Ht).
  exists ((c, item) :: items). split; [cbn; by rewrite Hm|]. split; [by constructor|]. constructor; [|done].
  subst certs. rewrite Forall_forall in Hx. apply Forall_forall. intros [c' item'] Hin.
  assert (Hin' : c' ∈ map fst items) by apply (elem_of_map_1 fst _ _ Hin).
  destruct (measurable_elem _ _ _ Hme Hin') as [Hr' Ha'].
  apply (touches_free s); try done; [by apply Hd|by apply (Hx _ Hin)].
Qed.

(** ** The sample *)

(** A sample that is executed leaves what the other certificates need. *)
Lemma available_kept tx s e s' c :
  can_run s tx -> try_execute_immediately (new_from_quorum_execution tx 0) s = (Ok e, s') ->
  can_run s (cert_into_unsigned c) -> (forall id, id ∈ owned_ids tx -> id ∉ ids_of c) ->
  available s c -> available s' c.
Proof.
  intros Hr He Hc Hd Ha. destruct (sample_stored _ _ _ _ Hr He) as [Hset Hfields].
  assert (Hkeep : forall id x, id ∉ owned_ids tx -> live_objects s !! id = Some x -> live_objects s' !! id = Some x).
  { intros id x Hid [Hx ->]%live_objects_inv. by apply live_objects_elem, Hset. }
  assert (Hown : forall id, owned_as s id = None -> id ∉ owned_ids tx).
  { intros id Hno Hin. destruct (inputs_owned _ _ _ Hr Hin) as [? ?]. congruence. }
  destruct (input_objects c s Hc) as (packages & kinds & Hk & Hp & Hperm). rewrite Forall_forall in Hp.
  destruct Ha as [Ho Hpk Hf]. constructor.
  - intros r Hin. destruct (Ho r Hin) as (x & Hx & Hv). exists x. split; [|done]. apply Hkeep; [|done].
    intros D. apply (Hd _ D). by apply (elem_of_map_1 ref_id).
  - intros kinds' p Hk' Hin. destruct (Hpk _ _ Hk' Hin) as (x & package & Hx & Hat). exists x, package.
    split; [|done]. apply Hkeep; [|done]. apply Hown, published_unowned, Hp.
    assert (kinds' = kinds) as -> by congruence.
    rewrite Hperm, elem_of_app, !elem_of_map in Hin. by destruct Hin as [(? & ? & _)|(? & [= ->] & ?)].
  - intros id f Hid Hin. rewrite Hfields in Hin by (intros D; by apply (Hd _ D)).
    destruct (Hf _ _ Hid Hin) as [x Hx]. exists x. apply Hkeep; [|done]. by eapply Hown, fields_unowned.
Qed.

(** The certificates that are left after the sample. *)
Definition after_sample (print_sample_tx : bool) (certs : list CertifiedTransaction) : list CertifiedTransaction :=
  if print_sample_tx then tail certs else certs.

Lemma take_sample_live print_sample_tx certs w :
  (print_sample_tx = true -> certs <> []) -> measurable (state w) certs ->
  exists w1, take_sample print_sample_tx certs w = Some (after_sample print_sample_tx certs, w1) /\
    reports w1 = reports w /\ measurable (state w1) (after_sample print_sample_tx certs).
Proof.
  intros Hne Hme. unfold after_sample. destruct print_sample_tx; [|by exists w].
  destruct certs as [|c certs]; [by destruct Hne|]. pose proof (measurable_cons _ _ _ Hme) as (Hc & _ & Hme1 & Hd).
  destruct (execute_sample _ _ Hc) as (e & s' & He & [Hok Hu _ _ _]). cbn [tail].
  eexists. split; [|split].
  - cbn. unfold execute_sample_transaction, execute_raw_transaction, assert_ok, on_state, bindM. rewrite He. cbn.
    rewrite Hok. cbn. by rewrite Hok.
  - done.
  - cbn. constructor; [| |apply Hme1].
    + apply Forall_map, Forall_forall. intros c' Hc'. destruct (measurable_elem _ _ _ Hme1 Hc') as [Hr' _].
      eapply runnable_untouched; [exact Hu|by apply Hd|done].
    + apply Forall_forall. intros c' Hc'. destruct (measurable_elem _ _ _ Hme1 Hc') as [Hr' Ha'].
      eapply (available_kept _ _ _ _ _ Hc He Hr'); [by apply Hd|done].
Qed.

(** ** Measurements *)

(** What the tasks of certificates do on the store that is filled from the live object
    set: every certificate is executed on it, no two conflict, and the tasks return the
    effects, in whatever order, and leave the writes of all. *)
Record executed_in_memory w (certs : list CertifiedTransaction) (items : list Item)
    (es : list TransactionEffects) (store' : InMemoryObjectStore) : Prop := {
  em_items : map fst items = certs;
  em_independent : independent (state w) (live_objects (state w)) items;
  em_digests : Forall (fun x => effects_digest (item_effects x) = cert_digest x.1) items;
  em_run : execute_transactions_in_memory (store_new (live_objects (state w))) certs w =
    Some ((es, store'), mkWorld (state w) (entropy w) (S (steps w)) (reports w));
  em_effects : es ≡ₚ map item_effects items;
  em_objects : objects store' = commit_all (live_objects (state w)) items;
}.

Lemma execute_live certs w :
  measurable (state w) certs -> exists items es store', executed_in_memory w certs items es store'.
Proof.
  intros Hme. destruct (certificates_independent _ _ Hme) as (items & Hm & Hi & Hd).
  destruct (tasks_in_memory (store_new (live_objects (state w))) items w) as (es & store' & Hrun & Hp & Ho);
    [split; [done|apply cache_new]|done|].
  exists items, es, store'. constructor; try done. rewrite <-Hm, Hrun. unfold spawns.
  assert (Hns : existsb contains_shared_object (map fst items) = false); [|by rewrite Hns].
  rewrite Hm. destruct Hme as [Hr _ _]. clear -Hr. induction certs as [|c certs IH]; [done|].
  cbn in Hr |- *. apply Forall_cons in Hr as [Hc Hr]. rewrite IH by done. by rewrite contains_shared, (rn_owned _ _ _ _ Hc).
Qed.

(** The world when the clock has been read once more. *)
Definition tick w : World := mkWorld (state w) (entropy w) (S (steps w)) (reports w).

(** C13. The measurement that executes in memory only, of certificates of distinct owned
    objects whose objects, packages and dynamic fields were committed, completes,
    whatever the order of the tasks: the sample, if asked for, is taken off and executed
    first; the store is filled from the live object set that it leaves; every other
    certificate is executed on that store and no two conflict; and the measurement
    reports the time between the two readings of the clock around the tasks, the number
    of these certificates, and the object reads that the store has counted. *)
Theorem in_memory_completes certs print_sample_tx ctx w :
  (print_sample_tx = true -> certs <> []) -> measurable (state w) certs ->
  let rest := after_sample print_sample_tx certs in
  exists w1 items es store' w',
    take_sample print_sample_tx certs w = Some (rest, w1) /\
    create_in_memory_store (state w1) = Some (store_new (live_objects (state w1))) /\
    executed_in_memory (tick w1) rest items es store' /\
    benchmark_transaction_execution_in_memory certs print_sample_tx ctx w = Some (tt, w') /\
    let elapsed := instant (S (S (steps w1))) - instant (steps w1) in
    reports w' = reports w ++ [Throughput "Execution" elapsed (length rest) elapsed;
                               ReadsPerTransaction (num_object_reads store') (length rest)].
Proof.
  intros Hne Hme rest. destruct (take_sample_live _ _ _ Hne Hme) as (w1 & R1 & Hq1 & Hme1).
  destruct (execute_live rest (tick w1) Hme1) as (items & es & store' & Hex).
  exists w1, items, es, store'. eexists. split; [done|]. split; [apply create_store_ok|]. split; [done|].
  unfold benchmark_transaction_execution_in_memory, now, elapsed_ms, next, report, modify, gets, lift, ret, bindM.
  rewrite R1, create_store_ok. pose proof (em_run _ _ _ _ _ Hex) as R2. cbn [state entropy steps reports tick] in R2. fold rest.
  unfold tick in R2. rewrite R2. cbn. split; [done|]. cbn. by rewrite <-app_assoc, Hq1.
Qed.

End live_store.

(** ** The checkpoint executor *)

(** The authority starts with the genesis checkpoint, and the checkpoints and their
    contents are stored. *)
Class CheckpointStoreLaws `{SuiEnv} := {
  latest_checkpoint s : is_Some (get_latest_certified_checkpoint s);
  checkpoint_inserted cp s : (insert_verified_checkpoint cp s).1 = Ok tt;
  transactions_inserted cc s : (multi_insert_transaction_and_effects cc s).1 = Ok tt;
  contents_inserted cp cc s : (insert_verified_checkpoint_contents cp cc s).1 = Ok tt;
  synced_updated cp s : (update_highest_synced_checkpoint cp s).1 = Ok tt;
}.

Section checkpoints.
Context `{SuiEnv} `{!ObjectLaws} `{!ValidatorLaws} `{!BuilderLaws} `{!ExecutionLaws} `{!CacheLaws} `{!LiveLaws}.
Context `{!CheckpointLaws} `{!CheckpointStoreLaws}.
Implicit Types (c : CertifiedTransaction) (s : AuthorityState) (w : World) (ctx : BenchmarkContext) (o : PTBOptions).

Abbreviation Checkpoints := (list (VerifiedCheckpoint * VerifiedCheckpointContents)).

Lemma insert_one_ok sent cc w :
  exists s', insert_checkpoint sent cc w = Some (sent ++ [cc.1], mkWorld s' (entropy w) (steps w) (reports w)).
Proof.
  pose proof (checkpoint_inserted cc.1) as H1'. pose proof (transactions_inserted cc.2) as H2'.
  pose proof (contents_inserted cc.1 cc.2) as H3'. pose proof (synced_updated cc.1) as H4'.
  unfold insert_checkpoint, on_state, bindM.
  destruct (insert_verified_checkpoint cc.1 (state w)) as [r1 s1] eqn:E1.
  specialize (H1' (state w)). rewrite E1 in H1'. cbn in H1' |- *. rewrite H1'. cbn.
  destruct (multi_insert_transaction_and_effects cc.2 s1) as [r2 s2] eqn:E2.
  specialize (H2' s1). rewrite E2 in H2'. cbn in H2' |- *. rewrite H2'. cbn.
  destruct (insert_verified_checkpoint_contents cc.1 cc.2 s2) as [r3 s3] eqn:E3.
  specialize (H3' s2). rewrite E3 in H3'. cbn in H3' |- *. rewrite H3'. cbn.
  destruct (update_highest_synced_checkpoint cc.1 s3) as [r4 s4] eqn:E4.
  specialize (H4' s3). rewrite E4 in H4'. cbn in H4' |- *. rewrite H4'. cbn. by exists s4.
Qed.

Lemma insert_all_ok (cps : Checkpoints) sent w :
  exists s', foldM insert_checkpoint sent cps w =
    Some (sent ++ cps.*1, mkWorld s' (entropy w) (steps w) (reports w)).
Proof.
  revert sent w. induction cps as [|cc cps IH]; intros sent w.
  { exists (state w). cbn. rewrite app_nil_r. by destruct w. }
  destruct (insert_one_ok sent cc w) as [s1 H1']. cbn [foldM]. unfold bindM. rewrite H1'.
  destruct (IH (sent ++ [cc.1]) (mkWorld s1 (entropy w) (steps w) (reports w))) as [s2 H2'].
  exists s2. rewrite H2'. cbn. by rewrite <-app_assoc.
Qed.

(** The effects that the tasks return are found by the digests of the certificates. *)
Lemma effects_found (items : list Item) es :
  es ≡ₚ map item_effects items -> NoDup (map cert_digest (map fst items)) ->
  Forall (fun x => effects_digest (item_effects x) = cert_digest x.1) items ->
  Forall2 (fun c e => collect_map (map (fun e => (effects_digest e, e)) es) !! cert_digest c = Some e)
    (map fst items) (map item_effects items).
Proof.
  intros Hp Hnd Hd.
  assert (Hdig : map effects_digest (map item_effects items) = map cert_digest (map fst items))
    by (clear -Hd; induction Hd as [|x items Hx _ IH]; cbn; [done|by rewrite Hx, IH]).
  rewrite Forall2_fmap. apply Forall_Forall2_diag. rewrite Forall_forall in Hd |- *. intros x Hx.
  apply collect_map_elem; [rewrite map_fst_map, Hp; change (NoDup (map effects_digest (map item_effects items))); by rewrite Hdig|].
  apply elem_of_map. exists (item_effects x). rewrite (Hd _ Hx). split; [done|]. rewrite Hp. by apply elem_of_map_1.
Qed.

Lemma digests_distinct (certs : list CertifiedTransaction) :
  NoDup (map cert_into_unsigned certs ≫= owned_ids) -> NoDup (map cert_digest certs).
Proof.
  induction certs as [|c certs IH]; [constructor|]. cbn [map]. rewrite bind_cons.
  intros (_ & Hd & Hnd)%NoDup_app. apply NoDup_cons. split; [|by apply IH].
  intros (c' & Heq & Hc')%elem_of_map. apply (Hd (ref_id (tx_inputs (cert_into_unsigned c)).1)); [left|].
  apply list_elem_of_bind. exists (cert_into_unsigned c'). split; [|by apply elem_of_map_1].
  rewrite (digest_gas _ _ Heq). left.
Qed.

(** What the executor of checkpoints is given: the transactions of the certificates, in
    order and each with the effects of its execution on the live object set, cut into
    checkpoints of the size that follow the latest checkpoint. *)
Definition checkpointed (size : nat) s (items : list Item) (cps : Checkpoints) : Prop :=
  exists latest, get_latest_certified_checkpoint s = Some latest /\
    cut_into size (sequence_number latest)
      (map (fun x : Item => (cert_into_unsigned x.1, item_effects x)) items) cps.

(** The checkpoints are inserted in the stores and sent, all of them in order, and the
    epoch is run on them up to the last one. *)
Definition runs_checkpoints (cps : Checkpoints) s s' : Prop :=
  exists cc w2 s2, last cps = Some cc /\ state w2 = s /\
    foldM insert_checkpoint [] cps w2 = Some (cps.*1, mkWorld s2 (entropy w2) (steps w2) (reports w2)) /\
    s' = run_epoch (cps.*1) (sequence_number cc.1) s2.

Lemma zip_items (items : list Item) :
  zip (map cert_into_unsigned (map fst items)) (map item_effects items) =
    map (fun x : Item => (cert_into_unsigned x.1, item_effects x)) items.
Proof. induction items as [|x items IH]; [done|]. cbn. by rewrite IH. Qed.

(** C12. The measurement of the checkpoint executor, of certificates of distinct owned
    objects whose objects, packages and dynamic fields were committed: it takes the
    first one off as a sample, always, and executes it; it executes the others in
    memory on the live object set, without conflicts and in whatever order; it cuts
    them, in the order they were given and each with its effects, into checkpoints of
    the size after the latest one; and it inserts, sends and runs all of these.  It
    completes, and reports their number, unless there is no certificate beside the
    sample: then it panics. *)
Theorem checkpoint_run c certs checkpoint_size ctx w :
  measurable (state w) (c :: certs) ->
  exists w1 items es store' cps,
    take_sample true (c :: certs) w = Some (certs, w1) /\
    executed_in_memory w1 certs items es store' /\
    build_checkpoints (state w1) (Z.to_nat checkpoint_size) certs
      (collect_map (map (fun e => (effects_digest e, e)) es)) = Some cps /\
    checkpointed (Z.to_nat checkpoint_size) (state w1) items cps /\
    (certs = [] -> benchmark_checkpoint_executor (c :: certs) checkpoint_size ctx w = None) /\
    (certs <> [] -> exists w',
      benchmark_checkpoint_executor (c :: certs) checkpoint_size ctx w = Some (tt, w') /\
      (let elapsed := instant (S (S (steps w1))) - instant (S (steps w1)) in
       reports w' = reports w ++ [Throughput "Checkpoint execution" elapsed (length certs) elapsed]) /\
      runs_checkpoints cps (state w1) (state w')).
Proof.
  intros Hme. destruct (take_sample_live true (c :: certs) w) as (w1 & R1 & Hq & Hme1); [done..|].
  cbn [after_sample tail] in R1, Hme1. destruct (execute_live certs w1 Hme1) as (items & es & store' & Hex).
  pose proof Hex as [Hm Hi Hd R2 Hp Ho]. destruct (latest_checkpoint (state w1)) as [latest Hlatest].
  pose proof (digests_distinct _ (me_distinct _ _ Hme1)) as Hdig. rewrite <-Hm in Hdig.
  pose proof (effects_found items es Hp Hdig Hd) as Hes. rewrite Hm in Hdig, Hes.
  destruct (checkpoints_cut (state w1) (Z.to_nat checkpoint_size) latest certs (map item_effects items) _ Hlatest Hdig Hes)
    as (cps & Hcps & Hcut).
  rewrite <-Hm, zip_items in Hcut. exists w1, items, es, store', cps. do 3 (split; [done|]).
  split; [by exists latest|].
  assert (Hb : benchmark_checkpoint_executor (c :: certs) checkpoint_size ctx w =
    (let% last_checkpoint := lift (last cps) in
     let% sent := foldM insert_checkpoint [] cps in
     let% start_time := now in
     let% _ := on_state (fun s => (tt, run_epoch sent (sequence_number last_checkpoint.1) s)) in
     let% elapsed := elapsed_ms start_time in
     report (Throughput "Checkpoint execution" elapsed (length certs) elapsed)) (tick w1)).
  { unfold benchmark_checkpoint_executor. unfold bindM at 1. rewrite R1. unfold bindM at 1, gets.
    rewrite create_store_ok. unfold bindM at 1, lift at 1. unfold bindM at 1. rewrite R2. cbn [fst].
    unfold bindM at 1, lift at 1. by rewrite Hcps. }
  pose proof (cut_into_nil _ _ _ _ Hcut) as Hnil. rewrite Hb. split.
  - intros ->. destruct items; [|done]. by assert (cps = []) as -> by by apply Hnil.
  - intros Hne. destruct (last cps) as [cc|] eqn:Hl.
    2: { apply last_None in Hl as Hl. rewrite Hnil in Hl. destruct items; [|done]. by subst certs. }
    destruct (insert_all_ok cps [] (tick w1)) as [s3 R3]. eexists. split; [|split].
    + unfold bindM at 1, lift. unfold bindM at 1. rewrite R3. reflexivity.
    + cbn. by rewrite Hq.
    + exists cc, (tick w1), s3. done.
Qed.

End checkpoints.
