(* ===== verification/SuiOriginal.v ===== *)
(** The Sui single-node benchmark before its changes:
    [src/codes/sui/original/sui-single-node-benchmark].

    Its options, generators, context and run have no CSV files, kitties or lands.
    What is the same in both versions is used from the files of the changed one:
    [mock_storage.rs], [mock_consensus.rs] and [single_node.rs] ([SuiStore],
    [SuiNode]), the accounts of a workload ([SuiAccounts]) and the steps of the
    context that do not touch it ([SuiContext]).  The names declared here are
    those of the source: outside this file they are qualified. *)
From stdpp Require Import base list option numbers strings gmap.
From S2P Require Import Prelude Machine FileSystem SuiTypes SuiStore SuiWorld SuiAccounts SuiGenerators SuiNode SuiContext SuiBench.
Open Scope Z_scope.

(** ** [command.rs] and [workload.rs] *)

Record PTBOptions : Type := mkPTBOptions {
  num_transfers : Z;
  use_native_transfer : bool;
  num_dynamic_fields : Z;
  computation : Z;
  num_shared_objects : Z;
}.

Inductive WorkloadKind : Type :=
| KindPTB (o : PTBOptions)
| KindPublish (manifest_file : path).

Record Workload : Type := mkWorkload {
  tx_count : Z;
  workload_kind : WorkloadKind;
}.

Record Command : Type := mkCommand {
  cmd_tx_count : Z;
  cmd_checkpoint_size : Z;
  cmd_print_sample_tx : bool;
  cmd_skip_signing : bool;
  cmd_component : Component;
  cmd_workload : WorkloadKind;
}.

(** ** The trait of generators *)

Record TxGenerator `{SuiEnv} : Type := mkTxGenerator {
  generate_tx : Account -> M World Transaction;
  generator_name : string;
}.
Arguments mkTxGenerator {_} generate_tx generator_name.
Arguments generate_tx {_} t.
Arguments generator_name {_} t.

Record BenchmarkContext `{SuiEnv} : Type := mkBenchmarkContext {
  validator : SingleValidator;
  user_accounts : gmap SuiAddress Account;
  admin_account : Account;
  benchmark_component : Component;
}.
Arguments mkBenchmarkContext {_} validator user_accounts admin_account benchmark_component.
Arguments validator {_} b.
Arguments user_accounts {_} b.
Arguments admin_account {_} b.
Arguments benchmark_component {_} b.

Section original.
Context `{SuiEnv}.
Implicit Types ctx : BenchmarkContext.

Definition kind_gas_object_num_per_account (k : WorkloadKind) : option Z :=
  match k with
  | KindPTB o => add 64 (num_transfers o) 1
  | KindPublish _ => Some 1
  end.

Definition num_accounts (w : Workload) : Z := tx_count w.
Definition gas_object_num_per_account (w : Workload) : option Z :=
  kind_gas_object_num_per_account (workload_kind w).

(** ** Generators that create objects *)

Definition RootObjectCreateTxGenerator (move_package : ObjectID) (child_per_root : Z) : TxGenerator :=
  mkTxGenerator
    (fun account =>
       let% bytes := lift (bcs_uint 64 child_per_root) in
       signed_move_call account move_package "benchmark" "generate_dynamic_fields" [Pure bytes])
    "Root Object Creation Transaction Generator".

Definition SharedObjectCreateTxGenerator (move_package : ObjectID) : TxGenerator :=
  mkTxGenerator
    (fun account => signed_move_call account move_package "benchmark" "create_shared_counter" [])
    "Shared Object Creation Transaction Generator".

Definition PackagePublishTxGenerator (compiled_package : CompiledPackage) : TxGenerator :=
  mkTxGenerator
    (fun account =>
       let% gas := lift (at_index (gas_objects account) 0) in
       ret (build_and_sign (keypair account)
              (ttb_publish_with_data (Compiled compiled_package)
                 (ttb_new (sender account) gas DEFAULT_VALIDATOR_GAS_PRICE))))
    "PackagePublishTxGenerator".

(** ** [MoveTxGenerator] *)

Record MoveTxGenerator : Type := mkMoveTxGenerator {
  move_package : ObjectID;
  mg_num_transfers : Z;
  mg_use_native_transfer : bool;
  mg_computation : Z;
  root_objects : gmap SuiAddress ObjectRef;
  shared_objects : list (ObjectID * Z);
}.

Section move_tx.
Context (g : MoveTxGenerator) (account : Account).

Definition transfer_one (b : PTB) (i : Z) : option PTB :=
  object ← at_index (gas_objects account) i;
  if mg_use_native_transfer g then transfer_object (sender account) object b
  else call_ (move_package g) "benchmark" "transfer_coin"
         [ObjectCallArg (ImmOrOwnedObject object)] b.

Fixpoint transfer_all (b : PTB) (idxs : list Z) : option PTB :=
  match idxs with
  | [] => Some b
  | i :: idxs => b ← transfer_one b i; transfer_all b idxs
  end.

(** Every shared object is incremented. *)
Fixpoint increment_all (b : PTB) (shared : list (ObjectID * Z)) : option PTB :=
  match shared with
  | [] => Some b
  | so :: shared =>
      b ← call_ (move_package g) "benchmark" "increment_shared_counter"
            [ObjectCallArg (SharedObject so.1 so.2 true)] b;
      increment_all b shared
  end.

Definition read_dynamic_fields (b : PTB) : option PTB :=
  if decide (root_objects g = ∅) then Some b
  else
    root ← root_objects g !! sender account;
    ab ← ptb_obj (ImmOrOwnedObject root) b;
    programmable_call (move_package g) "benchmark" "read_dynamic_fields" [ab.1] ab.2.

Definition run_computation (b : PTB) : option PTB :=
  if mg_computation g >? 0 then
    ab ← (n ← mul 64 (mg_computation g) 100; ptb_pure_u64 n b);
    programmable_call (move_package g) "benchmark" "run_computation" [ab.1] ab.2
  else Some b.

(** [1..=num_transfers]. *)
Definition transfer_range : list Z := map Z.of_nat (seq 1 (Z.to_nat (mg_num_transfers g))).

Definition move_generate_tx : M World Transaction :=
  let% b := lift (b ← transfer_all ptb_new transfer_range;
                  b ← increment_all b (shared_objects g);
                  b ← read_dynamic_fields b;
                  run_computation b) in
  let pt := ptb_finish b in
  let% gas := lift (at_index (gas_objects account) 0) in
  ret (build_and_sign (keypair account)
         (ttb_programmable pt (ttb_new (sender account) gas DEFAULT_VALIDATOR_GAS_PRICE))).

End move_tx.

Definition move_tx_generator (g : MoveTxGenerator) : TxGenerator :=
  mkTxGenerator (move_generate_tx g) "Programmable Move Transaction Generator".

(** ** [benchmark_context.rs] *)

Definition set_user_accounts (m : gmap SuiAddress Account) ctx : BenchmarkContext :=
  mkBenchmarkContext (validator ctx) m (admin_account ctx) (benchmark_component ctx).
Definition set_admin_account (a : Account) ctx : BenchmarkContext :=
  mkBenchmarkContext (validator ctx) (user_accounts ctx) a (benchmark_component ctx).

(** One account is reserved for publishing, another for a sample transaction. *)
Definition reserved_accounts (workload : Workload) (print_sample_tx : bool) : option Z :=
  n ← add 64 (num_accounts workload) 1;
  if print_sample_tx then add 64 n 1 else Some n.

Definition context_new (workload : Workload) (component : Component) (print_sample_tx : bool)
    : M World BenchmarkContext :=
  let% num_accounts := lift (reserved_accounts workload print_sample_tx) in
  let% per_account := lift (gas_object_num_per_account workload) in
  let% total := lift (mul 64 num_accounts per_account) in
  let% r := batch_create_account_and_gas num_accounts per_account in
  let% _ := guard_ (cast 64 (Z.of_nat (length r.2)) =? total) in
  let% p := lift (pop_last r.1) in
  let% v := validator_new r.2 component in
  ret (mkBenchmarkContext v p.2 p.1.2 component).

Definition refresh_gas_objects (new_gas_objects : gmap ObjectID ObjectRef) ctx : BenchmarkContext :=
  set_user_accounts
    (refresh_accounts new_gas_objects (btree_entries (user_accounts ctx)) (user_accounts ctx)) ctx.

Definition publish_package (publish_data : PublishData CompiledPackage) ctx
    : M World (ObjectRef * BenchmarkContext) :=
  let admin := admin_account ctx in
  let% gas := lift (gas_objects admin !! 0%nat) in
  let% pg := publish_package_with publish_data (sender admin) (keypair admin) gas in
  let% gas_objects' := lift (alter_at (fun _ => pg.2) 0 (gas_objects admin)) in
  ret (pg.1, set_admin_account (set_gas_objects gas_objects' admin) ctx).

Definition generate_transactions (tx_generator : TxGenerator) ctx : M World (list Transaction) :=
  collect_tasks (map (generate_tx tx_generator) (btree_values (user_accounts ctx))).

Definition preparing_dynamic_fields (move_package : ObjectID) (num_dynamic_fields : Z) ctx
    : M World (gmap SuiAddress ObjectRef * BenchmarkContext) :=
  if num_dynamic_fields =? 0 then ret (∅, ctx)
  else
    let% txs := generate_transactions
                  (RootObjectCreateTxGenerator move_package num_dynamic_fields) ctx in
    let% results := execute_raw_transactions txs in
    let% r := foldM prepared_dynamic_field (∅, ∅) results in
    ret (r.1, refresh_gas_objects r.2 ctx).

Definition prepare_shared_objects (move_package : ObjectID) (num_shared_objects : Z) ctx
    : M World (list (ObjectID * Z) * BenchmarkContext) :=
  if num_shared_objects =? 0 then ret ([], ctx)
  else
    let% _ := guard_ (num_shared_objects <=? Z.of_nat (size (user_accounts ctx))) in
    let% txs := seqM (map (generate_tx (SharedObjectCreateTxGenerator move_package))
                        (take (Z.to_nat num_shared_objects) (btree_values (user_accounts ctx)))) in
    let% results := execute_raw_transactions txs in
    let% s := gets state in
    let% r := foldM (prepared_shared (epoch s)) ([], ∅) results in
    ret (r.1, refresh_gas_objects r.2 ctx).

(** With a shared object the transactions are executed in order, otherwise they
    are spawned. *)
Definition execute_all ctx (transactions : list CertifiedTransaction)
    : M World (list TransactionEffects) :=
  let tasks := map (fun tx => execute_certificate (validator ctx) tx (benchmark_component ctx))
                 transactions in
  if existsb contains_shared_object transactions then seqM tasks else collect_tasks tasks.

Definition benchmark_transaction_execution (transactions : list CertifiedTransaction)
    (print_sample_tx : bool) ctx : M World unit :=
  let% transactions := take_sample print_sample_tx transactions in
  let tx_count := length transactions in
  let% start_time := now in
  let% _ := execute_all ctx transactions in
  let% elapsed := elapsed_ms start_time in
  report (Throughput "Execution" elapsed tx_count elapsed).

Definition benchmark_transaction_execution_in_memory (transactions : list CertifiedTransaction)
    (print_sample_tx : bool) : M World unit :=
  let% transactions := take_sample print_sample_tx transactions in
  let tx_count := length transactions in
  let% s := gets state in
  let% store := lift (create_in_memory_store s) in
  let% start_time := now in
  let% r := execute_transactions_in_memory store transactions in
  let% elapsed := elapsed_ms start_time in
  let% _ := report (Throughput "Execution" elapsed tx_count elapsed) in
  report (ReadsPerTransaction (num_object_reads r.2) tx_count).

Definition benchmark_checkpoint_executor (transactions : list CertifiedTransaction)
    (checkpoint_size : Z) : M World unit :=
  let% transactions := take_sample true transactions in
  let tx_count := length transactions in
  let% s := gets state in
  let% store := lift (create_in_memory_store s) in
  let% r := execute_transactions_in_memory store transactions in
  let effects := collect_map (map (fun e => (effects_digest e, e)) r.1) in
  let% checkpoints := lift (build_checkpoints s (Z.to_nat checkpoint_size) transactions effects) in
  let% last_checkpoint := lift (last checkpoints) in
  let% sent := foldM insert_checkpoint [] checkpoints in
  let% start_time := now in
  let% _ := on_state (fun s => (tt, run_epoch sent (sequence_number last_checkpoint.1) s)) in
  let% elapsed := elapsed_ms start_time in
  report (Throughput "Checkpoint execution" elapsed tx_count elapsed).

(** ** [package_publish_tx_generator.rs] *)

Definition publish_dependency (dir : path)
    (acc : gmap string ObjectID * BenchmarkContext) (dependency : Package)
    : M World (gmap string ObjectID * BenchmarkContext) :=
  let% module_bytes := lift (dependency_bytes dir dependency) in
  let% r := publish_package (ModuleBytes module_bytes) acc.2 in
  ret (<[package_name dependency := ref_id r.1]> acc.1, r.2).

Definition package_publish_new (manifest_path : path) ctx
    : M World (CompiledPackage * BenchmarkContext) :=
  let% manifest := lift (load_manifest_json manifest_path) in
  let% dir := lift (match manifest_path with _ :: dir => Some dir | [] => None end) in
  let% acc := foldM (publish_dependency dir) (∅, ctx) (dependencies manifest) in
  let root := root_package manifest in
  let% _ := guard_ (is_source_code root) in
  let target_path := package_path root ++ dir in
  let% compiled := lift (build_package (<[package_name root := OBJECT_ID_ZERO]> acc.1) target_path) in
  ret (compiled, acc.2).

(** ** [create_tx_generator], [run_benchmark] and [main] *)

(** [env!("CARGO_MANIFEST_DIR")] is that of the crate: the package of this crate is not
    the one of the changed crate. *)
Section crate.
Context (manifest_dir : path).

Definition create_move_tx_generator (o : PTBOptions) ctx
    : M World (MoveTxGenerator * BenchmarkContext) :=
  let% r := publish_package (Source (join manifest_dir "move_package") false) ctx in
  let package := ref_id r.1 in
  let% roots := preparing_dynamic_fields package (num_dynamic_fields o) r.2 in
  let% shared := prepare_shared_objects package (num_shared_objects o) roots.2 in
  ret (mkMoveTxGenerator package (num_transfers o) (use_native_transfer o) (computation o)
         roots.1 shared.1, shared.2).

Definition create_tx_generator (w : Workload) ctx : M World (TxGenerator * BenchmarkContext) :=
  match workload_kind w with
  | KindPTB o =>
      let% r := create_move_tx_generator o ctx in
      ret (move_tx_generator r.1, r.2)
  | KindPublish manifest_path =>
      let% r := package_publish_new manifest_path ctx in
      ret (PackagePublishTxGenerator r.1, r.2)
  end.

Definition run_benchmark (workload : Workload) (component : Component) (checkpoint_size : Z)
    (print_sample_tx skip_signing : bool) : M World unit :=
  let% ctx := context_new workload component print_sample_tx in
  let% r := create_tx_generator workload ctx in
  let '(tx_generator, ctx) := r in
  let% transactions := generate_transactions tx_generator ctx in
  match component with
  | TxnSigning => benchmark_transaction_signing transactions print_sample_tx
  | _ =>
      let% transactions := certify_transactions transactions skip_signing in
      let% _ := assigned_shared_object_versions transactions in
      match component with
      | CheckpointExecutor => benchmark_checkpoint_executor transactions checkpoint_size
      | ExecutionOnly => benchmark_transaction_execution_in_memory transactions print_sample_tx
      | _ => benchmark_transaction_execution transactions print_sample_tx ctx
      end
  end.

Definition sui_main (args : Command) : M World unit :=
  run_benchmark (mkWorkload (cmd_tx_count args) (cmd_workload args)) (cmd_component args)
    (cmd_checkpoint_size args) (cmd_print_sample_tx args) (cmd_skip_signing args).

End crate.

End original.
