(* ===== verification/SuiOriginalSpec.v ===== *)
(** The changed Sui benchmark against the one it was made from.

    [embed] is the abstraction from the original context to the changed one: with
    the new options off, every operation of one is the operation of the other
    through it, whatever the schedule.  The two differ on several shared objects
    and in the clock that is read around the execution. *)
From stdpp Require Import base list option numbers strings gmap.
From S2P Require Import Prelude Machine FileSystem SuiOriginal SuiTypes SuiStore SuiWorld SuiAccounts SuiAccountsSpec SuiGenerators SuiNode SuiContext SuiContextSpec SuiBench.
Open Scope Z_scope.

(** ** The embedding *)

Definition embed_options (o : SuiOriginal.PTBOptions) : PTBOptions :=
  mkPTBOptions (SuiOriginal.num_transfers o) (SuiOriginal.use_native_transfer o)
    (SuiOriginal.num_dynamic_fields o) (SuiOriginal.computation o)
    (SuiOriginal.num_shared_objects o) false false 0.

Definition embed_kind (k : SuiOriginal.WorkloadKind) : WorkloadKind :=
  match k with
  | SuiOriginal.KindPTB o => KindPTB (embed_options o)
  | SuiOriginal.KindPublish p => KindPublish p
  end.

Definition embed_workload (w : SuiOriginal.Workload) : Workload :=
  mkWorkload (SuiOriginal.tx_count w) (embed_kind (SuiOriginal.workload_kind w)).

Definition embed_command (c : SuiOriginal.Command) : Command :=
  mkCommand (SuiOriginal.cmd_tx_count c) (SuiOriginal.cmd_checkpoint_size c)
    (SuiOriginal.cmd_print_sample_tx c) (SuiOriginal.cmd_skip_signing c)
    (SuiOriginal.cmd_component c) (embed_kind (SuiOriginal.cmd_workload c)) EmptyString EmptyString.

(** The workload has at most one shared object. *)
Definition one_shared (k : SuiOriginal.WorkloadKind) : Prop :=
  match k with
  | SuiOriginal.KindPTB o => SuiOriginal.num_shared_objects o <= 1
  | SuiOriginal.KindPublish _ => True
  end.

(** The result of a computation through a function. *)
Definition mapped {S A B} (f : A -> B) (p : M S A) : M S B :=
  fun s => match p s with Some (a, s') => Some (f a, s') | None => None end.

Lemma bindM_mapped {S A B C} (f : A -> B) (p : M S A) (k : B -> M S C) s :
  bindM (mapped f p) k s = bindM p (fun a => k (f a)) s.
Proof. unfold bindM, mapped. by destruct (p s) as [[a s']|]. Qed.

Lemma mapped_bindM {S A B C} (f : B -> C) (p : M S A) (k : A -> M S B) s :
  mapped f (bindM p k) s = bindM p (fun a => mapped f (k a)) s.
Proof. unfold bindM, mapped. by destruct (p s) as [[a s']|]. Qed.

(** Two runs that both panic or end in related results. *)
Definition related {S A B} (R : A -> S -> B -> S -> Prop) (x : option (A * S)) (y : option (B * S)) : Prop :=
  match x, y with
  | Some (a, s), Some (b, s') => R a s b s'
  | None, None => True
  | _, _ => False
  end.

Lemma related_bind {S A B C D} (R : A -> S -> B -> S -> Prop) (Q : C -> S -> D -> S -> Prop)
    (p : M S A) (q : M S B) k k' s s' :
  related R (p s) (q s') ->
  (forall a s1 b s2, p s = Some (a, s1) -> R a s1 b s2 -> related Q (k a s1) (k' b s2)) ->
  related Q (bindM p k s) (bindM q k' s').
Proof.
  unfold related at 1, bindM. destruct (p s) as [[a s1]|], (q s') as [[b s2]|]; try done. intros HR Hk.
  by apply Hk.
Qed.

Lemma related_impl {S A B} (R Q : A -> S -> B -> S -> Prop) x y :
  related R x y -> (forall a s b s', R a s b s' -> Q a s b s') -> related Q x y.
Proof. unfold related. destruct x as [[a s]|], y as [[b s']|]; auto. Qed.

Lemma related_mapped {S A B} (f : A -> B) (p : M S A) (q : M S B) s :
  q s = mapped f p s -> related (fun a s b s' => b = f a /\ s' = s) (p s) (q s).
Proof. intros ->. unfold related, mapped. by destruct (p s) as [[a s']|]. Qed.

Lemma related_refl {S A} (R : A -> S -> A -> S -> Prop) x : (forall a s, R a s a s) -> related R x x.
Proof. unfold related. destruct x as [[a s]|]; auto. Qed.

Section tasks.
Context `{SuiEnv}.

Lemma seqM_ext {S A} (ts ts' : list (M S A)) s :
  Forall2 (fun t t' => forall s, t s = t' s) ts ts' -> seqM ts s = seqM ts' s.
Proof.
  intros HF. revert s. induction HF as [|t t' ts ts' Ht _ IH]; intros s; [done|]. cbn.
  apply bindM_ext; [apply Ht|]. intros a s' _. apply bindM_ext; [apply IH|done].
Qed.

Lemma arrange_Forall2 {A B} (R : A -> B -> Prop) cs l l' :
  Forall2 R l l' -> Forall2 R (arrange cs l) (arrange cs l').
Proof.
  intros HF. revert cs. induction HF as [|x y l l' Hxy _ IH]; intros cs; [constructor|]. cbn.
  unfold put_at. apply Forall2_app; [by apply Forall2_take|].
  constructor; [done|]. by apply Forall2_drop.
Qed.

Lemma collect_tasks_ext {A} (ts ts' : list (M World A)) w :
  Forall2 (fun t t' => forall w, t w = t' w) ts ts' -> collect_tasks ts w = collect_tasks ts' w.
Proof. intros HF. cbn. apply seqM_ext. by apply arrange_Forall2. Qed.

Lemma seqM_length {S A} (ts : list (M S A)) s l s' : seqM ts s = Some (l, s') -> length l = length ts.
Proof.
  revert s l. induction ts as [|t ts IH]; intros s l; [by intros [= <- <-]|]. cbn.
  intros (a & s1 & _ & (l1 & s2 & H2 & [= <- <-])%bindM_Some)%bindM_Some. cbn. f_equal. by eapply IH.
Qed.

Lemma collect_length {A} (ts : list (M World A)) w l w' :
  collect_tasks ts w = Some (l, w') -> length l = length ts.
Proof.
  cbn. intros Hl%seqM_length. by rewrite Hl, arrange_perm.
Qed.

(** With overflow checks the users can be counted. *)
Definition counted (users : gmap SuiAddress Account) : Prop :=
  checked = true -> Z.of_nat (size users) < 2 ^ 64.

Lemma add_some w a b : (checked = true -> in_range w (a + b)) -> exists r, add w a b = Some r.
Proof.
  unfold add, wrap. intros Hr. destruct (_ && _) eqn:E; [eauto|]. destruct checked; [|eauto].
  destruct (Hr eq_refl) as [H1 H2]. apply Z.leb_le in H1. apply Z.ltb_lt in H2. by rewrite H1, H2 in E.
Qed.

Lemma numbered_total i (accounts : list Account) :
  (checked = true -> 0 <= i /\ i + Z.of_nat (length accounts) < 2 ^ 64) ->
  exists l, numbered_from i accounts = Some l /\ map snd l = accounts.
Proof.
  revert i. induction accounts as [|a accounts IH]; intros i Hi; [by exists []|]. cbn [numbered_from].
  destruct (add_some 64 i 1) as [j Hj].
  { intros Hc. destruct (Hi Hc) as [H1 H2]. cbn [length] in H2. unfold in_range. lia. }
  rewrite Hj. cbn. destruct (IH j) as (l & -> & Hl).
  - intros Hc. destruct (Hi Hc) as [H1 H2]. cbn [length] in H2. unfold add in Hj.
    rewrite wrap_in in Hj by (unfold in_range; lia). injection Hj as <-. lia.
  - exists ((j, a) :: l). cbn. by rewrite Hl.
Qed.

End tasks.

Section embedding.
Context `{SuiEnv}.
Implicit Types (ctx : SuiOriginal.BenchmarkContext) (w : World).

Definition embed ctx : BenchmarkContext :=
  mkBenchmarkContext (SuiOriginal.validator ctx) (SuiOriginal.user_accounts ctx)
    (SuiOriginal.admin_account ctx) (SuiOriginal.benchmark_component ctx) ∅.

Definition embed_move (g : SuiOriginal.MoveTxGenerator) : MoveTxGenerator :=
  mkMoveTxGenerator (SuiOriginal.move_package g) (SuiOriginal.mg_num_transfers g)
    (SuiOriginal.mg_use_native_transfer g) (SuiOriginal.mg_computation g)
    (SuiOriginal.root_objects g) (SuiOriginal.shared_objects g) false ∅ ∅.

(** With the new arguments at their defaults, a generator of the changed
    benchmark makes the transactions of the original one. *)
Definition agrees (g : SuiOriginal.TxGenerator) (g' : TxGenerator) : Prop :=
  0 <= shared_obj_num g' <= 1 /\
  forall a to w, generate_tx g' a to {[ "shared_obj_index"%string := 0 ]} [] w = SuiOriginal.generate_tx g a w.

Lemma root_agrees package n :
  agrees (SuiOriginal.RootObjectCreateTxGenerator package n) (RootObjectCreateTxGenerator package n).
Proof. split; [cbn; lia|done]. Qed.

Lemma publish_agrees c :
  agrees (SuiOriginal.PackagePublishTxGenerator c) (PackagePublishTxGenerator c).
Proof. split; [cbn; lia|done]. Qed.

Lemma transfer_all_embed g a b idxs :
  transfer_all (embed_move g) a b idxs = SuiOriginal.transfer_all g a b idxs.
Proof.
  revert b. induction idxs as [|i idxs IH]; intros b; [done|]. cbn [transfer_all SuiOriginal.transfer_all].
  change (transfer_one (embed_move g) a b i) with (SuiOriginal.transfer_one g a b i).
  destruct (SuiOriginal.transfer_one g a b i) as [b'|]; [|done]. apply IH.
Qed.

Lemma increment_embed g b args :
  (length (SuiOriginal.shared_objects g) <= 1)%nat -> arg args "shared_obj_index" = 0 ->
  increment_shared (embed_move g) args b = SuiOriginal.increment_all g b (SuiOriginal.shared_objects g).
Proof.
  intros Hl Ha. unfold increment_shared. cbn [embed_move shared_objects move_package].
  destruct (SuiOriginal.shared_objects g) as [|so [|]]; [done| |cbn in Hl; lia].
  rewrite Ha. unfold at_index. cbn -[call_]. symmetry. apply bind_with_Some.
Qed.

Lemma move_agrees g :
  (length (SuiOriginal.shared_objects g) <= 1)%nat ->
  agrees (SuiOriginal.move_tx_generator g) (move_tx_generator (embed_move g)).
Proof.
  intros Hl. split; [cbn; lia|]. intros a to w.
  cbn [generate_tx move_tx_generator SuiOriginal.generate_tx SuiOriginal.move_tx_generator].
  unfold move_generate_tx, SuiOriginal.move_generate_tx.
  change (transfer_range (embed_move g)) with (SuiOriginal.transfer_range g).
  rewrite transfer_all_embed.
  destruct (SuiOriginal.transfer_all g a ptb_new _) as [b1|]; [|done]. cbn [mbind option_bind].
  rewrite increment_embed; [|done|done].
  destruct (SuiOriginal.increment_all g b1 _) as [b2|]; [|done]. cbn [mbind option_bind].
  change (read_dynamic_fields (embed_move g) a b2) with (SuiOriginal.read_dynamic_fields g a b2).
  destruct (SuiOriginal.read_dynamic_fields g a b2) as [b3|]; [|done]. cbn [mbind option_bind].
  change (run_computation (embed_move g) b3) with (SuiOriginal.run_computation g b3).
  destruct (SuiOriginal.run_computation g b3) as [b4|]; [|done]. done.
Qed.

(** ** The context *)

Lemma generate_embed g g' ctx w :
  agrees g g' -> counted (SuiOriginal.user_accounts ctx) ->
  generate_transactions g' (embed ctx) w = SuiOriginal.generate_transactions g ctx w.
Proof.
  intros [Hn Hg] Hc. unfold generate_transactions, SuiOriginal.generate_transactions. cbn [user_accounts embed].
  destruct (numbered_total 0 (btree_values (SuiOriginal.user_accounts ctx))) as (l & Hl & Hm).
  { intros Hck. rewrite btree_values_length. specialize (Hc Hck). lia. }
  rewrite Hl. unfold bindM, lift. apply collect_tasks_ext.
  rewrite <-Hm, map_map. apply Forall2_fmap_2, Forall_Forall2_diag, Forall_forall. intros [i a] _ w1. cbn [snd].
  unfold generate_numbered. cbn [fst snd]. rewrite <-(Hg a (sender a) w1).
  destruct (Z.eqb_spec (shared_obj_num g') 0) as [|Hne]; [done|].
  replace (shared_obj_num g') with 1 by lia. unfold rem. cbn. by rewrite Z.mod_1_r.
Qed.

Lemma refresh_embed new ctx : refresh_gas_objects new (embed ctx) = embed (SuiOriginal.refresh_gas_objects new ctx).
Proof. done. Qed.

Lemma refresh_size new ctx :
  size (SuiOriginal.user_accounts (SuiOriginal.refresh_gas_objects new ctx)) = size (SuiOriginal.user_accounts ctx).
Proof.
  cbn. set (m := SuiOriginal.user_accounts ctx).
  assert (Hin : forall k a, (k, a) ∈ btree_entries m -> is_Some (m !! k)).
  { intros k a Hka. apply btree_entries_lookup in Hka. by eexists. }
  revert Hin. generalize (btree_entries m). clearbody m. intros entries. revert new m.
  induction entries as [|[k a] entries IH]; intros new m Hin; [done|]. cbn.
  destruct (refresh_refs new (gas_objects a)) as [rs new']. rewrite IH.
  - apply map_size_insert_Some. apply Hin with a. left.
  - intros k' a' Ha'. destruct (decide (k' = k)) as [->|Hne]; [rewrite lookup_insert_eq; eauto|].
    rewrite lookup_insert_ne by done. eapply Hin. by right.
Qed.

(** Both versions of a step through the embedding. *)
Ltac through_step := rewrite mapped_bindM; apply bindM_ext; [reflexivity|intros ? ? _].

Lemma context_embed wl component print_sample_tx w :
  context_new (embed_workload wl) component print_sample_tx EmptyString w =
  mapped embed (SuiOriginal.context_new wl component print_sample_tx) w.
Proof.
  unfold context_new. rewrite decide_True by done. unfold new_from_workload, SuiOriginal.context_new.
  through_step. destruct wl as [n [o|p]]; do 6 through_step; reflexivity.
Qed.

Lemma add_accounts_size cs acc :
  (size (foldl add_account acc cs).1 <= size acc.1 + length cs)%nat.
Proof.
  revert acc. induction cs as [|c cs IH]; intros acc; cbn [foldl length]; [lia|].
  etransitivity; [apply IH|]. cbn. rewrite map_size_insert. destruct (_ !! _); cbn; lia.
Qed.

Lemma context_counted wl component print_sample_tx w ctx w' :
  SuiOriginal.context_new wl component print_sample_tx w = Some (ctx, w') ->
  counted (SuiOriginal.user_accounts ctx).
Proof.
  unfold SuiOriginal.context_new.
  intros (n & w1 & [Hn ->]%lift_Some & Hrun)%bindM_Some Hck.
  apply bindM_Some in Hrun as (per & w1 & [_ ->]%lift_Some & Hrun).
  apply bindM_Some in Hrun as (total & w1 & [_ ->]%lift_Some & Hrun).
  apply bindM_Some in Hrun as (r & w1 & Hr & Hrun).
  apply bindM_Some in Hrun as (_ & w2 & _ & Hrun).
  apply bindM_Some in Hrun as (p & w3 & [Hp ->]%lift_Some & Hrun).
  apply bindM_Some in Hrun as (v & w4 & _ & [= <- _]). cbn.
  assert (Hin : in_range 64 n).
  { unfold SuiOriginal.reserved_accounts in Hn. apply bind_Some in Hn as (m & Hm & Hn).
    apply (wrap_range 64) in Hm; [|lia]. destruct print_sample_tx; [|by injection Hn as <-].
    by apply (wrap_range 64) in Hn; [|lia]. }
  apply bindM_Some in Hr as (starts & w5 & [Hs ->]%lift_Some & Hr).
  apply bindM_Some in Hr as (tasks & w6 & Ht & [= <- _]).
  apply collect_length in Ht. rewrite length_map in Ht.
  apply length_mapM in Hs. unfold upto in Hs. rewrite length_map, length_seq in Hs.
  assert (Hsz : (size p.2 <= length tasks)%nat).
  { unfold pop_last in Hp. destruct (last _) as [[k a]|] eqn:Hlast; [|done]. injection Hp as <-. cbn [snd].
    pose proof (add_accounts_size tasks (∅, [])) as Hsz. cbn [fst] in Hsz. rewrite map_size_empty in Hsz.
    rewrite map_size_delete. case_match; cbn [id]; unfold id; revert Hsz; cbn; lia. }
  unfold in_range in Hin. lia.
Qed.

Lemma publish_embed d ctx w :
  publish_package d (embed ctx) w = mapped (prod_map id embed) (SuiOriginal.publish_package d ctx) w.
Proof. unfold publish_package, SuiOriginal.publish_package. do 3 through_step. reflexivity. Qed.

Lemma dynamic_fields_embed package n ctx w :
  counted (SuiOriginal.user_accounts ctx) ->
  preparing_dynamic_fields package n (embed ctx) w =
  mapped (prod_map id embed) (SuiOriginal.preparing_dynamic_fields package n ctx) w.
Proof.
  intros Hc. unfold preparing_dynamic_fields, SuiOriginal.preparing_dynamic_fields.
  destruct (n =? 0); [reflexivity|]. rewrite mapped_bindM.
  apply bindM_ext; [by apply generate_embed; [apply root_agrees|]|intros txs w1 _].
  do 2 through_step. reflexivity.
Qed.

Lemma shared_objects_embed package n ctx w :
  prepare_shared_objects package n (embed ctx) w =
  mapped (prod_map id embed) (SuiOriginal.prepare_shared_objects package n ctx) w.
Proof.
  unfold prepare_shared_objects, SuiOriginal.prepare_shared_objects.
  destruct (n =? 0); [reflexivity|]. do 5 through_step. reflexivity.
Qed.

Lemma dynamic_fields_counted package n ctx w m ctx' w' :
  SuiOriginal.preparing_dynamic_fields package n ctx w = Some ((m, ctx'), w') ->
  counted (SuiOriginal.user_accounts ctx) -> counted (SuiOriginal.user_accounts ctx').
Proof.
  unfold SuiOriginal.preparing_dynamic_fields. destruct (n =? 0); [by intros [= <- <- <-]|].
  intros (txs & w1 & _ & (rs & w2 & _ & (r & w3 & _ & [= _ <- _])%bindM_Some)%bindM_Some)%bindM_Some.
  unfold counted. by rewrite refresh_size.
Qed.

(** The number of shared objects is the number that was asked for. *)
Lemma shared_objects_count package n ctx w l ctx' w' :
  SuiOriginal.prepare_shared_objects package n ctx w = Some ((l, ctx'), w') ->
  (length l <= Z.to_nat n)%nat /\
  size (SuiOriginal.user_accounts ctx') = size (SuiOriginal.user_accounts ctx).
Proof.
  unfold SuiOriginal.prepare_shared_objects. destruct (Z.eqb_spec n 0) as [->|Hne].
  { intros [= <- <- <-]. cbn. split; [lia|done]. }
  intros (u & w1 & _ & (txs & w2 & Ht & Hrun)%bindM_Some)%bindM_Some.
  apply bindM_Some in Hrun as (es & w3 & He & Hrun).
  apply bindM_Some in Hrun as (s & w4 & _ & Hrun).
  apply bindM_Some in Hrun as (r & w5 & Hr & [= <- <- _]).
  split; [|apply refresh_size].
  apply seqM_length in Ht. rewrite length_map, length_take in Ht.
  apply collect_length in He. rewrite length_map in He.
  enough (Hlen : length r.1 = length es) by lia.
  revert Hr. apply (foldM_inv (fun seen acc _ => length acc.1 = length seen)); [done|].
  intros seen e acc w6 acc' w7 Hseen _. unfold prepared_shared.
  intros (o & w8 & _ & (u' & w9 & _ & [= <- _])%bindM_Some)%bindM_Some.
  cbn. rewrite !length_app, Hseen. done.
Qed.

(** ** Runs *)

(** Publishing keeps the users. *)
Lemma publish_users d ctx w r w' :
  SuiOriginal.publish_package d ctx w = Some (r, w') ->
  SuiOriginal.user_accounts r.2 = SuiOriginal.user_accounts ctx.
Proof.
  intros (gas & w2 & _ & (pg & w3 & _ & (gs & w4 & _ & [= <- _])%bindM_Some)%bindM_Some)%bindM_Some. done.
Qed.

(** The Move packages of the two crates are published by the same transactions: the one
    of the original crate, under [manifest_dir], and the one of the changed crate. *)
Definition same_package (manifest_dir : path) : Prop :=
  forall t, ttb_publish_with_data (Source (join manifest_dir "move_package") false) t =
    ttb_publish_with_data (Source (join CARGO_MANIFEST_DIR "move_package") false) t.

Lemma publish_same manifest_dir ctx w :
  same_package manifest_dir ->
  SuiOriginal.publish_package (Source (join manifest_dir "move_package") false) ctx w =
  SuiOriginal.publish_package (Source (join CARGO_MANIFEST_DIR "move_package") false) ctx w.
Proof.
  intros Hp. unfold SuiOriginal.publish_package. apply bindM_ext; [done|]. intros gas w1 _.
  apply bindM_ext; [|done]. unfold publish_package_with. by rewrite Hp.
Qed.

Lemma create_move_embed manifest_dir o ctx w :
  same_package manifest_dir -> counted (SuiOriginal.user_accounts ctx) -> SuiOriginal.num_shared_objects o <= 1 ->
  related (fun r w1 r' w2 => r' = prod_map embed_move embed r /\ w2 = w1 /\
             counted (SuiOriginal.user_accounts r.2) /\ (length (SuiOriginal.shared_objects r.1) <= 1)%nat)
    (SuiOriginal.create_move_tx_generator manifest_dir o ctx w)
    (create_move_tx_generator (embed_options o) (embed ctx) w).
Proof.
  intros Hsame Hc Ho. unfold create_move_tx_generator, SuiOriginal.create_move_tx_generator.
  eapply related_bind; [rewrite publish_same by done; apply related_mapped, publish_embed|].
  intros [ref ctx1] w1 _ _ Hpub [-> ->]. cbn [prod_map fst snd].
  assert (Hc1 : counted (SuiOriginal.user_accounts ctx1)).
  { apply publish_users in Hpub. cbn in Hpub. by rewrite Hpub. }
  eapply related_bind; [apply related_mapped, dynamic_fields_embed, Hc1|].
  intros [roots ctx2] w2 _ _ Hroots [-> ->]. cbn [prod_map fst snd].
  pose proof (dynamic_fields_counted _ _ _ _ _ _ _ Hroots Hc1) as Hc2.
  eapply related_bind; [apply related_mapped, shared_objects_embed|].
  intros [shared ctx3] w3 _ _ Hsh [-> ->]. cbn [prod_map fst snd].
  apply shared_objects_count in Hsh as [Hn Hs].
  unfold prepare_kitty_objects, prepare_land_objects. cbn. split; [done|]. split; [done|].
  split; [|cbn in *; lia]. unfold counted. rewrite Hs. exact Hc2.
Qed.

Lemma publish_dependency_embed dir acc ctx dep w :
  publish_dependency dir (acc, embed ctx) dep w =
  mapped (prod_map id embed) (SuiOriginal.publish_dependency dir (acc, ctx) dep) w.
Proof.
  unfold publish_dependency, SuiOriginal.publish_dependency. through_step. rewrite mapped_bindM.
  cbn [fst snd]. etransitivity; [apply bindM_ext; [apply publish_embed|done]|].
  by rewrite bindM_mapped.
Qed.

Lemma publish_dependencies_embed dir deps acc ctx w :
  foldM (publish_dependency dir) (acc, embed ctx) deps w =
  mapped (prod_map id embed) (foldM (SuiOriginal.publish_dependency dir) (acc, ctx) deps) w.
Proof.
  revert acc ctx w. induction deps as [|d deps IH]; intros acc ctx w; [done|]. cbn [foldM].
  rewrite mapped_bindM.
  etransitivity; [apply bindM_ext; [apply publish_dependency_embed|done]|].
  rewrite bindM_mapped. apply bindM_ext; [done|]. intros [acc' ctx'] w' _. apply IH.
Qed.

Lemma package_publish_embed p ctx w :
  package_publish_new p (embed ctx) w = mapped (prod_map id embed) (SuiOriginal.package_publish_new p ctx) w.
Proof.
  unfold package_publish_new, SuiOriginal.package_publish_new. do 2 through_step. rewrite mapped_bindM.
  etransitivity; [apply bindM_ext; [apply publish_dependencies_embed|done]|].
  rewrite bindM_mapped. apply bindM_ext; [done|]. intros [acc' ctx'] w' _. do 2 through_step. reflexivity.
Qed.

Lemma package_publish_users p ctx w r w' :
  SuiOriginal.package_publish_new p ctx w = Some (r, w') ->
  SuiOriginal.user_accounts r.2 = SuiOriginal.user_accounts ctx.
Proof.
  intros (m & w1 & _ & (dir & w2 & _ & (acc & w3 & Hd & Hrun)%bindM_Some)%bindM_Some)%bindM_Some.
  apply bindM_Some in Hrun as (u & w4 & _ & (c & w5 & _ & [= <- _])%bindM_Some). cbn [snd].
  revert Hd. apply (foldM_inv (fun _ a _ => SuiOriginal.user_accounts a.2 = SuiOriginal.user_accounts ctx)); [done|].
  intros _ d a w6 a' w7 Ha _ (bs & w8 & _ & (q & w9 & Hq%publish_users & [= <- _])%bindM_Some)%bindM_Some.
  cbn. by rewrite Hq.
Qed.

(** The workloads that publish the package of the benchmark. *)
Definition publishes_package (k : SuiOriginal.WorkloadKind) : Prop :=
  match k with SuiOriginal.KindPTB _ => True | SuiOriginal.KindPublish _ => False end.

Lemma create_embed manifest_dir wl ctx w :
  (publishes_package (SuiOriginal.workload_kind wl) -> same_package manifest_dir) -> counted (SuiOriginal.user_accounts ctx) -> one_shared (SuiOriginal.workload_kind wl) ->
  related (fun r w1 r' w2 => agrees r.1 r'.1 /\ r'.2 = embed r.2 /\ w2 = w1 /\
             counted (SuiOriginal.user_accounts r.2))
    (SuiOriginal.create_tx_generator manifest_dir wl ctx w) (create_tx_generator (embed_workload wl) (embed ctx) w).
Proof.
  intros Hsame Hc Ho. destruct wl as [n [o|p]]; cbn in Hsame, Ho |- *.
  - eapply related_bind; [apply create_move_embed; [by apply Hsame|done|done]|].
    intros [g ctx1] w1 _ _ _ (-> & -> & Hc1 & Hl). cbn. split; [by apply move_agrees|done].
  - eapply related_bind; [apply related_mapped, package_publish_embed|].
    intros [c ctx1] w1 _ _ Hp [-> ->]. cbn. split; [apply publish_agrees|]. split; [done|]. split; [done|].
    apply package_publish_users in Hp. cbn in Hp. by rewrite Hp.
Qed.

End embedding.

(** ** Execution *)

Section execution.
Context `{SuiEnv}.
Implicit Types (ctx : SuiOriginal.BenchmarkContext) (w : World).

(** The clock and the reports of another world. *)
Definition reclock (k : nat) (rs : list Report) w : World := mkWorld (state w) (entropy w) k rs.

(** Code that neither reads the clock nor reports. *)
Definition steady {A} (p : M World A) : Prop :=
  forall w k rs, p (reclock k rs w) =
    match p w with Some (a, w') => Some (a, reclock k rs w') | None => None end.

Lemma steady_bind {A B} (p : M World A) (q : A -> M World B) :
  steady p -> (forall a, steady (q a)) -> steady (bindM p q).
Proof.
  intros Hp Hq w k rs. unfold bindM. rewrite Hp. destruct (p w) as [[a w']|]; [|done]. apply Hq.
Qed.

Lemma steady_ret {A} (a : A) : steady (ret a).
Proof. done. Qed.
Lemma steady_panic {A} : steady (@panic World A).
Proof. done. Qed.
Lemma steady_lift {A} (o : option A) : steady (lift o).
Proof. intros w k rs. unfold lift. by destruct o. Qed.
Lemma steady_guard b : steady (guard_ b).
Proof. by destruct b. Qed.
Lemma steady_unwrap {E A} (r : result E A) : steady (unwrap r).
Proof. by destruct r. Qed.
Lemma steady_on_state {A} (f : AuthorityState -> A * AuthorityState) : steady (on_state f).
Proof. intros w k rs. unfold on_state. cbn. by destruct (f (state w)). Qed.
Lemma steady_gets : steady (gets state).
Proof. done. Qed.
Lemma steady_set_state s : steady (set_state s).
Proof. done. Qed.

Lemma steady_if {A} (b : bool) (p q : M World A) : steady p -> steady q -> steady (if b then p else q).
Proof. by destruct b. Qed.

End execution.

Create HintDb steady.
#[export] Hint Resolve steady_bind steady_ret steady_panic steady_lift steady_guard steady_unwrap steady_on_state steady_gets steady_set_state steady_if : steady.

Section execute.
Context `{SuiEnv}.
Implicit Types (ctx : SuiOriginal.BenchmarkContext) (w : World).

Lemma steady_certificate v tx c : steady (execute_certificate v tx c).
Proof.
  unfold execute_certificate, assert_ok. apply steady_bind; [|intros; eauto with steady].
  destruct c; eauto 8 with steady.
Qed.

Lemma steady_seqM {A} (ts : list (M World A)) : Forall steady ts -> steady (seqM ts).
Proof. induction 1; cbn; eauto 6 with steady. Qed.

(** Steady code leaves the clock and the reports as they are. *)
Lemma steady_keeps {A} (p : M World A) w a w' : steady p -> p w = Some (a, w') -> w' = reclock (steps w) (reports w) w'.
Proof.
  intros Hp Hr. specialize (Hp w (steps w) (reports w)). rewrite Hr in Hp.
  replace (reclock (steps w) (reports w) w) with w in Hp by by destruct w. congruence.
Qed.

(** The tasks are finished in the order in which they are spawned. *)
Definition in_order : Prop := forall k, schedule k = [].

Lemma arrange_nil {A} (l : list A) : arrange [] l = l.
Proof. induction l as [|x l IH]; [done|]. cbn. unfold put_at. by rewrite IH. Qed.

(** Two measurements of the same execution. *)
Definition same_report (r r' : Report) : Prop :=
  match r, r' with
  | Throughput l _ n _, Throughput l' _ n' _ => l = l' /\ n = n'
  | ReadsPerTransaction k n, ReadsPerTransaction k' n' => k = k' /\ n = n'
  | _, _ => False
  end.

#[export] Instance same_report_equiv : Equivalence same_report.
Proof.
  split.
  - intros []; cbn; auto.
  - intros [] []; cbn; intuition.
  - intros [] [] []; cbn; intuition congruence.
Qed.

Definition same_execution w w' : Prop :=
  state w = state w' /\ entropy w = entropy w' /\ Forall2 same_report (reports w) (reports w').

Lemma execute_all_same ctx txs w :
  in_order \/ existsb contains_shared_object txs = false ->
  related (fun es w1 es' w2 => es = es' /\ state w1 = state w2 /\ entropy w1 = entropy w2 /\
             reports w1 = reports w /\ reports w2 = reports w)
    (SuiOriginal.execute_all ctx txs w) (execute_all (embed ctx) txs w).
Proof.
  intros Ho. unfold SuiOriginal.execute_all, execute_all. cbn [validator benchmark_component embed].
  set (tasks := map _ txs).
  assert (Hst : Forall steady tasks).
  { apply Forall_forall. intros t (tx & -> & _)%elem_of_map. apply steady_certificate. }
  assert (Harr : forall cs, Forall steady (arrange cs tasks)) by (intros; by rewrite arrange_perm).
  assert (Hkeep : forall cs es w1, seqM (arrange cs tasks) (reclock (S (steps w)) (reports w) w) = Some (es, w1) ->
            reports w1 = reports w).
  { intros cs es w1 ->%steady_keeps; [done|]. by apply steady_seqM. }
  assert (Hcoll : collect_tasks tasks w = seqM (arrange (schedule (steps w)) tasks) (reclock (S (steps w)) (reports w) w)) by done.
  destruct (existsb contains_shared_object txs) eqn:Hsh.
  - destruct Ho as [Ho|]; [|done]. rewrite Hcoll, Ho, arrange_nil.
    rewrite (steady_seqM tasks Hst). specialize (Hkeep []). rewrite arrange_nil in Hkeep.
    destruct (seqM tasks w) as [[es w1]|] eqn:Hrun; [|done]. cbn.
    apply steady_keeps in Hrun; [|by apply steady_seqM]. rewrite Hrun. done.
  - rewrite Hcoll. destruct (seqM _ _) as [[es w1]|] eqn:Hrun; [|done]. cbn. by rewrite (Hkeep _ _ _ Hrun).
Qed.

Lemma sample_unshared print_sample_tx txs w txs' w' :
  take_sample print_sample_tx txs w = Some (txs', w') -> existsb contains_shared_object txs = false ->
  existsb contains_shared_object txs' = false.
Proof.
  unfold take_sample. destruct print_sample_tx; [|by intros [= <- <-]].
  intros (r & w1 & [Hr ->]%lift_Some & (u & w2 & _ & [= <- _])%bindM_Some)%bindM_Some.
  destruct txs as [|tx txs]; [done|]. injection Hr as <-. cbn. by intros [_ ?]%orb_false_iff.
Qed.

Lemma execution_same ctx txs print_sample_tx w :
  in_order \/ existsb contains_shared_object txs = false ->
  related (fun _ w1 _ w2 => same_execution w1 w2)
    (SuiOriginal.benchmark_transaction_execution txs print_sample_tx ctx w)
    (benchmark_transaction_execution txs print_sample_tx (embed ctx) w).
Proof.
  intros Ho. unfold SuiOriginal.benchmark_transaction_execution, benchmark_transaction_execution.
  eapply (related_bind (fun a s b s' => a = b /\ s = s')); [by apply related_refl|].
  intros txs' w1 _ _ Hs [<- <-].
  eapply (related_bind (fun a s b s' => a = b /\ s = s')); [by apply related_refl|].
  intros start w2 _ _ _ [<- <-].
  eapply related_bind.
  { apply execute_all_same. destruct Ho as [Ho|Ho]; [by left|right; by eapply sample_unshared]. }
  intros es w3 _ w4 _ (<- & Hst & Hen & Hr3 & Hr4). cbn. split; [done|]. split; [done|]. cbn.
  rewrite Hr3, Hr4. apply Forall2_app; [by apply reflexivity|]. by repeat constructor.
Qed.

(** The certificates of a run of the original benchmark. *)
Definition certificates (manifest_dir : path) (cmd : SuiOriginal.Command) : M World (list CertifiedTransaction) :=
  let wl := SuiOriginal.mkWorkload (SuiOriginal.cmd_tx_count cmd) (SuiOriginal.cmd_workload cmd) in
  let% ctx := SuiOriginal.context_new wl (SuiOriginal.cmd_component cmd) (SuiOriginal.cmd_print_sample_tx cmd) in
  let% r := SuiOriginal.create_tx_generator manifest_dir wl ctx in
  let% transactions := SuiOriginal.generate_transactions r.1 r.2 in
  certify_transactions transactions (SuiOriginal.cmd_skip_signing cmd).

(** What both benchmarks leave: the same world, but for the measured times when
    certificates are executed. *)
Definition same_outcome (component : Component) w w' : Prop :=
  match component with
  | TxnSigning | CheckpointExecutor | ExecutionOnly => w = w'
  | _ => same_execution w w'
  end.

Lemma same_outcome_refl component w : same_outcome component w w.
Proof. destruct component; cbn; try done; split; try done; split; try done; by apply reflexivity. Qed.

(** The part of a run after the versions of shared objects are assigned. *)
Lemma measured_same component checkpoint_size print_sample_tx ctx txs w :
  component <> TxnSigning -> in_order \/ existsb contains_shared_object txs = false ->
  related (fun _ w1 _ w2 => same_outcome component w1 w2)
    (match component with
     | CheckpointExecutor => SuiOriginal.benchmark_checkpoint_executor txs checkpoint_size
     | ExecutionOnly => SuiOriginal.benchmark_transaction_execution_in_memory txs print_sample_tx
     | _ => SuiOriginal.benchmark_transaction_execution txs print_sample_tx ctx
     end w)
    (match component with
     | CheckpointExecutor => benchmark_checkpoint_executor txs checkpoint_size (embed ctx)
     | ExecutionOnly => benchmark_transaction_execution_in_memory txs print_sample_tx (embed ctx)
     | _ => benchmark_transaction_execution txs print_sample_tx (embed ctx)
     end w).
Proof.
  intros Hne Ho. destruct component; try done; try (eapply related_impl; [by apply execution_same|done]).
  all: by apply related_refl.
Qed.

(** Equal first steps. *)
Lemma related_step {A C D} (Q : C -> World -> D -> World -> Prop) (p : M World A) k k' w :
  (forall a w1, p w = Some (a, w1) -> related Q (k a w1) (k' a w1)) ->
  related Q (bindM p k w) (bindM p k' w).
Proof. unfold bindM. destruct (p w) as [[a w1]|]; [|done]. auto. Qed.

(** C18. The Rust code of the changed benchmark, with its new options off, does what that
    of the original does: for a workload with at most one shared object, whatever the
    component, both panic or both end, in the same world up to the measured times; when
    the transactions have shared objects, which the original executes in order, this
    needs tasks that finish in the order of their spawning.  The Move packages of the
    two crates differ, and what a package does is not compared: a workload that
    publishes the package of its crate (PTB) is compared on one package; a workload that
    publishes the package of a manifest is compared whatever the two packages are. *)
Theorem original_preserved manifest_dir (cmd : SuiOriginal.Command) w :
  (publishes_package (SuiOriginal.cmd_workload cmd) -> same_package manifest_dir) ->
  one_shared (SuiOriginal.cmd_workload cmd) ->
  in_order \/ (forall certs w1, certificates manifest_dir cmd w = Some (certs, w1) ->
                 existsb contains_shared_object certs = false) ->
  related (fun _ w1 _ w2 => same_outcome (SuiOriginal.cmd_component cmd) w1 w2)
    (SuiOriginal.sui_main manifest_dir cmd w) (sui_main (embed_command cmd) w).
Proof.
  intros Hsame Hone Ho. unfold sui_main, SuiOriginal.sui_main.
  assert (Hk : is_test_kitty (mkWorkload (cmd_tx_count (embed_command cmd)) (cmd_workload (embed_command cmd))) = false).
  { by destruct cmd as [? ? ? ? ? []]. }
  rewrite Hk. unfold certificates in Ho.
  change (mkWorkload (cmd_tx_count (embed_command cmd)) (cmd_workload (embed_command cmd))) with
    (embed_workload (SuiOriginal.mkWorkload (SuiOriginal.cmd_tx_count cmd) (SuiOriginal.cmd_workload cmd))).
  set (wl := SuiOriginal.mkWorkload _ _) in *.
  destruct cmd as [n size sample skip component kind]. cbn in Hsame, Hone, Ho |- *. fold (one_shared kind) in Hone.
  unfold run_benchmark, SuiOriginal.run_benchmark.
  eapply related_bind; [apply related_mapped, context_embed|].
  intros ctx w1 _ _ Hctx [-> ->]. pose proof (context_counted _ _ _ _ _ _ Hctx) as Hc.
  eapply related_bind; [by apply create_embed|].
  intros [g ctx1] w2 [g' ctx1'] _ Hg (Hag & Hctx1 & -> & Hc1). cbn in Hag, Hctx1, Hc1. subst ctx1'.
  rewrite decide_True by done.
  eapply (related_bind (fun a s b s' => b = a /\ s' = s)).
  { rewrite (generate_embed g g') by done. by apply related_refl. }
  intros txs w3 _ _ Htxs [-> ->].
  destruct (decide (component = TxnSigning)) as [->|Hne].
  { apply related_refl. intros. apply same_outcome_refl. }
  assert (Hmain : related (fun _ w1 _ w2 => same_outcome component w1 w2)
    (bindM (certify_transactions txs skip) (fun certs => bindM (assigned_shared_object_versions certs)
       (fun _ => match component with
          | CheckpointExecutor => SuiOriginal.benchmark_checkpoint_executor certs size
          | ExecutionOnly => SuiOriginal.benchmark_transaction_execution_in_memory certs sample
          | _ => SuiOriginal.benchmark_transaction_execution certs sample ctx1 end)) w3)
    (bindM (certify_transactions txs skip) (fun certs => bindM (assigned_shared_object_versions certs)
       (fun _ => match component with
          | CheckpointExecutor => benchmark_checkpoint_executor certs size (embed ctx1)
          | ExecutionOnly => benchmark_transaction_execution_in_memory certs sample (embed ctx1)
          | _ => benchmark_transaction_execution certs sample (embed ctx1) end)) w3)).
  { apply related_step. intros certs w4 Hcerts. apply related_step. intros _ w5 _.
    apply measured_same; [done|]. destruct Ho as [Ho|Ho]; [by left|right]. apply (Ho certs w4).
    unfold bindM. rewrite Hctx, Hg. cbn [fst snd]. by rewrite Htxs. }
  by destruct component.
Qed.

End execute.
