(* ===== verification/SuiToy.v ===== *)
(** A small instance of the environment of the Sui single-node benchmark, with the
    promises that the theorems about its runs rely on. *)
From stdpp Require Import base list option numbers strings gmap sorting.
From S2P Require Import Prelude Machine FileSystem BenchMain SuiTypes SuiStore SuiWorld SuiAccounts SuiAccountsSpec SuiGenerators SuiNode SuiContext SuiContextSpec SuiBench SuiCheckpointSpec SuiMemorySpec SuiJobsSpec SuiPrepareSpec SuiTxSpec SuiRunSpec SuiProgramSpec SuiExecutionSpec SuiConsensus SuiConsensusSpec SuiLiveSpec.
Open Scope Z_scope.

(** ** Objects *)

Inductive ToyOwner : Type := ToyAddress (a : Z) | ToyShared | ToyImmutable | ToyObject (a : Z).

#[export] Instance toy_owner_eq : EqDecision ToyOwner.
Proof. solve_decision. Defined.

Record ToyObj : Type := mkToyObj { to_id : list Z; to_version : Z; to_owner : ToyOwner }.

Definition toy_from_bytes (bs : list Z) : option (list Z) :=
  if (length bs =? 32)%nat then Some bs else None.

#[export] Instance toy_data : SuiData := {|
  sui_build := {| checked := true |};
  ObjectID := list Z;
  object_id_from_bytes := toy_from_bytes;
  OBJECT_ID_ZERO := replicate 32 0;
  SuiAddress := Z;
  address_le := Z.leb;
  address_of_object := fun _ => 0;
  ObjectDigest := unit;
  Owner := ToyOwner;
  is_shared := fun o => match o with ToyShared => true | _ => false end;
  is_immutable := fun o => match o with ToyImmutable => true | _ => false end;
  get_address_owner_address := fun o => match o with ToyAddress a => Some a | _ => None end;
  ObjectOwner := ToyObject;
  Object := ToyObj;
  object_id := to_id;
  object_version := to_version;
  object_owner := to_owner;
  object_digest := fun _ => tt;
  with_id_owner_for_testing := fun id a => mkToyObj id 1 (ToyAddress a);
  PackageObject := unit;
  object_of_package := fun _ => mkToyObj [] 0 ToyImmutable;
  SuiError := unit;
  TransactionKey := unit;
|}.

#[export] Instance toy_store : SuiStoreEnv := {|
  object_not_found_error := fun _ => tt;
  PackageObjectCache := unit;
  package_cache_new := tt;
  package_cache_get := fun id _ => OGetObject id (fun o => ODone (Ok (option_map (fun _ => tt) o), tt));
|}.

(** ** Transactions and the validator *)

Abbreviation ToyRef := (list Z * Z * unit)%type.

Inductive ToyBody : Type :=
| ToyNone
| ToyCall (module_ function : string)
| ToyProgram (inputs : list ObjectArg) (genes : nat)
| ToyPublish.

Record ToyTx : Type := mkToyTx { tt_sender : Z; tt_gas : ToyRef; tt_body : ToyBody }.

Record ToyEffects : Type := mkToyEffects {
  te_gas : ToyRef;
  te_created : list (ToyRef * ToyOwner);
  te_mutated : list (ToyRef * ToyOwner);
}.

(** The live objects, the kinds and owners of objects, and the locked versions. *)
Record ToyState : Type := mkToyState {
  ts_live : gmap (list Z) ToyRef;
  ts_owned : gmap (list Z) (ObjectKind * Z);
  ts_locked : list ToyRef;
}.

(** An identifier that no object has. *)
Definition toy_fresh (s : ToyState) : list Z :=
  replicate (S (list_max (map length ((map_to_list (ts_live s)).*1 ++ (map_to_list (ts_owned s)).*1)))) 0.

(** What a call creates, and the kind of what its sender then owns. *)
Definition toy_creates (tx : ToyTx) (fresh : list Z) : list (ToyRef * ToyOwner) :=
  match tt_body tx with
  | ToyCall _ f =>
      if decide (f = "create_shared_counter" \/ f = "create_land_records")%string
      then [((fresh, 1, tt), ToyShared)]
      else [((fresh, 1, tt), ToyAddress (tt_sender tx))]
  | ToyPublish => [((fresh, 1, tt), ToyImmutable)]
  | ToyProgram _ (S _) => [((fresh, 1, tt), ToyAddress (tt_sender tx))]
  | _ => []
  end.

Definition toy_kind (tx : ToyTx) : option ObjectKind :=
  match tt_body tx with
  | ToyCall _ f =>
      if decide (f = "generate_dynamic_fields")%string then Some Root
      else if decide (f = "mint")%string then Some Kitty else None
  | ToyProgram _ (S _) => Some Gene
  | _ => None
  end.

Definition toy_body_inputs (tx : ToyTx) : list ObjectArg :=
  match tt_body tx with ToyProgram b _ => b | _ => [] end.
Definition toy_owned_arg (a : ObjectArg) : option ToyRef :=
  match a with ImmOrOwnedObject r => Some r | SharedObject _ _ _ => None end.
Definition toy_shared_arg (a : ObjectArg) : option (list Z * Z) :=
  match a with ImmOrOwnedObject _ => None | SharedObject id v _ => Some (id, v) end.
Definition toy_refs (tx : ToyTx) : list ToyRef := tt_gas tx :: omap toy_owned_arg (toy_body_inputs tx).

Definition toy_bump (r : ToyRef) : ToyRef := (r.1.1, r.1.2 + 1, r.2).

(** The new versions of the owned inputs, which stay with the sender. *)
Definition toy_changes (tx : ToyTx) : list (ToyRef * ToyOwner) :=
  map (fun r => (toy_bump r, ToyAddress (tt_sender tx))) (toy_refs tx).

Definition toy_is_live (s : ToyState) (r : ToyRef) : bool := bool_decide (ts_live s !! r.1.1 = Some r).

(** The owned inputs must be live; they get the next version. *)
Definition toy_execute (tx : ToyTx) (s : ToyState) : result unit ToyEffects * ToyState :=
  if forallb (toy_is_live s) (toy_refs tx) then
    let fresh := toy_fresh s in
    let bumped := foldr (fun r m => <[r.1.1 := toy_bump r]> m) (ts_live s) (toy_refs tx) in
    let made := toy_creates tx fresh in
    (Ok (mkToyEffects (toy_bump (tt_gas tx)) made (toy_changes tx)),
     mkToyState (foldr (fun ro m => <[ro.1.1.1 := ro.1]> m) bumped made)
       (match toy_kind tx with Some k => <[fresh := (k, tt_sender tx)]> (ts_owned s) | None => ts_owned s end)
       (ts_locked s))
  else (Err tt, s).

(** Signing: the owned inputs must be live and not locked; it locks them. *)
Definition toy_sign (tx : ToyTx) (s : ToyState) : result unit unit * ToyState :=
  if forallb (fun r => toy_is_live s r && negb (bool_decide (r ∈ ts_locked s))) (toy_refs tx)
  then (Ok tt, mkToyState (ts_live s) (ts_owned s) (toy_refs tx ++ ts_locked s))
  else (Err tt, s).

Definition toy_owner_address (o : ToyOwner) : Z := match o with ToyAddress a => a | _ => 0 end.

Definition toy_build (objs : list ToyObj) : ToyState :=
  mkToyState (collect_map (map (fun o => (to_id o, (to_id o, to_version o, tt))) objs))
    (collect_map (map (fun o => (to_id o, (Coin, toy_owner_address (to_owner o)))) objs)) [].

(** In memory: the gas object is read and written with the next version. *)
Definition toy_run (tx : ToyTx) : StoreCalls (InnerTemporaryStore * ToyEffects) :=
  let '(id, v, d) := tt_gas tx in
  GetObject (id : ObjectID) (fun o =>
    match o with
    | Some o => Done (mkInnerTemporaryStore {[ id ]} {[ id := mkToyObj id (v + 1) (object_owner o) ]},
                      mkToyEffects (id, v + 1, d) [] [])
    | None => Done (mkInnerTemporaryStore ∅ ∅, mkToyEffects (tt_gas tx) [] [])
    end).

Definition toy_csv (p : string) : option (list (option (list string))) :=
  if decide (p = "accounts")%string then Some [Some ["7"; "2"]; None; Some ["9"; "1"]]%string
  else if decide (p = "transfers")%string
  then Some [Some ["7"; "9"]; Some ["9"; "7"]; Some ["7"; "7"]]%string
  else None.

#[export] Instance toy_sui : SuiEnv := {|
  AccountKeyPair := unit;
  Entropy := Z;
  get_account_key_pair := fun e => ((e * 5 mod 11, tt), e + 1);
  gen := fun _ e => (0, e + 1);
  bcs_uint := fun _ n => Some [n];
  bcs_address := fun a => Some [a];
  Identifier := string;
  identifier_new := Some;
  TypeTag := unit;
  PTB := list ObjectArg * nat;
  Argument := unit;
  ProgrammableTransaction := list ObjectArg * nat;
  ptb_new := ([], 0%nat);
  transfer_object := fun _ r b => Some (b.1 ++ [ImmOrOwnedObject r], b.2);
  move_call := fun _ _ f _ args b =>
    Some (b.1 ++ object_args args, if decide (f = "provide_gene")%string then S b.2 else b.2);
  ptb_obj := fun a b => Some (tt, (b.1 ++ [a], b.2));
  ptb_pure_u64 := fun _ b => Some (tt, b);
  programmable_move_call := fun _ _ _ _ _ b => b;
  ptb_finish := id;
  CompiledPackage := unit;
  TestTransactionBuilder := ToyTx;
  Transaction := ToyTx;
  DEFAULT_VALIDATOR_GAS_PRICE := 1000;
  ttb_new := fun a gas _ => mkToyTx a gas ToyNone;
  ttb_move_call := fun _ m f _ t => mkToyTx (tt_sender t) (tt_gas t) (ToyCall m f);
  ttb_programmable := fun pt t => mkToyTx (tt_sender t) (tt_gas t) (ToyProgram pt.1 pt.2);
  ttb_publish_with_data := fun _ t => mkToyTx (tt_sender t) (tt_gas t) ToyPublish;
  build_and_sign := fun _ t => t;
  build_package := fun _ _ => Some tt;
  get_package_bytes := fun _ => [];
  move_manifest_name := fun _ => None;
  parse_manifest := fun _ => None;
  CertifiedTransaction := ToyTx;
  VerifiedExecutableTransaction := ToyTx;
  AuthSignature := unit;
  Digest := list Z;
  cert_new := fun tx _ => Some tx;
  cert_into_unsigned := id;
  cert_digest := fun tx => (tt_gas tx).1.1;
  cert_key := fun _ => tt;
  cert_input_objects := fun tx => Some (map ImmOrOwnedMoveObject (toy_refs tx));
  contains_shared_object := fun tx => match omap toy_shared_arg (toy_body_inputs tx) with [] => false | _ => true end;
  new_from_quorum_execution := fun tx _ => tx;
  new_from_certificate := id;
  TransactionEffects := ToyEffects;
  status_is_ok := fun _ => true;
  created := te_created;
  mutated := te_mutated;
  all_changed_objects := te_created;
  gas_object := te_gas;
  effects_digest := fun e => (te_gas e).1.1;
  executed_epoch := fun _ => 0;
  AuthorityState := ToyState;
  authority_build := toy_build;
  epoch := fun _ => 0;
  try_execute_immediately := toy_execute;
  enqueue_certificates_for_execution := fun _ s => s;
  state_execute_certificate := toy_execute;
  sign_with_secret := fun _ _ _ => tt;
  state_handle_transaction := toy_sign;
  HandleTransactionResponse := unit;
  handle_transaction_for_testing := toy_sign;
  execute_certificate_for_testing := fun submit tx s => s ← submit (UserTransaction tx) s; Some (toy_execute tx s);
  process_consensus_transactions_for_tests := fun _ s => (Ok tt, s);
  commit_transaction_outputs := fun _ _ s => (Ok tt, s);
  AssignedVersions := unit;
  assign_versions_from_consensus := fun _ _ => Ok tt;
  set_assigned_shared_object_versions := fun _ s => s;
  get_shared_locks := fun _ _ => Ok [];
  iter_live_object_set := fun s => map (fun kr => Normal (mkToyObj kr.1 kr.2.1.2 (ToyAddress 0)))
    (map_to_list (ts_live s));
  GasStatus := unit;
  CheckedInputObjects := unit;
  check_certificate_input := fun _ _ _ => Ok (tt, tt);
  execute_transaction_to_effects := fun _ tx _ _ => toy_run tx;
  VerifiedCheckpoint := Z;
  VerifiedCheckpointContents := list (ToyTx * ToyEffects);
  sequence_number := id;
  get_latest_certified_checkpoint := fun _ => Some 4;
  MockCheckpointBuilder := Z * list (ToyTx * ToyEffects);
  checkpoint_builder_new := fun cp => (cp, []);
  push_transaction := fun t e b => (b.1, b.2 ++ [(t, e)]);
  builder_size := fun b => length b.2;
  builder_build := fun _ _ b => (b.1 + 1, b.2, (b.1 + 1, []));
  insert_verified_checkpoint := fun _ s => (Ok tt, s);
  multi_insert_transaction_and_effects := fun _ s => (Ok tt, s);
  insert_verified_checkpoint_contents := fun _ _ s => (Ok tt, s);
  update_highest_synced_checkpoint := fun _ s => (Ok tt, s);
  run_epoch := fun _ _ s => s;
  instant := fun k => Z.of_nat k * 7;
  schedule := fun k => [k; 1; 0]%nat;
  files := ∅;
  directory_order := fun _ => [];
  csv_records := toy_csv;
  CARGO_MANIFEST_DIR := [];
|}.

(** ** The laws hold *)

#[export] Instance toy_object_laws : ObjectLaws.
Proof.
  split.
  - intros bs Hbs. cbn. unfold toy_from_bytes. rewrite Hbs. eauto.
  - intros bs bs' id. cbn. unfold toy_from_bytes. do 2 case_match; congruence.
  - done.
Qed.

Lemma toy_live_genesis (objs : list ToyObj) (o : ToyObj) :
  NoDup (map to_id objs) -> o ∈ objs ->
  ts_live (toy_build objs) !! to_id o = Some (to_id o, to_version o, tt).
Proof.
  intros Hnd Ho. apply collect_map_elem; [by rewrite map_fst_map|]. apply elem_of_map. by exists o.
Qed.

Lemma toy_owned_genesis (objs : list ToyObj) id a :
  NoDup (map to_id objs) -> mkToyObj id 1 (ToyAddress a) ∈ objs ->
  ts_owned (toy_build objs) !! id = Some (Coin, a).
Proof.
  intros Hnd Ho. apply collect_map_elem; [by rewrite map_fst_map|]. apply elem_of_map. by exists (mkToyObj id 1 (ToyAddress a)).
Qed.

Lemma toy_fresh_keys (s : ToyState) id :
  id ∈ (map_to_list (ts_live s)).*1 ++ (map_to_list (ts_owned s)).*1 -> id <> toy_fresh s.
Proof.
  intros Hin ->. set (l := _ ++ _) in Hin.
  assert (Hle : Forall (fun k => k <= list_max (map length l))%nat (map length l)) by (apply list_max_le; lia).
  rewrite Forall_forall in Hle. apply (elem_of_map_1 length), Hle in Hin. unfold toy_fresh in Hin.
  rewrite length_replicate in Hin. fold l in Hin. lia.
Qed.

Lemma toy_fresh_live (s : ToyState) : ts_live s !! toy_fresh s = None.
Proof.
  apply eq_None_not_Some. intros [r Hr%elem_of_map_to_list]. eapply toy_fresh_keys; [|done].
  apply elem_of_app. left. by apply (elem_of_map_1 fst _ (toy_fresh s, r)).
Qed.

Lemma toy_fresh_owned (s : ToyState) : ts_owned s !! toy_fresh s = None.
Proof.
  apply eq_None_not_Some. intros [r Hr%elem_of_map_to_list]. eapply toy_fresh_keys; [|done].
  apply elem_of_app. right. by apply (elem_of_map_1 fst _ (toy_fresh s, r)).
Qed.

(** Bumped objects: the others are as before, and those that were live still are. *)
Lemma toy_bumped (rs : list ToyRef) (m : gmap (list Z) ToyRef) id :
  (id ∉ map (fun r => r.1.1) rs -> foldr (fun r m => <[r.1.1 := toy_bump r]> m) m rs !! id = m !! id) /\
  (is_Some (m !! id) -> is_Some (foldr (fun r m => <[r.1.1 := toy_bump r]> m) m rs !! id)).
Proof.
  induction rs as [|r rs [IH1 IH2]]; cbn; [done|]. split.
  - intros [Hne Hid]%not_elem_of_cons. rewrite lookup_insert_ne by done. by apply IH1.
  - intros Hs. rewrite lookup_insert. case_decide; [by eexists|by apply IH2].
Qed.

Lemma toy_bumped_in (rs : list ToyRef) (m : gmap (list Z) ToyRef) r :
  NoDup (map (fun r => r.1.1) rs) -> r ∈ rs ->
  foldr (fun r m => <[r.1.1 := toy_bump r]> m) m rs !! r.1.1 = Some (toy_bump r).
Proof.
  induction rs as [|r' rs IH]; [by intros _ ?%elem_of_nil|]. cbn. intros [Hn Hnd]%NoDup_cons [->|Hr]%elem_of_cons.
  - apply lookup_insert_eq.
  - rewrite lookup_insert_ne; [by apply IH|]. intros Heq. apply Hn. rewrite Heq.
    by apply (elem_of_map_1 (fun r : ToyRef => r.1.1)).
Qed.

(** What an execution makes stands beside what was there. *)
Lemma toy_made (tx : ToyTx) (m : gmap (list Z) ToyRef) fresh id r :
  id <> fresh -> m !! id = r -> foldr (fun ro m => <[ro.1.1.1 := ro.1]> m) m (toy_creates tx fresh) !! id = r.
Proof.
  intros Hne <-. unfold toy_creates.
  repeat case_match; cbn; try done; by rewrite lookup_insert_ne.
Qed.

(** Packages are live and nobody's. *)
Definition toy_published (s : ToyState) (id : list Z) : Prop :=
  is_Some (ts_live s !! id) /\ ts_owned s !! id = None.

(** A transaction whose owned inputs are live is executed. *)
Lemma toy_execute_ok (tx : ToyTx) (s : ToyState) :
  Forall (fun r => ts_live s !! r.1.1 = Some r) (toy_refs tx) ->
  exists s', toy_execute tx s = (Ok (mkToyEffects (toy_bump (tt_gas tx)) (toy_creates tx (toy_fresh s)) (toy_changes tx)), s') /\
    (tt_gas tx).1.1 <> toy_fresh s /\ ts_live s' !! (tt_gas tx).1.1 = Some (toy_bump (tt_gas tx)) /\
    (NoDup (map (fun r => r.1.1) (toy_refs tx)) -> forall r, r ∈ toy_refs tx -> ts_live s' !! r.1.1 = Some (toy_bump r)) /\
    (forall id r, id ∉ map (fun r => r.1.1) (toy_refs tx) -> ts_live s !! id = Some r -> ts_live s' !! id = Some r) /\
    (forall id, toy_published s id -> toy_published s' id) /\
    (forall ro, ro ∈ toy_creates tx (toy_fresh s) -> ts_live s !! ro.1.1.1 = None /\ ts_live s' !! ro.1.1.1 = Some ro.1) /\
    (forall k, toy_kind tx = Some k -> ts_owned s' !! toy_fresh s = Some (k, tt_sender tx)) /\
    (toy_kind tx = None -> ts_owned s' = ts_owned s) /\
    (forall id x, ts_owned s !! id = Some x -> ts_owned s' !! id = Some x) /\ ts_locked s' = ts_locked s.
Proof.
  intros Hl.
  assert (Hf : forallb (toy_is_live s) (toy_refs tx) = true).
  { apply forallb_forall. intros r Hr. apply bool_decide_eq_true. rewrite Forall_forall in Hl. by apply Hl, list_elem_of_In. }
  unfold toy_execute. rewrite Hf. eexists. split; [reflexivity|]. cbn [ts_live ts_owned ts_locked].
  assert (Hfresh : forall id, is_Some (ts_live s !! id) -> id <> toy_fresh s).
  { intros id Hid ->. rewrite toy_fresh_live in Hid. by destruct Hid. }
  assert (Hgas : (tt_gas tx).1.1 <> toy_fresh s) by (apply Hfresh; apply Forall_cons in Hl as [? _]; by eexists).
  split; [done|]. split; [apply toy_made; [done|apply lookup_insert_eq]|]. split; [|split; [|split; [|split; [|split; [|split; [|split]]]]]].
  - intros Hnd r Hr. apply toy_made; [apply Hfresh; rewrite Forall_forall in Hl; eexists; by apply Hl|].
    by apply toy_bumped_in.
  - intros id r Hid Hr. apply toy_made; [apply Hfresh; by eexists|].
    etrans; [exact (proj1 (toy_bumped (toy_refs tx) (ts_live s) id) Hid)|exact Hr].
  - intros id [Hid Hno]. pose proof (proj2 (toy_bumped (toy_refs tx) (ts_live s) id) Hid) as [r Hr]. split.
    + exists r. apply toy_made; [by apply Hfresh|exact Hr].
    + cbn [ts_owned]. destruct (toy_kind tx); [|done]. rewrite lookup_insert_ne; [done|]. intros Heq. by apply (Hfresh id).
  - intros ro Hro. assert (Heq : toy_creates tx (toy_fresh s) = [ro] /\ ro.1.1.1 = toy_fresh s).
    { unfold toy_creates in *. repeat case_match; try (by apply elem_of_nil in Hro); by apply list_elem_of_singleton in Hro as ->. }
    destruct Heq as [-> Hid]. cbn [foldr]. rewrite Hid. split; [apply toy_fresh_live|apply lookup_insert_eq].
  - intros k ->. apply lookup_insert_eq.
  - by intros ->.
  - intros id x Hx. destruct (toy_kind tx); [|done]. rewrite lookup_insert_ne; [done|].
    intros <-. by rewrite toy_fresh_owned in Hx.
  - done.
Qed.

#[export] Instance toy_validator_laws : ValidatorLaws.
Proof.
  refine {| live := fun (s : @AuthorityState toy_sui) id => ts_live s !! id;
            published := toy_published : @AuthorityState toy_sui -> _;
            executed := fun _ _ => True;
            locked := fun (s : @AuthorityState toy_sui) r => r ∈ ts_locked s;
            owned_as := fun (s : @AuthorityState toy_sui) id => ts_owned s !! id;
            max_dynamic_fields := 100 |}.
  - intros width n. cbn. eauto.
  - exact toy_live_genesis.
  - intros objs r. by intros ?%elem_of_nil.
  - exact toy_owned_genesis.
  - intros s package c a [[id v] d] _ Hl _ _.
    destruct (toy_execute_ok (call_tx package c a (id, v, d)) s)
      as (s' & He & Hne & Hl' & _ & Hk & Hd & Hmade & Hkind & Hnone & Hown & Hlk); [by apply Forall_singleton|].
    eexists _, s'. split; [exact He|]. do 3 (split; [done|]).
    split; [destruct c; cbn; eauto|]. split; [destruct c; apply NoDup_singleton|].
    split; [|split; [|split; [done|split; [|split; [done|split; [done|split; [|done]]]]]]].
    + intros r (ro & -> & Hro)%list_elem_of_fmap. by apply Hmade.
    + intros k r. destruct c; cbn; try done; intros [= <-] [= <-]; by apply (Hkind _ eq_refl).
    + intros id' r Hid. apply Hk. by intros ->%list_elem_of_singleton.
    + intros r. by rewrite Hlk.
  - intros s a [[id v] d] Hl _.
    destruct (toy_execute_ok (mkToyTx (sender a) (id, v, d) ToyPublish) s)
      as (s' & He & Hne & Hl' & _ & Hk & Hd & Hmade & Hkind & Hnone & Hown & Hlk); [by apply Forall_singleton|].
    eexists _, s', _. split; [exact He|]. do 3 (split; [done|]). split; [reflexivity|].
    split; [split; [eexists; by apply (Hmade _ (list_elem_of_here _ _))|rewrite (Hnone eq_refl); apply toy_fresh_owned]|].
    split; [intros id' r Hid; apply Hk; by intros ->%list_elem_of_singleton|]. split; [|done]. intros r. by rewrite Hlk.
  - intros s epoch_id d _. by exists s.
Defined.

#[export] Instance toy_builder_laws : BuilderLaws.
Proof.
  refine {| ptb_inputs := fun b : @PTB toy_sui => b.1;
            tx_inputs := fun tx : @Transaction toy_sui => (tt_gas tx, toy_body_inputs tx) |}.
  - intros s _. cbn. eauto.
  - done.
  - intros a r b _. cbn. eauto.
  - intros p m f args b _. cbn. eauto.
  - intros a b _. by exists tt, (b.1 ++ [a], b.2).
  - intros n b. by exists tt, b.
  - done.
  - done.
  - intros a. cbn. eauto.
  - intros n _. cbn. eauto.
  - intros width e Hw. cbn. unfold in_range. split; [done|]. by apply Z.pow_pos_nonneg.
Defined.

(** ** Certifying and executing *)

Lemma toy_owned_refs (tx : @Transaction toy_sui) : owned_refs tx = toy_refs tx.
Proof. done. Qed.

(** A program gives no more genes than it has inputs. *)
Lemma toy_genes package s rounds a n (b : @PTB toy_sui) :
  program package s rounds a n b -> (b.2 <= length b.1)%nat.
Proof.
  induction 1 as [|n b b' r _ IH _ [= <-]|n b b' r _ IH _ [= <-]|n b ab b' r _ IH _ [= <-] [= <-]
                 |n b ab b' r _ IH _ [= <-] [= <-]|n b b' r to bytes _ IH _ _ [= <-]]; cbn in *; rewrite ?length_app; cbn; lia.
Qed.

Lemma toy_gives rounds s (a : @Account toy_sui) gas kitty (tx : @Transaction toy_sui) :
  gives_gene rounds s a gas kitty tx -> tx = mkToyTx (sender a) gas (ToyProgram [ImmOrOwnedObject kitty] 1).
Proof.
  intros (package & n & [ins genes] & bytes & b & Hp & Hin & _ & _ & [= <-] & ->). cbn in Hin. subst ins.
  apply toy_genes in Hp. cbn in Hp. assert (genes = 0%nat) as -> by lia. done.
Qed.

Lemma toy_runs (tx : @Transaction toy_sui) commands rounds s :
  runnable commands rounds s tx -> exists e s', toy_execute tx s = (Ok e, s') /\ executes rounds tx e s s'.
Proof.
  intros [Hp Hl Hnd _]. rewrite toy_owned_refs in Hl.
  destruct (toy_execute_ok tx s Hl) as (s' & He & _ & _ & Hin & Hk & Hd & Hmade & _ & _ & Hown & Hlk).
  eexists _, s'. split; [exact He|]. constructor; [done|by constructor| |done|].
  - intros r. cbn. by rewrite Hlk.
  - intros a gas kitty ->%toy_gives. specialize (Hin Hnd). constructor.
    + split; [done|]. apply (Hin gas). left.
    + eexists _, _. split; [reflexivity|]. split; [done|]. by apply (Hmade _ (list_elem_of_here _ _)).
    + exists (toy_bump kitty), (ToyAddress (sender a)), (ToyAddress (sender a)). do 3 (split; [done|]).
      apply (Hin kitty). right. left.
Qed.

Lemma toy_signs (tx : @Transaction toy_sui) commands rounds s :
  signable commands rounds s tx -> exists s', toy_sign tx s = (Ok tt, s') /\ signing tx s s'.
Proof.
  intros [[_ Hl _ _] Hu]. rewrite toy_owned_refs in Hl, Hu. unfold toy_sign.
  assert (Hf : forallb (fun r => toy_is_live s r && negb (bool_decide (r ∈ ts_locked s))) (toy_refs tx) = true).
  { apply forallb_forall. intros r Hr%list_elem_of_In. rewrite Forall_forall in Hl, Hu. apply andb_true_iff.
    split; [by apply bool_decide_eq_true, Hl|]. apply negb_true_iff, bool_decide_eq_false. by apply Hu. }
  rewrite Hf. eexists. split; [reflexivity|]. split; [by constructor|].
  intros r [?|?]%elem_of_app; [by right|by left].
Qed.

#[export] Instance toy_execution_laws : ExecutionLaws.
Proof.
  refine {| max_commands := 20; max_rounds := 1000 |}.
  - intros tx s. by exists tx.
  - intros tx s Hs. destruct (toy_signs _ _ _ _ Hs) as (s' & Hr & Hsig). by exists tt, s', tx.
  - intros tx s Hs. destruct (toy_signs _ _ _ _ Hs) as (s' & Hr & Hsig). by exists tt, s'.
  - intros c. unfold tx_shared. cbn. change (@shared_arg toy_sui) with toy_shared_arg.
    destruct (omap toy_shared_arg (toy_body_inputs c)); [by rewrite bool_decide_true|by rewrite bool_decide_false].
  - intros certs s _. exists tt. split; [done|]. split; [apply untouched_refl|done].
  - intros tx s. apply toy_runs.
  - intros c s. apply toy_runs.
  - intros c s. apply toy_runs.
  - intros submit c s Hr Hsub. destruct (Hsub s) as (s1 & Hs1 & Hu & Hlk).
    assert (Hr1 : runnable 20 1000 s1 (cert_into_unsigned c)).
    { destruct Hr as [Hp Hl Hnd Hsh]. constructor; [by eapply user_program_untouched| |done|done].
      rewrite Forall_forall in Hl |- *. intros r Hr. apply (un_live _ _ _ Hu); [by intros ?%elem_of_nil|by apply Hl]. }
    destruct (toy_runs _ _ _ _ Hr1) as (e & s' & He & Hex). exists e, s'. split.
    { transitivity (Some s1 ≫= (fun s => Some (toy_execute c s))); [|exact (f_equal Some He)].
      exact (f_equal (fun o => o ≫= (fun s => Some (toy_execute c s))) Hs1). }
    destruct Hex as [Hok Hk Hul Hx Hg]. constructor; [done| |by intros r ?%Hul%Hlk|done|].
    + eapply (untouched_trans _ _ s1); [|exact Hk]. destruct Hu as [U1 U2 U3 U4]. constructor; auto.
      intros id r _. apply U1. by intros ?%elem_of_nil.
    + intros a gas kitty (package & n & b0 & bytes & b & Hp & Hin & Ho & Hrest).
      destruct (Hg a gas kitty) as [G1 (gene & o & Hc & Hown & Hnew & Hlive) G3].
      { exists package, n, b0, bytes, b. split; [by eapply program_untouched|]. split; [done|].
        split; [by apply (un_owned _ _ _ Hu)|done]. }
      constructor; [done| |done]. exists gene, o. do 2 (split; [done|]). split; [|done].
      apply eq_None_not_Some. intros [r Hr2]. apply (un_live _ _ _ Hu) in Hr2; [|by intros ?%elem_of_nil]. congruence.
  - intros c s _. exists s. split; [done|]. split; [apply untouched_refl|done].
Defined.

#[export] Instance toy_cache_laws : CacheLaws.
Proof.
  refine {| package_at := fun o => Ok (option_map (fun _ => tt) o); is_package := fun _ => false; cache_ok := fun _ _ => True |};
    done.
Defined.

#[export] Instance toy_checkpoint_laws : CheckpointLaws.
Proof.
  refine {| pending := fun b : @MockCheckpointBuilder toy_sui => b.2;
            last_sequence := fun b : @MockCheckpointBuilder toy_sui => b.1;
            checkpoint_transactions_of := fun c : @VerifiedCheckpointContents toy_sui => c |};
    done.
Defined.

(** ** In memory *)

Lemma toy_program_owned package s rounds a n (b : @PTB toy_sui) id :
  program package s rounds a n b -> id ∈ map (fun r => r.1.1) (omap toy_owned_arg b.1) -> is_Some (ts_owned s !! id).
Proof.
  induction 1 as [|n b b' r _ IH Ho [= <-]|n b b' r _ IH Ho [= <-]|n b ab b' r _ IH Ho [= <-] [= <-]
                 |n b ab b' r _ IH _ [= <-] [= <-]|n b b' r to bytes _ IH Ho _ [= <-]]; cbn;
    [by intros ?%elem_of_nil|..|by apply IH|];
    rewrite omap_app, map_app, elem_of_app; (intros [Hin|Hin]; [by apply IH|]);
    apply list_elem_of_singleton in Hin as ->; by eexists.
Qed.

Lemma toy_live_set (s : ToyState) :
  omap normal_object (iter_live_object_set (s : @AuthorityState toy_sui)) =
    map (fun kr => mkToyObj kr.1 kr.2.1.2 (ToyAddress 0)) (map_to_list (ts_live s)).
Proof. cbn. by induction (map_to_list (ts_live s)) as [|kr l IH]; cbn; [|rewrite IH]. Qed.

Lemma toy_live_objects (s : ToyState) id r :
  ts_live s !! id = Some r -> live_objects (s : @AuthorityState toy_sui) !! id = Some (mkToyObj id r.1.2 (ToyAddress 0)).
Proof.
  intros Hr. unfold live_objects. rewrite toy_live_set. apply collect_map_elem.
  - rewrite map_fst_map, map_map. apply (NoDup_fst_map_to_list (ts_live s)).
  - rewrite map_map. apply elem_of_map. exists (id, r). split; [done|]. by apply elem_of_map_to_list.
Qed.

#[export] Instance toy_live_laws : LiveLaws.
Proof.
  refine {| derived_from := fun d id => False; dynamic_fields := fun _ _ => [] |}.
  - intros s. cbn. by intros (kr & ? & _)%elem_of_map.
  - intros s. rewrite toy_live_set, map_map. apply (NoDup_fst_map_to_list (ts_live s)).
  - by intros s p [_ ?].
  - done.
  - by intros s id f ?%elem_of_nil.
  - intros tx s e s' [_ Hl _ _] He. split; [|done]. rewrite toy_owned_refs in Hl.
    destruct (toy_execute_ok tx s Hl) as (s2 & He2 & _ & _ & _ & Hk & _).
    assert (s' = s2) as -> by (cbn in He; congruence).
    intros o Ho Hid. apply elem_of_map in Ho as ([id r] & [= ->] & Hr%elem_of_map_to_list).
    apply elem_of_map. exists (id, r). split; [done|]. apply elem_of_map_to_list. by apply Hk.
  - intros s tx id [(package & a & gas & n & b & _ & _ & Hg & Hp & _ & ->) _ _ _]. cbn.
    intros [->|Hin]%elem_of_cons; [by eexists|]. by eapply toy_program_owned.
  - intros c s _. eexists [], _. split; [reflexivity|]. split; [constructor|].
    by rewrite app_nil_r.
  - done.
  - done.
  - intros c s kinds inputs _ _ _ _. by exists (tt, tt).
  - intros c s inputs gs ci [_ Hl _ _] _ _ _. apply Forall_cons in Hl as [Hg _].
    pose proof (toy_live_objects s _ _ Hg) as Hobj. destruct c as [a [[id v] d] body]. cbn in Hg, Hobj.
    do 3 eexists. split; [cbn; cbn in Hobj; rewrite Hobj; reflexivity|]. do 2 (split; [done|]). split.
    + intros i Hi. apply list_elem_of_singleton in Hi as ->. left. left.
    + intros i Hi. unfold writes in Hi. cbn in Hi. rewrite dom_singleton in Hi.
      assert (i = id) as -> by set_solver. left. left.
Defined.

#[export] Instance toy_checkpoint_store_laws : CheckpointStoreLaws.
Proof. split; [by eexists|done..]. Qed.

(** ** The channel: its view *)

#[export] Instance toy_mpsc : Mpsc := {|
  Channel := View;
  mpsc_channel _ n := mkView [] true true n;
  send _ t ch := view_send t ch;
  recv _ ch := view_recv ch;
  drop_receiver _ ch := mkView [] (sending ch) false (capacity ch);
  drop_sender _ ch := mkView (queued ch) false (receiving ch) (capacity ch);
|}.

#[export] Instance toy_mpsc_laws : MpscLaws.
Proof.
  refine {| view := fun T (ch : Channel T) => ch |}; try done.
  - intros T t ch. cbn. by destruct (view_send t ch) as [[]|].
  - intros T ch. cbn. by destruct (view_recv ch) as [[[]|]|].
Defined.
