(* ===== verification/SuiWitnesses.v ===== *)
(** The theorems about the runs of the Sui single-node benchmark, applied to a small
    instance of its environment. *)
From stdpp Require Import base list option numbers strings gmap sorting.
From S2P Require Import SuiOriginal Prelude Machine FileSystem BenchMain SuiTypes SuiStore SuiWorld SuiAccounts SuiAccountsSpec SuiGenerators SuiNode SuiContext SuiContextSpec SuiBench SuiCheckpointSpec SuiMemorySpec SuiJobsSpec SuiPrepareSpec SuiTxSpec SuiRunSpec SuiProgramSpec SuiExecutionSpec SuiConsensus SuiConsensusSpec SuiLiveSpec SuiKittySpec SuiErc20Spec SuiOriginalSpec SuiToy.
Open Scope Z_scope.

(** ** Witnesses *)

Definition toy_world : World := mkWorld (toy_build []) 0 0 [].

Definition toy_state : @AuthorityState toy_sui := toy_build [].
Definition toy_tx (n : Z) : @CertifiedTransaction toy_sui := mkToyTx 1 ([n], 1, tt) ToyNone.
Definition toy_effects (n : Z) : @TransactionEffects toy_sui := mkToyEffects ([n], 2, tt) [] [].

Definition toy_busy : World :=
  mkWorld (toy_build [mkToyObj [5] 1 (ToyAddress 1); mkToyObj [8] 1 (ToyAddress 2)]) 0 0 [].
Definition toy_live_store : @InMemoryObjectStore (@env_store toy_sui) :=
  store_new {[ [5] := mkToyObj [5] 1 (ToyAddress 0); [8] := mkToyObj [8] 1 (ToyAddress 0) ]}.
Definition toy_item (n : Z) : Item :=
  (toy_tx n, ([[n]; [n]], (toy_effects n,
     mkInnerTemporaryStore {[ [n] ]} {[ [n] := mkToyObj [n] 2 (ToyAddress 0) ]}))).

Lemma in_memory_order_witness :
  exists es store' in_order w',
    execute_transactions_in_memory toy_live_store [toy_tx 5; toy_tx 8] toy_busy = Some ((es, store'), w') /\
    seqM (map (execute_transaction_in_memory (state toy_busy)) [toy_tx 5; toy_tx 8]) toy_live_store =
      Some ([toy_effects 5; toy_effects 8], in_order) /\
    es ≡ₚ [toy_effects 5; toy_effects 8] /\ objects store' = objects in_order.
Proof.
  apply (in_memory_order toy_live_store [toy_item 5; toy_item 8] toy_busy).
  - vm_compute. reflexivity.
  - constructor.
    + repeat (apply Forall_cons; split; [vm_compute; reflexivity|]). apply Forall_nil_2.
    + constructor; [|by repeat constructor]. apply Forall_singleton.
      unfold conflict_free, writes, item_store, item_reads, toy_item. cbn. rewrite !dom_singleton_L.
      split; [set_solver|]. split; intros id; rewrite !elem_of_cons, elem_of_nil; set_solver.
    + by repeat (apply Forall_cons; split; [|]).
Defined.

Definition toy_options : PTBOptions := mkPTBOptions 1 false 3 0 2 false true 2.
Definition toy_mixed : PTBOptions := mkPTBOptions 2 true 3 4 2 false false 2.
Definition toy_owned : PTBOptions := mkPTBOptions 2 false 3 4 0 false false 0.
Definition toy_erc20 : PTBOptions := mkPTBOptions 0 false 0 0 0 true false 0.

Lemma workload_prepared_witness :
  exists g ctx w',
    (let% ctx := context_new (mkWorkload 3 (KindPTB toy_options)) Baseline true EmptyString in
     create_tx_generator (mkWorkload 3 (KindPTB toy_options)) ctx) toy_world =
      Some ((move_tx_generator g, ctx), w') /\
    context_ok ctx /\ refs_live w' ctx /\ prepared toy_options ctx g /\ holds w' ctx g /\
    S (size (user_accounts ctx)) = 5%nat /\
    forall k a, user_accounts ctx !! k = Some a -> Z.of_nat (length (gas_objects a)) = 2.
Proof.
  apply (workload_prepared toy_options Baseline true 3 toy_world).
  - lia.
  - cbn. lia.
  - vm_compute. reflexivity.
  - apply (bool_decide_unpack _). vm_compute. exact I.
  - change (Z.of_nat (reserved _ _) - 1) with 4. constructor; cbn; lia.
Defined.


Lemma toy_owned_run : owned_run_options toy_owned 3 true toy_world.
Proof.
  constructor.
  - lia.
  - constructor; cbn; unfold in_range; lia.
  - vm_compute. reflexivity.
  - apply (bool_decide_unpack _). vm_compute. exact I.
  - change (Z.of_nat (reserved _ _) - 1) with 4. constructor; cbn; lia.
  - done.
  - cbn. lia.
  - cbn. lia.
Qed.

Lemma benchmark_completes_witness :
  exists elapsed w',
    run_benchmark (mkWorkload 3 (KindPTB toy_owned)) ValidatorWithFakeConsensus 10 true false EmptyString
      EmptyString toy_world = Some (tt, w') /\
    reports w' = [] ++ [Throughput "Execution" elapsed 3 elapsed].
Proof.
  apply (benchmark_completes toy_owned ValidatorWithFakeConsensus true false 10 3 toy_world).
  - apply toy_owned_run.
  - left. reflexivity.
Defined.

(** Three accounts with a coin each, and a package; a transaction of each account. *)
Definition toy_funded : World :=
  mkWorld (mkToyState {[ [5] := ([5], 1, tt); [6] := ([6], 1, tt); [8] := ([8], 1, tt); [9] := ([9], 1, tt) ]}
             {[ [5] := (Coin, 5); [6] := (Coin, 10); [8] := (Coin, 4) ]} []) 0 0 [].
Definition toy_program (n a : Z) : @CertifiedTransaction toy_sui := mkToyTx a ([n], 1, tt) (ToyProgram [] 0).
Definition toy_certs : list (@CertifiedTransaction toy_sui) := [toy_program 5 5; toy_program 6 10; toy_program 8 4].

Lemma toy_measurable_one n a :
  drawn (a, tt) -> ts_live (state toy_funded) !! [n] = Some ([n], 1, tt) ->
  ts_owned (state toy_funded) !! [n] = Some (Coin, a) ->
  runnable 20 1000 (state toy_funded) (toy_program n a) /\ available (state toy_funded) (toy_program n a).
Proof.
  intros Hd Hl Ho. split; constructor.
  - exists ([9] : @ObjectID toy_data), (mkAccount a tt []), ([n], 1, tt), 0%nat, ptb_new. split; [|split; [done|]].
    { split; [by eexists|done]. }
    split; [done|]. split; [apply program_new|]. split; [lia|done].
  - by apply Forall_singleton.
  - apply NoDup_singleton.
  - done.
  - intros r ->%list_elem_of_singleton. exists (mkToyObj [n] 1 (ToyAddress 0)). split; [|done].
    exact (toy_live_objects _ _ _ Hl).
  - intros kinds p [= <-] Hp. cbn in Hp. by apply list_elem_of_singleton in Hp.
  - by intros id f _ ?%elem_of_nil.
Qed.

Lemma toy_measurable : measurable (state toy_funded) toy_certs.
Proof.
  destruct (toy_measurable_one 5 5) as [R5 A5]; [by exists 1|done|done|].
  destruct (toy_measurable_one 6 10) as [R6 A6]; [by exists 2|done|done|].
  destruct (toy_measurable_one 8 4) as [R8 A8]; [by exists 3|done|done|].
  constructor; [repeat (apply Forall_cons; split; [assumption|]); apply Forall_nil_2..|].
  apply (bool_decide_unpack _). vm_compute. exact I.
Qed.

Definition toy_context : BenchmarkContext := mkBenchmarkContext (mkSingleValidator Noop) ∅ (mkAccount 0 tt []) ExecutionOnly ∅.

Lemma in_memory_completes_witness :
  exists w1 items es store' w',
    take_sample true toy_certs toy_funded = Some (tail toy_certs, w1) /\
    create_in_memory_store (state w1) = Some (store_new (live_objects (state w1))) /\
    executed_in_memory (tick w1) (tail toy_certs) items es store' /\
    benchmark_transaction_execution_in_memory toy_certs true toy_context toy_funded = Some (tt, w') /\
    let elapsed := instant (S (S (steps w1))) - instant (steps w1) in
    reports w' = [] ++ [Throughput "Execution" elapsed 2 elapsed; ReadsPerTransaction (num_object_reads store') 2].
Proof. apply (in_memory_completes toy_certs true toy_context toy_funded); [discriminate|apply toy_measurable]. Defined.

(** Two transactions remain beside the sample, in two checkpoints. *)
Lemma checkpoint_run_witness :
  exists w1 items es store' cps,
    take_sample true toy_certs toy_funded = Some (tail toy_certs, w1) /\
    executed_in_memory w1 (tail toy_certs) items es store' /\
    build_checkpoints (state w1) 1 (tail toy_certs) (collect_map (map (fun e => (effects_digest e, e)) es)) = Some cps /\
    checkpointed 1 (state w1) items cps /\
    (tail toy_certs = [] -> benchmark_checkpoint_executor toy_certs 1 toy_context toy_funded = None) /\
    (tail toy_certs <> [] -> exists w',
      benchmark_checkpoint_executor toy_certs 1 toy_context toy_funded = Some (tt, w') /\
      (let elapsed := instant (S (S (steps w1))) - instant (S (steps w1)) in
       reports w' = [] ++ [Throughput "Checkpoint execution" elapsed 2 elapsed]) /\
      runs_checkpoints cps (state w1) (state w')).
Proof. apply (checkpoint_run (toy_program 5 5) (tail toy_certs) 1 toy_context toy_funded). apply toy_measurable. Defined.

Definition toy_kitties : PTBOptions := mkPTBOptions 0 false 0 3 0 false true 0.

(** The whole run ends in this environment, with its three reports. *)
Lemma kitty_breeding_witness :
  option_map (fun r => length (reports r.2))
    (run_kitty_test (mkWorkload 3 (KindPTB toy_kitties)) Baseline false false EmptyString toy_world) = Some 3%nat /\
  exists ctx0 w0 g ctx w1 txs w2 es elapsed w3 genes w4 txs' w5 accounts,
    context_new (mkWorkload 3 (KindPTB toy_kitties)) Baseline false EmptyString toy_world = Some (ctx0, w0) /\
    create_tx_generator (mkWorkload 3 (KindPTB toy_kitties)) ctx0 w0 = Some ((move_tx_generator g, ctx), w1) /\
    generate_kitty_provide_gene_transactions (move_tx_generator g) ctx w1 = Some (txs, w2) /\
    kitty_phase "Execution provide_gene" None txs false ctx w2 = Some ((es, length txs, elapsed), w3) /\
    foldM (note_gene (epoch (state w3))) (mkGenes ∅ ∅ ∅) es w3 = Some (genes, w4) /\
    let ctx' := refresh_gas_objects (genes_gas genes) ctx in
    generate_kitty_breed_transactions (move_tx_generator g) (genes_objects genes) (genes_kitties genes) ctx' w4 =
      Some (txs', w5) /\
    reports w5 = [] ++ [Throughput "Execution provide_gene" elapsed (length txs') elapsed] /\
    S (length txs') = 4%nat /\ NoDup (txs' ≫= owned_ids) /\
    accounts ≡ₚ btree_values (user_accounts ctx') /\ Forall2 (breeds g es w5) accounts txs' /\
    run_kitty_test (mkWorkload 3 (KindPTB toy_kitties)) Baseline false false EmptyString toy_world =
      (let% p2 := kitty_phase "Execution breed" (Some elapsed) txs' false ctx' in
       let '(_, tx_count, elapsed2) := p2 in
       report (Throughput "Execution kitty all" (elapsed + elapsed2) tx_count (elapsed + elapsed2))) w5.
Proof.
  split; [vm_compute; reflexivity|]. apply (kitty_breeding toy_kitties Baseline false false 3 toy_world).
  - lia.
  - constructor; cbn; unfold in_range; lia.
  - vm_compute. reflexivity.
  - apply (bool_decide_unpack _). vm_compute. exact I.
  - cbn. lia.
  - cbn. lia.
  - reflexivity.
Defined.

Definition toy_command : SuiOriginal.Command :=
  SuiOriginal.mkCommand 3 10 true false WithTxManager
    (SuiOriginal.KindPTB (SuiOriginal.mkPTBOptions 2 true 4 5 0)).

(** Both benchmarks end on this command. *)
Lemma original_preserved_witness :
  is_Some (SuiOriginal.sui_main ["original"%string] toy_command toy_world) /\
  related (fun _ w1 _ w2 => same_outcome WithTxManager w1 w2)
    (SuiOriginal.sui_main ["original"%string] toy_command toy_world) (sui_main (embed_command toy_command) toy_world).
Proof.
  split; [apply (bool_decide_unpack _); vm_compute; exact I|]. apply (original_preserved ["original"%string] toy_command toy_world).
  - intros _ t. reflexivity.
  - cbn. lia.
  - right. intros certs w1 Hc.
    assert (E : from_option (fun r => existsb contains_shared_object r.1) false (certificates ["original"%string] toy_command toy_world) = false)
      by (vm_compute; reflexivity).
    rewrite Hc in E. exact E.
Defined.

Lemma erc20_disjoint_witness :
  exists ctx0 w0 g ctx w1 txs w' fks,
    context_new (mkWorkload 3 (KindPTB toy_erc20)) Baseline false "accounts" toy_world = Some (ctx0, w0) /\
    create_tx_generator (mkWorkload 3 (KindPTB toy_erc20)) ctx0 w0 = Some ((move_tx_generator g, ctx), w1) /\
    generate_erc20_tx_from_csv (move_tx_generator g) "transfers" ctx w1 = Some (txs, w') /\
    indexed_ok [(7, 2); (9, 1)] ctx /\ length txs = 3%nat /\ NoDup (txs ≫= owned_ids) /\
    fks ≡ₚ number_transfers ∅ [(7, 9); (9, 7); (7, 7)] /\ Forall2 (record_tx ctx w') fks txs.
Proof.
  apply (erc20_disjoint toy_erc20 (mkWorkload 3 (KindPTB toy_erc20)) Baseline false "accounts" "transfers"
    [(7, 2); (9, 1)] [(7, 9); (9, 7); (7, 7)] toy_world).
  - reflexivity.
  - constructor; cbn; unfold in_range; lia.
  - reflexivity.
  - reflexivity.
  - discriminate.
  - repeat (apply Forall2_cons; split; [repeat split; cbn; lia|]). apply Forall2_nil_2.
  - repeat (apply Forall2_cons; split; [repeat split|]). apply Forall2_nil_2.
  - cbn. lia.
  - apply (bool_decide_unpack _). vm_compute. exact I.
  - apply (bool_decide_unpack _). vm_compute. exact I.
  - repeat (apply Forall_cons; split; [set_solver|]). apply Forall_nil_2.
  - intros i n Hin. rewrite !elem_of_cons, elem_of_nil in Hin.
    destruct Hin as [[= -> ->]|[[= -> ->]|[]]]; vm_compute; discriminate.
  - cbn. lia.
Defined.

(** ** The consensus client *)

Definition toy_submission (n : Z) : ConsensusTransaction (@CertifiedTransaction toy_sui) := UserTransaction (toy_tx n).
Definition toy_trace : list Event := [Submitted (toy_submission 5); Submitted (toy_submission 8); Turned].
Definition toy_client : MockConsensusClient :=
  mkClient (mkView [toy_submission 8] true true 1000000 : @Channel toy_mpsc _) Running toy_state true.

Lemma client_refines_log_witness :
  exists a, traces (log_step DirectSequencing) toy_trace (log_new toy_state) a /\ represents a toy_client /\
    submitted a = [toy_submission 5; toy_submission 8].
Proof.
  apply (client_refines_log DirectSequencing toy_trace toy_state toy_client).
  by repeat econstructor.
Defined.

Lemma client_drains_witness :
  (exists processed, [toy_submission 5; toy_submission 8] = processed ++ [toy_submission 8] /\
    (undisturbed toy_trace -> consensus_run_impl DirectSequencing processed toy_state = Some toy_state)) /\
  (exists c', traces (client_step DirectSequencing) [Turned] toy_client c' /\
    queued (view (tx_channel c')) = [] /\ consensus_handle c' = Running /\ shared_validator c' = toy_state) /\
  (undisturbed toy_trace ->
    consensus_run_impl DirectSequencing [toy_submission 5; toy_submission 8] toy_state = Some toy_state).
Proof.
  exact (client_drains DirectSequencing toy_trace toy_state toy_client toy_state
    ltac:(by repeat econstructor) eq_refl eq_refl).
Defined.

Lemma owned_certificates_sequenced_witness :
  (forall tx, Refused tx ∉ toy_trace) /\ consensus_handle toy_client = Running /\
  (forall tx, 1 < 1000000 -> exists c', client_step Noop (Submitted tx) toy_client c') /\
  exists c', traces (client_step Noop) [Turned] toy_client c' /\
    queued (view (tx_channel c')) = [] /\ consensus_handle c' = Running /\ takes toy_state (shared_validator c').
Proof.
  refine (owned_certificates_sequenced Noop toy_trace toy_state toy_client
    ltac:(by repeat econstructor) _ eq_refl).
  repeat (apply Forall_cons; split; [eexists; split; reflexivity|]). apply Forall_nil_2.
Defined.
